(* ===== verification/_CoqProject ===== *)
-Q . S2P
Prelude.v
GoStrings.v
Logging.v
Base64.v
GoUrl.v
Json.v
Http.v
Utils.v
World.v
Concurrent.v
JsonSyntax.v
Samples.v
RedirectUri.v
Config.v
Authorization.v
Predicate.v
Rules.v
OidcState.v
SessionStorage.v
Jwks.v
Cookies.v
Tokens.v
Session.v
Network.v
Prefixes.v
HtmlTemplate.v
ErrorPages.v
Routes.v
KeyCache.v
Server.v
TicketRecord.v
TemplateFuncs.v
Login.v
CallbackUrl.v
Logout.v
Callback.v
Middleware.v
Setup.v
Lifecycle.v
Hosts.v
MultiConfig.v
HostRouter.v
TrustedPeers.v
ExtAuth.v
Watch.v
Service.v
Witnesses.v
ServiceWitnesses.v
Schedules.v
