(* ===== verification/Prelude.v ===== *)
(** * A verification development for the OIDC middleware and its authorization service

    The repository holds one program in two forms.  [src/] is a Traefik
    middleware: it stands in front of a backend, logs users in at an OpenID
    Connect provider, keeps their session in sealed cookies, and forwards the
    requests it allows.  [cmd/extauth-server] runs the same middleware, once
    per client, behind the authorization protocols of other gateways, over HTTP
    and over gRPC.

    ** Parts

    Standard library and packages the code is written in:
    - [Prelude]: errors and results, machine integers, instants, tactics, the
      order in which a Go map is visited;
    - [GoStrings], [Base64], [GoUrl], [Http], [Json], [Network]: the functions
      of [strings], [strconv], [encoding/base64], [net/url], [net/http],
      [encoding/json] and [net] that the code calls;
    - [JsonSyntax]: the text of JSON, a parser and a printer that are inverse;
    - [Prefixes]: what a network contains, in terms of leading bits;
    - [World]: clock, randomness and the identity provider, and the state monad
      the handlers are written in;
    - [Concurrent]: threads that share a state and a mutex, their interleavings,
      and a logic for one thread among others;
    - [Samples]: instances of the interfaces, for examples and witnesses.

    The middleware, [src/]:
    - [Logging] ([logging/]): which messages are written, and the line;
    - [Utils], [RedirectUri] ([utils/utils.go]): variables, URLs, the Accept
      header, sealing with AES-GCM; the matching of redirect URIs;
    - [Config], [Setup] ([config/], [config.go]): the configuration and its
      defaults; [New], which expands, checks and builds;
    - [Authorization] ([authorization.go]): claim assertions;
    - [Predicate], [Rules] ([predicate/], [rules/]): the language of bypass
      rules and its compilation;
    - [OidcState] ([oidc/state.go]): the sealed state of a login;
    - [SessionStorage], [Cookies], [Session] ([session/], [cookie.go],
      [session.go]): tickets, chunked cookies, the session of a request;
    - [Jwks], [Tokens] ([oidc/jwks.go], [oidc.go]): the key cache, the token
      endpoint, validation, introspection, user info;
    - [HtmlTemplate]: what [html/template] does of the built-in error page, and
      how a browser reads a page;
    - [ErrorPages], [Routes], [Server], [Login], [Callback], [Logout],
      [Middleware] ([errorPages/], [main.go]): the handlers and [ServeHTTP];
    - [TemplateFuncs] ([main.go]): the functions of header templates;
    - [KeyCache], [TicketRecord], [CallbackUrl] ([oidc/jwks.go], [main.go]):
      what concurrent requests share: the keys and the discovery document, the
      record of written tickets, the callback URL;
    - [Lifecycle]: [New] composed with any sequence of requests.

    The service, [cmd/extauth-server]:
    - [Hosts] ([router.go], [normalizeHost]): host patterns and their lookup;
    - [MultiConfig] ([config_multi.go], [reload.go]): the file of clients, its
      validation, the routing table;
    - [HostRouter] ([router.go], [reload.go], [watch.go]): the server as a
      machine of requests and reloads, and the tenants it implements;
    - [TrustedPeers], [ExtAuth] ([main.go], [grpc.go]): the list of trusted
      proxies; forwarded requests, the gRPC check;
    - [Watch] ([watch.go]): relevant file events, the debounce timer, the
      signal loop;
    - [Service] ([main.go], [grpc.go]): the process, from its start.

    [Witnesses], [ServiceWitnesses] and [Schedules] apply the theorems in a
    concrete world.

    ** How state and effects correspond

    The middleware's struct is the record [Toa] of [Tokens]; a request runs on
    [St] of [Server], the middleware with the response and the requests handed
    to the next handler.  A response records what the client receives: once its
    status is written, later headers and cookies have no effect.  A handler is
    a computation in the monad [M] of [World]; it gives no result when the code
    panics.  A moment [Env] of a run counts its clock readings, random draws and
    requests to the provider; what a theorem says to happen in the course of a
    run lies between its two moments ([elapsed], [reading], [answered]), and
    [respects] says that all a computation does is in a given relation between
    moments and states.  A Go function that returns an error is a [result]; a panic that
    pure code may reach is [ErrPanic].  An integer is a [Z], with [wrap64] where
    the code multiplies durations.  A pointer that may be nil is an [option].
    Where the code shares a mutable object the model shares it too: the callback
    URL that a double redirect assigns to is a field of [Toa], and the hosts of
    a client refer to one handler of the server's list.  The functions that
    concurrent requests meet in, [EnsureLoadedContext], [EnsureOidcDiscovery],
    [sessionStoreDue] with [mark], and [doubleRedirectToProvider], exist twice:
    as computations of [M], which the handlers call, and as processes of
    [Concurrent], whose critical sections, clock readings, requests and
    unlocked accesses interleave with those of other threads; a lemma says that
    the process run alone is the computation.

    ** Interfaces

    Code that is not in the repository, and the parts of the standard library
    that are too large to write out, are type classes: [Aead] (AES-GCM),
    [Sha256], [Jwt], [PemKeys], [UrlLib] (parsing and printing of URLs),
    [JsonText], [TimeText], [Unicode], [Printable], [Regexp], [GoParser] ([go/parser]),
    [MediaTypes], [PageTemplates], [HeaderTemplates], [JsonPath], [FloatText],
    [FloatInt], [Uuid], [Os], [Yaml], [FilePath], [External].  What the theorems
    need of them is in classes of laws ([AeadLaws], [JsonLaws], [TimeLaws],
    [JwtLaws], ...), each with an instance in [Samples] or [Witnesses]; of
    [JsonText] there is the syntax itself, [go_json] of [JsonSyntax].
    [SessionStore] is the interface of the repository's own session storage;
    the handlers are proved against its laws and [Session] proves that the
    cookie storage satisfies them.  [MapOrder] is the order in which a map is
    visited: theorems that assume only [MapOrderLaws] hold for every order.

    ** What the theorems show

    - Requests: what is forwarded and why, and without what; that every request
      is answered or forwarded, whatever came before ([Middleware],
      [Lifecycle]); what a request may change.
    - Logins: the callback issues a session only for its own browser and an
      accepted token, it is the session of that token, and no other session
      cookie is set; the state is opened only as it was sealed; protocol
      parameters cannot be overridden ([Callback], [OidcState], [Login]).
    - Sessions: tickets round-trip and are bound to their purpose, cookies are
      cut and joined again, lifetimes are bounded over any chain of renewals
      ([SessionStorage], [Cookies], [Session]).
    - Tokens and keys: what is checked of a token, and that it is checked while
      the request runs, with the keys of that moment or by the provider's own
      answer; a failed reload keeps the keys ([Tokens], [Jwks]).
    - Concurrency: every interleaving of the requests that load keys or discover
      ends; the provider is asked by one of them at a time, about keys at most
      once a minute while there are any, and without keys once for each call that
      fails; a document is published once ([KeyCache]).  The record of tickets is what its notes leave one after
      the other, and a ticket that is not written again is a fresh one
      ([TicketRecord]); the callback URL loses nothing but its query
      ([CallbackUrl]).
    - Error pages: the built-in page cannot be injected into ([ErrorPages]).
    - Headers: the array a template writes is read back as it was given, or the
      header is lost ([TemplateFuncs]).
    - Rules: the meaning of a bypass rule and of claim assertions ([Rules],
      [Authorization]).
    - Redirect URIs: what a pattern can match ([RedirectUri]).
    - Configuration: a middleware is built from a valid configuration only, and
      keeps it ([Setup], [Lifecycle]).
    - Service: validation is isolation of the clients; the lookup is the exact
      host or the longest wildcard in any order; the server refines its
      tenants, through reloads that fail or panic; so does the whole process,
      from its start, over HTTP and gRPC; which peers are trusted, by leading
      bits; what the gateway is told; reloads follow changes after a pause.
    - Defects: theorems that state a behaviour the code does not intend (the
      double redirect and its race, the nil error after introspection, the
      front-channel route and the scheme behind gRPC, the apostrophe in a list
      of groups, the requests of a cold start, the tickets of the first
      requests) hold of the code as it is.

    ** Fuel and bounds

    Recursion is on the data wherever it can be.  [TrimSpace] has the length of
    its string as fuel; the IPv6 parser reads two bytes a round and has eight
    rounds for sixteen bytes; the check for path traversal decodes eight times,
    as the code does; a cookie is cut with its length as fuel, and each cut
    takes at least a byte.  The JSON parser has twice the length of its text:
    two calls at most for each byte; [go_json_laws] shows that this suffices
    for everything that is printed.  The built-in template has twelve actions,
    the fuel of its parser.

    ** Not modelled

    - Other interleavings: outside of [KeyCache], [TicketRecord] and
      [CallbackUrl], requests, like reloads, are handled one after the other;
      what else a request uses is its own, or is not written after [New].  A
      panicking request is one that gives no result.
    - The log lines of the handlers, and the listeners, timeouts and the
      delivery of signals of the service.
    - The transport of the HTTP client; a request to the provider gives the
      answer of [External].
    - The [Cookie] header as a header: the cookies of a request are a list of
      their own, so a configured header, or a rule, that names [Cookie] acts on
      the headers only.  Of [Set-Cookie], the value is kept as it is written and
      read again; [Domain] and [Expires] are kept as they are given.
    - The short HTML body of a redirect; templates that are read from a file.
    - Third-party libraries, documentation and tests. *)

From Stdlib Require Import ZArith Lia Ascii String Bool List.
From stdpp Require Export base tactics option list gmap strings pretty.

#[global] Open Scope string_scope.
#[global] Open Scope list_scope.
#[global] Open Scope Z_scope.

Declare Scope toa_scope.
Delimit Scope toa_scope with toa.
#[global] Open Scope toa_scope.

(** String concatenation, written [+:+], computes under [simpl]. *)
#[global] Arguments String.append : simpl nomatch.

(** ** Errors and fallible computations

    A Go function returning [(T, error)] is a [result T].  The sentinel
    errors that callers compare against have a constructor of their own; every
    other error is its text.  [ErrPanic] is a run-time panic (an index or slice
    out of range, a nil map or pointer), where the code may reach one. *)

Inductive error : Type :=
| ErrText (msg : string)
| ErrStateExpired
| ErrSessionTooLarge
| ErrSessionExpired
| ErrNoCookie
| ErrPanic.

(** [err.Error()] *)
Definition error_text (e : error) : string :=
  match e with
  | ErrText msg => msg
  | ErrStateExpired => "oidc state has expired"
  | ErrSessionTooLarge => "session state exceeds the maximum cookie size"
  | ErrSessionExpired => "session expired"
  | ErrNoCookie => "http: named cookie not present"
  | ErrPanic => "panic"
  end.

#[global] Instance error_eq_dec : EqDecision error.
Proof. solve_decision. Defined.

Inductive result (A : Type) : Type :=
| Ok (a : A)
| Err (e : error).
Arguments Ok {A} a.
Arguments Err {A} e.

Definition rbind {A B} (m : result A) (k : A -> result B) : result B :=
  match m with
  | Ok a => k a
  | Err e => Err e
  end.

Notation "'let?' x := m 'in' k" := (rbind m (fun x => k))
  (at level 10, x pattern, m at level 100, k at level 200) : toa_scope.

Definition is_Ok {A} (m : result A) : bool :=
  match m with Ok _ => true | Err _ => false end.

(** [errors.New(msg)] and [fmt.Errorf(msg, ...)]. *)
Definition errorf {A} (msg : string) : result A := Err (ErrText msg).

Definition of_option {A} (msg : string) (o : option A) : result A :=
  match o with Some a => Ok a | None => errorf msg end.

Lemma Ok_inj {A} (a b : A) : Ok a = Ok b -> a = b.
Proof. by intros [= ->]. Qed.

Lemma rbind_Ok_inv {A B} (m : result A) (k : A -> result B) b :
  rbind m k = Ok b -> exists a, m = Ok a /\ k a = Ok b.
Proof. destruct m; simpl; eauto; discriminate. Qed.

Lemma rbind_Err_inv {A B} (m : result A) (k : A -> result B) e :
  rbind m k = Err e -> m = Err e \/ exists a, m = Ok a /\ k a = Err e.
Proof. destruct m; simpl; intros; [right; eauto | left; congruence]. Qed.

Lemma of_option_Ok {A} msg (o : option A) a : of_option msg o = Ok a <-> o = Some a.
Proof. destruct o; simpl; unfold errorf; split; congruence. Qed.

(** ** Machine integers

    Go's [int] and [int64] are 64-bit two's complement words. *)

Definition int64_min : Z := - 2 ^ 63.
Definition int64_max : Z := 2 ^ 63 - 1.

Definition int64_range (z : Z) : Prop := int64_min <= z <= int64_max.

Definition wrap64 (z : Z) : Z := (z + 2 ^ 63) mod 2 ^ 64 - 2 ^ 63.

Lemma wrap64_id z : int64_range z -> wrap64 z = z.
Proof.
  unfold int64_range, int64_min, int64_max, wrap64. intros H.
  rewrite Z.mod_small; lia.
Qed.

Lemma wrap64_range z : int64_range (wrap64 z).
Proof.
  unfold int64_range, int64_min, int64_max, wrap64.
  pose proof (Z.mod_pos_bound (z + 2 ^ 63) (2 ^ 64)). lia.
Qed.

(** Saturation, what [time.Time.Sub] does on overflow. *)
Definition sat64 (z : Z) : Z := Z.max int64_min (Z.min int64_max z).

Lemma sat64_id z : int64_range z -> sat64 z = z.
Proof. unfold int64_range, sat64. lia. Qed.

(** ** Time

    A [time.Time] is its instant, in nanoseconds since 0001-01-01T00:00:00Z;
    the zero value of Go is the instant [0].  A [time.Duration] is an [int64]
    number of nanoseconds. *)

Definition time := Z.
Definition duration := Z.

Definition Second : duration := 1000000000.
Definition Minute : duration := 60 * Second.
Definition Hour : duration := 60 * Minute.

Definition IsZero (t : time) : bool := t =? 0.

(** [t.Sub(u)] and [time.Since(t)] at the instant [now]. *)
Definition Sub (t u : time) : duration := sat64 (t - u).
Definition Since (now t : time) : duration := Sub now t.

(** [t.Add(d)], [t.After(u)], [t.Before(u)]. *)
Definition Add (t : time) (d : duration) : time := t + d.
Definition After (t u : time) : bool := u <? t.
Definition Before (t u : time) : bool := t <? u.

(** [time.Duration(n) * time.Second]: an [int64] product, which wraps. *)
Definition seconds (n : Z) : duration := wrap64 (n * Second).

(** Numbers of seconds whose duration does not overflow (about 292 years). *)
Definition seconds_ok (n : Z) : Prop := 0 <= n <= 9223372036.

Lemma seconds_no_overflow n : seconds_ok n -> seconds n = n * Second.
Proof.
  unfold seconds_ok, seconds, Second. intros H. apply wrap64_id.
  unfold int64_range, int64_min, int64_max. lia.
Qed.

Lemma seconds_ok_Sub n : seconds_ok n -> int64_range (n * Second).
Proof.
  unfold seconds_ok, Second, int64_range, int64_min, int64_max. lia.
Qed.

(** Comparing a saturated difference with a duration is comparing the exact
    difference with it: saturation never changes the outcome of a test. *)
Lemma Sub_gt t u d : int64_range d -> d < int64_max -> (d <? Sub t u) = (d <? t - u).
Proof.
  unfold int64_range, Sub, sat64. intros H1 H2.
  apply Bool.eq_iff_eq_true. rewrite !Z.ltb_lt. lia.
Qed.

(** ** Tactics *)

(** Case analysis on the scrutinee of a [match] or [if] of the goal or of a
    hypothesis, keeping the equation and closing the impossible branches. *)
Ltac crush_match :=
  match goal with
  | H : context [match ?x with _ => _ end] |- _ =>
      let E := fresh "E" in destruct x eqn:E; simplify_eq/=; try done
  | |- context [match ?x with _ => _ end] =>
      let E := fresh "E" in destruct x eqn:E; simplify_eq/=; try done
  end.

Ltac crush_matches := repeat (simplify_eq/=; crush_match).

(** Turns boolean connectives and comparisons in the context into propositions. *)
Ltac boolprop :=
  repeat match goal with
  | H : (_ && _)%bool = true |- _ => apply andb_true_iff in H; destruct H
  | H : (_ || _)%bool = false |- _ => apply orb_false_iff in H; destruct H
  | H : negb _ = true |- _ => apply negb_true_iff in H
  | H : negb _ = false |- _ => apply negb_false_iff in H
  | H : String.eqb _ _ = true |- _ => apply String.eqb_eq in H
  | H : String.eqb _ _ = false |- _ => apply String.eqb_neq in H
  | H : Z.eqb _ _ = true |- _ => apply Z.eqb_eq in H
  | H : Z.eqb _ _ = false |- _ => apply Z.eqb_neq in H
  | H : Z.ltb _ _ = true |- _ => apply Z.ltb_lt in H
  | H : Z.ltb _ _ = false |- _ => apply Z.ltb_ge in H
  | H : Z.leb _ _ = true |- _ => apply Z.leb_le in H
  | H : Z.leb _ _ = false |- _ => apply Z.leb_gt in H
  | H : Nat.eqb _ _ = true |- _ => apply Nat.eqb_eq in H
  | H : Nat.eqb _ _ = false |- _ => apply Nat.eqb_neq in H
  | H : Nat.ltb _ _ = true |- _ => apply Nat.ltb_lt in H
  | H : Nat.ltb _ _ = false |- _ => apply Nat.ltb_ge in H
  | H : Nat.leb _ _ = true |- _ => apply Nat.leb_le in H
  | H : Nat.leb _ _ = false |- _ => apply Nat.leb_gt in H
  end.

(** Opens the successful path through a chain of [let?]. *)
Ltac ok_inv :=
  repeat match goal with
  | H : rbind _ _ = Ok _ |- _ =>
      apply rbind_Ok_inv in H; destruct H as (? & ? & ?)
  end.

Create HintDb toa discriminated.
Create Rewrite HintDb toa.

(** ** Options *)

(** [x == nil] and [x != nil]. *)
Definition is_none {A} (o : option A) : bool := match o with None => true | Some _ => false end.
Definition is_some {A} (o : option A) : bool := negb (is_none o).

(** ** Lists *)

(** [slices.Contains] on strings. *)
Definition slice_contains (l : list string) (x : string) : bool :=
  existsb (String.eqb x) l.

Lemma slice_contains_spec l x : slice_contains l x = true <-> x ∈ l.
Proof.
  unfold slice_contains. rewrite existsb_exists. setoid_rewrite String.eqb_eq.
  rewrite list_elem_of_In. split; [intros (y & ? & ->) | exists x]; auto.
Qed.

Lemma slice_contains_false l x : slice_contains l x = false <-> x ∉ l.
Proof. rewrite <- slice_contains_spec. destruct slice_contains; naive_solver. Qed.

Lemma eqb_refl_str s : String.eqb s s = true.
Proof. apply String.eqb_refl. Qed.

#[export] Hint Rewrite eqb_refl_str Z.eqb_refl Nat.eqb_refl : toa.

(** ** Ranging over a map

    Go visits the entries of a map in an order of its own, each once. *)

Class MapOrder := { map_range : forall {A : Type}, gmap string A -> list (string * A) }.

Class MapOrderLaws `{MapOrder} : Prop := {
  map_range_perm : forall A (m : gmap string A), map_range m ≡ₚ map_to_list m
}.

Lemma map_range_elem `{MapOrderLaws} {A} (m : gmap string A) k x :
  (k, x) ∈ map_range m <-> m !! k = Some x.
Proof. rewrite map_range_perm. apply elem_of_map_to_list. Qed.

(** The order of the keys, as an order to evaluate with. *)
Definition key_order : MapOrder := {| map_range A m := map_to_list m |}.

Lemma key_order_laws : @MapOrderLaws key_order.
Proof. split. done. Qed.
