(* ===== verification/GoStrings.v ===== *)
(** * Go's [strings] and [strconv] on byte strings

    A Go string is a sequence of bytes, here a [string] of 8-bit characters.
    The functions are the ones the program calls, with the argument order of
    Go.  They are executable; the lemmas characterise each of them by the
    decomposition of the string it computes. *)

From Stdlib Require Import ZArith Lia Ascii String Bool List.
From S2P Require Import Prelude.

(** ** Slicing *)

Fixpoint stake (n : nat) (s : string) : string :=
  match n, s with
  | S n', String c s' => String c (stake n' s')
  | _, _ => EmptyString
  end.

Fixpoint sdrop (n : nat) (s : string) : string :=
  match n, s with
  | S n', String c s' => sdrop n' s'
  | _, _ => s
  end.

Abbreviation slen := String.length.

(** [s[i:j]], which panics when the bounds are out of range. *)
Definition go_slice (s : string) (i j : nat) : result string :=
  if (i <=? j)%nat && (j <=? slen s)%nat then Ok (stake (j - i) (sdrop i s)) else Err ErrPanic.

Lemma sapp_nil_r s : s +:+ "" = s.
Proof. induction s; simpl; congruence. Qed.

Lemma sapp_assoc a b c : (a +:+ b) +:+ c = a +:+ (b +:+ c).
Proof. induction a; simpl; congruence. Qed.

Lemma slen_app a b : slen (a +:+ b) = (slen a + slen b)%nat.
Proof. induction a; simpl; lia. Qed.

Lemma slen_0 s : slen s = 0%nat -> s = "".
Proof. destruct s; simpl; [done | lia]. Qed.

Lemma stake_sdrop n s : stake n s +:+ sdrop n s = s.
Proof. revert s. induction n; intros [|c s]; simpl; auto. by rewrite IHn. Qed.

Lemma slen_stake n s : slen (stake n s) = Nat.min n (slen s).
Proof. revert s. induction n; intros [|c s]; simpl; auto. Qed.

Lemma slen_sdrop n s : slen (sdrop n s) = (slen s - n)%nat.
Proof. revert s. induction n; intros [|c s]; simpl; auto. Qed.

Lemma stake_ge n s : (slen s <= n)%nat -> stake n s = s.
Proof.
  revert s. induction n; intros [|c s]; simpl; intros; auto; try lia.
  rewrite IHn by lia. done.
Qed.

Lemma sdrop_0 s : sdrop 0 s = s.
Proof. by destruct s. Qed.

Lemma sdrop_app a b : sdrop (slen a) (a +:+ b) = b.
Proof. induction a; simpl; [apply sdrop_0 | done]. Qed.

Lemma stake_app a b : stake (slen a) (a +:+ b) = a.
Proof. induction a; simpl; congruence. Qed.

Lemma sdrop_sdrop m n s : sdrop m (sdrop n s) = sdrop (n + m) s.
Proof.
  revert s. induction n; intros [|c s]; simpl; auto; by destruct m.
Qed.

Lemma sapp_inv_head a b c : a +:+ b = a +:+ c -> b = c.
Proof. induction a; simpl; intros; [done | naive_solver]. Qed.

Lemma sapp_inj_len a b c d :
  slen a = slen c -> a +:+ b = c +:+ d -> a = c /\ b = d.
Proof.
  revert c. induction a; intros [|y c]; simpl; intros Hl H; try lia; auto.
  simplify_eq. edestruct IHa as [-> ->]; eauto.
Qed.

Lemma sapp_inv_tail a b c : a +:+ c = b +:+ c -> a = b.
Proof.
  intros H. eapply (sapp_inj_len a c b c); [|done].
  apply (f_equal slen) in H. rewrite !slen_app in H. lia.
Qed.

#[export] Hint Rewrite sapp_nil_r sapp_assoc slen_app slen_stake slen_sdrop
  stake_sdrop sdrop_app stake_app : toa.

(** ** Prefixes and suffixes *)

Fixpoint HasPrefix (s prefix : string) {struct prefix} : bool :=
  match prefix, s with
  | EmptyString, _ => true
  | String p prefix', String c s' => Ascii.eqb p c && HasPrefix s' prefix'
  | String _ _, EmptyString => false
  end.

Definition HasSuffix (s suffix : string) : bool :=
  (slen suffix <=? slen s)%nat && String.eqb (sdrop (slen s - slen suffix) s) suffix.

Definition TrimPrefix (s prefix : string) : string :=
  if HasPrefix s prefix then sdrop (slen prefix) s else s.

Definition TrimSuffix (s suffix : string) : string :=
  if HasSuffix s suffix then stake (slen s - slen suffix) s else s.

(** [strings.CutPrefix]: [Some after] when found. *)
Definition CutPrefix (s prefix : string) : option string :=
  if HasPrefix s prefix then Some (sdrop (slen prefix) s) else None.

Definition CutSuffix (s suffix : string) : option string :=
  if HasSuffix s suffix then Some (stake (slen s - slen suffix) s) else None.

Lemma HasPrefix_spec s p : HasPrefix s p = true <-> exists t, s = p +:+ t.
Proof.
  revert s. induction p as [|x p IH]; intros s; simpl.
  - split; [intros _; by exists s | done].
  - destruct s as [|c s]; simpl.
    + split; [done | intros [t Ht]; discriminate].
    + rewrite andb_true_iff, Ascii.eqb_eq, IH.
      split; [intros [-> [t ->]]; by exists t | intros [t Ht]; simplify_eq; eauto].
Qed.

Lemma HasSuffix_spec s p : HasSuffix s p = true <-> exists t, s = t +:+ p.
Proof.
  unfold HasSuffix. rewrite andb_true_iff, Nat.leb_le, String.eqb_eq. split.
  - intros [_ H]. exists (stake (slen s - slen p) s).
    rewrite <- H at 2. by rewrite stake_sdrop.
  - intros [t ->]. rewrite slen_app. split; [lia|].
    replace (slen t + slen p - slen p)%nat with (slen t) by lia. apply sdrop_app.
Qed.

Lemma HasPrefix_app p t : HasPrefix (p +:+ t) p = true.
Proof. apply HasPrefix_spec. eauto. Qed.

Lemma HasSuffix_app t p : HasSuffix (t +:+ p) p = true.
Proof. apply HasSuffix_spec. eauto. Qed.

Lemma HasPrefix_refl s : HasPrefix s s = true.
Proof. apply HasPrefix_spec. exists "". by rewrite sapp_nil_r. Qed.

Lemma HasPrefix_trans s p q :
  HasPrefix s p = true -> HasPrefix p q = true -> HasPrefix s q = true.
Proof.
  rewrite !HasPrefix_spec. intros [t ->] [u ->]. exists (u +:+ t). by rewrite sapp_assoc.
Qed.

Lemma TrimPrefix_app p t : TrimPrefix (p +:+ t) p = t.
Proof. unfold TrimPrefix. by rewrite HasPrefix_app, sdrop_app. Qed.

Lemma TrimSuffix_app t p : TrimSuffix (t +:+ p) p = t.
Proof.
  unfold TrimSuffix. rewrite HasSuffix_app, slen_app.
  replace (slen t + slen p - slen p)%nat with (slen t) by lia. apply stake_app.
Qed.

Lemma TrimSuffix_none s p : HasSuffix s p = false -> TrimSuffix s p = s.
Proof. unfold TrimSuffix. by intros ->. Qed.

Lemma CutPrefix_Some s p t : CutPrefix s p = Some t <-> s = p +:+ t.
Proof.
  unfold CutPrefix. destruct (HasPrefix s p) eqn:E.
  - apply HasPrefix_spec in E as [u ->]. rewrite sdrop_app.
    split; [by intros [= ->] | intros H; by apply sapp_inv_head in H as ->].
  - split; [done | intros ->]. by rewrite HasPrefix_app in E.
Qed.

Lemma CutSuffix_Some s p t : CutSuffix s p = Some t <-> s = t +:+ p.
Proof.
  unfold CutSuffix. destruct (HasSuffix s p) eqn:E.
  - apply HasSuffix_spec in E as [u ->]. rewrite slen_app.
    replace (slen u + slen p - slen p)%nat with (slen u) by lia. rewrite stake_app.
    split; [by intros [= ->] | intros H; by apply sapp_inv_tail in H as ->].
  - split; [done | intros ->]. by rewrite HasSuffix_app in E.
Qed.

#[export] Hint Rewrite HasPrefix_app HasSuffix_app HasPrefix_refl TrimPrefix_app
  TrimSuffix_app : toa.

(** ** Searching *)

(** Position of the first byte that satisfies [P]. *)
Fixpoint IndexFunc (P : ascii -> bool) (s : string) : option nat :=
  match s with
  | EmptyString => None
  | String c s' => if P c then Some 0%nat else S <$> IndexFunc P s'
  end.

(** Does the byte occur in the string? *)
Fixpoint byte_in (c : ascii) (s : string) : bool :=
  match s with
  | EmptyString => false
  | String d s' => Ascii.eqb c d || byte_in c s'
  end.

(** [strings.IndexAny(s, chars)] for a set of ASCII characters. *)
Definition IndexAny (s chars : string) : option nat :=
  IndexFunc (fun c => byte_in c chars) s.

Definition ContainsAny (s chars : string) : bool :=
  match IndexAny s chars with Some _ => true | None => false end.

(** [strings.Index(s, sub)]. *)
Fixpoint Index (s sub : string) : option nat :=
  if HasPrefix s sub then Some 0%nat
  else match s with
       | EmptyString => None
       | String _ s' => S <$> Index s' sub
       end.

Definition Contains (s sub : string) : bool :=
  match Index s sub with Some _ => true | None => false end.

(** [strings.LastIndex(s, c)] for a one-byte string. *)
Fixpoint LastIndexByte (s : string) (c : ascii) : option nat :=
  match s with
  | EmptyString => None
  | String d s' =>
      match LastIndexByte s' c with
      | Some i => Some (S i)
      | None => if Ascii.eqb d c then Some 0%nat else None
      end
  end.

Lemma Index_Some s sub i :
  Index s sub = Some i ->
  s = stake i s +:+ sub +:+ sdrop (i + slen sub) s /\ (i + slen sub <= slen s)%nat.
Proof.
  revert i. induction s as [|c s IH]; intros i; simpl.
  - destruct (HasPrefix "" sub) eqn:E; [|done]. intros [= <-].
    by destruct sub.
  - destruct (HasPrefix (String c s) sub) eqn:E.
    + intros [= <-]. apply HasPrefix_spec in E as [t Ht].
      rewrite Ht at 1. rewrite Ht. simpl. rewrite sdrop_app. split; [done|].
      apply (f_equal slen) in Ht. rewrite slen_app in Ht. simpl in Ht. lia.
    + destruct (Index s sub) as [j|] eqn:Ej; [|done]. intros [= <-].
      destruct (IH j eq_refl) as [Hs Hl]. simpl. split; [by rewrite <- Hs | lia].
Qed.

Lemma Index_None s sub t u : Index s sub = None -> s <> t +:+ sub +:+ u.
Proof.
  revert t. induction s as [|c s IH]; intros t; simpl.
  - destruct (HasPrefix "" sub) eqn:E; [done|]. intros _ H.
    destruct t; [|discriminate]. simpl in H.
    assert (HasPrefix "" sub = true) by (apply HasPrefix_spec; eauto). congruence.
  - destruct (HasPrefix (String c s) sub) eqn:E; [done|].
    destruct (Index s sub) as [j|]; [done|]. intros _ H. destruct t as [|d t].
    + simpl in H. rewrite H in E. by rewrite HasPrefix_app in E.
    + simpl in H. simplify_eq. by eapply (IH t).
Qed.

Lemma Contains_spec s sub : Contains s sub = true <-> exists t u, s = t +:+ sub +:+ u.
Proof.
  unfold Contains. destruct (Index s sub) as [i|] eqn:E.
  - apply Index_Some in E as [H _]. split; [intros _; eauto | done].
  - split; [done | intros (t & u & H)]. by eapply Index_None in H.
Qed.

Lemma Contains_byte_in s c : Contains s (String c "") = byte_in c s.
Proof.
  apply eq_iff_eq_true. rewrite Contains_spec. induction s as [|d s IH]; simpl.
  - split; [intros (t & u & H); by destruct t | done].
  - rewrite orb_true_iff, Ascii.eqb_eq, <- IH. split.
    + intros (t & u & H). destruct t as [|e t]; simpl in H; simplify_eq; eauto.
    + intros [-> | (t & u & ->)]; [by exists "", s | by exists (String d t), u].
Qed.

Lemma byte_in_app c a b : byte_in c (a +:+ b) = byte_in c a || byte_in c b.
Proof. induction a; simpl; [done|]. rewrite IHa. by rewrite orb_assoc. Qed.

Lemma IndexFunc_Some P s i :
  IndexFunc P s = Some i ->
  exists c t, s = stake i s +:+ String c t /\ P c = true /\ IndexFunc P (stake i s) = None
              /\ sdrop i s = String c t.
Proof.
  revert i. induction s as [|c s IH]; intros i; simpl; [done|].
  destruct (P c) eqn:E.
  - intros [= <-]. exists c, s. done.
  - destruct (IndexFunc P s) as [j|] eqn:Ej; [|done]. intros [= <-].
    destruct (IH j eq_refl) as (d & t & Hs & Hd & Hn & Hr).
    exists d, t. simpl. rewrite E, Hn. split_and!; auto. congruence.
Qed.

Lemma IndexFunc_None P s :
  IndexFunc P s = None <-> forall c, byte_in c s = true -> P c = false.
Proof.
  induction s as [|d s IH]; simpl; [done|].
  destruct (P d) eqn:E; split; try done.
  - intros H. specialize (H d). rewrite Ascii.eqb_refl in H. rewrite H in E; done.
  - destruct (IndexFunc P s) eqn:Ei; [done|]. intros _ c.
    rewrite orb_true_iff, Ascii.eqb_eq. intros [-> | H]; [done|]. by apply IH.
  - intros H. replace (IndexFunc P s) with (@None nat); [done|].
    symmetry. apply IH. intros c Hc. apply H. by rewrite Hc, orb_true_r.
Qed.

Lemma LastIndexByte_Some s c i :
  LastIndexByte s c = Some i ->
  exists t, s = stake i s +:+ String c t /\ sdrop (S i) s = t /\ byte_in c t = false.
Proof.
  assert (Hnone : forall s, LastIndexByte s c = None -> byte_in c s = false).
  { clear. induction s as [|d s IH]; simpl; [done|]. destruct LastIndexByte; [done|].
    rewrite (Ascii.eqb_sym d c). destruct (Ascii.eqb c d); [done|]. intros _. auto. }
  revert i. induction s as [|d s IH]; intros i; simpl; [done|].
  destruct (LastIndexByte s c) as [j|] eqn:E.
  - intros [= <-]. destruct (IH j eq_refl) as (t & Hs & Ht & Hn).
    exists t. simpl in *. split_and!; auto. congruence.
  - destruct (Ascii.eqb_spec d c) as [->|]; [|done]. intros [= <-].
    exists s. rewrite sdrop_0. eauto.
Qed.

Lemma LastIndexByte_None s c : LastIndexByte s c = None <-> byte_in c s = false.
Proof.
  induction s as [|d s IH]; simpl; [done|].
  rewrite (Ascii.eqb_sym c d). destruct (LastIndexByte s c) as [j|].
  - split; [done|]. rewrite orb_false_iff. intros [_ H]. by apply IH in H.
  - destruct (Ascii.eqb d c); simpl; [done|]. split; [intros _; by apply IH | done].
Qed.

Lemma LastIndexByte_app a c t :
  byte_in c t = false -> LastIndexByte (a +:+ String c t) c = Some (slen a).
Proof.
  intros Hn. induction a as [|d a IH]; simpl.
  - apply LastIndexByte_None in Hn. by rewrite Hn, Ascii.eqb_refl.
  - by rewrite IH.
Qed.

(** ** Splitting and replacing *)

(** [strings.Split(s, sep)] for a one-byte separator: never empty. *)
Fixpoint SplitByte (s : string) (sep : ascii) : list string :=
  match s with
  | EmptyString => [""]
  | String c s' =>
      if Ascii.eqb c sep then "" :: SplitByte s' sep
      else match SplitByte s' sep with
           | w :: ws => String c w :: ws
           | [] => [String c ""]
           end
  end.

(** [strings.ReplaceAll(s, old, new)] for one-byte strings. *)
Fixpoint ReplaceByte (s : string) (old new : ascii) : string :=
  match s with
  | EmptyString => EmptyString
  | String c s' => String (if Ascii.eqb c old then new else c) (ReplaceByte s' old new)
  end.

(** [strings.ReplaceAll(s, old, new)] for a non-empty [old]: [skip] counts the
    bytes of the current occurrence still to be passed over. *)
Fixpoint ReplaceAll_from (skip : nat) (s old new : string) : string :=
  match s with
  | EmptyString => EmptyString
  | String c s' =>
      match skip with
      | S k => ReplaceAll_from k s' old new
      | O => if HasPrefix s old then new +:+ ReplaceAll_from (slen old - 1) s' old new
             else String c (ReplaceAll_from 0 s' old new)
      end
  end.

Definition ReplaceAll (s old new : string) : string := ReplaceAll_from 0 s old new.

(** [strings.Join(l, sep)]. *)
Fixpoint Join (l : list string) (sep : string) : string :=
  match l with
  | [] => ""
  | [x] => x
  | x :: l' => x +:+ sep +:+ Join l' sep
  end.

Lemma SplitByte_nonempty s c : SplitByte s c <> [].
Proof. destruct s; simpl; [done|]. destruct Ascii.eqb; [done|]. by destruct SplitByte. Qed.

Lemma Join_SplitByte s c : Join (SplitByte s c) (String c "") = s.
Proof.
  induction s as [|d s IH]; simpl; [done|].
  pose proof (SplitByte_nonempty s c) as Hne.
  destruct (Ascii.eqb_spec d c) as [->|].
  - destruct (SplitByte s c) as [|w ws]; [done|]. simpl in *. by rewrite IH.
  - destruct (SplitByte s c) as [|w ws]; [done|].
    destruct ws; simpl in *; by rewrite IH.
Qed.

Lemma SplitByte_no_sep s c w : w ∈ SplitByte s c -> byte_in c w = false.
Proof.
  revert w. induction s as [|d s IH]; intros w; simpl.
  - rewrite list_elem_of_singleton. by intros ->.
  - destruct (Ascii.eqb_spec d c) as [->|Hne].
    + rewrite elem_of_cons. intros [-> | H]; auto.
    + pose proof (SplitByte_nonempty s c) as Hs.
      destruct (SplitByte s c) as [|v vs]; [done|].
      rewrite elem_of_cons. intros [-> | H].
      * simpl. rewrite (IH v) by set_solver. rewrite orb_false_r.
        apply Ascii.eqb_neq. congruence.
      * apply IH. set_solver.
Qed.

(** ** White space *)

(** The UTF-8 encodings of the code points of [unicode.IsSpace]. *)
Definition bytes (l : list nat) : string := fold_right (fun n s => String (ascii_of_nat n) s) "" l.

Definition space_tokens : list string :=
  map bytes
    ([[9]; [10]; [11]; [12]; [13]; [32]; [194; 133]; [194; 160]; [225; 154; 128];
      [226; 128; 168]; [226; 128; 169]; [226; 128; 175]; [226; 129; 159]; [227; 128; 128]]
     ++ map (fun k => [226; 128; 128 + k]) (seq 0 11))%nat.

Definition space_prefix (s : string) : option string :=
  list_find (fun w => HasPrefix s w = true) space_tokens ≫= fun p => Some p.2.

Definition space_suffix (s : string) : option string :=
  list_find (fun w => HasSuffix s w = true) space_tokens ≫= fun p => Some p.2.

Fixpoint TrimLeft_fuel (fuel : nat) (s : string) : string :=
  match fuel with
  | O => s
  | S f => match space_prefix s with
           | Some w => TrimLeft_fuel f (sdrop (slen w) s)
           | None => s
           end
  end.

Fixpoint TrimRight_fuel (fuel : nat) (s : string) : string :=
  match fuel with
  | O => s
  | S f => match space_suffix s with
           | Some w => TrimRight_fuel f (stake (slen s - slen w) s)
           | None => s
           end
  end.

(** [strings.TrimSpace]; every token has at least one byte, so the length of
    the string is enough fuel. *)
Definition TrimSpace (s : string) : string :=
  let l := TrimLeft_fuel (slen s) s in TrimRight_fuel (slen l) l.

(** ** Numbers *)

Fixpoint digits (acc : Z) (s : string) : option Z :=
  match s with
  | EmptyString => Some acc
  | String c s' =>
      let d := Z.of_nat (nat_of_ascii c) - 48 in
      if (0 <=? d) && (d <=? 9) then digits (10 * acc + d) s' else None
  end.

(** [strconv.Atoi]: an optional sign, at least one decimal digit, and a value
    in the range of [int64]. *)
Definition Atoi (s : string) : option Z :=
  let parse sg t :=
    match t with
    | EmptyString => None
    | _ => z ← digits 0 t;
           let v := sg * z in
           if (int64_min <=? v) && (v <=? int64_max) then Some v else None
    end in
  match s with
  | String c t =>
      if Ascii.eqb c "-" then parse (-1) t
      else if Ascii.eqb c "+" then parse 1 t
      else parse 1 s
  | EmptyString => None
  end.

(** [strconv.Itoa] *)
Definition Itoa (z : Z) : string := pretty z.

Lemma Atoi_range s z : Atoi s = Some z -> int64_range z.
Proof.
  unfold Atoi, int64_range. intros H.
  repeat (case_match; simplify_option_eq; try done); boolprop; lia.
Qed.

Lemma digit_char (d : N) :
  (d < 10)%N ->
  Z.of_nat (nat_of_ascii (pretty_N_char d)) - 48 = Z.of_N d
  /\ pretty_N_char d <> "-"%char /\ pretty_N_char d <> "+"%char.
Proof.
  intros Hd.
  assert (d = 0 \/ d = 1 \/ d = 2 \/ d = 3 \/ d = 4 \/ d = 5 \/ d = 6 \/ d = 7 \/ d = 8 \/ d = 9)%N
    as H by lia.
  repeat (destruct H as [-> | H]; [done|]). by subst.
Qed.

Lemma digits_pretty_go x s : digits 0 (pretty_N_go x s) = digits (Z.of_N x) s.
Proof.
  revert s. induction (N.lt_wf_0 x) as [x _ IH]; intros s.
  destruct (decide (x = 0)%N) as [->|Hx].
  { by rewrite pretty_N_go_0. }
  rewrite pretty_N_go_step by lia.
  rewrite IH by (apply N.div_lt; lia). cbn [digits].
  assert (x mod 10 < 10)%N by (apply N.mod_lt; lia).
  rewrite (proj1 (digit_char _ H)).
  pose proof (N.div_mod x 10 ltac:(done)) as Hdm.
  remember (x mod 10)%N as d. remember (x / 10)%N as q. clear Heqd Heqq IH.
  replace ((0 <=? Z.of_N d) && (Z.of_N d <=? 9)) with true
    by (symmetry; apply andb_true_iff; split; apply Z.leb_le; lia).
  f_equal. lia.
Qed.

Lemma pretty_N_go_head x s :
  (0 < x)%N -> exists c t, pretty_N_go x s = String c t /\ c <> "-"%char /\ c <> "+"%char.
Proof.
  revert s. induction (N.lt_wf_0 x) as [x _ IH]; intros s Hx.
  rewrite pretty_N_go_step by lia.
  destruct (decide (x / 10 = 0)%N) as [->|Hne].
  - rewrite pretty_N_go_0. eexists _, _. split; [done|].
    apply digit_char, N.mod_lt. lia.
  - apply IH; [by apply N.div_lt|]. by apply N.neq_0_lt_0.
Qed.

(** [strconv.Atoi(strconv.Itoa(n)) == n] for every [int]. *)
Lemma Atoi_Itoa z : int64_range z -> Atoi (Itoa z) = Some z.
Proof.
  intros Hz. unfold Itoa. destruct z as [|p|p]; [done | |].
  - change (pretty (Z.pos p)) with (pretty (N.pos p)).
    unfold pretty, pretty_N. rewrite decide_False by lia.
    destruct (pretty_N_go_head (N.pos p) "") as (c & t & Ht & H1 & H2); [lia|].
    pose proof (digits_pretty_go (N.pos p) "") as Hd. rewrite Ht in *. unfold Atoi.
    apply Ascii.eqb_neq in H1, H2. rewrite H1, H2. rewrite Hd. cbn [digits mbind option_bind].
    change (Z.of_N (N.pos p)) with (Z.pos p). rewrite Z.mul_1_l.
    destruct Hz as [Hl%Z.leb_le Hh%Z.leb_le]. by rewrite Hl, Hh.
  - change (pretty (Z.neg p)) with ("-" +:+ pretty (N.pos p)).
    unfold pretty, pretty_N. rewrite decide_False by lia.
    destruct (pretty_N_go_head (N.pos p) "") as (c & t & Ht & _ & _); [lia|].
    pose proof (digits_pretty_go (N.pos p) "") as Hd. rewrite Ht in *. cbn [String.append].
    unfold Atoi. cbn [Ascii.eqb Bool.eqb andb]. rewrite Hd. cbn [digits mbind option_bind].
    change (-1 * Z.of_N (N.pos p)) with (Z.neg p).
    destruct Hz as [Hl%Z.leb_le Hh%Z.leb_le]. by rewrite Hl, Hh.
Qed.

(** ** Case

    Go maps and folds ASCII bytes directly and consults the Unicode tables
    only for strings with a byte above 127; the tables are a parameter. *)

Class Unicode := {
  unicode_ToLower : string -> string;
  unicode_ToUpper : string -> string;
  unicode_EqualFold : string -> string -> bool
}.

Definition is_ascii (c : ascii) : bool := (nat_of_ascii c <? 128)%nat.
Definition is_upper (c : ascii) : bool := (65 <=? nat_of_ascii c)%nat && (nat_of_ascii c <=? 90)%nat.
Definition is_lower (c : ascii) : bool := (97 <=? nat_of_ascii c)%nat && (nat_of_ascii c <=? 122)%nat.
Definition lower_char (c : ascii) : ascii := if is_upper c then ascii_of_nat (nat_of_ascii c + 32) else c.
Definition upper_char (c : ascii) : ascii := if is_lower c then ascii_of_nat (nat_of_ascii c - 32) else c.

Fixpoint smap (f : ascii -> ascii) (s : string) : string :=
  match s with
  | EmptyString => EmptyString
  | String c s' => String (f c) (smap f s')
  end.

Fixpoint sforall (P : ascii -> bool) (s : string) : bool :=
  match s with
  | EmptyString => true
  | String c s' => P c && sforall P s'
  end.

Section Case.
Context `{Unicode}.

Definition ToLower (s : string) : string :=
  if sforall is_ascii s then smap lower_char s else unicode_ToLower s.

Definition ToUpper (s : string) : string :=
  if sforall is_ascii s then smap upper_char s else unicode_ToUpper s.

Fixpoint EqualFold (s t : string) : bool :=
  match s, t with
  | String a s', String b t' =>
      if is_ascii a && is_ascii b
      then if Ascii.eqb (lower_char a) (lower_char b) then EqualFold s' t' else false
      else unicode_EqualFold s t
  | EmptyString, EmptyString => true
  | _, _ => false
  end.

Lemma ToLower_ascii s : sforall is_ascii s = true -> ToLower s = smap lower_char s.
Proof. unfold ToLower. by intros ->. Qed.

(** On ASCII strings, folding is equality of the lower-case forms. *)
Lemma EqualFold_ascii s t :
  sforall is_ascii s = true -> sforall is_ascii t = true ->
  EqualFold s t = String.eqb (smap lower_char s) (smap lower_char t).
Proof.
  revert t. induction s as [|a s IH]; intros [|b t]; simpl; auto.
  intros [Ha Hs]%andb_true_iff [Hb Ht]%andb_true_iff. rewrite Ha, Hb. simpl.
  destruct Ascii.eqb; auto.
Qed.
End Case.

Lemma slen_smap f s : slen (smap f s) = slen s.
Proof. induction s; simpl; congruence. Qed.

Lemma sforall_spec P s : sforall P s = true <-> forall c, byte_in c s = true -> P c = true.
Proof.
  induction s as [|d s IH]; simpl; [done|].
  rewrite andb_true_iff, IH. setoid_rewrite orb_true_iff. setoid_rewrite Ascii.eqb_eq.
  split; [intros [H1 H2] c [-> | Hc]; auto | intros H; split; auto].
Qed.

Lemma sforall_app P a b : sforall P (a +:+ b) = sforall P a && sforall P b.
Proof. induction a; simpl; [done|]. by rewrite IHa, andb_assoc. Qed.
