(* ===== verification/Logging.v ===== *)
(** * Logging: [src/logging]

    Which messages are written, and the line that is.  The handlers are modelled
    without their log lines: none reads what it logs. *)

From Stdlib Require Import ZArith Lia Ascii String Bool List.
From S2P Require Import Prelude GoStrings.

(** [Time.Format] with the layout of the log, in the local time zone. *)
Class LogTime := { format_time : time -> string }.

Definition LevelDebug : string := "DEBUG".
Definition LevelInfo : string := "INFO".
Definition LevelWarn : string := "WARN".
Definition LevelError : string := "ERROR".

Definition LogLevels : gmap string Z :=
  {[LevelError := 1; LevelWarn := 2; LevelInfo := 3; LevelDebug := 4]}.

Section Logging.
Context `{Unicode}.

(** A level that is not in the table counts as zero. *)
Definition log_rank (level : string) : Z := default 0 (LogLevels !! ToUpper level).

Definition shouldLog (minLevel level : string) : bool := log_rank level <=? log_rank minLevel.

(** A more talkative logger writes whatever a quieter one does. *)
Lemma shouldLog_mono a b level :
  log_rank a <= log_rank b -> shouldLog a level = true -> shouldLog b level = true.
Proof. unfold shouldLog. rewrite !Z.leb_le. lia. Qed.

(** A logger with a level that is not in the table writes no message of the
    four levels, errors included. *)
Lemma unknown_level_silent minLevel level :
  LogLevels !! ToUpper minLevel = None -> level ∈ [LevelDebug; LevelInfo; LevelWarn; LevelError] ->
  shouldLog minLevel level = false.
Proof.
  intros Hm Hl. unfold shouldLog, log_rank. rewrite Hm. apply Z.leb_gt. simpl.
  repeat (apply elem_of_cons in Hl as [->|Hl]; [reflexivity|]). by apply elem_of_nil in Hl.
Qed.

(** The end of a line. *)
Definition line_end : ascii := ascii_of_nat 10.

(** [Log]: what it appends to the standard output, the message formatted by the
    caller. *)
Definition Log `{LogTime} (now : time) (minLevel level message : string) : string :=
  if negb (shouldLog minLevel level) then ""
  else format_time now +:+ " [" +:+ level +:+ "]" +:+ " [traefik-oidc-auth] " +:+ message +:+ String line_end "".

Fixpoint lines (s : string) : nat :=
  match s with
  | EmptyString => 0
  | String c s => (if Ascii.eqb c line_end then 1 else 0) + lines s
  end.

Lemma lines_app a b : lines (a +:+ b) = (lines a + lines b)%nat.
Proof. induction a as [|c a IH]; [done|]. cbn. rewrite IH. lia. Qed.

(** A message writes one line and as many more as it has line ends: what it
    quotes can begin a line of its own. *)
Lemma Log_lines `{LogTime} now minLevel level message :
  lines (format_time now) = 0%nat -> lines level = 0%nat -> shouldLog minLevel level = true ->
  lines (Log now minLevel level message) = S (lines message).
Proof.
  intros Ht Hl Hs. unfold Log. rewrite Hs. cbn [negb]. rewrite !lines_app, Ht, Hl.
  change (lines (String line_end "")) with 1%nat. change (lines " [") with 0%nat. change (lines "]") with 0%nat.
  change (lines " [traefik-oidc-auth] ") with 0%nat. lia.
Qed.

(** What is not to be logged writes nothing. *)
Lemma Log_silent `{LogTime} now minLevel level message :
  shouldLog minLevel level = false -> Log now minLevel level message = "".
Proof. intros Hs. unfold Log. by rewrite Hs. Qed.
End Logging.
