(* ===== verification/Base64.v ===== *)
(** * Package [encoding/base64]

    The two encodings the program uses: [StdEncoding] (padded, for sealed
    tickets) and [RawURLEncoding] (unpadded, for the state parameter and the
    integers of a JWK).  The decoder skips carriage returns and line feeds and
    ignores the unused low bits of a partial quantum, as Go's does. *)

From Stdlib Require Import ZArith Lia Ascii String Bool List.
From S2P Require Import Prelude GoStrings.

Definition byte_val (c : ascii) : Z := Z.of_nat (nat_of_ascii c).
Definition val_byte (z : Z) : ascii := ascii_of_nat (Z.to_nat z).

Lemma byte_val_range c : 0 <= byte_val c < 256.
Proof. unfold byte_val. pose proof (nat_ascii_bounded c). lia. Qed.

Lemma val_byte_val c : val_byte (byte_val c) = c.
Proof. unfold val_byte, byte_val. by rewrite Nat2Z.id, ascii_nat_embedding. Qed.

Record encoding := { alphabet : string; padded : bool }.

Definition std_alphabet : string := "ABCDEFGHIJKLMNOPQRSTUVWXYZabcdefghijklmnopqrstuvwxyz0123456789+/".
Definition url_alphabet : string := "ABCDEFGHIJKLMNOPQRSTUVWXYZabcdefghijklmnopqrstuvwxyz0123456789-_".

Definition StdEncoding : encoding := {| alphabet := std_alphabet; padded := true |}.
Definition RawURLEncoding : encoding := {| alphabet := url_alphabet; padded := false |}.

Definition pad_char : ascii := "=".

Section Codec.
Context (enc : encoding).

Definition enc_char (v : Z) : ascii :=
  match String.get (Z.to_nat v) (alphabet enc) with Some c => c | None => pad_char end.

Definition dec_char (c : ascii) : option Z :=
  Z.of_nat <$> IndexFunc (Ascii.eqb c) (alphabet enc).

Definition padding (n : nat) : string :=
  if padded enc then stake n "==" else "".

(** The four 6-bit digits of a 24-bit quantum. *)
Definition d1 (n : Z) : Z := n / 262144.
Definition d2 (n : Z) : Z := (n / 4096) mod 64.
Definition d3 (n : Z) : Z := (n / 64) mod 64.
Definition d4 (n : Z) : Z := n mod 64.

Definition quantum (a b c : Z) : Z := 65536 * a + 256 * b + c.

Fixpoint EncodeToString (s : string) : string :=
  match s with
  | EmptyString => ""
  | String a EmptyString =>
      let n := quantum (byte_val a) 0 0 in
      String (enc_char (d1 n)) (String (enc_char (d2 n)) (padding 2))
  | String a (String b EmptyString) =>
      let n := quantum (byte_val a) (byte_val b) 0 in
      String (enc_char (d1 n)) (String (enc_char (d2 n)) (String (enc_char (d3 n)) (padding 1)))
  | String a (String b (String c s')) =>
      let n := quantum (byte_val a) (byte_val b) (byte_val c) in
      String (enc_char (d1 n)) (String (enc_char (d2 n))
        (String (enc_char (d3 n)) (String (enc_char (d4 n)) (EncodeToString s'))))
  end.

Definition sextets (w x y z : Z) : Z := 262144 * w + 4096 * x + 64 * y + z.
Definition b1 (n : Z) : ascii := val_byte (n / 65536).
Definition b2 (n : Z) : ascii := val_byte ((n / 256) mod 256).
Definition b3 (n : Z) : ascii := val_byte (n mod 256).

Definition is_pad (c : ascii) : bool := padded enc && Ascii.eqb c pad_char.

Fixpoint decode (s : string) : option string :=
  match s with
  | EmptyString => Some ""
  | String a (String b (String c (String d s'))) =>
      w ← dec_char a; x ← dec_char b;
      if is_pad c then
        if is_pad d && String.eqb s' "" then Some (String (b1 (sextets w x 0 0)) "") else None
      else
        y ← dec_char c;
        if is_pad d then
          if String.eqb s' ""
          then Some (String (b1 (sextets w x y 0)) (String (b2 (sextets w x y 0)) ""))
          else None
        else
          z ← dec_char d;
          let n := sextets w x y z in
          r ← decode s';
          Some (String (b1 n) (String (b2 n) (String (b3 n) r)))
  | String a (String b (String c EmptyString)) =>
      if padded enc then None
      else w ← dec_char a; x ← dec_char b; y ← dec_char c;
           let n := sextets w x y 0 in Some (String (b1 n) (String (b2 n) ""))
  | String a (String b EmptyString) =>
      if padded enc then None
      else w ← dec_char a; x ← dec_char b;
           Some (String (b1 (sextets w x 0 0)) "")
  | String _ EmptyString => None
  end.

Fixpoint strip_newlines (s : string) : string :=
  match s with
  | EmptyString => ""
  | String c s' =>
      if Ascii.eqb c "010" || Ascii.eqb c "013" then strip_newlines s'
      else String c (strip_newlines s')
  end.

Definition DecodeString (s : string) : result string :=
  of_option "illegal base64 data" (decode (strip_newlines s)).
End Codec.

(** ** Round trip *)

Section RoundTrip.
Context (enc : encoding).

(** What the two alphabets satisfy: 64 distinct characters, none of them the
    padding character or a line break. *)
Definition good_alphabet : bool :=
  forallb (fun k =>
    let c := enc_char enc (Z.of_nat k) in
    bool_decide (dec_char enc c = Some (Z.of_nat k))
    && negb (Ascii.eqb c pad_char) && negb (Ascii.eqb c "010") && negb (Ascii.eqb c "013"))
    (seq 0 64).

Context (Hgood : good_alphabet = true).

Lemma enc_char_good v :
  0 <= v < 64 ->
  dec_char enc (enc_char enc v) = Some v /\ is_pad enc (enc_char enc v) = false
  /\ forall s, strip_newlines (String (enc_char enc v) s) = String (enc_char enc v) (strip_newlines s).
Proof.
  intros Hv. unfold good_alphabet in Hgood. rewrite forallb_forall in Hgood.
  specialize (Hgood (Z.to_nat v) ltac:(apply in_seq; lia)). rewrite Z2Nat.id in Hgood by lia.
  simpl in Hgood. boolprop.
  repeat match goal with H : bool_decide _ = true |- _ => apply bool_decide_eq_true in H end.
  unfold is_pad. simpl.
  repeat match goal with H : Ascii.eqb _ _ = false |- _ => rewrite H end.
  rewrite andb_false_r. auto.
Qed.

Lemma strip_padding n : strip_newlines (padding enc n) = padding enc n.
Proof.
  unfold padding. destruct (padded enc); [|done]. by destruct n as [|[|[|n]]].
Qed.

Lemma digits_range a b c :
  0 <= a < 256 -> 0 <= b < 256 -> 0 <= c < 256 ->
  let n := quantum a b c in
  0 <= d1 n < 64 /\ 0 <= d2 n < 64 /\ 0 <= d3 n < 64 /\ 0 <= d4 n < 64.
Proof.
  unfold quantum, d1, d2, d3, d4. intros Ha Hb Hc. simpl.
  repeat split; try apply Z.mod_pos_bound; try lia.
  - apply Z.div_pos; lia.
  - apply Z.div_lt_upper_bound; lia.
Qed.

Lemma sextets_digits n :
  0 <= n < 16777216 -> sextets (d1 n) (d2 n) (d3 n) (d4 n) = n.
Proof.
  unfold sextets, d1, d2, d3, d4. intros H.
  rewrite (Z.div_mod n 64) at 5 by lia.
  replace (n / 4096) with (n / 64 / 64) by (rewrite Z.div_div by lia; done).
  replace (n / 262144) with (n / 64 / 64 / 64) by (rewrite !Z.div_div by lia; done).
  pose proof (Z.div_mod (n / 64) 64 ltac:(lia)).
  pose proof (Z.div_mod (n / 64 / 64) 64 ltac:(lia)). lia.
Qed.

Lemma quantum_bytes a b c :
  0 <= a < 256 -> 0 <= b < 256 -> 0 <= c < 256 ->
  quantum a b c / 65536 = a /\ (quantum a b c / 256) mod 256 = b /\ quantum a b c mod 256 = c.
Proof.
  unfold quantum. intros Ha Hb Hc.
  assert ((65536 * a + 256 * b + c) / 256 = 256 * a + b) as H256.
  { symmetry. apply Z.div_unique with c; lia. }
  split_and!.
  - symmetry. apply Z.div_unique with (256 * b + c); lia.
  - rewrite H256. symmetry. apply Z.mod_unique with a; lia.
  - symmetry. apply Z.mod_unique with (256 * a + b); lia.
Qed.

Lemma quantum_range a b c :
  0 <= a < 256 -> 0 <= b < 256 -> 0 <= c < 256 -> 0 <= quantum a b c < 16777216.
Proof. unfold quantum. lia. Qed.

(** A partial quantum leaves its last digits zero. *)
Lemma partial_digits a b :
  d4 (quantum a b 0) = 0 /\ d3 (quantum a 0 0) = 0.
Proof.
  unfold d4, d3, quantum. split.
  - replace (65536 * a + 256 * b + 0) with ((1024 * a + 4 * b) * 64) by lia. apply Z_mod_mult.
  - replace (65536 * a + 256 * 0 + 0) with (16 * a * 64 * 64) by lia.
    rewrite Z.div_mul by lia. apply Z_mod_mult.
Qed.

Lemma strip_EncodeToString s :
  strip_newlines (EncodeToString enc s) = EncodeToString enc s.
Proof.
  induction s as [s IH] using (induction_ltof1 _ slen). unfold ltof in IH.
  destruct s as [|a [|b [|c s]]]; [done | | |]; cbn [EncodeToString]; cbv zeta.
  - pose proof (digits_range _ 0 0 (byte_val_range a)) as Hd.
    destruct Hd as (H1 & H2 & _); [lia.. |].
    rewrite (proj2 (proj2 (enc_char_good _ H1))), (proj2 (proj2 (enc_char_good _ H2))).
    by rewrite strip_padding.
  - pose proof (digits_range _ _ 0 (byte_val_range a) (byte_val_range b)) as Hd.
    destruct Hd as (H1 & H2 & H3 & _); [lia.. |].
    rewrite (proj2 (proj2 (enc_char_good _ H1))), (proj2 (proj2 (enc_char_good _ H2))),
      (proj2 (proj2 (enc_char_good _ H3))).
    by rewrite strip_padding.
  - pose proof (digits_range _ _ _ (byte_val_range a) (byte_val_range b) (byte_val_range c)) as Hd.
    destruct Hd as (H1 & H2 & H3 & H4).
    rewrite (proj2 (proj2 (enc_char_good _ H1))), (proj2 (proj2 (enc_char_good _ H2))),
      (proj2 (proj2 (enc_char_good _ H3))), (proj2 (proj2 (enc_char_good _ H4))).
    rewrite IH; [done | simpl; lia].
Qed.

Lemma decode_EncodeToString s : decode enc (EncodeToString enc s) = Some s.
Proof.
  induction s as [s IH] using (induction_ltof1 _ slen). unfold ltof in IH.
  destruct s as [|a [|b [|c s]]]; [done | | |]; cbn [EncodeToString]; cbv zeta.
  - pose proof (byte_val_range a) as Ra.
    destruct (digits_range _ 0 0 Ra) as (H1 & H2 & _); [lia.. |].
    destruct (enc_char_good _ H1) as (D1 & _ & _), (enc_char_good _ H2) as (D2 & _ & _).
    destruct (partial_digits (byte_val a) 0) as [Hz4 Hz3].
    destruct (quantum_bytes _ 0 0 Ra) as (Q & _ & _); [lia.. |].
    assert (Hs : sextets (d1 (quantum (byte_val a) 0 0)) (d2 (quantum (byte_val a) 0 0)) 0 0
                 = quantum (byte_val a) 0 0).
    { rewrite <- (sextets_digits (quantum (byte_val a) 0 0)) at 3
        by (apply quantum_range; lia). by rewrite Hz3, Hz4. }
    unfold padding, is_pad.
    destruct (padded enc) eqn:Ep; simpl; rewrite D1; simpl; rewrite D2; simpl;
      unfold is_pad; rewrite ?Ep; simpl; unfold b1; rewrite Hs, Q, val_byte_val; done.
  - pose proof (byte_val_range a) as Ra. pose proof (byte_val_range b) as Rb.
    destruct (digits_range _ _ 0 Ra Rb) as (H1 & H2 & H3 & _); [lia.. |].
    destruct (enc_char_good _ H1) as (D1 & _ & _), (enc_char_good _ H2) as (D2 & _ & _),
      (enc_char_good _ H3) as (D3 & P3 & _).
    destruct (partial_digits (byte_val a) (byte_val b)) as [Hz4 _].
    destruct (quantum_bytes _ _ 0 Ra Rb) as (Q1 & Q2 & _); [lia.. |].
    set (n := quantum (byte_val a) (byte_val b) 0) in *.
    assert (Hs : sextets (d1 n) (d2 n) (d3 n) 0 = n).
    { rewrite <- (sextets_digits n) at 4 by (apply quantum_range; lia). by rewrite Hz4. }
    unfold padding.
    destruct (padded enc) eqn:Ep; cbn [decode stake]; rewrite ?Ep, D1; simpl; rewrite D2; simpl;
      rewrite ?P3, D3; simpl; unfold is_pad; rewrite ?Ep; simpl;
      unfold b1, b2; rewrite Hs, Q1, Q2, !val_byte_val; done.
  - pose proof (byte_val_range a) as Ra. pose proof (byte_val_range b) as Rb.
    pose proof (byte_val_range c) as Rc.
    destruct (digits_range _ _ _ Ra Rb Rc) as (H1 & H2 & H3 & H4).
    destruct (enc_char_good _ H1) as (D1 & _ & _), (enc_char_good _ H2) as (D2 & _ & _),
      (enc_char_good _ H3) as (D3 & P3 & _), (enc_char_good _ H4) as (D4 & P4 & _).
    destruct (quantum_bytes _ _ _ Ra Rb Rc) as (Q1 & Q2 & Q3).
    set (n := quantum (byte_val a) (byte_val b) (byte_val c)) in *.
    assert (Hs : sextets (d1 n) (d2 n) (d3 n) (d4 n) = n)
      by (apply sextets_digits, quantum_range; lia).
    cbn [decode]. rewrite D1; simpl; rewrite D2; simpl. rewrite P3, D3. simpl.
    rewrite P4, D4. simpl. rewrite IH by (simpl; lia). simpl.
    unfold b1, b2, b3. by rewrite Hs, Q1, Q2, Q3, !val_byte_val.
Qed.

Lemma DecodeString_EncodeToString s : DecodeString enc (EncodeToString enc s) = Ok s.
Proof. unfold DecodeString. by rewrite strip_EncodeToString, decode_EncodeToString. Qed.
End RoundTrip.

Lemma StdEncoding_good : good_alphabet StdEncoding = true.
Proof. vm_compute. reflexivity. Qed.

Lemma RawURLEncoding_good : good_alphabet RawURLEncoding = true.
Proof. vm_compute. reflexivity. Qed.

(** [DecodeString(EncodeToString(s)) == s] for both encodings. *)
Lemma std_roundtrip s : DecodeString StdEncoding (EncodeToString StdEncoding s) = Ok s.
Proof. apply DecodeString_EncodeToString, StdEncoding_good. Qed.

Lemma rawurl_roundtrip s : DecodeString RawURLEncoding (EncodeToString RawURLEncoding s) = Ok s.
Proof. apply DecodeString_EncodeToString, RawURLEncoding_good. Qed.

#[export] Hint Rewrite std_roundtrip rawurl_roundtrip : toa.

Example encode_foob : EncodeToString StdEncoding "foob" = "Zm9vYg==".
Proof. reflexivity. Qed.

Example decode_rawurl : DecodeString RawURLEncoding "_-8" = Ok (bytes [255; 239]%nat).
Proof. reflexivity. Qed.
