(* ===== verification/GoUrl.v ===== *)
(** * Package [net/url]: escaping and query strings

    [PathUnescape], [QueryUnescape], [QueryEscape], [ParseQuery] and
    [Values.Encode].  Parsing and printing of whole URLs is a parameter of the
    files that need it (class [UrlLib]). *)

From Stdlib Require Import ZArith Lia Ascii String Bool List.
From stdpp Require Import sorting.
From S2P Require Import Prelude GoStrings.

Definition hex_val (c : ascii) : option nat :=
  let n := nat_of_ascii c in
  if (48 <=? n)%nat && (n <=? 57)%nat then Some (n - 48)%nat
  else if (97 <=? n)%nat && (n <=? 102)%nat then Some (n - 87)%nat
  else if (65 <=? n)%nat && (n <=? 70)%nat then Some (n - 55)%nat
  else None.

(** [unescape(s, mode)] for the path-segment mode ([plus = false]) and the
    query-component mode ([plus = true]); [None] is an [EscapeError]. *)
Fixpoint unescape (plus : bool) (s : string) : option string :=
  match s with
  | EmptyString => Some ""
  | String c s' =>
      if Ascii.eqb c "%" then
        match s' with
        | String h (String l s'') =>
            x ← hex_val h; y ← hex_val l; r ← unescape plus s'';
            Some (String (ascii_of_nat (16 * x + y)) r)
        | _ => None
        end
      else
        r ← unescape plus s';
        Some (String (if plus && Ascii.eqb c "+" then " "%char else c) r)
  end.

Definition PathUnescape : string -> option string := unescape false.
Definition QueryUnescape : string -> option string := unescape true.

Definition hex_digit (n : nat) : ascii :=
  match String.get n "0123456789ABCDEF" with Some c => c | None => "0"%char end.

Definition is_digit (c : ascii) : bool := (48 <=? nat_of_ascii c)%nat && (nat_of_ascii c <=? 57)%nat.
Definition is_alnum (c : ascii) : bool := is_lower c || is_upper c || is_digit c.
Definition unreserved (c : ascii) : bool := is_alnum c || byte_in c "-_.~".

Fixpoint QueryEscape (s : string) : string :=
  match s with
  | EmptyString => ""
  | String c s' =>
      if unreserved c then String c (QueryEscape s')
      else if Ascii.eqb c " " then String "+" (QueryEscape s')
      else String "%" (String (hex_digit (nat_of_ascii c / 16)) (String (hex_digit (nat_of_ascii c mod 16)) (QueryEscape s')))
  end.

(** Finite facts about bytes, by computation over the 256 of them. *)
Lemma byte_forall (P : ascii -> bool) :
  forallb (fun n => P (ascii_of_nat n)) (seq 0 256) = true -> forall c, P c = true.
Proof.
  intros H c. rewrite forallb_forall in H. rewrite <- (ascii_nat_embedding c).
  apply H, in_seq. pose proof (nat_ascii_bounded c). lia.
Qed.

Definition escape_byte_ok (c : ascii) : bool :=
  implb (unreserved c) (negb (Ascii.eqb c "%") && negb (Ascii.eqb c "+"))
  && bool_decide (hex_val (hex_digit (nat_of_ascii c / 16)) = Some (nat_of_ascii c / 16)%nat)
  && bool_decide (hex_val (hex_digit (nat_of_ascii c mod 16)) = Some (nat_of_ascii c mod 16)%nat).

Lemma escape_byte c :
  (unreserved c = true -> Ascii.eqb c "%" = false /\ Ascii.eqb c "+" = false)
  /\ (hex_val (hex_digit (nat_of_ascii c / 16)) = Some (nat_of_ascii c / 16)%nat
      /\ hex_val (hex_digit (nat_of_ascii c mod 16)) = Some (nat_of_ascii c mod 16)%nat).
Proof.
  assert (escape_byte_ok c = true) as H.
  { apply (byte_forall escape_byte_ok). vm_compute. reflexivity. }
  unfold escape_byte_ok in H. boolprop.
  repeat match goal with H : bool_decide _ = true |- _ => apply bool_decide_eq_true in H end.
  split; [|done]. intros Hu. rewrite Hu in *. simpl in *. boolprop. auto.
Qed.

(** [QueryUnescape(QueryEscape(s)) == s] *)
Lemma QueryUnescape_QueryEscape s : QueryUnescape (QueryEscape s) = Some s.
Proof.
  unfold QueryUnescape. induction s as [|c s IH]; [done|]. cbn [QueryEscape].
  destruct (escape_byte c) as [Hu [Hh Hl]].
  destruct (unreserved c) eqn:E.
  - destruct Hu as [H1 H2]; [done|]. cbn [unescape]. rewrite H1, IH. simpl. by rewrite H2.
  - destruct (Ascii.eqb_spec c " ") as [->|Hne]; cbn [unescape].
    + simpl. by rewrite IH.
    + simpl Ascii.eqb. cbv iota. rewrite Hh, Hl, IH. cbn [mbind option_bind].
      rewrite <- (Nat.div_mod_eq (nat_of_ascii c) 16). by rewrite ascii_nat_embedding.
Qed.

(** ** Query strings *)

(** [strings.Cut(s, c)] for a one-byte separator, without the flag. *)
Fixpoint CutByte (s : string) (c : ascii) : string * string :=
  match s with
  | EmptyString => ("", "")
  | String d s' =>
      if Ascii.eqb d c then ("", s')
      else let '(a, b) := CutByte s' c in (String d a, b)
  end.

Definition parse_pair (w : string) : option (string * string) :=
  if byte_in ";" w then None
  else if String.eqb w "" then None
  else let '(k, v) := CutByte w "=" in
       k' ← QueryUnescape k; v' ← QueryUnescape v; Some (k', v').

(** [u.Query()]: the well-formed pairs, in order. *)
Definition ParseQuery (raw : string) : list (string * string) :=
  omap parse_pair (SplitByte raw "&").

(** [u.Query().Get(key)]: the first value, or the empty string. *)
Definition query_get (q : list (string * string)) (key : string) : string :=
  match list_find (fun kv => kv.1 = key) q with
  | Some (_, kv) => kv.2
  | None => ""
  end.

(** [url.Values]: every key holds the list of its values. *)
Abbreviation values := (gmap string (list string)).

Definition values_Set (v : values) (k x : string) : values := <[k := [x]]> v.
Definition values_Add (v : values) (k x : string) : values :=
  <[k := default [] (v !! k) ++ [x]]> v.
Definition values_Get (v : values) (k : string) : string :=
  match v !! k with Some (x :: _) => x | _ => "" end.

Definition key_le (a b : string * list string) : Prop := String.leb a.1 b.1 = true.
#[global] Instance key_le_dec a b : Decision (key_le a b).
Proof. unfold key_le. apply _. Defined.

Definition encode_pair (k x : string) : string := QueryEscape k +:+ "=" +:+ QueryEscape x.

(** [v.Encode()]: sorted by key. *)
Definition values_Encode (v : values) : string :=
  Join (concat (map (fun kv => map (encode_pair kv.1) kv.2) (merge_sort key_le (map_to_list v)))) "&".

Example encode_two : values_Encode (values_Set (values_Set ∅ "b" "x y") "a" "1&2") = "a=1%262&b=x+y".
Proof. vm_compute. reflexivity. Qed.

Example parse_two :
  let q := ParseQuery "state=a%2Fb&x=1;2&code=c+d&code=e" in
  (query_get q "state", query_get q "code", query_get q "x") = ("a/b", "c d", "").
Proof. vm_compute. reflexivity. Qed.
