(* ===== verification/Json.v ===== *)
(** * Package [encoding/json]: values, struct codecs and times

    A JSON text is parsed into a value of the type [json]; the text syntax
    itself (and the RFC 3339 syntax of a [time.Time]) is an interface,
    [JsonText] and [TimeText].  What [Marshal] and [Unmarshal] do with the
    fields of a struct is written out: exact names first, then names equal
    under case folding; [null] leaves a field alone; a value of another kind
    is an error; the last occurrence of a key wins. *)

From Stdlib Require Import ZArith Lia Ascii String Bool List SpecFloat.
From stdpp Require Import countable.
From S2P Require Import Prelude GoStrings.

(** ** Values *)

Inductive json : Type :=
| JNull
| JBool (b : bool)
| JNum (literal : string)
| JStr (s : string)
| JArr (elems : list json)
| JObj (members : list (string * json)).

(** ** Valid UTF-8, as [utf8.ValidString] *)

Definition code (c : ascii) : Z := Z.of_N (N_of_ascii c).
Definition in_range (lo hi : Z) (c : ascii) : bool := (lo <=? code c) && (code c <=? hi).
Definition continuation (c : ascii) : bool := in_range 128 191 c.

Fixpoint valid_utf8 (s : string) : bool :=
  match s with
  | EmptyString => true
  | String a s1 =>
      if code a <? 128 then valid_utf8 s1
      else match s1 with
      | EmptyString => false
      | String b s2 =>
          if in_range 194 223 a then continuation b && valid_utf8 s2
          else match s2 with
          | EmptyString => false
          | String c s3 =>
              if in_range 224 239 a then
                (if code a =? 224 then in_range 160 191 b
                 else if code a =? 237 then in_range 128 159 b else continuation b)
                && continuation c && valid_utf8 s3
              else match s3 with
              | EmptyString => false
              | String d s4 =>
                  in_range 240 244 a
                  && (if code a =? 240 then in_range 144 191 b
                      else if code a =? 244 then in_range 128 143 b else continuation b)
                  && continuation c && continuation d && valid_utf8 s4
              end
          end
      end
  end.

Lemma valid_utf8_ascii s : sforall is_ascii s = true -> valid_utf8 s = true.
Proof.
  induction s as [|c s IH]; [done|]. cbn [sforall valid_utf8].
  intros [Hc Hs]%andb_true_iff.
  assert (code c <? 128 = true) as ->; [|by apply IH].
  destruct c as [[] [] [] [] [] [] [] []]; done.
Qed.

(** A numeric literal that [strconv.Itoa] writes. *)
Definition int_literal (s : string) : bool :=
  match Atoi s with Some z => String.eqb (Itoa z) s | None => false end.

(** Values whose strings [Marshal] writes unchanged (it replaces invalid
    UTF-8) and whose numbers are integers. *)
Fixpoint json_plain (j : json) : bool :=
  match j with
  | JNull | JBool _ => true
  | JNum lit => int_literal lit
  | JStr s => valid_utf8 s
  | JArr l => forallb json_plain l
  | JObj ms => forallb (fun m => valid_utf8 m.1 && json_plain m.2) ms
  end.

(** ** The text syntax *)

(** [json_parse] is for [Unmarshal]; [json_decode] is for a [Decoder], which
    reads the first value of the text and ignores what follows it. *)
Class JsonText := {
  json_parse : string -> result json;
  json_decode : string -> result json;
  json_print : json -> string
}.

(** Printing a plain value and parsing it back gives the value. *)
Class JsonLaws `{JsonText} : Prop :=
  json_parse_print j : json_plain j = true -> json_parse (json_print j) = Ok j.

(** [time.Time.MarshalJSON] and [UnmarshalJSON] on the quoted text; years
    outside 0..9999 cannot be written. *)
Class TimeText := {
  time_format : time -> result string;
  time_parse : string -> result time;
  time_Parse_RFC3339 : string -> result time
}.

(** 10000-01-01T00:00:00Z *)
Definition time_limit : time := 315537897600 * Second.

Definition time_ok (t : time) : Prop := 0 <= t < time_limit.

Class TimeLaws `{TimeText} : Prop :=
  time_format_parse t : time_ok t ->
    exists s, time_format t = Ok s /\ valid_utf8 s = true /\ time_parse s = Ok t.

(** ** Decoding into typed places

    [old] is the value the place holds before. *)

Definition type_error {A} : result A := errorf "json: cannot unmarshal value into Go value".

Definition dec_string (old : string) (j : json) : result string :=
  match j with JStr s => Ok s | JNull => Ok old | _ => type_error end.
Definition dec_bool (old : bool) (j : json) : result bool :=
  match j with JBool b => Ok b | JNull => Ok old | _ => type_error end.
Definition dec_int (old : Z) (j : json) : result Z :=
  match j with
  | JNum lit => match Atoi lit with Some z => Ok z | None => type_error end
  | JNull => Ok old
  | _ => type_error
  end.
Definition dec_time `{TimeText} (old : time) (j : json) : result time :=
  match j with JStr s => time_parse s | JNull => Ok old | _ => type_error end.

(** The elements of a slice of strings; [null] elements are empty strings. *)
Fixpoint dec_strings_elems (l : list json) : result (list string) :=
  match l with
  | [] => Ok []
  | j :: rest =>
      let? s := dec_string "" j in
      let? ss := dec_strings_elems rest in
      Ok (s :: ss)
  end.
Definition dec_strings (j : json) : result (list string) :=
  match j with
  | JArr l => dec_strings_elems l
  | JNull => Ok []
  | _ => type_error
  end.

(** A Go map with string keys: the last occurrence of a key wins. *)
Definition members_map {A} (ms : list (string * A)) : gmap string A :=
  foldl (fun acc m => <[m.1 := m.2]> acc) ∅ ms.

(** [json.Unmarshal] into [map[string]T]: a [null] leaves the map nil. *)
Definition dec_map (j : json) : result (gmap string json) :=
  match j with
  | JObj ms => Ok (members_map ms)
  | JNull => Ok ∅
  | _ => type_error
  end.

(** *** Structs *)

Section Structs.
Context `{Unicode} {S : Type}.

Definition fields := list (string * (json -> S -> result S)).

Fixpoint find_field (p : string -> bool) (fs : fields) : option (json -> S -> result S) :=
  match fs with
  | [] => None
  | (n, f) :: fs' => if p n then Some f else find_field p fs'
  end.

Definition select_field (fs : fields) (key : string) : option (json -> S -> result S) :=
  match find_field (String.eqb key) fs with
  | Some f => Some f
  | None => find_field (EqualFold key) fs
  end.

Fixpoint dec_members (fs : fields) (ms : list (string * json)) (s : S) : result S :=
  match ms with
  | [] => Ok s
  | (k, j) :: ms' =>
      match select_field fs k with
      | None => dec_members fs ms' s
      | Some f => let? s' := f j s in dec_members fs ms' s'
      end
  end.

(** [json.Unmarshal] of a parsed value into a struct holding [s]. *)
Definition dec_struct (fs : fields) (j : json) (s : S) : result S :=
  match j with
  | JObj ms => dec_members fs ms s
  | JNull => Ok s
  | _ => type_error
  end.

End Structs.

(** *** Encoding *)

(** A member of a struct with [omitempty]. *)
Definition omit_string (k v : string) : list (string * json) :=
  if String.eqb v "" then [] else [(k, JStr v)].
Definition omit_bool (k : string) (v : bool) : list (string * json) :=
  if v then [(k, JBool true)] else [].

(** Decoding a member whose key is the exact name of a field, and one that
    may have been omitted because it equals what the struct holds already. *)
Section Members.
Context `{Unicode} {S : Type}.
Implicit Types (fs : list (string * (json -> S -> result S))) (s : S).

Lemma dec_members_hit fs k j ms s f s' :
  find_field (String.eqb k) fs = Some f -> f j s = Ok s' ->
  dec_members fs ((k, j) :: ms) s = dec_members fs ms s'.
Proof. intros Hf Hs. cbn [dec_members]. unfold select_field. by rewrite Hf, Hs. Qed.

Lemma dec_members_omit_string fs k v ms s f s' :
  find_field (String.eqb k) fs = Some f -> f (JStr v) s = Ok s' -> (v = "" -> s' = s) ->
  dec_members fs (omit_string k v ++ ms) s = dec_members fs ms s'.
Proof.
  intros Hf Hs He. unfold omit_string. destruct (String.eqb_spec v "") as [->|_].
  - by rewrite He.
  - by eapply dec_members_hit.
Qed.

Lemma dec_members_omit_bool fs k v ms s f s' :
  find_field (String.eqb k) fs = Some f -> f (JBool v) s = Ok s' -> (v = false -> s' = s) ->
  dec_members fs (omit_bool k v ++ ms) s = dec_members fs ms s'.
Proof.
  intros Hf Hs He. unfold omit_bool. destruct v; [by eapply dec_members_hit | by rewrite He].
Qed.
End Members.

(** One step of decoding a printed struct: [H] rewrites the time texts. *)
Ltac dec_step :=
  first
    [ etrans; [eapply dec_members_hit; [reflexivity | cbn [dec_string dec_bool dec_time rbind]; reflexivity] |]
    | etrans; [eapply dec_members_omit_string;
               [reflexivity | cbn [dec_string rbind]; reflexivity | let E := fresh in intros E; rewrite E; reflexivity] |]
    | etrans; [eapply dec_members_omit_bool;
               [reflexivity | cbn [dec_bool rbind]; reflexivity | let E := fresh in intros E; rewrite E; reflexivity] |] ].

Lemma omit_string_plain k v :
  valid_utf8 k = true -> valid_utf8 v = true ->
  forallb (fun m => valid_utf8 m.1 && json_plain m.2) (omit_string k v) = true.
Proof. intros Hk Hv. unfold omit_string. case_match; [done|]. cbn. by rewrite Hk, Hv. Qed.

Lemma omit_bool_plain k v :
  valid_utf8 k = true ->
  forallb (fun m => valid_utf8 m.1 && json_plain m.2) (omit_bool k v) = true.
Proof. intros Hk. unfold omit_bool. destruct v; [|done]. cbn. by rewrite Hk. Qed.

Definition enc_int (z : Z) : json := JNum (Itoa z).

Lemma dec_enc_int old z : int64_range z -> dec_int old (enc_int z) = Ok z.
Proof. intros Hz. unfold dec_int, enc_int. rewrite Atoi_Itoa; [done | exact Hz]. Qed.

Lemma enc_int_plain z : int64_range z -> json_plain (enc_int z) = true.
Proof.
  intros Hz. simpl. unfold int_literal. rewrite Atoi_Itoa; [apply String.eqb_refl | exact Hz].
Qed.

(** ** A concrete text syntax

    Values are enumerable, so writing the number of a value in binary is a
    text syntax that satisfies the laws; the witnesses of the clients use it. *)

Section JsonInd.
Variable P : json -> Prop.
Hypothesis (Hnull : P JNull) (Hbool : forall b, P (JBool b)) (Hnum : forall s, P (JNum s))
  (Hstr : forall s, P (JStr s)) (Harr : forall l, Forall P l -> P (JArr l))
  (Hobj : forall ms, Forall (fun m => P m.2) ms -> P (JObj ms)).

Fixpoint json_nested_ind (j : json) : P j :=
  match j with
  | JNull => Hnull
  | JBool b => Hbool b
  | JNum s => Hnum s
  | JStr s => Hstr s
  | JArr l =>
      Harr l ((fix go l := match l return Forall P l with
                           | [] => List.Forall_nil _
                           | x :: r => List.Forall_cons _ _ _ (json_nested_ind x) (go r)
                           end) l)
  | JObj ms =>
      Hobj ms ((fix go ms := match ms return Forall (fun m => P m.2) ms with
                             | [] => List.Forall_nil _
                             | m :: r => List.Forall_cons _ _ _ (json_nested_ind m.2) (go r)
                             end) ms)
  end.
End JsonInd.

Fixpoint to_tree (j : json) : gen_tree string :=
  match j with
  | JNull => GenNode 0 []
  | JBool b => GenNode (if b then 1 else 2) []
  | JNum s => GenNode 3 [GenLeaf s]
  | JStr s => GenNode 4 [GenLeaf s]
  | JArr l => GenNode 5 (map to_tree l)
  | JObj ms => GenNode 6 (map (fun m => GenNode 7 [GenLeaf m.1; to_tree m.2]) ms)
  end.

Fixpoint of_tree (t : gen_tree string) : json :=
  match t with
  | GenNode 0 _ => JNull
  | GenNode 1 _ => JBool true
  | GenNode 2 _ => JBool false
  | GenNode 3 [GenLeaf s] => JNum s
  | GenNode 4 [GenLeaf s] => JStr s
  | GenNode 5 l => JArr (map of_tree l)
  | GenNode 6 l =>
      JObj (map (fun t => match t with
                          | GenNode _ [GenLeaf k; v] => (k, of_tree v)
                          | _ => ("", JNull)
                          end) l)
  | _ => JNull
  end.

Lemma of_to_tree j : of_tree (to_tree j) = j.
Proof.
  induction j as [|[]|s|s|l IH|ms IH] using json_nested_ind; simpl; try done; f_equal.
  - induction IH as [|x l Hx _ IHl]; simpl; [done|]. by rewrite Hx, IHl.
  - induction IH as [|[k x] l Hx _ IHl]; simpl in *; [done|]. by rewrite Hx, IHl.
Qed.

#[global] Instance json_eq_dec : EqDecision json.
Proof.
  intros x y. destruct (decide (to_tree x = to_tree y)) as [E|E].
  - left. by rewrite <- (of_to_tree x), E, of_to_tree.
  - right. congruence.
Defined.

#[global] Instance json_countable : Countable json := inj_countable' to_tree of_tree of_to_tree.
