(* ===== verification/Http.v ===== *)
(** * Package [net/http]: headers, cookies, requests and responses

    The part of [net/http] the handlers use.  A request carries the parsed
    form of its Cookie header; a response records what the client receives:
    once its status line is written, later headers, cookies and status codes
    have no effect. *)

From Stdlib Require Import ZArith Lia Ascii String Bool List.
From S2P Require Import Prelude GoStrings GoUrl.

(** ** Header maps *)

(** [textproto.CanonicalMIMEHeaderKey]: a name with a byte that may not occur
    in a header name is left alone; otherwise the first letter and the letters
    after a hyphen are upper-cased and the others lower-cased. *)
Definition token_char (c : ascii) : bool := is_alnum c || byte_in c "!#$%&'*+-.^_`|~".

Fixpoint canonical_from (upper : bool) (s : string) : string :=
  match s with
  | EmptyString => ""
  | String c s' =>
      String (if upper then upper_char c else lower_char c) (canonical_from (Ascii.eqb c "-") s')
  end.

Definition CanonicalMIMEHeaderKey (s : string) : string :=
  if sforall token_char s then canonical_from true s else s.

Abbreviation header := (gmap string (list string)).

Definition header_Get (h : header) (k : string) : string :=
  match h !! CanonicalMIMEHeaderKey k with Some (x :: _) => x | _ => "" end.
Definition header_Set (k v : string) (h : header) : header :=
  <[CanonicalMIMEHeaderKey k := [v]]> h.
Definition header_Add (k v : string) (h : header) : header :=
  let key := CanonicalMIMEHeaderKey k in <[key := default [] (h !! key) ++ [v]]> h.
Definition header_Del (k : string) (h : header) : header :=
  delete (CanonicalMIMEHeaderKey k) h.

Lemma header_Get_Set k v h : header_Get (header_Set k v h) k = v.
Proof. unfold header_Get, header_Set. by rewrite lookup_insert_eq. Qed.

Lemma header_Get_Del k h : header_Get (header_Del k h) k = "".
Proof. unfold header_Get, header_Del. by rewrite lookup_delete_eq. Qed.

(** ** Cookies *)

Inductive SameSite := SameSiteDefaultMode | SameSiteLaxMode | SameSiteStrictMode | SameSiteNoneMode.

#[global] Instance SameSite_eq_dec : EqDecision SameSite.
Proof. solve_decision. Defined.

Record Cookie := {
  c_Name : string;
  c_Value : string;
  c_Path : string;
  c_Domain : string;
  c_Expires : time;
  c_MaxAge : Z;
  c_Secure : bool;
  c_HttpOnly : bool;
  c_SameSite : SameSite
}.

(** [Name] must be a non-empty token for the cookie to be serialised. *)
Definition valid_cookie_name (n : string) : bool :=
  negb (String.eqb n "") && sforall token_char n.

(** What a cookie value or path may hold; the other bytes are dropped when the
    cookie is written.  A value with a space or a comma is written in quotes. *)
Definition quote_char : ascii := "034".

Definition validCookieValueByte (c : ascii) : bool :=
  (32 <=? nat_of_ascii c)%nat && (nat_of_ascii c <? 127)%nat
  && negb (Ascii.eqb c quote_char) && negb (Ascii.eqb c ";") && negb (Ascii.eqb c "\").

Definition validCookiePathByte (c : ascii) : bool :=
  (32 <=? nat_of_ascii c)%nat && (nat_of_ascii c <? 127)%nat && negb (Ascii.eqb c ";").

Fixpoint valid_bytes (valid : ascii -> bool) (s : string) : string :=
  match s with
  | EmptyString => ""
  | String c s' => if valid c then String c (valid_bytes valid s') else valid_bytes valid s'
  end.

Definition quoted (v : string) : string := String quote_char (v +:+ String quote_char "").

Definition sanitizeCookieValue (v : string) : string :=
  let v := valid_bytes validCookieValueByte v in
  if sforall (fun c => negb (byte_in c " ,")) v then v else quoted v.

(** The cookie as the client receives it. *)
Definition serialised (c : Cookie) : Cookie :=
  {| c_Name := c_Name c; c_Value := sanitizeCookieValue (c_Value c);
     c_Path := valid_bytes validCookiePathByte (c_Path c); c_Domain := c_Domain c;
     c_Expires := c_Expires c; c_MaxAge := c_MaxAge c; c_Secure := c_Secure c;
     c_HttpOnly := c_HttpOnly c; c_SameSite := c_SameSite c |}.

(** A value of a Cookie header: quotes around it are removed, and one with a
    byte that may not occur is not a cookie. *)
Definition parseCookieValue (raw : string) : option string :=
  let value :=
    if (1 <? slen raw)%nat && HasPrefix raw (String quote_char "") && HasSuffix raw (String quote_char "")
    then stake (slen raw - 2) (sdrop 1 raw) else raw in
  if sforall validCookieValueByte value then Some value else None.

Lemma valid_bytes_id valid s : sforall valid s = true -> valid_bytes valid s = s.
Proof.
  induction s as [|c s IH]; simpl; [done|]. intros [-> Hs]%andb_true_iff. by rewrite IH.
Qed.

(** A value of valid bytes survives the way to the client and back. *)
Lemma parse_sanitized v :
  sforall validCookieValueByte v = true -> parseCookieValue (sanitizeCookieValue v) = Some v.
Proof.
  intros Hv. unfold sanitizeCookieValue, parseCookieValue. rewrite valid_bytes_id by done. cbv zeta.
  destruct (sforall (fun c => negb _) v) eqn:Eq.
  - assert (Hc : HasPrefix v (String quote_char "") = false).
    { destruct (HasPrefix v _) eqn:Ep; [|done]. apply HasPrefix_spec in Ep as (r & ->). by vm_compute in Hv. }
    rewrite Hc, andb_false_r. cbn [andb]. by rewrite Hv.
  - unfold quoted.
    assert (Hp : HasPrefix (String quote_char (v +:+ String quote_char "")) (String quote_char "") = true)
      by (apply HasPrefix_spec; by eexists).
    assert (Hs : HasSuffix (String quote_char (v +:+ String quote_char "")) (String quote_char "") = true)
      by (apply HasSuffix_spec; by exists (String quote_char v)).
    rewrite Hp, Hs.
    assert (Hl : slen (String quote_char (v +:+ String quote_char "")) = S (slen v + 1)) by (simpl; by rewrite slen_app).
    rewrite Hl. assert (Hd : sdrop 1 (String quote_char (v +:+ String quote_char "")) = v +:+ String quote_char "")
      by apply (sdrop_0 _).
    rewrite Hd. replace (S (slen v + 1) - 2)%nat with (slen v) by lia.
    destruct (Nat.ltb_spec 1 (S (slen v + 1))); [|lia]. cbn [andb]. by rewrite stake_app, Hv.
Qed.

(** ** URLs and requests *)

Record URL := {
  u_Scheme : string;
  u_Host : string;
  u_Path : string;
  u_RawQuery : string
}.

(** [url.Parse], [URL.String], [URL.RequestURI], [url.ParseRequestURI],
    [path.Join] of two elements, and the target that [http.Redirect] derives
    from its argument. *)
Class UrlLib := {
  url_Parse : string -> result URL;
  url_String : URL -> string;
  url_RequestURI : URL -> string;
  url_ParseRequestURI : string -> result URL;
  path_Join : string -> string -> string;
  redirect_location : URL -> string -> string
}.

Record Request := {
  r_Method : string;
  r_URL : URL;
  r_Host : string;
  r_RequestURI : string;
  r_Header : header;
  r_Cookies : list (string * string);
  r_TLS : bool;
  r_RemoteAddr : string
}.

Definition with_header (f : header -> header) (r : Request) : Request :=
  {| r_Method := r_Method r; r_URL := r_URL r; r_Host := r_Host r; r_RequestURI := r_RequestURI r;
     r_Header := f (r_Header r); r_Cookies := r_Cookies r; r_TLS := r_TLS r;
     r_RemoteAddr := r_RemoteAddr r |}.

Definition with_cookies (cs : list (string * string)) (r : Request) : Request :=
  {| r_Method := r_Method r; r_URL := r_URL r; r_Host := r_Host r; r_RequestURI := r_RequestURI r;
     r_Header := r_Header r; r_Cookies := cs; r_TLS := r_TLS r;
     r_RemoteAddr := r_RemoteAddr r |}.

(** [req.Header.Get(k)], [req.URL.Query().Get(k)], [req.Cookie(name)]. *)
Definition req_header (r : Request) (k : string) : string := header_Get (r_Header r) k.
Definition req_query (r : Request) (k : string) : string := query_get (ParseQuery (u_RawQuery (r_URL r))) k.

Definition lookup_cookie (cs : list (string * string)) (name : string) : option string :=
  snd <$> (list_find (fun c => c.1 = name) cs ≫= fun p => Some p.2).

Definition req_Cookie (r : Request) (name : string) : result string :=
  match lookup_cookie (r_Cookies r) name with
  | Some v => Ok v
  | None => Err ErrNoCookie
  end.

Lemma lookup_cookie_cons n v cs name :
  lookup_cookie ((n, v) :: cs) name = if decide (n = name) then Some v else lookup_cookie cs name.
Proof.
  unfold lookup_cookie. simpl. case_decide; simpl; [done|].
  by destruct (list_find (fun c : string * string => c.1 = name) cs) as [[? []]|].
Qed.

Lemma lookup_cookie_nil name : lookup_cookie [] name = None.
Proof. done. Qed.

(** ** Responses *)

Record Response := {
  w_Status : option Z;
  w_Header : header;
  w_Cookies : list Cookie;
  w_Body : string
}.

Definition empty_response : Response :=
  {| w_Status := None; w_Header := ∅; w_Cookies := []; w_Body := "" |}.

Definition committed (w : Response) : bool :=
  match w_Status w with Some _ => true | None => false end.

Definition rw_header (f : header -> header) (w : Response) : Response :=
  if committed w then w
  else {| w_Status := w_Status w; w_Header := f (w_Header w); w_Cookies := w_Cookies w;
          w_Body := w_Body w |}.

(** [http.SetCookie(rw, c)] *)
Definition SetCookie (c : Cookie) (w : Response) : Response :=
  if committed w then w
  else if valid_cookie_name (c_Name c)
  then {| w_Status := w_Status w; w_Header := w_Header w; w_Cookies := w_Cookies w ++ [serialised c];
          w_Body := w_Body w |}
  else w.

Definition WriteHeader (code : Z) (w : Response) : Response :=
  if committed w then w
  else {| w_Status := Some code; w_Header := w_Header w; w_Cookies := w_Cookies w;
          w_Body := w_Body w |}.

Definition WriteBody (s : string) (w : Response) : Response :=
  let w' := WriteHeader 200 w in
  {| w_Status := w_Status w'; w_Header := w_Header w'; w_Cookies := w_Cookies w';
     w_Body := w_Body w' +:+ s |}.

(** [http.Error(rw, msg, code)] *)
Definition http_Error (msg : string) (code : Z) (w : Response) : Response :=
  WriteBody (msg +:+ String "010" "")
    (WriteHeader code
       (rw_header (fun h => header_Set "X-Content-Type-Options" "nosniff"
                     (header_Set "Content-Type" "text/plain; charset=utf-8"
                        (header_Del "Content-Length" h))) w)).

Section Redirect.
Context `{UrlLib}.

(** [http.Redirect(rw, req, url, code)]; the short HTML body is left out. *)
Definition http_Redirect (r : Request) (url : string) (code : Z) (w : Response) : Response :=
  WriteHeader code (rw_header (header_Set "Location" (redirect_location (r_URL r) url)) w).
End Redirect.

Lemma rw_header_committed f w : committed (rw_header f w) = committed w.
Proof. unfold rw_header. by destruct (committed w) eqn:E. Qed.

Lemma rw_header_cookies f w : w_Cookies (rw_header f w) = w_Cookies w.
Proof. unfold rw_header. by destruct (committed w). Qed.

Lemma rw_header_status f w : w_Status (rw_header f w) = w_Status w.
Proof. unfold rw_header. by destruct (committed w). Qed.

Lemma SetCookie_status c w : w_Status (SetCookie c w) = w_Status w.
Proof. unfold SetCookie. by repeat case_match. Qed.

Lemma SetCookie_committed c w : committed (SetCookie c w) = committed w.
Proof. unfold committed. by rewrite SetCookie_status. Qed.

Lemma WriteHeader_cookies code w : w_Cookies (WriteHeader code w) = w_Cookies w.
Proof. unfold WriteHeader. by destruct (committed w). Qed.

Lemma WriteHeader_status code w :
  w_Status (WriteHeader code w) = Some (default code (w_Status w)).
Proof. unfold WriteHeader, committed. by destruct (w_Status w) eqn:E. Qed.

Lemma WriteBody_status s w : w_Status (WriteBody s w) = Some (default 200 (w_Status w)).
Proof. unfold WriteBody. simpl. apply WriteHeader_status. Qed.

(** An error response on an uncommitted response has the given status, and on
    a committed one leaves the status alone. *)
Lemma http_Error_status msg code w :
  w_Status (http_Error msg code w) = Some (default code (w_Status w)).
Proof. unfold http_Error. by rewrite WriteBody_status, WriteHeader_status, rw_header_status. Qed.

Lemma http_Error_cookies msg code w : w_Cookies (http_Error msg code w) = w_Cookies w.
Proof.
  unfold http_Error, WriteBody. simpl. by rewrite !WriteHeader_cookies, rw_header_cookies.
Qed.

Lemma http_Redirect_status `{UrlLib} r url code w :
  w_Status (http_Redirect r url code w) = Some (default code (w_Status w)).
Proof. unfold http_Redirect. by rewrite WriteHeader_status, rw_header_status. Qed.

Lemma http_Redirect_cookies `{UrlLib} r url code w :
  w_Cookies (http_Redirect r url code w) = w_Cookies w.
Proof. unfold http_Redirect. by rewrite WriteHeader_cookies, rw_header_cookies. Qed.

Lemma http_Error_committed msg code w : committed (http_Error msg code w) = true.
Proof. unfold committed. by rewrite http_Error_status. Qed.

Lemma http_Redirect_committed `{UrlLib} r url code w : committed (http_Redirect r url code w) = true.
Proof. unfold committed. by rewrite http_Redirect_status. Qed.

#[export] Hint Resolve http_Error_committed http_Redirect_committed : toa.

#[export] Hint Rewrite @http_Error_status @http_Redirect_status @http_Error_cookies
  @http_Redirect_cookies SetCookie_status WriteHeader_status WriteBody_status : toa.

Example canonical_example :
  CanonicalMIMEHeaderKey "x-forwarded-USER" = "X-Forwarded-User".
Proof. reflexivity. Qed.
