(* ===== verification/Utils.v ===== *)
(** * Package [utils]: [src/utils/utils.go]

    Environment expansion, absolute URLs, chunking, the integers of a JWK, the
    Accept header, and the sealing functions over AES-GCM.  The redirect-URI
    matcher of the same file is in [RedirectUri]. *)

From Stdlib Require Import ZArith Lia Ascii String Bool List.
From Stdlib Require Import SpecFloat.
From S2P Require Import Prelude GoStrings Base64 GoUrl Http.

(** ** Environment variables and secret files *)

(** [os.LookupEnv] and [os.ReadFile] at the moment of the call. *)
Class Os := {
  os_LookupEnv : string -> option string;
  os_ReadFile : string -> result string
}.

Section Environment.
Context `{Os}.

(** The variable named by [${...}], if the value has that form. *)
Definition variable_name (value : string) : option string :=
  after ← CutPrefix value "${"; CutSuffix after "}".

Definition ExpandEnvironmentVariableString (value : string) : string :=
  match CutPrefix value "${" with
  | None => value
  | Some after =>
      match CutSuffix after "}" with
      | None => value
      | Some variableName =>
          match CutPrefix variableName "file:" with
          | Some filePath =>
              match os_ReadFile filePath with
              | Ok fileContent => TrimSpace fileContent
              | Err _ => value
              end
          | None =>
              match os_LookupEnv variableName with
              | Some variableValue => variableValue
              | None => value
              end
          end
      end
  end.

Definition ExpandEnvironmentVariableBoolean (value : string) (defaultValue : bool) : result bool :=
  let value :=
    match CutPrefix value "${" with
    | None => value
    | Some after =>
        match CutSuffix after "}" with
        | None => value
        | Some variableName =>
            match os_LookupEnv variableName with
            | Some variableValue => variableValue
            | None => value
            end
        end
    end in
  if String.eqb value "true" || String.eqb value "1" then Ok true
  else if String.eqb value "false" || String.eqb value "0" then Ok false
  else if negb (String.eqb value "") then errorf "invalid boolean value"
  else Ok defaultValue.

(** Which values a boolean setting accepts. *)
Lemma expand_bool_ok value d b :
  variable_name value = None ->
  ExpandEnvironmentVariableBoolean value d = Ok b ->
  (value ∈ ["true"; "1"] /\ b = true) \/ (value ∈ ["false"; "0"] /\ b = false) \/ (value = "" /\ b = d).
Proof.
  unfold variable_name, ExpandEnvironmentVariableBoolean. intros Hv.
  set (v := match CutPrefix value "${" with None => _ | Some _ => _ end).
  replace v with value by (unfold v; crush_matches). clear v Hv.
  destruct (String.eqb_spec value "true") as [->|]; simpl; [intros [= <-]; set_solver|].
  destruct (String.eqb_spec value "1") as [->|]; simpl; [intros [= <-]; set_solver|].
  destruct (String.eqb_spec value "false") as [->|]; simpl; [intros [= <-]; set_solver|].
  destruct (String.eqb_spec value "0") as [->|]; simpl; [intros [= <-]; set_solver|].
  destruct (String.eqb_spec value "") as [->|]; simpl; [intros [= <-]; auto | done].
Qed.
End Environment.

(** ** URLs of a request *)

Definition UrlIsAbsolute (u : URL) : bool :=
  negb (String.eqb (u_Scheme u) "") && negb (String.eqb (u_Host u) "").

Section Urls.
Context `{UrlLib}.

Definition ParseUrl (rawUrl : string) : result URL :=
  if String.eqb rawUrl "" then errorf "invalid empty url"
  else
    let rawUrl := if negb (Contains rawUrl "://") then "https://" +:+ rawUrl else rawUrl in
    let? u := url_Parse rawUrl in
    if negb (HasPrefix (u_Scheme u) "http") then errorf "not a valid scheme" else Ok u.
End Urls.

Definition getSchemeFromRequest (req : Request) : string :=
  let scheme := req_header req "X-Forwarded-Proto" in
  if String.eqb scheme "" then (if r_TLS req then "https" else "http") else scheme.

Definition FillHostSchemeFromRequest (req : Request) (u : URL) : URL :=
  let scheme := getSchemeFromRequest req in
  let host := req_header req "X-Forwarded-Host" in
  let host := if String.eqb host "" then r_Host req else host in
  {| u_Scheme := scheme; u_Host := host; u_Path := u_Path u; u_RawQuery := u_RawQuery u |}.

Definition GetFullHost (req : Request) : string :=
  let scheme := getSchemeFromRequest req in
  let host := req_header req "X-Forwarded-Host" in
  let host := if String.eqb host "" then r_Host req else host in
  scheme +:+ "://" +:+ host.

Definition EnsureAbsoluteUrl (req : Request) (url : string) : string :=
  if HasPrefix url "http://" || HasPrefix url "https://" then url
  else
    let host := GetFullHost req in
    let url := if negb (HasPrefix url "/") then "/" +:+ url else url in
    host +:+ url.

(** ** Integers of a JSON web key *)

(** [big.Int.SetBytes]: big-endian, unsigned. *)
Fixpoint SetBytes (acc : Z) (s : string) : Z :=
  match s with
  | EmptyString => acc
  | String c s' => SetBytes (256 * acc + byte_val c) s'
  end.

Definition ParseBigInt (s : string) : result Z :=
  let? b := DecodeString RawURLEncoding s in Ok (SetBytes 0 b).

(** [int(v.Int64())]: the low 64 bits as a signed integer. *)
Definition ParseInt (s : string) : result Z :=
  let? v := ParseBigInt s in Ok (wrap64 v).

Lemma SetBytes_nonneg acc s : 0 <= acc -> 0 <= SetBytes acc s.
Proof.
  revert acc. induction s as [|c s IH]; intros acc Ha; simpl; [done|].
  apply IH. pose proof (byte_val_range c). lia.
Qed.

Example parse_exponent : ParseInt "AQAB" = Ok 65537.
Proof. reflexivity. Qed.

(** ** Chunking *)

(** The loop of [ChunkString] from offset [i]; [fuel] bounds its iterations. *)
Fixpoint chunk_loop (fuel : nat) (input : string) (chunkSize i : nat) : list string :=
  match fuel with
  | O => []
  | S f =>
      if (i <? slen input)%nat then
        let e := (i + chunkSize)%nat in
        let e := if (slen input <? e)%nat then slen input else e in
        stake (e - i) (sdrop i input) :: chunk_loop f input chunkSize (i + chunkSize)
      else []
  end.

(** [ChunkString]: with a positive chunk size the loop runs at most once per
    byte, so the length of the input is enough fuel. *)
Definition ChunkString (input : string) (chunkSize : nat) : list string :=
  chunk_loop (slen input) input chunkSize 0.

Definition sconcat (l : list string) : string := foldr String.append "" l.

Lemma chunk_loop_concat fuel input size i :
  (0 < size)%nat -> (slen input - i <= fuel)%nat ->
  sconcat (chunk_loop fuel input size i) = sdrop i input.
Proof.
  intros Hs. revert i. induction fuel as [|f IH]; intros i Hf; simpl.
  - symmetry. apply slen_0. rewrite slen_sdrop. lia.
  - destruct (Nat.ltb_spec i (slen input)) as [Hi|Hi].
    2:{ symmetry. apply slen_0. rewrite slen_sdrop. lia. }
    simpl. rewrite IH by lia. destruct (Nat.ltb_spec (slen input) (i + size)).
    + rewrite stake_ge by (rewrite slen_sdrop; lia).
      rewrite (slen_0 (sdrop (i + size) input)) by (rewrite slen_sdrop; lia).
      apply sapp_nil_r.
    + replace (i + size - i)%nat with size by lia. rewrite <- sdrop_sdrop. apply stake_sdrop.
Qed.

Lemma chunk_loop_done fuel input size i :
  (slen input <= i)%nat -> chunk_loop fuel input size i = [].
Proof. destruct fuel; simpl; [done|]. intros H. apply Nat.ltb_ge in H. by rewrite H. Qed.

Lemma chunk_loop_length fuel input size i :
  (0 < size)%nat -> (slen input - i <= fuel)%nat ->
  (length (chunk_loop fuel input size i) * size < slen input - i + size)%nat
  /\ (slen input - i <= length (chunk_loop fuel input size i) * size)%nat.
Proof.
  intros Hs. revert i. induction fuel as [|f IH]; intros i Hf; simpl; [lia|].
  destruct (Nat.ltb_spec i (slen input)) as [Hi|Hi]; simpl; [|lia].
  destruct (decide (slen input <= i + size)%nat) as [Hle|].
  - rewrite chunk_loop_done by done. simpl. lia.
  - specialize (IH (i + size)%nat ltac:(lia)). lia.
Qed.

Lemma chunk_loop_sizes fuel input size i w :
  w ∈ chunk_loop fuel input size i -> (0 < size)%nat -> (0 < slen w <= size)%nat.
Proof.
  revert i. induction fuel as [|f IH]; intros i; simpl; [set_solver|].
  destruct (Nat.ltb_spec i (slen input)) as [Hi|Hi]; [|set_solver].
  rewrite elem_of_cons. intros [-> | Hw] Hs; [|eauto].
  rewrite slen_stake, slen_sdrop. destruct (Nat.ltb_spec (slen input) (i + size)); lia.
Qed.

Lemma ChunkString_concat input size :
  (0 < size)%nat -> sconcat (ChunkString input size) = input.
Proof.
  intros. unfold ChunkString. rewrite chunk_loop_concat by lia. apply sdrop_0.
Qed.

(** The number of chunks is the length divided by the chunk size, rounded up. *)
Lemma ChunkString_length input size :
  (0 < size)%nat ->
  (length (ChunkString input size) * size < slen input + size)%nat
  /\ (slen input <= length (ChunkString input size) * size)%nat.
Proof.
  intros Hs. unfold ChunkString.
  pose proof (chunk_loop_length (slen input) input size 0 Hs). lia.
Qed.

(** ** Sealing *)

(** AES-GCM: [gcm.Seal] and [gcm.Open] under a key, without the nonce prefix. *)
Class Aead := {
  gcm_Seal : string -> string -> string -> string -> string;
  gcm_Open : string -> string -> string -> string -> option string
}.

(** Decryption inverts encryption, and succeeds only on a ciphertext that
    encryption of its result produces (the tag is recomputed and compared). *)
Class AeadLaws `{Aead} : Prop := {
  gcm_Open_Seal k n p a : gcm_Open k n (gcm_Seal k n p a) a = Some p;
  gcm_Open_inv k n c a p : gcm_Open k n c a = Some p -> c = gcm_Seal k n p a
}.

(** The usual idealisation of an authenticated cipher: a ciphertext determines
    its additional data. *)
Class AeadBinding `{Aead} : Prop := {
  gcm_Seal_binds k n p a p' a' : gcm_Seal k n p a = gcm_Seal k n p' a' -> a = a'
}.

Definition PurposeOidcState : string := "oidc-state".
Definition PurposeSession : string := "session".

(** [additionalDataForPurpose]: a nil slice and an empty one are the same data. *)
Definition additionalDataForPurpose (purpose : string) : string :=
  if String.eqb purpose "" then "" else purpose.

(** [aes.NewCipher] accepts keys of 16, 24 and 32 bytes. *)
Definition valid_key (secret : string) : bool :=
  (slen secret =? 16)%nat || (slen secret =? 24)%nat || (slen secret =? 32)%nat.

Definition NonceSize : nat := 12.

Section Sealing.
Context `{Aead}.

(** [rnd] is the outcome of [rand.Read] on the nonce buffer. *)
Definition EncryptWithPurpose (rnd : result string) (plaintext secret purpose : string) : result string :=
  if negb (valid_key secret) then errorf "crypto/aes: invalid key size"
  else
    let? nonce := rnd in
    let ciphertext := nonce +:+ gcm_Seal secret nonce plaintext (additionalDataForPurpose purpose) in
    Ok (EncodeToString StdEncoding ciphertext).

Definition Encrypt (rnd : result string) (plaintext secret : string) : result string :=
  EncryptWithPurpose rnd plaintext secret "".

Definition DecryptWithPurpose (ciphertext secret purpose : string) : result string :=
  if String.eqb ciphertext "" then errorf "ciphertext must not be an empty string"
  else
    let? cipherbytes := DecodeString StdEncoding ciphertext in
    if negb (valid_key secret) then errorf "crypto/aes: invalid key size"
    else if (slen cipherbytes <? NonceSize)%nat then errorf "invalid ciphertext"
    else
      let? nonce := go_slice cipherbytes 0 NonceSize in
      let? sealed := go_slice cipherbytes NonceSize (slen cipherbytes) in
      of_option "cipher: message authentication failed"
        (gcm_Open secret nonce sealed (additionalDataForPurpose purpose)).

Definition Decrypt (ciphertext secret : string) : result string :=
  DecryptWithPurpose ciphertext secret "".

Lemma additionalDataForPurpose_id p : additionalDataForPurpose p = p.
Proof. unfold additionalDataForPurpose. by destruct (String.eqb_spec p "") as [->|]. Qed.

(** The shape of a successful seal. *)
Lemma EncryptWithPurpose_Ok rnd p secret purpose t :
  EncryptWithPurpose rnd p secret purpose = Ok t ->
  exists nonce, rnd = Ok nonce /\ valid_key secret = true
    /\ t = EncodeToString StdEncoding (nonce +:+ gcm_Seal secret nonce p purpose).
Proof.
  unfold EncryptWithPurpose. destruct (valid_key secret); simpl; [|done].
  destruct rnd as [nonce|]; simpl; [|done]. intros [= <-].
  exists nonce. by rewrite additionalDataForPurpose_id.
Qed.

(** Opening what was sealed under a 12-byte nonce is one call of [gcm.Open]. *)
Lemma DecryptWithPurpose_sealed nonce body secret purpose :
  slen nonce = NonceSize -> valid_key secret = true ->
  DecryptWithPurpose (EncodeToString StdEncoding (nonce +:+ body)) secret purpose
  = of_option "cipher: message authentication failed" (gcm_Open secret nonce body purpose).
Proof.
  intros Hn Hk. unfold DecryptWithPurpose.
  destruct (String.eqb_spec (EncodeToString StdEncoding (nonce +:+ body)) "") as [He|_].
  { pose proof (std_roundtrip (nonce +:+ body)) as Hr. rewrite He in Hr. simpl in Hr.
    injection Hr as Hr. apply (f_equal slen) in Hr. rewrite slen_app, Hn in Hr.
    unfold NonceSize in Hr. simpl in Hr. lia. }
  rewrite std_roundtrip. cbn [rbind]. rewrite Hk. cbn [negb].
  assert ((slen (nonce +:+ body) <? NonceSize)%nat = false) as ->
    by (apply Nat.ltb_ge; rewrite slen_app; lia).
  unfold go_slice.
  assert ((NonceSize <=? slen (nonce +:+ body))%nat = true) as Hle
    by (apply Nat.leb_le; rewrite slen_app; lia).
  rewrite Hle, Nat.leb_refl. cbn [andb Nat.leb rbind]. rewrite Nat.sub_0_r, sdrop_0.
  rewrite slen_app, <- Hn, stake_app, sdrop_app, additionalDataForPurpose_id.
  rewrite stake_ge by lia. done.
Qed.

(** Opening never panics, whatever the input. *)
Lemma DecryptWithPurpose_no_panic ciphertext secret purpose :
  DecryptWithPurpose ciphertext secret purpose <> Err ErrPanic.
Proof.
  unfold DecryptWithPurpose, errorf. destruct (String.eqb ciphertext ""); [done|].
  unfold DecodeString. destruct (decode _ _) as [b|]; simpl; [|done].
  destruct (valid_key secret); simpl; [|done].
  destruct (Nat.ltb_spec (slen b) NonceSize) as [|Hl]; [done|].
  unfold go_slice. apply Nat.leb_le in Hl. rewrite Hl, Nat.leb_refl. simpl.
  by destruct (gcm_Open _ _ _ _).
Qed.

(** Whatever opens under a purpose is, byte for byte after decoding, a nonce
    followed by the sealing of the result for that purpose. *)
Lemma DecryptWithPurpose_inv `{!AeadLaws} t secret purpose p :
  DecryptWithPurpose t secret purpose = Ok p ->
  exists nonce, slen nonce = NonceSize /\ valid_key secret = true
    /\ DecodeString StdEncoding t = Ok (nonce +:+ gcm_Seal secret nonce p purpose).
Proof.
  unfold DecryptWithPurpose, errorf. destruct (String.eqb t ""); [done|].
  destruct (DecodeString StdEncoding t) as [b|]; simpl; [|done].
  destruct (valid_key secret); simpl; [|done].
  destruct (Nat.ltb_spec (slen b) NonceSize) as [|Hl]; [done|].
  unfold go_slice. pose proof Hl as Hl'. apply Nat.leb_le in Hl'.
  rewrite Hl', Nat.leb_refl. cbn [andb Nat.leb rbind]. rewrite Nat.sub_0_r, sdrop_0.
  rewrite (stake_ge (slen b - NonceSize)) by (rewrite slen_sdrop; lia).
  rewrite of_option_Ok, additionalDataForPurpose_id. intros Ho%gcm_Open_inv.
  exists (stake NonceSize b). split_and!; [rewrite slen_stake; lia | done |].
  by rewrite <- Ho, stake_sdrop.
Qed.

Lemma Decrypt_Encrypt_purpose `{!AeadLaws} nonce p secret purpose t :
  slen nonce = NonceSize ->
  EncryptWithPurpose (Ok nonce) p secret purpose = Ok t ->
  DecryptWithPurpose t secret purpose = Ok p.
Proof.
  intros Hn (n & [= <-] & Hk & ->)%EncryptWithPurpose_Ok.
  rewrite DecryptWithPurpose_sealed by done. by rewrite gcm_Open_Seal.
Qed.

Lemma Decrypt_other_purpose `{!AeadLaws, !AeadBinding} nonce p secret purpose purpose' t :
  slen nonce = NonceSize -> purpose' <> purpose ->
  EncryptWithPurpose (Ok nonce) p secret purpose = Ok t ->
  exists e, DecryptWithPurpose t secret purpose' = Err e.
Proof.
  intros Hn Hp (n & [= <-] & Hk & ->)%EncryptWithPurpose_Ok.
  rewrite DecryptWithPurpose_sealed by done.
  destruct (gcm_Open _ _ _ _) eqn:E; simpl; [|unfold errorf; eauto].
  apply gcm_Open_inv, gcm_Seal_binds in E. congruence.
Qed.
End Sealing.

(** ** The Accept header *)

Record AcceptType := { a_Type : string; a_Weight : spec_float }.

(** [mime.ParseMediaType], [strconv.ParseFloat(_, 64)] and [sort.Slice]. *)
Class MediaTypes := {
  mime_ParseMediaType : string -> result (string * gmap string string);
  strconv_ParseFloat : string -> result spec_float;
  sort_Slice : (AcceptType -> AcceptType -> bool) -> list AcceptType -> list AcceptType
}.

Definition float_one : spec_float := S754_finite false 4503599627370496 (-52).

Section Accept.
Context `{MediaTypes}.

Definition no_accept_type : AcceptType := {| a_Type := ""; a_Weight := S754_zero false |}.

Definition ParseAcceptType (raw : string) : AcceptType :=
  match mime_ParseMediaType raw with
  | Err _ => no_accept_type
  | Ok (mimeType, params) =>
      match params !! "q" with
      | Some weightString =>
          match strconv_ParseFloat weightString with
          | Ok weight => {| a_Type := mimeType; a_Weight := weight |}
          | Err _ => no_accept_type
          end
      | None => {| a_Type := mimeType; a_Weight := float_one |}
      end
  end.

Definition ParseAcceptHeader (raw : string) : list AcceptType :=
  sort_Slice (fun a b => SFltb (a_Weight b) (a_Weight a))
    (List.filter (fun a => negb (String.eqb (a_Type a) ""))
       (map ParseAcceptType (SplitByte raw ","))).

Definition IsHtmlRequest (req : Request) : bool :=
  match ParseAcceptHeader (req_header req "Accept") with
  | [] => false
  | a :: _ => String.eqb (a_Type a) "text/html" || String.eqb (a_Type a) "application/xhtml+xml"
  end.
End Accept.
