(* ===== verification/World.v ===== *)
(** * Effects: the clock, randomness, the identity provider

    The stateful code is in a state monad.  [External] is the world outside
    the process: the instants the clock shows, the outcomes of reading random
    bytes, and the answers of the identity provider, which may depend on
    everything it was asked before.  A computation over a state [S] also
    threads an [Env] that counts the readings and records the requests; it
    returns [None] when the code panics. *)

From Stdlib Require Import ZArith Lia Ascii String Bool List.
From S2P Require Import Prelude GoStrings GoUrl Http.

(** ** Outgoing HTTP *)

Record HttpRequest := {
  q_Method : string;
  q_Url : string;
  q_Header : list (string * string);
  q_Body : string
}.

(** The body is the bytes that arrive and the error that may end them. *)
Record HttpResponse := {
  p_Status : Z;
  p_ContentType : string;
  p_Body : string;
  p_BodyErr : option error
}.

Definition StatusOK : Z := 200.

(** [io.ReadAll(io.LimitReader(resp.Body, n))] *)
Definition read_limited (n : nat) (resp : HttpResponse) : result string :=
  if (n <=? slen (p_Body resp))%nat then Ok (stake n (p_Body resp))
  else match p_BodyErr resp with Some e => Err e | None => Ok (p_Body resp) end.

Class External := {
  clock : nat -> time;
  random : nat -> nat -> result string;
  http_Do : list HttpRequest -> HttpRequest -> result HttpResponse
}.

Record Env := {
  e_ticks : nat;
  e_draws : nat;
  e_calls : list HttpRequest
}.

Definition start : Env := {| e_ticks := 0; e_draws := 0; e_calls := [] |}.

(** ** The monad *)

Definition M (S A : Type) : Type := Env -> S -> option (A * Env * S).

#[global] Instance M_ret {S} : MRet (M S) := fun A a e s => Some (a, e, s).
#[global] Instance M_bind {S} : MBind (M S) := fun A B k m e s =>
  match m e s with
  | Some (a, e', s') => k a e' s'
  | None => None
  end.

Definition panic {S A} : M S A := fun e s => None.
Definition get {S} : M S S := fun e s => Some (s, e, s).
Definition gets {S A} (f : S -> A) : M S A := fun e s => Some (f s, e, s).
Definition modify {S} (f : S -> S) : M S unit := fun e s => Some (tt, e, f s).

(** Running a computation on a part of the state. *)
Definition zoom {S T A} (get : T -> S) (set : S -> T -> T) (m : M S A) : M T A := fun e t =>
  match m e (get t) with
  | Some (a, e', s') => Some (a, e', set s' t)
  | None => None
  end.

(** Go's [if err != nil { return ..., err }]. *)
Definition try {S A B} (m : M S (result A)) (k : A -> M S (result B)) : M S (result B) :=
  r ← m; match r with Ok a => k a | Err err => mret (Err err) end.

Notation "'let!' x := m 'in' k" := (try m (fun x => k))
  (at level 10, x pattern, m at level 100, k at level 200) : toa_scope.

Definition lift {S A} (r : result A) : M S (result A) := mret r.

(** What an action leaves in the environment. *)
Definition tick (e : Env) : Env :=
  {| e_ticks := S (e_ticks e); e_draws := e_draws e; e_calls := e_calls e |}.
Definition draw (e : Env) : Env :=
  {| e_ticks := e_ticks e; e_draws := S (e_draws e); e_calls := e_calls e |}.
Definition called (q : HttpRequest) (e : Env) : Env :=
  {| e_ticks := e_ticks e; e_draws := e_draws e; e_calls := e_calls e ++ [q] |}.

Section Actions.
Context `{External} {S : Type}.

(** [time.Now()] *)
Definition time_Now : M S time := fun e s => Some (clock (e_ticks e), tick e, s).

(** Reading [count] random bytes. *)
Definition rand_Read (count : nat) : M S (result string) := fun e s =>
  Some (random (e_draws e) count, draw e, s).

Definition client_Do (q : HttpRequest) : M S (result HttpResponse) := fun e s =>
  Some (http_Do (e_calls e) q, called q e, s).

End Actions.

(** [http.NewRequestWithContext]: the URL has to parse. *)
Definition NewRequest `{UrlLib} (method url : string) (hs : list (string * string)) (body : string)
  : result HttpRequest :=
  let? _ := url_Parse url in
  Ok {| q_Method := method; q_Url := url; q_Header := hs; q_Body := body |}.

(** ** Running

    [outcome P m e s Q]: [m] ends normally and [Q] describes its result, or it
    panics and [P] holds.  With [False] for [P] a panic is excluded ([runs]);
    with [True] it is allowed ([ends]). *)

Definition outcome {S A} (P : Prop) (m : M S A) (e : Env) (s : S) (Q : A -> Env -> S -> Prop) : Prop :=
  match m e s with Some (a, e', s') => Q a e' s' | None => P end.

Abbreviation runs := (outcome False).
Abbreviation ends := (outcome True).

Section Rules.
Context {S : Type} (P : Prop).
Implicit Types (e : Env) (s : S).

Lemma outcome_ret {A} (a : A) e s (Q : A -> Env -> S -> Prop) : Q a e s -> outcome P (mret a) e s Q.
Proof. done. Qed.

Lemma outcome_panic {A} e s (Q : A -> Env -> S -> Prop) : P -> outcome P panic e s Q.
Proof. done. Qed.

Lemma outcome_bind {A B} (m : M S A) (k : A -> M S B) e s Q :
  outcome P m e s (fun a e' s' => outcome P (k a) e' s' Q) -> outcome P (mbind k m) e s Q.
Proof. unfold outcome, mbind, M_bind. by destruct (m e s) as [[[a e'] s']|]. Qed.

Lemma outcome_mono {A} (P' : Prop) (m : M S A) e s (Q R : A -> Env -> S -> Prop) :
  outcome P' m e s Q -> (P' -> P) -> (forall a e' s', Q a e' s' -> R a e' s') -> outcome P m e s R.
Proof. unfold outcome. destruct (m e s) as [[[a e'] s']|]; auto. Qed.

Lemma outcome_weaken {A} (m : M S A) e s (Q R : A -> Env -> S -> Prop) :
  outcome P m e s Q -> (forall a e' s', Q a e' s' -> R a e' s') -> outcome P m e s R.
Proof. intros HQ HR. by eapply outcome_mono. Qed.

(** The result is the one the computation gives. *)
Lemma outcome_run {A} (m : M S A) e s (Q : A -> Env -> S -> Prop) :
  outcome P m e s Q -> outcome P m e s (fun a e' s' => Q a e' s' /\ m e s = Some (a, e', s')).
Proof. unfold outcome. by destruct (m e s) as [[[a e'] s']|]. Qed.

Lemma outcome_try {A B} (m : M S (result A)) (k : A -> M S (result B)) e s Q :
  outcome P m e s (fun r e' s' => match r with
                                  | Ok a => outcome P (k a) e' s' Q
                                  | Err err => Q (Err err) e' s'
                                  end) ->
  outcome P (try m k) e s Q.
Proof.
  intros Hm. unfold try. apply outcome_bind. eapply outcome_mono; [exact Hm | done |].
  intros [a|err] e' s'; simpl; auto.
Qed.

Lemma outcome_gets {A} (f : S -> A) e s (Q : A -> Env -> S -> Prop) :
  Q (f s) e s -> outcome P (gets f) e s Q.
Proof. done. Qed.

Lemma outcome_get e s (Q : S -> Env -> S -> Prop) : Q s e s -> outcome P get e s Q.
Proof. done. Qed.

Lemma outcome_modify (f : S -> S) e s (Q : unit -> Env -> S -> Prop) :
  Q tt e (f s) -> outcome P (modify f) e s Q.
Proof. done. Qed.

Lemma outcome_zoom {T A} (g : T -> S) (put : S -> T -> T) (m : M S A) e t Q :
  outcome P m e (g t) (fun a e' s' => Q a e' (put s' t)) -> outcome P (zoom g put m) e t Q.
Proof. unfold outcome, zoom. by destruct (m e (g t)) as [[[a e'] s']|]. Qed.

Context `{External}.

Lemma outcome_time_Now e s (Q : time -> Env -> S -> Prop) :
  Q (clock (e_ticks e)) (tick e) s -> outcome P time_Now e s Q.
Proof. done. Qed.

Lemma outcome_rand_Read n e s (Q : result string -> Env -> S -> Prop) :
  Q (random (e_draws e) n) (draw e) s -> outcome P (rand_Read n) e s Q.
Proof. done. Qed.

Lemma outcome_client_Do q e s (Q : result HttpResponse -> Env -> S -> Prop) :
  Q (http_Do (e_calls e) q) (called q e) s -> outcome P (client_Do q) e s Q.
Proof. done. Qed.
End Rules.

(** Steps through the monad: binds and actions. *)
Ltac m_step :=
  unfold lift;
  first
    [ apply outcome_bind | apply outcome_try | apply outcome_ret | apply outcome_panic
    | apply outcome_gets | apply outcome_get | apply outcome_modify | apply outcome_zoom
    | apply outcome_time_Now | apply outcome_rand_Read | apply outcome_client_Do ];
  cbv beta iota.

Ltac m_steps := repeat m_step.

(** Case analysis on the program or on the outcome it has to continue from. *)
Ltac m_case :=
  lazymatch goal with
  | |- outcome _ (match ?x with _ => _ end) _ _ _ => let E := fresh "E" in destruct x eqn:E
  | |- match ?x with Ok _ => _ | Err _ => _ end => let E := fresh "E" in destruct x eqn:E
  end.

(** Calling an operation whose outcomes a lemma describes. *)
Tactic Notation "m_call" uconstr(lem) := eapply outcome_weaken; [apply lem|].

Ltac wp := repeat first [m_step | m_case; cbv beta iota].

(** ** What passes during a computation

    A computation only adds readings of the clock and requests.  Between two
    moments [e] and [e'] there are the readings and the answers that something
    done in between can rest on. *)

Definition elapsed (e e' : Env) : Prop :=
  (e_ticks e <= e_ticks e')%nat /\ e_calls e `prefix_of` e_calls e'.

#[export] Instance elapsed_preorder : PreOrder elapsed.
Proof.
  split; [by intros e; split|]. intros e1 e2 e3 [T1 C1] [T2 C2]. split; [lia | by etrans].
Qed.

Lemma elapsed_tick e : elapsed e (tick e).
Proof. split; simpl; [lia | done]. Qed.
Lemma elapsed_draw e : elapsed e (draw e).
Proof. by split. Qed.
Lemma elapsed_called q e : elapsed e (called q e).
Proof. split; simpl; [done | by apply prefix_app_r]. Qed.

#[export] Hint Resolve elapsed_tick elapsed_draw elapsed_called : toa.

Section Between.
Context `{External}.

(** A reading of the clock between two moments. *)
Definition reading (e e' : Env) (now : time) : Prop :=
  exists n, (e_ticks e <= n < e_ticks e')%nat /\ now = clock n.

(** The answer to a request made between two moments. *)
Definition answered (e e' : Env) (q : HttpRequest) (r : result HttpResponse) : Prop :=
  exists calls, e_calls e `prefix_of` calls /\ (calls ++ [q]) `prefix_of` e_calls e'
    /\ http_Do calls q = r.

Lemma reading_widen e1 e2 e3 e4 now :
  elapsed e1 e2 -> reading e2 e3 now -> elapsed e3 e4 -> reading e1 e4 now.
Proof. intros [T1 _] (n & Hn & ->) [T2 _]. exists n. split; [lia | done]. Qed.

Lemma answered_widen e1 e2 e3 e4 q r :
  elapsed e1 e2 -> answered e2 e3 q r -> elapsed e3 e4 -> answered e1 e4 q r.
Proof.
  intros [_ C1] (calls & H1 & H2 & Hr) [_ C2]. exists calls. split_and!; [by etrans | by etrans | done].
Qed.

Lemma reading_now e e' : elapsed (tick e) e' -> reading e e' (clock (e_ticks e)).
Proof. intros [T _]. simpl in T. exists (e_ticks e). split; [lia | done]. Qed.

Lemma answered_now q e e' : elapsed (called q e) e' -> answered e e' q (http_Do (e_calls e) q).
Proof. intros [_ C]. exists (e_calls e). by split_and!. Qed.
End Between.

(** A computation whose every run is in the relation [R] between moments and
    states. *)
Class Passage {S} (R : Env -> S -> Env -> S -> Prop) : Prop := {
  passage_refl e s : R e s e s;
  passage_trans e1 s1 e2 s2 e3 s3 : R e1 s1 e2 s2 -> R e2 s2 e3 s3 -> R e1 s1 e3 s3;
  passage_tick e s : R e s (tick e) s;
  passage_draw e s : R e s (draw e) s;
  passage_called q e s : R e s (called q e) s
}.

Definition respects {S A} (R : Env -> S -> Env -> S -> Prop) (m : M S A) : Prop :=
  forall e s, ends m e s (fun _ e' s' => R e s e' s').

Section Respects.
Context `{External} {S : Type} (R : Env -> S -> Env -> S -> Prop) `{!Passage R}.

Lemma respects_ret {A} (a : A) : respects R (mret a).
Proof. intros e s. m_step. apply passage_refl. Qed.

Lemma respects_panic {A} : respects R (panic : M S A).
Proof. by intros e s. Qed.

Lemma respects_gets {A} (f : S -> A) : respects R (gets f).
Proof. intros e s. m_step. apply passage_refl. Qed.

Lemma respects_get : respects R get.
Proof. intros e s. m_step. apply passage_refl. Qed.

Lemma respects_modify (f : S -> S) : (forall e s, R e s e (f s)) -> respects R (modify f).
Proof. intros Hf e s. m_step. apply Hf. Qed.

Lemma respects_time_Now : respects R time_Now.
Proof. intros e s. m_step. apply passage_tick. Qed.

Lemma respects_rand_Read n : respects R (rand_Read n).
Proof. intros e s. m_step. apply passage_draw. Qed.

Lemma respects_client_Do q : respects R (client_Do q).
Proof. intros e s. m_step. apply passage_called. Qed.

Lemma respects_bind {A B} (m : M S A) (k : A -> M S B) :
  respects R m -> (forall a, respects R (k a)) -> respects R (mbind k m).
Proof.
  intros Hm Hk e s. apply outcome_bind. eapply outcome_weaken; [apply Hm|]. intros a e1 s1 H1.
  eapply outcome_weaken; [apply Hk|]. intros b e2 s2 H2. exact (passage_trans _ _ _ _ _ _ H1 H2).
Qed.

Lemma respects_try {A B} (m : M S (result A)) (k : A -> M S (result B)) :
  respects R m -> (forall a, respects R (k a)) -> respects R (try m k).
Proof.
  intros Hm Hk. apply respects_bind; [done|]. intros [a|err]; [apply Hk | apply respects_ret].
Qed.

Lemma respects_zoom {T A} (R' : Env -> T -> Env -> T -> Prop) (g : T -> S) (put : S -> T -> T) (m : M S A) :
  respects R m -> (forall e t e' s', R e (g t) e' s' -> R' e t e' (put s' t)) ->
  respects R' (zoom g put m).
Proof.
  intros Hm Hput e t. apply outcome_zoom. eapply outcome_weaken; [apply Hm|]. intros a e' s'. apply Hput.
Qed.

(** What a computation does besides. *)
Lemma outcome_respects {A} (P : Prop) (m : M S A) e s (Q : A -> Env -> S -> Prop) :
  respects R m -> outcome P m e s Q -> outcome P m e s (fun a e' s' => Q a e' s' /\ R e s e' s').
Proof.
  intros Hm. specialize (Hm e s). unfold outcome in *. destruct (m e s) as [[[a e'] s']|]; auto.
Qed.
End Respects.

Create HintDb respects.

(** Goes through a computation; what it calls is found among the hints. *)
Ltac respects_step :=
  first
    [ lazymatch goal with |- Passage _ => typeclasses eauto end
    | apply respects_ret | apply respects_panic | apply respects_gets | apply respects_get
    | apply respects_time_Now | apply respects_rand_Read | apply respects_client_Do
    | solve [eauto with respects]
    | apply respects_bind | apply respects_try
    | lazymatch goal with |- respects _ (match ?x with _ => _ end) => destruct x end ].

Ltac go_respects := unfold lift; repeat (intros; cbv beta zeta; respects_step).

(** Readings and requests are only added, whatever happens to the state. *)
Definition passing {S} (e : Env) (s : S) (e' : Env) (s' : S) : Prop := elapsed e e'.

#[export] Instance passing_passage S : Passage (@passing S).
Proof. split; unfold passing; intros; try (by etrans); auto with toa. Qed.
