(* ===== verification/Concurrent.v ===== *)
(** * Threads that share a state and a mutex

    Handlers run in goroutines of their own.  A [proc] is what is left to do of
    a goroutine: it reads the clock, runs short critical sections, takes and
    releases one mutex that may be held for long, and asks the provider.  Any
    number of them are interleaved in any order.

    A section of a lock that is never held across a step is [Atomic]; a section
    of the mutex itself is [Guarded] and waits for it to be free. *)

From Stdlib Require Import ZArith Lia Ascii String Bool List.
From stdpp Require Import relations.
From S2P Require Import Prelude GoStrings GoUrl Http World.

(** ** Processes *)

Inductive proc (S A : Type) : Type :=
| Return (a : A)
| Crash
| Now (k : time -> proc S A)
| Atomic (u : S -> S) (k : S -> proc S A)
| Guarded (u : S -> S) (k : S -> proc S A)
| Acquire (k : proc S A)
| Release (k : proc S A)
| Call (q : HttpRequest) (k : result HttpResponse -> proc S A)
| Pending (q : HttpRequest) (k : result HttpResponse -> proc S A).

Arguments Return {S A} a.
Arguments Crash {S A}.
Arguments Now {S A} k.
Arguments Atomic {S A} u k.
Arguments Guarded {S A} u k.
Arguments Acquire {S A} k.
Arguments Release {S A} k.
Arguments Call {S A} q k.
Arguments Pending {S A} q k.

(** The process run by itself, as a computation of [World]. *)
Fixpoint alone `{External} {S A} (p : proc S A) : M S A :=
  match p with
  | Return a => mret a
  | Crash => panic
  | Now k => now ← time_Now; alone (k now)
  | Atomic u k | Guarded u k => s ← get; _ ← modify u; alone (k s)
  | Acquire k | Release k => alone k
  | Call q k | Pending q k => r ← client_Do q; alone (k r)
  end.

(** ** Interleavings *)

Section Steps.
Context {W A : Type}.
Implicit Types (p : proc W A) (s : W).

(** A request to the provider: when it was made, and the state then. *)
Record asked := { a_time : time; a_request : HttpRequest; a_state : W }.

Record threads := {
  c_now : time;
  c_state : W;
  c_owner : option nat;
  c_log : list asked;
  c_procs : list (proc W A)
}.

(** What thread [i] does at the instant [now]: to its process, the state, the
    owner of the mutex and the log of requests.  An answer may be anything. *)
Inductive move (i : nat) (now : time) :
  proc W A * W * option nat * list asked -> proc W A * W * option nat * list asked -> Prop :=
| move_Now k s o l : move i now (Now k, s, o, l) (k now, s, o, l)
| move_Atomic u k s o l : move i now (Atomic u k, s, o, l) (k s, u s, o, l)
| move_Guarded u k s l : move i now (Guarded u k, s, None, l) (k s, u s, None, l)
| move_Acquire k s l : move i now (Acquire k, s, None, l) (k, s, Some i, l)
| move_Release k s l : move i now (Release k, s, Some i, l) (k, s, None, l)
| move_Call q k s o l :
    move i now (Call q k, s, o, l)
      (Pending q k, s, o, l ++ [{| a_time := now; a_request := q; a_state := s |}])
| move_Pending q k r s o l : move i now (Pending q k, s, o, l) (k r, s, o, l).

Inductive step : threads -> threads -> Prop :=
| step_move i now p s o l ps t p' s' o' l' :
    ps !! i = Some p -> t <= now ->
    move i now (p, s, o, l) (p', s', o', l') ->
    step {| c_now := t; c_state := s; c_owner := o; c_log := l; c_procs := ps |}
         {| c_now := now; c_state := s'; c_owner := o'; c_log := l'; c_procs := <[i := p']> ps |}.

(** *** Running a schedule

    A turn names a thread, an instant, and the answer it gets if it waits for
    one. *)

Definition turn : Type := nat * time * result HttpResponse.

Definition moved (i : nat) (now : time) (r : result HttpResponse) p s (o : option nat) (l : list asked)
  : option (proc W A * W * option nat * list asked) :=
  match p, o with
  | Now k, _ => Some (k now, s, o, l)
  | Atomic u k, _ => Some (k s, u s, o, l)
  | Guarded u k, None => Some (k s, u s, None, l)
  | Acquire k, None => Some (k, s, Some i, l)
  | Release k, Some j => if (i =? j)%nat then Some (k, s, None, l) else None
  | Call q k, _ => Some (Pending q k, s, o, l ++ [{| a_time := now; a_request := q; a_state := s |}])
  | Pending q k, _ => Some (k r, s, o, l)
  | _, _ => None
  end.

Definition take_turn (c : threads) (t : turn) : option threads :=
  let '(i, now, r) := t in
  p ← c_procs c !! i;
  if now <? c_now c then None
  else
    '(p', s', o', l') ← moved i now r p (c_state c) (c_owner c) (c_log c);
    Some {| c_now := now; c_state := s'; c_owner := o'; c_log := l'; c_procs := <[i := p']> (c_procs c) |}.

Fixpoint run_schedule (c : threads) (ts : list turn) : option threads :=
  match ts with
  | [] => Some c
  | t :: ts => c' ← take_turn c t; run_schedule c' ts
  end.

Lemma take_turn_step c t c' : take_turn c t = Some c' -> step c c'.
Proof.
  destruct t as [[i now] r], c as [t0 s o l ps]. cbn [take_turn c_procs c_now c_state c_owner c_log].
  destruct (ps !! i) as [p|] eqn:Hi; [|done]. cbn [mbind option_bind].
  destruct (now <? t0) eqn:Ht; [done|]. boolprop.
  destruct (moved i now r p s o l) as [[[[p' s'] o'] l']|] eqn:Hm; [|done]. intros [= <-].
  eapply step_move; [done..|]. destruct p; cbn [moved] in Hm; simplify_eq; try constructor;
    destruct o as [j|]; simplify_eq; try constructor.
  destruct (Nat.eqb_spec i j) as [->|]; [|done]. injection Hm as <- <- <- <-. constructor.
Qed.

Lemma run_schedule_steps c ts c' : run_schedule c ts = Some c' -> rtc step c c'.
Proof.
  revert c. induction ts as [|t ts IH]; cbn [run_schedule]; intros c; [by intros [= <-]|].
  destruct (take_turn c t) as [c1|] eqn:E; [|done]. intros H%IH.
  eapply rtc_l; [by eapply take_turn_step | done].
Qed.

(** Nobody has begun. *)
Definition fresh (t : time) (s : W) (ps : list (proc W A)) : threads :=
  {| c_now := t; c_state := s; c_owner := None; c_log := []; c_procs := ps |}.

Definition finished p : bool := match p with Return _ | Crash => true | _ => false end.
Definition all_finished (c : threads) : Prop := Forall (fun p => finished p = true) (c_procs c).

Definition waiting_for_answer p : bool := match p with Pending _ _ => true | _ => false end.

(** At most one thread waits for an answer. *)
Definition one_request_at_a_time (c : threads) : Prop :=
  forall i j p q, c_procs c !! i = Some p -> c_procs c !! j = Some q ->
    waiting_for_answer p = true -> waiting_for_answer q = true -> i = j.

(** Threads neither come nor go. *)
Lemma steps_threads c c' : rtc step c c' -> length (c_procs c) = length (c_procs c').
Proof.
  induction 1 as [|c1 c2 c3 Hs _ <-]; [done|]. destruct Hs. cbn [c_procs]. by rewrite length_insert.
Qed.

(** A step of the thread at a known place. *)
Lemma step_at now p s o l ps1 ps2 t p' s' o' l' :
  t <= now -> move (length ps1) now (p, s, o, l) (p', s', o', l') ->
  step {| c_now := t; c_state := s; c_owner := o; c_log := l; c_procs := ps1 ++ p :: ps2 |}
       {| c_now := now; c_state := s'; c_owner := o'; c_log := l'; c_procs := ps1 ++ p' :: ps2 |}.
Proof.
  intros Ht Hm. replace (ps1 ++ p' :: ps2) with (<[length ps1 := p']> (ps1 ++ p :: ps2)).
  - eapply step_move; [by apply list_lookup_middle | done | done].
  - by rewrite insert_app_r_alt, Nat.sub_diag by lia.
Qed.

(** *** How long it takes *)

(** The process is over after at most [n] steps. *)
Fixpoint over_in p (n : nat) : Prop :=
  match p with
  | Return _ | Crash => True
  | Now k => match n with O => False | S n => forall now, over_in (k now) n end
  | Atomic _ k | Guarded _ k => match n with O => False | S n => forall s, over_in (k s) n end
  | Acquire k | Release k => match n with O => False | S n => over_in k n end
  | Call _ k => match n with S (S n) => forall r, over_in (k r) n | _ => False end
  | Pending _ k => match n with O => False | S n => forall r, over_in (k r) n end
  end.

Lemma over_in_mono p n m : (n <= m)%nat -> over_in p n -> over_in p m.
Proof.
  revert n m. induction p as [a| |k IH|u k IH|u k IH|k IH|k IH|q k IH|q k IH]; intros n m Hle Hp;
    [done | done | ..].
  all: destruct n as [|n]; [done|]; destruct m as [|m]; [lia|].
  all: try (cbn [over_in] in *; intros x; eapply IH; [|apply Hp]; lia).
  all: try (cbn [over_in] in *; eapply IH; [|exact Hp]; lia).
  destruct n as [|n]; [done|]. destruct m as [|m]; [lia|].
  cbn [over_in] in *. intros x. eapply IH; [|apply Hp]. lia.
Qed.

Lemma move_over i now p s o l p' s' o' l' n :
  move i now (p, s, o, l) (p', s', o', l') -> over_in p n -> exists m, n = S m /\ over_in p' m.
Proof.
  intros Hm. inversion Hm; subst; destruct n as [|[|n]]; cbn [over_in]; try done; eauto.
Qed.

(** The budgets of the threads, and their sum. *)
Definition budgeted (c : threads) (ns : list nat) : Prop := Forall2 over_in (c_procs c) ns.

Lemma step_budget c c' ns :
  step c c' -> budgeted c ns -> exists ns', budgeted c' ns' /\ sum_list ns = S (sum_list ns').
Proof.
  unfold budgeted. destruct 1 as [i now p s o l ps t p' s' o' l' Hi _ Hm]; cbn [c_procs]. intros Hb.
  destruct (Forall2_lookup_l _ _ _ _ _ Hb Hi) as (n & Hn & Hp).
  destruct (move_over _ _ _ _ _ _ _ _ _ _ _ Hm Hp) as (m & -> & Hp').
  exists (<[i := m]> ns). split; [by apply Forall2_insert|].
  rewrite <- (list_insert_id ns i (S m)) at 1 by done.
  clear -Hn. revert i Hn. induction ns as [|x ns IH]; intros [|i] Hn; simpl in *; [done..|].
  rewrite (IH i) by done. lia.
Qed.

Lemma steps_bounded c c' ns k :
  budgeted c ns -> nsteps step k c c' -> (k <= sum_list ns)%nat.
Proof.
  intros Hb Hk. revert ns Hb. induction Hk as [|k c1 c2 c3 Hs _ IH]; intros ns Hb; [lia|].
  destruct (step_budget _ _ _ Hs Hb) as (ns' & Hb' & ->). specialize (IH _ Hb'). lia.
Qed.

End Steps.

Arguments asked W : clear implicits.
Arguments threads W A : clear implicits.

(** ** Reasoning about one thread among others

    [G] is what the holder of the mutex may do to the state.  [Inv] holds
    whenever the mutex is free; who holds it finds [Inv] and restores it, and
    nobody else writes in between.  [LogOk] is what the requests made so far
    satisfy at all times, [Post] what a result says of the state; [Crashes] says
    whether a thread may panic. *)

Record contract (W A : Type) := {
  G : W -> W -> Prop;
  Inv : time -> W -> list (asked W) -> Prop;
  LogOk : list (asked W) -> Prop;
  Post : A -> W -> Prop;
  Crashes : Prop
}.

Arguments G {W A} _ _ _.
Arguments Inv {W A} _ _ _ _.
Arguments LogOk {W A} _ _.
Arguments Post {W A} _ _ _.
Arguments Crashes {W A} _.

Class ContractLaws {W A} (C : contract W A) : Prop := {
  G_preorder :: PreOrder (G C);
  Inv_later now now' s l : Inv C now s l -> now <= now' -> Inv C now' s l;
  Post_stable a s s' : Post C a s -> G C s s' -> Post C a s'
}.

Section Logic.
Context {W A : Type} (C : contract W A).
Implicit Types (p : proc W A) (s : W) (l : list (asked W)).

(** What the other threads may have done meanwhile. *)
Definition later (holds : bool) (now : time) s l (now' : time) s' l' : Prop :=
  now <= now' /\ if holds then s' = s /\ l' = l else G C s s'.

(** What a thread that holds the mutex, or does not, is allowed to change. *)
Definition may (holds : bool) s s' : Prop := if holds then G C s s' else s' = s.

(** The process keeps to the contract, started at a moment it observes. *)
Fixpoint keeps_to (holds : bool) p (now : time) s l : Prop :=
  match p with
  | Return a => holds = false /\ Post C a s
  | Crash => holds = false /\ Crashes C
  | Now k => forall now' s' l',
      later holds now s l now' s' l' -> keeps_to holds (k now') now' s' l'
  | Atomic u k => forall now' s' l',
      later holds now s l now' s' l' -> may holds s' (u s') /\ keeps_to holds (k s') now' (u s') l'
  | Guarded u k => holds = false /\ forall now' s' l',
      later holds now s l now' s' l' -> Inv C now' s' l' ->
      may holds s' (u s') /\ keeps_to holds (k s') now' (u s') l'
  | Acquire k => holds = false /\ forall now' s' l',
      later holds now s l now' s' l' -> Inv C now' s' l' -> LogOk C l' -> keeps_to true k now' s' l'
  | Release k => holds = true /\ forall now' s' l',
      later holds now s l now' s' l' -> Inv C now' s' l' /\ keeps_to false k now' s' l'
  | Call q k => holds = true /\ forall now' s' l',
      later holds now s l now' s' l' ->
      let l'' := l' ++ [{| a_time := now'; a_request := q; a_state := s' |}] in
      LogOk C l'' /\ forall r now'', now' <= now'' -> keeps_to true (k r) now'' s' l''
  | Pending q k => holds = true /\ forall r now' s' l',
      later holds now s l now' s' l' -> keeps_to holds (k r) now' s' l'
  end.

Definition is_owner (o : option nat) (i : nat) : bool := bool_decide (o = Some i).

Record well_behaved (c : threads W A) : Prop := {
  wb_threads i p : c_procs c !! i = Some p ->
    keeps_to (is_owner (c_owner c) i) p (c_now c) (c_state c) (c_log c);
  wb_free : c_owner c = None -> Inv C (c_now c) (c_state c) (c_log c);
  wb_owner i : c_owner c = Some i -> (i < length (c_procs c))%nat;
  wb_log : LogOk C (c_log c)
}.

Context `{!ContractLaws C}.

Lemma later_refl holds now s l now' : now <= now' -> later holds now s l now' s l.
Proof. intros H. split; [done|]. destruct holds; [done | reflexivity]. Qed.

Lemma later_trans holds now s l now' s' l' now'' s'' l'' :
  later holds now s l now' s' l' -> later holds now' s' l' now'' s'' l'' ->
  later holds now s l now'' s'' l''.
Proof.
  intros [H1 K1] [H2 K2]. split; [lia|]. destruct holds.
  - by destruct K1 as [-> ->], K2 as [-> ->].
  - by etrans.
Qed.

(** A thread that waits keeps its claim. *)
Lemma keeps_to_later holds p now s l now' s' l' :
  keeps_to holds p now s l -> later holds now s l now' s' l' -> keeps_to holds p now' s' l'.
Proof.
  intros Hp Hl. destruct p as [a| |k|u k|u k|k|k|q k|q k]; cbn [keeps_to] in *;
    try (match type of Hp with _ /\ _ => destruct Hp as [-> Hp] end);
    repeat split; try done; intros;
    try (eapply Hp; [eapply later_trans; done | done..]);
    try (eapply Hp; eapply later_trans; done).
  destruct Hl as [_ Hg]. by eapply Post_stable.
Qed.

Lemma is_owner_None i : is_owner None i = false.
Proof. done. Qed.
Lemma is_owner_self i : is_owner (Some i) i = true.
Proof. by apply bool_decide_eq_true. Qed.
Lemma is_owner_other i j : i <> j -> is_owner (Some i) j = false.
Proof. intros Hij. apply bool_decide_eq_false. congruence. Qed.

(** What a thread changes within its rights is what the others allow for. *)
Lemma others_later o i j t s l now s' :
  t <= now -> may (is_owner o i) s s' -> i <> j -> later (is_owner o j) t s l now s' l.
Proof.
  unfold may, later. intros Ht Hmay Hij. split; [done|].
  destruct (is_owner o i) eqn:Ei; [|subst s'; by destruct (is_owner o j)].
  apply bool_decide_eq_true in Ei as ->. by rewrite is_owner_other.
Qed.

Lemma inv_kept o i t s l now s' :
  (o = None -> Inv C t s l) -> t <= now -> may (is_owner o i) s s' -> o = None -> Inv C now s' l.
Proof. intros Hf Ht Hmay ->. rewrite is_owner_None in Hmay. cbn in Hmay. subst s'. eauto using Inv_later. Qed.

Lemma move_sound i t now p s o l p' s' o' l' :
  t <= now -> move i now (p, s, o, l) (p', s', o', l') ->
  keeps_to (is_owner o i) p t s l -> (o = None -> Inv C t s l) -> LogOk C l ->
  keeps_to (is_owner o' i) p' now s' l'
  /\ (forall j, i <> j -> is_owner o' j = is_owner o j /\ later (is_owner o j) t s l now s' l')
  /\ (o' = None -> Inv C now s' l') /\ LogOk C l' /\ (o' = o \/ o' = None \/ o' = Some i).
Proof.
  intros Ht Hm Hp Hf Hlog.
  pose proof (fun h => later_refl h t s l now Ht) as Hnow.
  inversion Hm; subst; cbn [keeps_to] in Hp.
  - split_and!; eauto using Inv_later.
  - destruct (Hp _ _ _ (Hnow _)) as [Hmay Hp']. split_and!; eauto using others_later, inv_kept.
  - destruct Hp as [_ Hp]. destruct (Hp _ _ _ (Hnow _)) as [Hmay Hp']; [by eapply Inv_later; eauto|].
    split_and!; eauto using others_later, inv_kept.
  - destruct Hp as [_ Hp]. rewrite is_owner_self. split_and!; [| intros j Hj; by rewrite is_owner_other | done.. | by auto].
    eapply Hp; [apply Hnow | by eapply Inv_later; eauto | done].
  - destruct Hp as [_ Hp]. destruct (Hp _ _ _ (Hnow _)) as [HI Hp'].
    split_and!; [done | by intros j Hj; rewrite is_owner_other | done..| by auto].
  - destruct Hp as [Ho Hp]. destruct (Hp _ _ _ (Hnow _)) as [Hl Hk]. split_and!; [|..].
    + cbn [keeps_to]. split; [done|]. rewrite Ho. intros r now2 s2 l2 [Hle [-> ->]]. by apply Hk.
    + intros j Hj. split; [done|]. apply bool_decide_eq_true in Ho as ->. rewrite is_owner_other by done.
      split; [done | reflexivity].
    + intros ->. done.
    + done.
    + by left.
  - destruct Hp as [Ho Hp]. split_and!; eauto using Inv_later.
Qed.

Lemma step_sound c c' : step c c' -> well_behaved c -> well_behaved c'.
Proof.
  destruct 1 as [i now p s o l ps t p' s' o' l' Hi Ht Hm]. intros [Hth Hf Hown Hlog]. cbn in *.
  destruct (move_sound _ _ _ _ _ _ _ _ _ _ _ Ht Hm (Hth _ _ Hi) Hf Hlog) as (Hp & Hj & HI & Hl & Ho).
  split; cbn; [|done| |done].
  - intros j q. destruct (decide (i = j)) as [<-|Hne].
    + rewrite list_lookup_insert_eq by (by eapply lookup_lt_Some). by intros [= <-].
    + rewrite list_lookup_insert_ne by done. intros Hq. destruct (Hj j Hne) as [-> Hl'].
      eapply keeps_to_later; eauto.
  - intros j ->. rewrite length_insert. destruct Ho as [<-|[?|[= ->]]]; [by apply Hown | done |].
    by eapply lookup_lt_Some.
Qed.

Lemma fresh_well_behaved t s ps :
  Inv C t s [] -> LogOk C [] -> Forall (fun p => keeps_to false p t s []) ps ->
  well_behaved (fresh t s ps).
Proof.
  intros HI Hl Hps. split; cbn; [|done..]. intros i p Hi. rewrite is_owner_None.
  by eapply Forall_lookup_1 in Hps.
Qed.

Lemma steps_sound c c' : rtc step c c' -> well_behaved c -> well_behaved c'.
Proof. induction 1; eauto using step_sound. Qed.

(** A step changes the state only as the holder may. *)
Lemma step_evolves c c' : step c c' -> well_behaved c -> G C (c_state c) (c_state c').
Proof.
  destruct 1 as [i now p s o l ps t p' s' o' l' Hi Ht Hm]. intros [Hth Hf Hown Hlog]. cbn in *.
  destruct (move_sound _ _ _ _ _ _ _ _ _ _ _ Ht Hm (Hth _ _ Hi) Hf Hlog) as (_ & Hj & _).
  assert (exists j, i <> j /\ is_owner o j = false) as (j & Hij & Hno).
  { exists (S (i + default 0%nat o)). split; [lia|]. apply bool_decide_eq_false.
    destruct o; simpl; [intros [= E]; lia | done]. }
  destruct (Hj j Hij) as [_ [_ HG]]. by rewrite Hno in HG.
Qed.

Lemma steps_evolve c c' : rtc step c c' -> well_behaved c -> G C (c_state c) (c_state c').
Proof.
  induction 1 as [|c1 c2 c3 Hs _ IH]; intros Hw; [reflexivity|].
  etrans; [by eapply step_evolves | eauto using step_sound].
Qed.

(** ** What follows for every interleaving *)

(** Only the holder of the mutex waits for an answer. *)
Lemma well_behaved_one_request c : well_behaved c -> one_request_at_a_time c.
Proof.
  intros [Hth _ _ _] i j p q Hi Hj Hp Hq. apply Hth in Hi, Hj.
  destruct p, q; try done. cbn [keeps_to] in Hi, Hj. destruct Hi as [Hi _], Hj as [Hj _].
  apply bool_decide_eq_true in Hi, Hj. congruence.
Qed.

(** Nobody waits for the mutex for ever: a thread that is not finished can go
    on, or the holder of the mutex can. *)
Lemma well_behaved_progress c : well_behaved c -> ~ all_finished c -> exists c', step c c'.
Proof.
  destruct c as [t s o l ps]. intros [Hth _ Hown _] Hfin. cbn in *.
  unfold all_finished in Hfin. cbn in Hfin.
  assert (forall i p, ps !! i = Some p -> finished p = false ->
            o = None \/ o = Some i -> exists c', step {| c_now := t; c_state := s; c_owner := o; c_log := l; c_procs := ps |} c') as Hgo.
  { intros i p Hi Hp Ho. pose proof (Hth _ _ Hi) as Hk.
    assert (forall p' s' o' l', move i t (p, s, o, l) (p', s', o', l') -> exists c',
      step {| c_now := t; c_state := s; c_owner := o; c_log := l; c_procs := ps |} c') as Hs.
    { intros p' s' o' l' Hm. eexists. eapply step_move; eauto. lia. }
    destruct p; try done; cbn [keeps_to] in Hk.
    all: try (eapply Hs, (move_Pending _ _ _ _ (Err ErrPanic)); fail).
    all: try (eapply Hs; constructor; fail).
    all: destruct Hk as [Hk _]; destruct Ho as [->| ->];
      rewrite ?is_owner_self, ?is_owner_None in Hk; try done; eapply Hs; constructor. }
  destruct o as [i|].
  - destruct (lookup_lt_is_Some_2 _ _ (Hown i eq_refl)) as [p Hp].
    eapply Hgo; [done| |by right]. specialize (Hth _ _ Hp). rewrite is_owner_self in Hth.
    destruct p; try done; cbn in Hth; by destruct Hth.
  - apply not_Forall_Exists in Hfin; [|intros p; unfold decide; apply _].
    apply Exists_exists in Hfin as (p & Hp & Hf). apply list_elem_of_lookup in Hp as [i Hi].
    eapply Hgo; [done | by apply not_true_is_false | by left].
Qed.

(** A schedule that cannot be continued has finished every thread. *)
Lemma well_behaved_finishes c n :
  well_behaved c -> Forall (fun p => over_in p n) (c_procs c) ->
  (forall k c', nsteps step k c c' -> (k <= length (c_procs c) * n)%nat)
  /\ (forall c', rtc step c c' -> (forall c'', ~ step c' c'') -> all_finished c').
Proof.
  intros Hw Hn. split.
  - intros k c' Hk. rewrite <- sum_list_replicate. eapply steps_bounded; [|done].
    unfold budgeted. induction Hn; cbn [replicate length]; constructor; done.
  - intros c' Hc Hstuck. destruct (decide (Forall (fun p => finished p = true) (c_procs c'))) as [|Hnf]; [done|].
    destruct (well_behaved_progress c') as [c'' Hs]; [by eapply steps_sound | done |].
    by destruct (Hstuck c'').
Qed.

(** A finished thread has returned, where panics are excluded. *)
Lemma well_behaved_returned c i p :
  well_behaved c -> ~ Crashes C -> c_procs c !! i = Some p -> finished p = true -> exists a, p = Return a.
Proof.
  intros [Hth _ _ _] Hc Hi Hp. apply Hth in Hi. destruct p as [a| | | | | | | |]; try done; [by exists a|].
  by destruct Hi.
Qed.

(** A thread that has returned tells the truth. *)
Lemma well_behaved_result c i a :
  well_behaved c -> c_procs c !! i = Some (Return a) -> Post C a (c_state c).
Proof. intros [Hth _ _ _] Hi. apply Hth in Hi. by destruct Hi. Qed.

End Logic.

(** ** Threads that take no lock

    [R] is what any of them may do to the state at any time, [Q] what a result
    says. *)

Section Unlocked.
Context {W A : Type} (R : W -> W -> Prop) (Q : A -> Prop).
Implicit Types (p : proc W A) (s : W).

(** The process stays within [R], started at a state it knows something of. *)
Fixpoint abides p s : Prop :=
  match p with
  | Return a => Q a
  | Crash => True
  | Now k => forall now s', R s s' -> abides (k now) s'
  | Atomic u k | Guarded u k => forall s', R s s' -> R s' (u s') /\ abides (k s') (u s')
  | Acquire k | Release k => forall s', R s s' -> abides k s'
  | Call _ k | Pending _ k => forall r s', R s s' -> abides (k r) s'
  end.

Context `{!PreOrder R}.

Lemma abides_later p s s' : R s s' -> abides p s -> abides p s'.
Proof. intros Hs. destruct p; cbn [abides]; intros Hp; try done; intros; eapply Hp; by etrans. Qed.

Lemma move_abides i now p s o l p' s' o' l' :
  move i now (p, s, o, l) (p', s', o', l') -> abides p s -> R s s' /\ abides p' s'.
Proof.
  intros Hm. inversion Hm; subst; cbn [abides]; intros Hp; try (by split; [reflexivity|]; eapply Hp);
    by eapply Hp.
Qed.

Definition all_abide (c : threads W A) : Prop := Forall (fun p => abides p (c_state c)) (c_procs c).

Lemma step_abides c c' : step c c' -> all_abide c -> R (c_state c) (c_state c') /\ all_abide c'.
Proof.
  unfold all_abide. destruct 1 as [i now p s o l ps t p' s' o' l' Hi _ Hm]. cbn [c_procs c_state].
  intros Hps. destruct (move_abides _ _ _ _ _ _ _ _ _ _ Hm) as [Hr Hp']; [by eapply Forall_lookup_1 in Hps|].
  split; [done|]. apply Forall_insert; [|done]. eapply Forall_impl; [exact Hps|]. intros q. by apply abides_later.
Qed.

Lemma steps_abide c c' : rtc step c c' -> all_abide c -> R (c_state c) (c_state c') /\ all_abide c'.
Proof.
  induction 1 as [|c1 c2 c3 Hs _ IH]; intros Hc; [by split|].
  destruct (step_abides _ _ Hs Hc) as [H1 H2]. destruct (IH H2) as [H3 H4]. split; [by etrans | done].
Qed.
End Unlocked.

(** ** Requests that are paid for one by one

    [K] holds of the state at all times; a result that is [owed] takes a request
    of the thread's own, which it makes once at most. *)

Section Paying.
Context {W A : Type} (K : W -> Prop) (owed : A -> Prop).
Implicit Types (p : proc W A) (s : W).

(** The process pays before it returns what is owed; [paid] says whether it has
    made its request. *)
Fixpoint pays p (paid : bool) : Prop :=
  match p with
  | Return a => owed a -> paid = true
  | Crash => True
  | Now k => forall now, pays (k now) paid
  | Atomic u k | Guarded u k => forall s, K s -> K (u s) /\ pays (k s) paid
  | Acquire k | Release k => pays k paid
  | Call _ k => paid = false /\ forall r, pays (k r) true
  | Pending _ k => paid = true /\ forall r, pays (k r) true
  end.

(** The threads that have paid are as many as the requests. *)
Definition settled (c : threads W A) : Prop :=
  K (c_state c) /\ exists bs, Forall2 pays (c_procs c) bs /\ length (List.filter id bs) = length (c_log c).

Lemma count_paid (bs : list bool) i :
  bs !! i = Some false -> length (List.filter id (<[i := true]> bs)) = S (length (List.filter id bs)).
Proof.
  revert i. induction bs as [|b bs IH]; intros [|i] Hi; simpl in *; [done..|by simplify_eq|].
  destruct b; simpl; by rewrite IH.
Qed.

Lemma step_settled c c' : step c c' -> settled c -> settled c'.
Proof.
  unfold settled. destruct 1 as [i now p s o l ps t p' s' o' l' Hi _ Hm]. cbn [c_procs c_state c_log].
  intros [Hk (bs & Hbs & Hl)]. destruct (Forall2_lookup_l _ _ _ _ _ Hbs Hi) as (b & Hb & Hp).
  assert (Hkeep : K s' -> l' = l -> pays p' b ->
    K s' /\ exists bs, Forall2 pays (<[i := p']> ps) bs /\ length (List.filter id bs) = length l').
  { intros Hs -> Hp'. split; [done|]. exists bs. split; [|done].
    rewrite <- (list_insert_id bs i b) by done. by apply Forall2_insert. }
  inversion Hm; subst; cbn [pays] in Hp; try (apply Hkeep; [by try apply Hp | done | by try apply Hp]).
  - destruct Hp as [-> Hp]. split; [done|]. exists (<[i := true]> bs). split; [by apply Forall2_insert|].
    rewrite length_app, count_paid by done. cbn [length]. lia.
  - destruct Hp as [-> Hp]. by apply Hkeep.
Qed.

Lemma steps_settled c c' : rtc step c c' -> settled c -> settled c'.
Proof. induction 1; eauto using step_settled. Qed.

Lemma fresh_settled t s ps : K s -> Forall (fun p => pays p false) ps -> settled (fresh t s ps).
Proof.
  intros Hs Hps. split; [done|]. exists (map (fun _ => false) ps). cbn [fresh c_procs c_log].
  induction Hps as [|p ps Hp _ [IH IHl]]; cbn [map]; by split; [constructor|].
Qed.

(** What is owed was paid for, and nobody pays twice. *)
Lemma settled_bounds c (failed : proc W A -> bool) :
  (forall p, failed p = true -> exists a, p = Return a /\ owed a) -> settled c ->
  (length (List.filter failed (c_procs c)) <= length (c_log c) <= length (c_procs c))%nat.
Proof.
  intros Hf [_ (bs & Hbs & <-)]. induction Hbs as [|p b ps bs Hp _ IH]; simpl; [done|].
  destruct (failed p) eqn:Ef; [destruct (Hf p Ef) as (a & -> & Ha); rewrite (Hp Ha); simpl; lia|].
  destruct b; simpl; lia.
Qed.
End Paying.

(** Threads that go on one after the other, where each adds as much to the
    log. *)
Lemma in_turn {W A} (t : time) (s : W) (n : nat) (ps qs : list (proc W A)) :
  let at_rest l ps := {| c_now := t; c_state := s; c_owner := None; c_log := l; c_procs := ps |} in
  Forall2 (fun p q => forall l ps1 ps2, exists l', length l' = (length l + n)%nat
             /\ rtc step (at_rest l (ps1 ++ p :: ps2)) (at_rest l' (ps1 ++ q :: ps2))) ps qs ->
  forall l ps1, exists l', length l' = (length l + n * length ps)%nat
    /\ rtc step (at_rest l (ps1 ++ ps)) (at_rest l' (ps1 ++ qs)).
Proof.
  intros at_rest Hpq. induction Hpq as [|p q ps qs Hp _ IH]; intros l ps1.
  { exists l. split; [simpl; lia | reflexivity]. }
  destruct (Hp l ps1 ps) as (l1 & H1 & S1). destruct (IH l1 (ps1 ++ [q])) as (l2 & H2 & S2).
  exists l2. split; [simpl; lia|]. etrans; [exact S1|]. by rewrite <- !app_assoc in S2.
Qed.

(** ** Tactics *)

(** Runs a process and a computation side by side. *)
Ltac run_alone :=
  repeat progress (cbn; unfold mbind, mret, M_bind, M_ret, time_Now, get, modify, lift, try, client_Do).

(** One step of the holder: the others have changed nothing. *)
Ltac held t := let Ht := fresh "Hle" in intros t ? ? [Ht [-> ->]].

(** One more step of the thread in the middle. *)
Ltac go t := eapply rtc_l; [eapply (step_at t); [lia | constructor]|]; cbn [id].
