(* ===== verification/JsonSyntax.v ===== *)
(** * The text of JSON, as [encoding/json] reads and writes it

    A parser and a printer, and the proof that they are inverse on the values
    that a printer can write: an instance of [JsonText] that satisfies
    [JsonLaws].  Invalid UTF-8 and lone surrogates become U+FFFD, and a printer
    escapes what HTML would interpret, as Go does; Go's limit of ten thousand
    nested values is left out. *)

From Stdlib Require Import ZArith Lia Ascii String Bool List.
From S2P Require Import Prelude GoStrings Json.

Definition chr (z : Z) : ascii := ascii_of_N (Z.to_N z).
Definition quote_char : ascii := chr 34.
Definition is_char (n : Z) (c : ascii) : bool := code c =? n.

(** ** UTF-8 *)

(** [utf8.DecodeRuneInString]: the bytes of the first rune, 0 if they are
    invalid. *)
Definition rune_size (s : string) : nat :=
  match s with
  | EmptyString => 0%nat
  | String a s1 =>
      if code a <? 128 then 1%nat
      else match s1 with
      | EmptyString => 0%nat
      | String b s2 =>
          if in_range 194 223 a then (if continuation b then 2%nat else 0%nat)
          else match s2 with
          | EmptyString => 0%nat
          | String c s3 =>
              if in_range 224 239 a then
                (if (if code a =? 224 then in_range 160 191 b
                     else if code a =? 237 then in_range 128 159 b else continuation b)
                    && continuation c then 3%nat else 0%nat)
              else match s3 with
              | EmptyString => 0%nat
              | String d _ =>
                  if in_range 240 244 a
                     && (if code a =? 240 then in_range 144 191 b
                         else if code a =? 244 then in_range 128 143 b else continuation b)
                     && continuation c && continuation d then 4%nat else 0%nat
              end
          end
      end
  end.

(** [utf8.AppendRune] *)
Definition encode_rune (r : Z) : string :=
  if r <? 128 then String (chr r) ""
  else if r <? 2048 then String (chr (192 + r / 64)) (String (chr (128 + r mod 64)) "")
  else if r <? 65536 then
    String (chr (224 + r / 4096)) (String (chr (128 + r / 64 mod 64)) (String (chr (128 + r mod 64)) ""))
  else
    String (chr (240 + r / 262144)) (String (chr (128 + r / 4096 mod 64))
      (String (chr (128 + r / 64 mod 64)) (String (chr (128 + r mod 64)) ""))).

Definition replacement : string := encode_rune 65533.

(** The text with every invalid byte replaced; [keep] bytes belong to a rune
    already checked. *)
Fixpoint coerce_utf8 (keep : nat) (s : string) : string :=
  match s with
  | EmptyString => ""
  | String c s' =>
      match keep with
      | S k => String c (coerce_utf8 k s')
      | O => match rune_size s with
             | O => replacement +:+ coerce_utf8 0 s'
             | S k => String c (coerce_utf8 k s')
             end
      end
  end.

Definition high (c : ascii) : bool := negb (code c <? 128).

(** A rune of several bytes, whatever follows it. *)
Definition wide (head : string) : Prop :=
  (2 <= slen head)%nat /\ sforall high head = true /\ forall t, rune_size (head +:+ t) = slen head.

Lemma in_range_high lo hi c : in_range lo hi c = true -> 128 <= lo -> high c = true.
Proof. unfold in_range, high. intros [H%Z.leb_le _]%andb_true_iff Hlo. apply negb_true_iff, Z.ltb_ge. lia. Qed.

(** A valid text is empty, or begins with an ASCII byte or with a wide rune. *)
Lemma valid_utf8_cases s :
  valid_utf8 s = true ->
  s = "" \/ exists head tail, s = head +:+ tail /\ valid_utf8 tail = true
    /\ ((exists c, head = String c "" /\ code c <? 128 = true) \/ wide head).
Proof.
  destruct s as [|a s1]; [by left|]. cbn [valid_utf8]. destruct (code a <? 128) eqn:Ea.
  { intros Hs. right. exists (String a ""), s1. eauto 10. }
  destruct s1 as [|b s2]; [done|]. destruct (in_range 194 223 a) eqn:Ra.
  { intros [Hb Hs]%andb_true_iff. right. exists (String a (String b "")), s2. split_and!; [done..|].
    right. split_and!; [done| |].
    - cbn [sforall]. unfold high at 1. rewrite Ea. cbn. by rewrite (in_range_high _ _ _ Hb).
    - intros t. cbn. by rewrite Ea, Ra, Hb. }
  destruct s2 as [|c s3]; [done|]. destruct (in_range 224 239 a) eqn:Rb.
  { intros [[Hb Hc]%andb_true_iff Hs]%andb_true_iff. right.
    exists (String a (String b (String c ""))), s3. split_and!; [done..|]. right. split_and!; [simpl; lia| |].
    - cbn [sforall]. unfold high at 1. rewrite Ea. cbn. rewrite (in_range_high _ _ _ Hc) by lia.
      rewrite andb_true_r. repeat case_match; by eapply in_range_high.
    - intros t. cbn. by rewrite Ea, Ra, Rb, Hb, Hc. }
  destruct s3 as [|d s4]; [done|].
  intros [[[[Hr Hb]%andb_true_iff Hc]%andb_true_iff Hd]%andb_true_iff Hs]%andb_true_iff. right.
  exists (String a (String b (String c (String d "")))), s4. split_and!; [done..|]. right. split_and!; [simpl; lia| |].
  - cbn [sforall]. unfold high at 1. rewrite Ea. cbn. rewrite (in_range_high _ _ _ Hc), (in_range_high _ _ _ Hd) by lia.
    rewrite !andb_true_r. repeat case_match; by eapply in_range_high.
  - intros t. cbn. by rewrite Ea, Ra, Rb, Hr, Hb, Hc, Hd.
Qed.

Lemma wide_size head t : wide head -> rune_size (head +:+ t) = slen head.
Proof. by intros (_ & _ & H). Qed.

(** Induction on a valid text, rune by rune. *)
Lemma valid_utf8_ind' (P : string -> Prop) :
  P "" ->
  (forall c s, code c <? 128 = true -> valid_utf8 s = true -> P s -> P (String c s)) ->
  (forall head s, wide head -> valid_utf8 s = true -> P s -> P (head +:+ s)) ->
  forall s, valid_utf8 s = true -> P s.
Proof.
  intros H0 H1 H2 s. induction (Nat.lt_wf_0_projected slen s) as [s _ IH]. intros Hv.
  destruct (valid_utf8_cases s Hv) as [->|(head & tail & -> & Ht & [(c & -> & Hc)|Hw])]; [done| |].
  - apply H1; [done..|]. apply IH; [simpl; lia | done].
  - apply H2; [done..|]. apply IH; [|done]. destruct Hw as [Hl _]. rewrite slen_app. lia.
Qed.

Lemma coerce_keep head s : coerce_utf8 (slen head) (head +:+ s) = head +:+ coerce_utf8 0 s.
Proof. induction head as [|c head IH]; [done|]. cbn. by rewrite IH. Qed.

Lemma coerce_valid s : valid_utf8 s = true -> coerce_utf8 0 s = s.
Proof.
  apply (valid_utf8_ind' (fun s => coerce_utf8 0 s = s)); [done| |].
  - intros c t Hc _ IH. cbn [coerce_utf8 rune_size]. rewrite Hc. by rewrite IH.
  - intros head t Hw _ IH. pose proof (wide_size _ t Hw) as Hsz. destruct Hw as [Hl _].
    destruct head as [|c head]; [simpl in Hl; lia|]. cbn [String.append] in *. cbn [coerce_utf8].
    rewrite Hsz. cbn [String.length]. by rewrite coerce_keep, IH.
Qed.

(** ** String literals *)

Definition hex_value (c : ascii) : option Z :=
  if in_range 48 57 c then Some (code c - 48)
  else if in_range 97 102 c then Some (code c - 87)
  else if in_range 65 70 c then Some (code c - 55)
  else None.

Definition hex4 (a b c d : ascii) : option Z :=
  a ← hex_value a; b ← hex_value b; c ← hex_value c; d ← hex_value d;
  Some (((a * 16 + b) * 16 + c) * 16 + d).

Definition surrogate (r : Z) : bool := (55296 <=? r) && (r <? 57344).

(** [utf16.DecodeRune] *)
Definition pair_of (r1 r2 : Z) : option Z :=
  if (55296 <=? r1) && (r1 <? 56320) && (56320 <=? r2) && (r2 <? 57344)
  then Some ((r1 - 55296) * 1024 + (r2 - 56320) + 65536) else None.

Definition lone (r : Z) : string := if surrogate r then replacement else encode_rune r.

(** The character after a backslash, other than [u]. *)
Definition unescape (e : ascii) : option ascii :=
  if is_char 34 e || is_char 92 e || is_char 47 e then Some e
  else if is_char 98 e then Some (chr 8)
  else if is_char 102 e then Some (chr 12)
  else if is_char 110 e then Some (chr 10)
  else if is_char 114 e then Some (chr 13)
  else if is_char 116 e then Some (chr 9)
  else None.

Definition push (p : string) (r : result (string * string)) : result (string * string) :=
  let? (out, rest) := r in Ok (p +:+ out, rest).

(** The bytes of a literal after its opening quote, and what follows its
    closing one. *)
Fixpoint scan_string (s : string) : result (string * string) :=
  match s with
  | EmptyString => errorf "unexpected end of JSON input"
  | String c s1 =>
      if is_char 34 c then Ok ("", s1)
      else if is_char 92 c then
        match s1 with
        | EmptyString => errorf "unexpected end of JSON input"
        | String e s2 =>
            if is_char 117 e then
              match s2 with
              | String h1 (String h2 (String h3 (String h4 s3))) =>
                  match hex4 h1 h2 h3 h4 with
                  | None => errorf "invalid character in \u hexadecimal character escape"
                  | Some r =>
                      match s3 with
                      | String b (String u (String l1 (String l2 (String l3 (String l4 s4))))) =>
                          match (if is_char 92 b && is_char 117 u
                                 then r2 ← hex4 l1 l2 l3 l4; pair_of r r2 else None) with
                          | Some r' => push (encode_rune r') (scan_string s4)
                          | None => push (lone r) (scan_string s3)
                          end
                      | _ => push (lone r) (scan_string s3)
                      end
                  end
              | _ => errorf "unexpected end of JSON input"
              end
            else match unescape e with
                 | Some d => push (String d "") (scan_string s2)
                 | None => errorf "invalid character in string escape code"
                 end
        end
      else if code c <? 32 then errorf "invalid character in string literal"
      else push (String c "") (scan_string s1)
  end.

Definition hex_digit (z : Z) : ascii := if z <? 10 then chr (48 + z) else chr (87 + z).

(** How a printer writes an ASCII byte. *)
Definition print_char (c : ascii) : string :=
  let n := code c in
  if is_char 34 c || is_char 92 c then String (chr 92) (String c "")
  else if n =? 8 then "\b" else if n =? 12 then "\f" else if n =? 10 then "\n"
  else if n =? 13 then "\r" else if n =? 9 then "\t"
  else if (n <? 32) || is_char 60 c || is_char 62 c || is_char 38 c
  then "\u00" +:+ String (hex_digit (n / 16)) (String (hex_digit (n mod 16)) "")
  else String c "".

(** U+2028 and U+2029. *)
Definition line_separator : string := encode_rune 8232.
Definition paragraph_separator : string := encode_rune 8233.

Fixpoint print_string (keep : nat) (s : string) : string :=
  match s with
  | EmptyString => ""
  | String c s' =>
      match keep with
      | S k => String c (print_string k s')
      | O =>
          if code c <? 128 then print_char c +:+ print_string 0 s'
          else match rune_size s with
          | O => "\ufffd" +:+ print_string 0 s'
          | S k =>
              if HasPrefix s line_separator || HasPrefix s paragraph_separator then
                match s' with
                | String _ (String _ s3) =>
                    (if HasPrefix s line_separator then "\u2028" else "\u2029") +:+ print_string 0 s3
                | _ => ""
                end
              else String c (print_string k s')
          end
      end
  end.

Example scan_pair : scan_string ("a\u00e9\uD83D\uDE00\n" +:+ String quote_char "x")
  = Ok ("a" +:+ encode_rune 233 +:+ encode_rune 128512 +:+ String (chr 10) "", "x").
Proof. vm_compute. reflexivity. Qed.

Lemma pair_of_basic r r2 : surrogate r = false -> pair_of r r2 = None.
Proof. unfold surrogate, pair_of. intros H. case_match; [boolprop; lia | done]. Qed.

Lemma scan_unicode h1 h2 h3 h4 r t :
  hex4 h1 h2 h3 h4 = Some r -> surrogate r = false ->
  scan_string ("\u" +:+ String h1 (String h2 (String h3 (String h4 t))))
  = push (encode_rune r) (scan_string t).
Proof.
  intros Hh Hr. assert (lone r = encode_rune r) as Hl by (unfold lone; by rewrite Hr).
  assert (forall b : bool, forall o : option Z, (if b then r2 ← o; pair_of r r2 else None) = None) as Hp.
  { intros [] [r2|]; cbn; auto using pair_of_basic. }
  cbn -[hex4 encode_rune lone pair_of]. rewrite Hh.
  do 6 (destruct t as [|? t]; [by rewrite Hl|]). by rewrite Hp, Hl.
Qed.

Lemma scan_print_char c t :
  code c <? 128 = true -> scan_string (print_char c +:+ t) = push (String c "") (scan_string t).
Proof.
  destruct c as [[] [] [] [] [] [] [] []]; intros Hc; try discriminate Hc; try reflexivity;
    lazymatch goal with
    | |- scan_string (print_char ?x +:+ _) = _ =>
        exact (scan_unicode "0" "0" (hex_digit (code x / 16)) (hex_digit (code x mod 16)) (code x) t
                 eq_refl eq_refl)
    end.
Qed.

Lemma push_push a b r : push a (push b r) = push (a +:+ b) r.
Proof. destruct r as [[o rest]|]; cbn; [by rewrite sapp_assoc | done]. Qed.

(** Bytes above 127 are copied. *)
Lemma scan_high head t : sforall high head = true -> scan_string (head +:+ t) = push head (scan_string t).
Proof.
  induction head as [|c head IH]; cbn [sforall String.append].
  - intros _. by destruct (scan_string t) as [[o r]|].
  - intros [Hc Hh]%andb_true_iff. unfold high in Hc. apply negb_true_iff, Z.ltb_ge in Hc.
    cbn [scan_string]. unfold is_char.
    rewrite (proj2 (Z.eqb_neq (code c) 34)), (proj2 (Z.eqb_neq (code c) 92)), (proj2 (Z.ltb_ge (code c) 32)) by lia.
    by rewrite IH, push_push.
Qed.

Lemma print_keep head s : print_string (slen head) (head +:+ s) = head +:+ print_string 0 s.
Proof. induction head as [|c head IH]; [done|]. cbn [String.append String.length print_string]. by rewrite IH. Qed.

Lemma HasPrefix_3 (a b c : ascii) head s :
  wide head -> HasPrefix (head +:+ s) (String a (String b (String c ""))) = true ->
  (forall t, rune_size (String a (String b (String c t))) = 3%nat) -> head = String a (String b (String c "")).
Proof.
  intros Hw [t Ht]%HasPrefix_spec H3. pose proof (wide_size _ s Hw) as Hs. rewrite Ht in Hs.
  cbn [String.append] in Hs, Ht. rewrite H3 in Hs. destruct head as [|x [|y [|z [|]]]]; simplify_eq/=. done.
Qed.

(** Printing a wide rune and scanning it. *)
Lemma scan_print_wide head s t :
  wide head -> scan_string (print_string 0 (head +:+ s) +:+ t) = push head (scan_string (print_string 0 s +:+ t)).
Proof.
  intros Hw. pose proof (wide_size _ s Hw) as Hsz. pose proof Hw as (Hl & Hh & _).
  destruct head as [|c head]; [simpl in Hl; lia|].
  assert (code c <? 128 = false) as Hc by (cbn in Hh; apply andb_true_iff in Hh as [Hc _]; by apply negb_true_iff).
  destruct (HasPrefix (String c head +:+ s) line_separator) eqn:E1;
    [|destruct (HasPrefix (String c head +:+ s) paragraph_separator) eqn:E2].
  - apply HasPrefix_3 in E1; [|done..]. injection E1 as -> ->.
    exact (scan_unicode "2" "0" "2" "8" 8232 (print_string 0 s +:+ t) eq_refl eq_refl).
  - apply HasPrefix_3 in E2; [|done..]. injection E2 as -> ->.
    exact (scan_unicode "2" "0" "2" "9" 8233 (print_string 0 s +:+ t) eq_refl eq_refl).
  - cbn [String.append] in *. cbn [print_string]. rewrite Hc, Hsz, E1, E2. cbn [String.length orb].
    rewrite print_keep. rewrite <- (scan_high (String c head)) by done.
    cbn [String.append]. by rewrite sapp_assoc.
Qed.

Lemma scan_print_string s rest :
  valid_utf8 s = true ->
  scan_string (print_string 0 s +:+ String quote_char rest) = Ok (s, rest).
Proof.
  apply (valid_utf8_ind' (fun s => scan_string (print_string 0 s +:+ String quote_char rest) = Ok (s, rest))).
  - done.
  - intros c t Hc _ IH. cbn [print_string]. rewrite Hc, sapp_assoc, scan_print_char, IH by done. done.
  - intros head t Hw _ IH. by rewrite scan_print_wide, IH.
Qed.

(** ** Numbers *)

Definition is_digit (c : ascii) : bool := in_range 48 57 c.

Fixpoint span_digits (s : string) : string * string :=
  match s with
  | String c s' =>
      if is_digit c then let '(d, r) := span_digits s' in (String c d, r) else ("", s)
  | EmptyString => ("", s)
  end.

(** At least one digit. *)
Definition some_digits (s : string) : option (string * string) :=
  match span_digits s with
  | (EmptyString, _) => None
  | (d, r) => Some (d, r)
  end.

(** Digits without a leading zero, or a single zero. *)
Definition scan_integer (s : string) : option (string * string) :=
  match s with
  | String c r => if is_char 48 c then Some (String c "", r) else some_digits s
  | EmptyString => None
  end.

Definition scan_fraction (s : string) : option (string * string) :=
  match s with
  | String c r => if is_char 46 c then '(d, r) ← some_digits r; Some (String c d, r) else Some ("", s)
  | EmptyString => Some ("", s)
  end.

Definition scan_sign (s : string) : string * string :=
  match s with
  | String c r => if is_char 43 c || is_char 45 c then (String c "", r) else ("", s)
  | EmptyString => ("", s)
  end.

Definition scan_exponent (s : string) : option (string * string) :=
  match s with
  | String c r =>
      if is_char 101 c || is_char 69 c then
        let '(sg, r) := scan_sign r in
        '(d, r) ← some_digits r; Some (String c (sg +:+ d), r)
      else Some ("", s)
  | EmptyString => Some ("", s)
  end.

Definition scan_minus (s : string) : string * string :=
  match s with
  | String c r => if is_char 45 c then (String c "", r) else ("", s)
  | EmptyString => ("", s)
  end.

(** The literal of a number and what follows it. *)
Definition scan_number (s : string) : option (string * string) :=
  let '(minus, s) := scan_minus s in
  '(int, s) ← scan_integer s;
  '(frac, s) ← scan_fraction s;
  '(exp, s) ← scan_exponent s;
  Some (minus +:+ int +:+ frac +:+ exp, s).

(** A text with which a number does not go on. *)
Definition delimited (s : string) : bool :=
  match s with
  | String c _ => negb (is_digit c || is_char 46 c || is_char 101 c || is_char 69 c)
  | EmptyString => true
  end.

Lemma span_digits_app d rest :
  sforall is_digit d = true -> delimited rest = true -> span_digits (d +:+ rest) = (d, rest).
Proof.
  intros Hd Hr. induction d as [|c d IH]; cbn [sforall String.append] in *.
  - destruct rest as [|c rest]; [done|]. cbn in *. by destruct (is_digit c).
  - apply andb_true_iff in Hd as [Hc Hd]. cbn [span_digits]. by rewrite Hc, IH.
Qed.

Lemma delimited_end rest :
  delimited rest = true -> scan_fraction rest = Some ("", rest) /\ scan_exponent rest = Some ("", rest).
Proof.
  destruct rest as [|c rest]; [done|]. cbn. intros H%negb_true_iff.
  repeat (apply orb_false_iff in H as [H ?]). by destruct (is_char 46 c), (is_char 101 c), (is_char 69 c).
Qed.

Lemma digit_not n c : is_digit c = true -> n < 48 \/ 57 < n -> is_char n c = false.
Proof. unfold is_digit, in_range, is_char. intros H Hn. boolprop. apply Z.eqb_neq. lia. Qed.

Lemma scan_number_of minus int rest :
  scan_minus (minus +:+ int +:+ rest) = (minus, int +:+ rest) ->
  scan_integer (int +:+ rest) = Some (int, rest) -> delimited rest = true ->
  scan_number (minus +:+ int +:+ rest) = Some (minus +:+ int, rest).
Proof.
  intros Hm Hi [Hf He]%delimited_end. unfold scan_number. rewrite Hm, Hi. cbn [mbind option_bind].
  rewrite Hf. cbn [mbind option_bind]. rewrite He. cbn [mbind option_bind]. by rewrite !sapp_nil_r.
Qed.

(** Digits that do not begin with a zero, with or without a minus sign. *)
Lemma scan_number_digits minus c d rest :
  (minus = "" \/ minus = "-") -> is_digit c = true -> is_char 48 c = false -> sforall is_digit d = true ->
  delimited rest = true ->
  scan_number (minus +:+ String c d +:+ rest) = Some (minus +:+ String c d, rest).
Proof.
  intros Hm Hc Hz Hd Hr. apply scan_number_of; [| |done].
  - destruct Hm as [-> | ->]; cbn; by rewrite ?(digit_not 45 c) by (done || lia).
  - cbn [scan_integer String.append]. rewrite Hz. unfold some_digits.
    change (String c (d +:+ rest)) with (String c d +:+ rest). rewrite span_digits_app; [done| |done].
    cbn. by rewrite Hc.
Qed.

(** What [strconv.Itoa] writes is read back as a number. *)
Lemma pretty_go_digits x s :
  (0 < x)%N -> sforall is_digit s = true ->
  exists c d, pretty_N_go x s = String c d /\ is_digit c = true /\ is_char 48 c = false
              /\ sforall is_digit d = true.
Proof.
  assert (forall n, (n < 10)%N -> is_digit (pretty_N_char n) = true
            /\ (n <> 0%N -> is_char 48 (pretty_N_char n) = false)) as Hdig.
  { intros n Hn. destruct (digit_char n Hn) as [Hv _]. unfold nat_of_ascii in Hv. rewrite N_nat_Z in Hv.
    unfold is_digit, in_range, is_char, code. split.
    - apply andb_true_iff. split; apply Z.leb_le; lia.
    - intros Hz. apply Z.eqb_neq. lia. }
  revert s. induction (N.lt_wf_0 x) as [x _ IH]; intros s Hx Hs.
  rewrite pretty_N_go_step by lia.
  assert (x mod 10 < 10)%N as Hm by (apply N.mod_lt; lia).
  destruct (Hdig _ Hm) as [Hd Hz].
  destruct (decide (x / 10 = 0)%N) as [Hq|Hne].
  - rewrite Hq, pretty_N_go_0. eexists _, _. split_and!; [done..| |done]. apply Hz.
    pose proof (N.div_mod x 10 ltac:(done)). lia.
  - apply IH; [by apply N.div_lt | by apply N.neq_0_lt_0 |]. cbn. by rewrite Hd.
Qed.

Lemma scan_number_Itoa z rest :
  delimited rest = true -> scan_number (Itoa z +:+ rest) = Some (Itoa z, rest).
Proof.
  intros Hr. unfold Itoa. destruct z as [|p|p].
  - by apply (scan_number_of "" "0" rest).
  - change (pretty (Z.pos p)) with (pretty (N.pos p)). unfold pretty, pretty_N. rewrite decide_False by lia.
    destruct (pretty_go_digits (N.pos p) "") as (c & d & -> & ? & ? & ?); [lia | done |].
    apply (scan_number_digits "" c d rest); auto.
  - change (pretty (Z.neg p)) with ("-" +:+ pretty (N.pos p)). unfold pretty, pretty_N. rewrite decide_False by lia.
    destruct (pretty_go_digits (N.pos p) "") as (c & d & -> & ? & ? & ?); [lia | done |].
    apply (scan_number_digits "-" c d rest); auto.
Qed.

(** ** Values *)

Definition is_space (c : ascii) : bool := is_char 32 c || is_char 9 c || is_char 10 c || is_char 13 c.

Fixpoint skip_space (s : string) : string :=
  match s with
  | String c s' => if is_space c then skip_space s' else s
  | EmptyString => ""
  end.

Definition unexpected_end {A} : result A := errorf "unexpected end of JSON input".

(** The rest of the text after a literal name. *)
Definition keyword (name : string) (j : json) (s : string) : result (json * string) :=
  match CutPrefix s name with Some rest => Ok (j, rest) | None => errorf "invalid character in literal" end.

(** A member's name with its colon. *)
Definition member_name (s : string) : result (string * string) :=
  match skip_space s with
  | String c r =>
      if is_char 34 c then
        let? (name, r) := scan_string r in
        match skip_space r with
        | String c r => if is_char 58 c then Ok (coerce_utf8 0 name, r) else errorf "invalid character after object key"
        | EmptyString => unexpected_end
        end
      else errorf "invalid character looking for beginning of object key string"
  | EmptyString => unexpected_end
  end.

(** The value at the head of a text, and what follows it; the elements of an
    array and the members of an object up to their closing bracket. *)
Fixpoint value (fuel : nat) (s : string) : result (json * string) :=
  match fuel with
  | O => unexpected_end
  | S fuel =>
      match skip_space s with
      | EmptyString => unexpected_end
      | String c r =>
          if is_char 34 c then let? (t, r) := scan_string r in Ok (JStr (coerce_utf8 0 t), r)
          else if is_char 91 c then
            match skip_space r with
            | String c' r' =>
                if is_char 93 c' then Ok (JArr [], r')
                else let? (l, r) := elements fuel r in Ok (JArr l, r)
            | EmptyString => unexpected_end
            end
          else if is_char 123 c then
            match skip_space r with
            | String c' r' =>
                if is_char 125 c' then Ok (JObj [], r')
                else let? (l, r) := members fuel r in Ok (JObj l, r)
            | EmptyString => unexpected_end
            end
          else if is_char 116 c then keyword "true" (JBool true) (String c r)
          else if is_char 102 c then keyword "false" (JBool false) (String c r)
          else if is_char 110 c then keyword "null" JNull (String c r)
          else match scan_number (String c r) with
               | Some (lit, r) => Ok (JNum lit, r)
               | None => errorf "invalid character looking for beginning of value"
               end
      end
  end
with elements (fuel : nat) (s : string) : result (list json * string) :=
  match fuel with
  | O => unexpected_end
  | S fuel =>
      let? (j, r) := value fuel s in
      match skip_space r with
      | String c r =>
          if is_char 44 c then let? (l, r) := elements fuel r in Ok (j :: l, r)
          else if is_char 93 c then Ok ([j], r)
          else errorf "invalid character after array element"
      | EmptyString => unexpected_end
      end
  end
with members (fuel : nat) (s : string) : result (list (string * json) * string) :=
  match fuel with
  | O => unexpected_end
  | S fuel =>
      let? (name, r) := member_name s in
      let? (j, r) := value fuel r in
      match skip_space r with
      | String c r =>
          if is_char 44 c then let? (l, r) := members fuel r in Ok ((name, j) :: l, r)
          else if is_char 125 c then Ok ([(name, j)], r)
          else errorf "invalid character after object key:value pair"
      | EmptyString => unexpected_end
      end
  end.

(** Every call but those for a value at the head of an element consumes a
    byte, so that twice the length of the text is enough fuel. *)
Definition first_value (s : string) : result (json * string) := value (2 * slen s + 1) s.

Definition json_text_parse (s : string) : result json :=
  let? (j, r) := first_value s in
  if String.eqb (skip_space r) "" then Ok j else errorf "invalid character after top-level value".

Definition json_text_decode (s : string) : result json := let? (j, _) := first_value s in Ok j.

Definition quoted (s : string) : string := String quote_char (print_string 0 s +:+ String quote_char "").

Fixpoint json_text_print (j : json) : string :=
  match j with
  | JNull => "null"
  | JBool b => if b then "true" else "false"
  | JNum lit => lit
  | JStr s => quoted s
  | JArr l => "[" +:+ Join (map json_text_print l) "," +:+ "]"
  | JObj ms => "{" +:+ Join (map (fun m => quoted m.1 +:+ ":" +:+ json_text_print m.2) ms) "," +:+ "}"
  end.

Definition go_json : JsonText := {|
  json_parse := json_text_parse; json_decode := json_text_decode; json_print := json_text_print |}.

(** ** Reading back what was printed *)

(** The head of a printed value: no space, no closing bracket. *)
Definition opens (s : string) : Prop :=
  exists c t, s = String c t /\ is_space c = false /\ is_char 93 c = false.

Lemma int_literal_Itoa lit : int_literal lit = true -> exists z, lit = Itoa z.
Proof. unfold int_literal. destruct (Atoi lit) as [z|]; [|done]. intros H%String.eqb_eq. by exists z. Qed.

(** A number's text begins with a digit or a minus sign. *)
Lemma Itoa_head z : exists c t, Itoa z = String c t /\ (is_digit c = true \/ c = chr 45).
Proof.
  unfold Itoa. destruct z as [|p|p].
  - exists (chr 48), "". auto.
  - change (pretty (Z.pos p)) with (pretty (N.pos p)). unfold pretty, pretty_N. rewrite decide_False by lia.
    destruct (pretty_go_digits (N.pos p) "") as (c & d & -> & Hc & _); [lia | done |]. eauto.
  - change (pretty (Z.neg p)) with (String (chr 45) (pretty (N.pos p))). eauto.
Qed.

Lemma number_head n c : is_digit c = true \/ c = chr 45 -> n < 45 \/ 57 < n -> is_char n c = false.
Proof.
  intros [Hc| ->] Hn; [apply digit_not; [done | lia]|]. unfold is_char.
  apply Z.eqb_neq. change (code (chr 45)) with 45. lia.
Qed.

Lemma print_opens j : json_plain j = true -> opens (json_text_print j).
Proof.
  destruct j as [|[]|lit|s|l|ms]; cbn [json_plain json_text_print]; intros Hp;
    try (eexists _, _; split_and!; reflexivity).
  apply int_literal_Itoa in Hp as [z ->]. destruct (Itoa_head z) as (c & t & -> & Hc).
  exists c, t. split_and!; [done | | by apply number_head; [|lia]].
  unfold is_space. by rewrite !(number_head _ c) by (done || lia).
Qed.

Lemma opens_skip s rest : opens s -> skip_space (s +:+ rest) = s +:+ rest.
Proof. intros (c & t & -> & Hc & _). cbn. by rewrite Hc. Qed.

Lemma value_number z rest fuel :
  delimited rest = true -> value (S fuel) (Itoa z +:+ rest) = Ok (JNum (Itoa z), rest).
Proof.
  intros Hr. pose proof (scan_number_Itoa z rest Hr) as Hs.
  destruct (Itoa_head z) as (c & t & Hz & Hc). rewrite Hz in *. cbn [value skip_space String.append] in *.
  assert (is_space c = false) as -> by (unfold is_space; by rewrite !(number_head _ c) by (done || lia)).
  rewrite !(number_head _ c) by (done || lia). by rewrite Hs.
Qed.

Lemma value_string s rest fuel :
  valid_utf8 s = true -> value (S fuel) (quoted s +:+ rest) = Ok (JStr s, rest).
Proof.
  intros Hs. unfold quoted. cbn [String.append value skip_space]. rewrite sapp_assoc. cbn [String.append].
  change (is_space quote_char) with false. change (is_char 34 quote_char) with true. cbv beta iota.
  rewrite scan_print_string by done. cbn [rbind]. by rewrite coerce_valid.
Qed.

Lemma member_name_quoted s rest :
  valid_utf8 s = true -> member_name (quoted s +:+ ":" +:+ rest) = Ok (s, rest).
Proof.
  intros Hs. unfold quoted, member_name. cbn [String.append skip_space]. rewrite sapp_assoc. cbn [String.append].
  change (is_space quote_char) with false. change (is_char 34 quote_char) with true. cbv beta iota.
  rewrite scan_print_string by done. cbn [rbind]. cbn. by rewrite coerce_valid.
Qed.

(** The text is read as the value in front of any delimiter. *)
Definition reads (s : string) (j : json) : Prop := forall rest fuel,
  delimited rest = true -> (2 * slen s < fuel)%nat -> value fuel (s +:+ rest) = Ok (j, rest).

(** The text is refused, whatever follows. *)
Definition refused (s : string) (e : error) : Prop := forall rest fuel, value (S fuel) (s +:+ rest) = Err e.

Lemma Join_cons (x y : string) l sep : Join (x :: y :: l) sep = x +:+ sep +:+ Join (y :: l) sep.
Proof. done. Qed.

(** Decides the tests of known bytes. *)
Ltac known_bytes :=
  cbn [rbind String.append skip_space];
  repeat (cbv beta iota; match goal with
  | |- context [is_space ?c] =>
      let v := eval vm_compute in (is_space c) in
      lazymatch v with true => idtac | false => idtac end; change (is_space c) with v
  | |- context [is_char ?n ?c] =>
      let v := eval vm_compute in (is_char n c) in
      lazymatch v with true => idtac | false => idtac end; change (is_char n c) with v
  end); cbv beta iota.

(** What a value is followed by. *)
Lemma elements_end fuel s j rest :
  value fuel s = Ok (j, "]" +:+ rest) -> elements (S fuel) s = Ok ([j], rest).
Proof. intros E. cbn [elements]. rewrite E. by known_bytes. Qed.

Lemma elements_comma fuel s j r l rest :
  value fuel s = Ok (j, "," +:+ r) -> elements fuel r = Ok (l, rest) ->
  elements (S fuel) s = Ok (j :: l, rest).
Proof. intros E1 E2. cbn [elements]. rewrite E1. known_bytes. by rewrite E2. Qed.

Lemma members_end fuel s k r j rest :
  member_name s = Ok (k, r) -> value fuel r = Ok (j, "}" +:+ rest) -> members (S fuel) s = Ok ([(k, j)], rest).
Proof. intros E1 E2. cbn [members]. rewrite E1. known_bytes. rewrite E2. by known_bytes. Qed.

Lemma members_comma fuel s k r j r' l rest :
  member_name s = Ok (k, r) -> value fuel r = Ok (j, "," +:+ r') -> members fuel r' = Ok (l, rest) ->
  members (S fuel) s = Ok ((k, j) :: l, rest).
Proof. intros E1 E2 E3. cbn [members]. rewrite E1. known_bytes. rewrite E2. known_bytes. by rewrite E3. Qed.

Lemma elements_read_back (l : list (string * json)) rest fuel :
  l <> [] -> Forall (fun x => reads x.1 x.2) l ->
  (2 * slen (Join (map fst l) ",") + 1 < fuel)%nat ->
  elements fuel (Join (map fst l) "," +:+ "]" +:+ rest) = Ok (map snd l, rest).
Proof.
  intros Hne Hl. revert fuel Hne. induction Hl as [|[s j] l Hj Hl IH]; [done|].
  intros [|fuel] _ Hf; [lia|]. cbn [fst snd] in Hj. destruct l as [|x2 l].
  - cbn [map Join fst snd] in *. apply elements_end, Hj; [done..|lia].
  - cbn [map fst snd] in *. rewrite Join_cons in *. rewrite !slen_app in Hf. rewrite !sapp_assoc.
    change (slen ",") with 1%nat in Hf.
    eapply elements_comma; [apply Hj; [done..|lia] | apply IH; [done..|lia]].
Qed.

(** The first refused element ends the array. *)
Lemma elements_refused (l : list (string * json)) bad e more rest fuel :
  Forall (fun x => reads x.1 x.2) l -> refused bad e ->
  (2 * slen (Join (map fst l ++ bad :: more) ",") + 1 < fuel)%nat ->
  elements fuel (Join (map fst l ++ bad :: more) "," +:+ rest) = Err e.
Proof.
  intros Hl Hbad. revert fuel. induction Hl as [|[s j] l Hj Hl IH]; intros [|fuel] Hf; try lia.
  - cbn [map app] in *. destruct fuel as [|fuel]; [lia|]. cbn [elements].
    destruct more as [|y more]; [by cbn [Join]; rewrite Hbad|]. rewrite Join_cons, sapp_assoc. by rewrite Hbad.
  - cbn [map fst snd app] in *.
    assert (exists y t, map fst l ++ bad :: more = y :: t) as (y & t & Ht) by (destruct (map fst l); eauto).
    rewrite Ht in *. rewrite Join_cons in *. rewrite !slen_app in Hf. rewrite !sapp_assoc.
    change (slen ",") with 1%nat in Hf. cbn [elements].
    rewrite Hj; [|done..|lia]. known_bytes. rewrite IH by lia. done.
Qed.

Lemma members_read_back ms rest fuel :
  ms <> [] -> Forall (fun m => valid_utf8 m.1 = true /\ reads (json_text_print m.2) m.2) ms ->
  (2 * slen (Join (map (fun m => quoted m.1 +:+ ":" +:+ json_text_print m.2) ms) ",") + 1 < fuel)%nat ->
  members fuel (Join (map (fun m => quoted m.1 +:+ ":" +:+ json_text_print m.2) ms) "," +:+ "}" +:+ rest)
  = Ok (ms, rest).
Proof.
  intros Hne Hl. revert fuel Hne. induction Hl as [|[k j] ms [Hk Hj] Hl IH]; [done|].
  intros [|fuel] _ Hf; [lia|]. cbn [fst snd] in Hk, Hj.
  destruct ms as [|m2 ms].
  - cbn [map Join fst snd] in *. rewrite !slen_app in Hf. rewrite !sapp_assoc.
    eapply members_end; [by apply member_name_quoted | apply Hj; [done..|lia]].
  - cbn [map fst snd] in *. rewrite Join_cons in *. rewrite !slen_app in Hf. rewrite !sapp_assoc.
    change (slen ",") with 1%nat in Hf.
    eapply members_comma; [by apply member_name_quoted | apply Hj; [done..|lia] | apply IH; [done..|lia]].
Qed.

Lemma value_array fuel s :
  opens s -> value (S fuel) ("[" +:+ s) = let? (l, rest) := elements fuel s in Ok (JArr l, rest).
Proof.
  intros (c & t & -> & Hc & H93). cbn [value]. known_bytes. cbn [skip_space]. rewrite Hc. cbv beta iota.
  by rewrite H93.
Qed.

Lemma value_object fuel s l rest :
  members fuel (String quote_char s) = Ok (l, rest) ->
  value (S fuel) ("{" +:+ String quote_char s) = Ok (JObj l, rest).
Proof. intros E. cbn [value]. known_bytes. by rewrite E. Qed.

Lemma forallb_Forall {A} (f : A -> bool) (Q : A -> Prop) l :
  forallb f l = true -> Forall (fun x => f x = true -> Q x) l -> Forall Q l.
Proof.
  intros Hf Hl. induction Hl as [|x l Hx Hl IH]; [constructor|]. cbn [forallb] in Hf.
  apply andb_true_iff in Hf as [Hfx Hfl]. constructor; auto.
Qed.

Lemma Join_opens x l rest : opens x -> opens (Join (x :: l) "," +:+ rest).
Proof. intros (c & t & -> & ?). destruct l; eexists _, _; eauto. Qed.

Lemma json_reads_back j : json_plain j = true -> reads (json_text_print j) j.
Proof.
  induction j as [|b|lit|s|l IH|ms IH] using json_nested_ind; intros Hp rest [|fuel] Hr Hf; try lia;
    cbn [json_plain json_text_print] in *.
  - done.
  - by destruct b.
  - apply int_literal_Itoa in Hp as [z ->]. by apply value_number.
  - by apply value_string.
  - destruct l as [|j l]; [done|]. rewrite !slen_app in Hf. rewrite !sapp_assoc.
    change (slen "[") with 1%nat in Hf. rewrite value_array.
    2: { cbn [map]. apply Join_opens, print_opens. cbn [forallb] in Hp. by apply andb_true_iff in Hp as [? _]. }
    + pose proof (elements_read_back (map (fun j => (json_text_print j, j)) (j :: l)) rest fuel) as He.
      rewrite !map_map in He. cbn [fst snd] in He. rewrite map_id in He.
      change (map (fun x => json_text_print x) (j :: l)) with (map json_text_print (j :: l)) in He.
      rewrite He; [done..| |lia].
      apply Forall_map, (forallb_Forall _ _ _ Hp). done.
  - destruct ms as [|[k j] ms]; [done|]. rewrite !slen_app in Hf. rewrite !sapp_assoc.
    change (slen "{") with 1%nat in Hf. pose proof (members_read_back ((k, j) :: ms) rest fuel) as He.
    set (text := Join _ ",") in *. assert (exists t, text = String quote_char t) as [t Ht].
    { subst text. cbn [map Join fst snd]. destruct (map _ ms); eexists; reflexivity. }
    rewrite Ht in *. cbn [String.append] in *. apply value_object, He; [done| |lia].
    apply (forallb_Forall _ _ _ Hp). eapply Forall_impl; [exact IH|].
    intros m Hm [Hk Hj]%andb_true_iff. auto.
Qed.

Lemma go_json_laws : @JsonLaws go_json.
Proof.
  intros j Hp. cbn [json_parse json_print go_json]. unfold json_text_parse, first_value.
  pose proof (json_reads_back j Hp "" (2 * slen (json_text_print j) + 1)%nat eq_refl) as E.
  rewrite sapp_nil_r in E. rewrite E by lia. done.
Qed.
