(* ===== verification/Samples.v ===== *)
(** * Concrete instances of the interfaces

    The development is proved against interfaces for the ciphers, the text
    syntax of JSON and of times, and the Unicode tables.  The instances of
    this file satisfy the laws of those interfaces; the witnesses use them. *)

From Stdlib Require Import ZArith Lia Ascii String Bool List.
From stdpp Require Import countable.
From S2P Require Import Prelude GoStrings GoUrl Json Http Utils World.

Definition ascii_only_unicode : Unicode :=
  {| unicode_ToLower := id; unicode_ToUpper := id; unicode_EqualFold := String.eqb |}.

(** Binary numerals. *)
Fixpoint pos_bits (p : positive) : string :=
  match p with
  | xH => ""
  | xO p => String "0" (pos_bits p)
  | xI p => String "1" (pos_bits p)
  end.
Fixpoint bits_pos (s : string) : positive :=
  match s with
  | EmptyString => xH
  | String c s => if Ascii.eqb c "1" then xI (bits_pos s) else xO (bits_pos s)
  end.

Lemma bits_pos_bits p : bits_pos (pos_bits p) = p.
Proof. induction p as [p IH|p IH|]; simpl; [by rewrite IH | by rewrite IH | done]. Qed.

Lemma pos_bits_utf8 p : valid_utf8 (pos_bits p) = true.
Proof.
  apply valid_utf8_ascii. induction p as [p IH|p IH|]; simpl; [apply IH | apply IH | done].
Qed.

Definition binary_json : JsonText := {|
  json_parse s := of_option "invalid JSON" (decode (bits_pos s));
  json_decode s := of_option "invalid JSON" (decode (bits_pos s));
  json_print j := pos_bits (encode j)
|}.

Lemma binary_json_laws : @JsonLaws binary_json.
Proof.
  intros j _. cbn [json_parse json_print binary_json]. by rewrite bits_pos_bits, decode_encode.
Qed.

Definition binary_time : TimeText := {|
  time_format t := if (0 <=? t) && (t <? time_limit) then Ok (pos_bits (encode t)) else errorf "year";
  time_parse s := of_option "parsing time" (decode (bits_pos s));
  time_Parse_RFC3339 s := of_option "parsing time" (decode (bits_pos s))
|}.

Lemma binary_time_laws : @TimeLaws binary_time.
Proof.
  intros t [H1 H2]. exists (pos_bits (encode t)). cbn [time_format time_parse binary_time].
  apply Z.leb_le in H1. apply Z.ltb_lt in H2. rewrite H1, H2. cbn [andb].
  by rewrite bits_pos_bits, decode_encode, pos_bits_utf8.
Qed.

(** A length-prefixed string determines where it ends. *)
Fixpoint unary (n : nat) : string :=
  match n with O => "0" | S n => String "1" (unary n) end.
Definition framed (s : string) : string := unary (slen s) +:+ s.

Lemma unary_inj m n s t : unary m +:+ s = unary n +:+ t -> m = n /\ s = t.
Proof.
  revert n. induction m as [|m IH]; intros [|n]; simpl; try done; intros [= E]; [done|].
  apply IH in E as [-> ->]. done.
Qed.

Lemma framed_inj s t u v : framed s +:+ u = framed t +:+ v -> s = t /\ u = v.
Proof.
  unfold framed. rewrite !sapp_assoc. intros [Hl E]%unary_inj.
  by apply sapp_inj_len.
Qed.

(** A cipher that writes everything it is given: it satisfies the laws of an
    authenticated cipher (and hides nothing). *)
Definition clear_frame (k n a : string) : string := framed k +:+ framed n +:+ framed a.

Definition clear_aead : Aead := {|
  gcm_Seal k n p a := clear_frame k n a +:+ p;
  gcm_Open k n c a :=
    if HasPrefix c (clear_frame k n a) then Some (TrimPrefix c (clear_frame k n a)) else None
|}.

Lemma clear_aead_laws : @AeadLaws clear_aead.
Proof.
  split; cbn [gcm_Open gcm_Seal clear_aead].
  - intros k n p a. by rewrite HasPrefix_app, TrimPrefix_app.
  - intros k n c a p. destruct (HasPrefix c (clear_frame k n a)) eqn:E; [|done].
    apply HasPrefix_spec in E as [t ->]. rewrite TrimPrefix_app. by intros [= ->].
Qed.

Lemma clear_aead_binding : @AeadBinding clear_aead.
Proof.
  split. cbn [gcm_Seal clear_aead]. unfold clear_frame. intros k n p a p' a'.
  rewrite !sapp_assoc. intros [_ E]%framed_inj. apply framed_inj in E as [_ E].
  by apply framed_inj in E as [-> _].
Qed.

Definition sample_nonce : string := "nonce-12byte".
Definition sample_key : string := "0123456789abcdef0123456789abcdef".

(** A URL library that takes a reference as a bare path. *)
Definition path_urls : UrlLib := {|
  url_Parse s := Ok {| u_Scheme := ""; u_Host := ""; u_Path := s; u_RawQuery := "" |};
  url_String u := u_Path u;
  url_RequestURI u := u_Path u;
  url_ParseRequestURI s := Ok {| u_Scheme := ""; u_Host := ""; u_Path := s; u_RawQuery := "" |};
  path_Join a b := a +:+ "/" +:+ b;
  redirect_location _ s := s
|}.

(** A world whose clock stands still, whose random bytes are constant, and
    whose provider cannot be reached. *)
Definition still_now : time := 63000000000 * Second.

Definition still_world : External := {|
  clock _ := still_now;
  random _ n := if (n =? 12)%nat then Ok sample_nonce else Ok "0123456789abcdef";
  http_Do _ _ := errorf "connection refused"
|}.
