(* ===== verification/RedirectUri.v ===== *)
(** * Redirect-URI validation: [src/utils/utils.go], lines 276-438

    Exact entries always match; wildcard entries only when the operator opted
    in, and then under the scheme, host and path rules of [matchUriTemplate]
    and the spoofing and traversal guards of [unsafeWildcardRedirect]. *)

From Stdlib Require Import ZArith Lia Ascii String Bool List.
From S2P Require Import Prelude GoStrings GoUrl Samples.

(** Matching of an authority template when the template or the value has a
    byte above 127; the case folding of [regexp] there is a parameter. *)
Class AuthorityRegexp := { unicode_authority_match : string -> string -> bool }.

(** ** Components of a URI *)

Record uri_parts := {
  p_scheme : string;
  p_authority : string;
  p_pathAndBeyond : string;
  p_hasAuthority : bool
}.

Definition splitSchemeAuthorityPath (value : string) : uri_parts :=
  match Index value "://" with
  | None => {| p_scheme := ""; p_authority := ""; p_pathAndBeyond := value; p_hasAuthority := false |}
  | Some schemeSeparator =>
      let scheme := stake schemeSeparator value in
      let rest := sdrop (schemeSeparator + 3) value in
      match IndexAny rest "/?#" with
      | Some pathIndex =>
          {| p_scheme := scheme; p_authority := stake pathIndex rest;
             p_pathAndBeyond := sdrop pathIndex rest; p_hasAuthority := true |}
      | None =>
          {| p_scheme := scheme; p_authority := rest; p_pathAndBeyond := ""; p_hasAuthority := true |}
      end
  end.

Definition stripQueryAndFragment (value : string) : string :=
  match IndexAny value "?#" with
  | Some index => stake index value
  | None => value
  end.

(** ** Paths *)

Definition matchPathTemplate (value template : string) : bool :=
  if String.eqb value template then true
  else if negb (HasSuffix template "*") || ContainsAny template "?#" then false
  else
    let value := stripQueryAndFragment value in
    let prefix := TrimSuffix template "*" in
    HasPrefix value prefix || String.eqb value (TrimSuffix prefix "/").

(** A dot-dot segment, possibly followed by a path parameter or a control byte. *)
Definition bad_segment (segment : string) : bool :=
  String.eqb segment ".."
  || (HasPrefix segment ".." && (2 <? slen segment)%nat &&
      match String.get 2 segment with
      | Some c => Ascii.eqb c ";" || (nat_of_ascii c <? 32)%nat
      | None => false
      end).

Fixpoint traversal_loop (rounds : nat) (candidate : string) : bool :=
  match rounds with
  | O => true
  | S n =>
      let candidate := ReplaceByte candidate "\" "/" in
      if existsb bad_segment (SplitByte candidate "/") then true
      else match PathUnescape candidate with
           | None => true
           | Some decoded =>
               if String.eqb decoded candidate then false else traversal_loop n decoded
           end
  end.

Definition hasPathTraversal (rawPath : string) : bool := traversal_loop 8 rawPath.

(** ** Authorities *)

Definition wildcard_char (c : ascii) : bool := is_alnum c || byte_in c "-_".

(** The expression [(?i)^...$] built from an ASCII template: a star stands for
    one or more wildcard characters, every other byte for itself up to case. *)
Fixpoint authority_regex (template value : string) {struct template} : bool :=
  match template with
  | EmptyString => String.eqb value ""
  | String c t =>
      if Ascii.eqb c "*" then
        (fix star (v : string) : bool :=
           match v with
           | EmptyString => false
           | String d v' => wildcard_char d && (authority_regex t v' || star v')
           end) value
      else
        match value with
        | EmptyString => false
        | String d v' => Ascii.eqb (lower_char c) (lower_char d) && authority_regex t v'
        end
  end.

Definition boundary_char (c : ascii) : bool := Ascii.eqb c "." || Ascii.eqb c ":".

(** [before] tells whether the position is the first one or follows a boundary. *)
Fixpoint valid_template_from (before : bool) (template : string) : bool :=
  match template with
  | EmptyString => true
  | String c t =>
      if negb (Ascii.eqb c "*") then valid_template_from (boundary_char c) t
      else
        let after := match t with EmptyString => true | String d _ => boundary_char d end in
        if negb before || negb after then false else valid_template_from false t
  end.

Definition validAuthorityTemplate (template : string) : bool := valid_template_from true template.

Section Validate.
Context `{Unicode, AuthorityRegexp}.

Definition matchAuthorityTemplate (value template : string) : bool :=
  if EqualFold value template then true
  else if sforall is_ascii template && sforall is_ascii value
  then authority_regex template value
  else unicode_authority_match template value.

Definition matchUriTemplate (value template : string) : bool :=
  if String.eqb template "*" then true
  else
    let v := splitSchemeAuthorityPath value in
    let t := splitSchemeAuthorityPath template in
    if negb (Bool.eqb (p_hasAuthority t) (p_hasAuthority v)) then false
    else if p_hasAuthority t &&
            (negb (EqualFold (p_scheme t) (p_scheme v))
             || (negb (validAuthorityTemplate (p_authority t))
                 || negb (matchAuthorityTemplate (p_authority v) (p_authority t))))
    then false
    else matchPathTemplate (p_pathAndBeyond v) (p_pathAndBeyond t).

Definition unsafeWildcardRedirect (value : string) : bool :=
  if HasPrefix value "//" then true
  else
    let p := splitSchemeAuthorityPath value in
    if p_hasAuthority p &&
       (String.eqb (p_scheme p) "" || String.eqb (p_authority p) "" || Contains (p_authority p) "@")
    then true
    else hasPathTraversal (stripQueryAndFragment (p_pathAndBeyond p)).

Definition ValidateRedirectUri (redirectUri : string) (validUris : list string) (wildcardsEnabled : bool)
  : result string :=
  if String.eqb redirectUri "" then Ok ""
  else if existsb (fun validUri => String.eqb redirectUri validUri) validUris then Ok redirectUri
  else if negb wildcardsEnabled || unsafeWildcardRedirect redirectUri
  then errorf "invalid redirect uri"
  else if existsb (fun validUri =>
                     if negb (Contains validUri "*") then false
                     else matchUriTemplate redirectUri validUri) validUris
  then Ok redirectUri
  else errorf "invalid redirect uri".
End Validate.

(** ** What the star matches *)

Inductive glob : string -> string -> Prop :=
| glob_nil : glob "" ""
| glob_char c d t v :
    c <> "*"%char -> lower_char c = lower_char d -> glob t v -> glob (String c t) (String d v)
| glob_star w t v :
    w <> "" -> sforall wildcard_char w = true -> glob t v -> glob (String "*" t) (w +:+ v).

Lemma authority_regex_glob t v : authority_regex t v = true <-> glob t v.
Proof.
  revert v. induction t as [|c t IH]; intros v.
  - simpl. rewrite String.eqb_eq. split; [intros ->; constructor | by inversion 1].
  - cbn [authority_regex]. destruct (Ascii.eqb_spec c "*") as [->|Hc].
    + split.
      * revert v. induction v as [|d v IHv]; [done|]. rewrite andb_true_iff, orb_true_iff.
        intros [Hd [Ht | Hs]].
        -- apply IH in Ht. apply (glob_star (String d "")); [done | simpl; by rewrite Hd | done].
        -- apply IHv in Hs. inversion Hs as [| |w ? v' Hw Hall Hg]; simplify_eq.
           apply (glob_star (String d w)); [done | simpl; by rewrite Hd | done].
      * inversion 1 as [| |w ? v' Hw Hall Hg]; simplify_eq. apply IH in Hg. clear H.
        induction w as [|d w IHw]; [done|]. simpl in Hall |- *. boolprop.
        rewrite H. simpl. destruct w as [|e w]; simpl in *; [by rewrite Hg|].
        rewrite orb_true_iff. right. by apply IHw.
    + split.
      * destruct v as [|d v]; [done|]. rewrite andb_true_iff, Ascii.eqb_eq, IH.
        intros []. by constructor.
      * inversion 1; simplify_eq. rewrite andb_true_iff, Ascii.eqb_eq. split; [done|]. by apply IH.
Qed.

(** Occurrences of a byte. *)
Fixpoint count (x : ascii) (s : string) : nat :=
  match s with
  | EmptyString => 0
  | String c s' => ((if Ascii.eqb x c then 1 else 0) + count x s')%nat
  end.

Lemma count_app x a b : count x (a +:+ b) = (count x a + count x b)%nat.
Proof. induction a; simpl; lia. Qed.

Lemma count_sforall P x s : sforall P s = true -> P x = false -> count x s = 0%nat.
Proof.
  induction s as [|c s IH]; simpl; [done|]. intros [Hc Hs]%andb_true_iff Hx.
  destruct (Ascii.eqb_spec x c) as [->|]; [congruence | auto].
Qed.

(** A byte that no star can produce and that case folding leaves alone. *)
Definition separator (x : ascii) : bool :=
  negb (wildcard_char x) && negb (Ascii.eqb x "*").

Lemma separator_fold x c d :
  separator x = true -> lower_char c = lower_char d -> Ascii.eqb x c = Ascii.eqb x d.
Proof.
  unfold separator, wildcard_char, is_alnum. intros Hx Hcd. boolprop.
  assert (Hf : forall e, lower_char e = x -> e = x).
  { intros e. unfold lower_char. destruct (is_upper e) eqn:Eu; [|done]. intros <-. exfalso.
    unfold is_upper, is_lower in *. boolprop.
    rewrite nat_ascii_embedding in * by lia.
    repeat match goal with H : (_ && _)%bool = false |- _ => apply andb_false_iff in H end.
    destruct_or?; boolprop; lia. }
  assert (Hl : lower_char x = x).
  { unfold lower_char. destruct (is_upper x) eqn:E; [congruence | done]. }
  apply eq_iff_eq_true. rewrite !Ascii.eqb_eq. split; intros <-; symmetry; apply Hf; congruence.
Qed.

Lemma glob_count x t v : glob t v -> separator x = true -> count x t = count x v.
Proof.
  intros Hg Hx. induction Hg as [|c d t v Hc Hl Hg IH|w t v Hw Hall Hg IH]; [done | |].
  - simpl. by rewrite IH, (separator_fold x c d Hx Hl).
  - pose proof Hx as Hx'. unfold separator in Hx'. boolprop.
    rewrite count_app, <- IH. simpl. rewrite (count_sforall wildcard_char x w) by done.
    destruct (Ascii.eqb_spec x "*") as [->|]; [done | lia].
Qed.

(** ** Path traversal *)

(** One round of what a server between us and the application may do to a
    path: treat backslashes as slashes and percent-decode it. *)
Definition decode_round (p : string) : option string := PathUnescape (ReplaceByte p "\" "/").

Fixpoint decode_rounds (k : nat) (p : string) : option string :=
  match k with
  | O => Some p
  | S k' => p' ← decode_round p; decode_rounds k' p'
  end.

Definition traverses (p : string) : bool :=
  existsb bad_segment (SplitByte (ReplaceByte p "\" "/") "/").

Lemma ReplaceByte_idem s a b : b <> a -> ReplaceByte (ReplaceByte s a b) a b = ReplaceByte s a b.
Proof.
  intros Hab. induction s as [|c s IH]; simpl; [done|]. rewrite IH.
  destruct (Ascii.eqb_spec c a) as [->|Hne]; [|by apply Ascii.eqb_neq in Hne as ->].
  by apply Ascii.eqb_neq in Hab as ->.
Qed.

Lemma decode_rounds_fix k p :
  PathUnescape (ReplaceByte p "\" "/") = Some (ReplaceByte p "\" "/") ->
  decode_rounds k p = Some p \/ decode_rounds k p = Some (ReplaceByte p "\" "/").
Proof.
  intros Hfix. destruct k as [|k]; [by left|]. right. simpl. unfold decode_round. rewrite Hfix.
  simpl. induction k as [|k IH]; [done|]. simpl. unfold decode_round.
  by rewrite ReplaceByte_idem, Hfix.
Qed.

Lemma traversal_loop_false n p :
  traversal_loop n p = false ->
  forall k, exists q, decode_rounds k p = Some q /\ traverses q = false.
Proof.
  revert p. induction n as [|n IH]; intros p; simpl; [done|].
  destruct (existsb bad_segment (SplitByte (ReplaceByte p "\" "/") "/")) eqn:Eb; [done|].
  destruct (PathUnescape (ReplaceByte p "\" "/")) as [d|] eqn:Ed; [|done].
  destruct (String.eqb_spec d (ReplaceByte p "\" "/")) as [->|Hne].
  - intros _ k. destruct (decode_rounds_fix k p Ed) as [-> | ->]; eexists; (split; [done|]).
    + exact Eb.
    + unfold traverses. by rewrite ReplaceByte_idem.
  - intros Hl [|k].
    + exists p. split; [done | exact Eb].
    + simpl. unfold decode_round. rewrite Ed. simpl. by apply IH.
Qed.

(** ** Properties *)

Section Properties.
Context `{Unicode, AuthorityRegexp}.

Lemma exact_entry u vs : existsb (fun v => String.eqb u v) vs = true <-> u ∈ vs.
Proof. apply slice_contains_spec. Qed.

Lemma unsafe_false u :
  unsafeWildcardRedirect u = false ->
  HasPrefix u "//" = false
  /\ (p_hasAuthority (splitSchemeAuthorityPath u) = true ->
      p_scheme (splitSchemeAuthorityPath u) <> ""
      /\ p_authority (splitSchemeAuthorityPath u) <> ""
      /\ byte_in "@" (p_authority (splitSchemeAuthorityPath u)) = false)
  /\ hasPathTraversal (stripQueryAndFragment (p_pathAndBeyond (splitSchemeAuthorityPath u))) = false.
Proof.
  unfold unsafeWildcardRedirect. destruct (HasPrefix u "//"); [done|].
  set (p := splitSchemeAuthorityPath u). intros Hu. split; [done|].
  destruct (p_hasAuthority p); simpl in Hu; [|done].
  rewrite Contains_byte_in in Hu.
  destruct (String.eqb_spec (p_scheme p) ""); [done|].
  destruct (String.eqb_spec (p_authority p) ""); [done|].
  by destruct (byte_in "@" (p_authority p)).
Qed.

(** With wildcards disabled (the default), a redirect target is accepted
    exactly when it is empty or one of the configured URIs, and is returned
    unchanged. *)
Theorem ValidateRedirectUri_disabled u vs r :
  ValidateRedirectUri u vs false = Ok r <-> (u = "" /\ r = "") \/ (u ∈ vs /\ r = u).
Proof.
  unfold ValidateRedirectUri, errorf. destruct (String.eqb_spec u "") as [->|Hne].
  { split; [intros [= <-]; auto | intros [[_ ->] | [_ ->]]; done]. }
  destruct (existsb _ vs) eqn:E.
  - apply exact_entry in E. split; [intros [= <-]; auto | intros [[]|[_ ->]]; done].
  - simpl. split; [done|]. intros [[]|[Hin _]]; [done|]. apply exact_entry in Hin. congruence.
Qed.

(** C34: a target accepted through a wildcard entry is returned unchanged, is
    not protocol-relative, has no user-info in its authority, and its path
    contains no dot-dot segment however many times a server behind us
    percent-decodes it or reads backslashes as slashes; and some configured
    entry with a star matches it. *)
Theorem ValidateRedirectUri_wildcard u vs r :
  ValidateRedirectUri u vs true = Ok r -> u <> "" -> u ∉ vs ->
  let p := splitSchemeAuthorityPath u in
  r = u
  /\ HasPrefix u "//" = false
  /\ (p_hasAuthority p = true -> p_authority p <> "" /\ byte_in "@" (p_authority p) = false)
  /\ (forall k, exists q,
        decode_rounds k (stripQueryAndFragment (p_pathAndBeyond p)) = Some q /\ traverses q = false)
  /\ exists v, v ∈ vs /\ byte_in "*" v = true /\ matchUriTemplate u v = true.
Proof.
  unfold ValidateRedirectUri, errorf. intros Hv Hne Hnin. simpl.
  destruct (String.eqb_spec u "") as [|_]; [done|].
  destruct (existsb (fun v => String.eqb u v) vs) eqn:Ex; [apply exact_entry in Ex; done|].
  destruct (unsafeWildcardRedirect u) eqn:Eu; [done|]. simpl in Hv.
  destruct (existsb _ vs) eqn:Em in Hv; [|done]. injection Hv as <-.
  apply unsafe_false in Eu as (Hp & Ha & Ht). split_and!; auto.
  - intros Hauth. destruct (Ha Hauth) as (_ & ? & ?). done.
  - intros k. by eapply traversal_loop_false.
  - apply existsb_exists in Em as (v & Hin & Hm). exists v.
    rewrite list_elem_of_In. rewrite Contains_byte_in in Hm. by destruct (byte_in "*" v).
Qed.

Lemma fold_count x s t :
  sforall is_ascii s = true -> sforall is_ascii t = true -> EqualFold s t = true ->
  separator x = true -> count x s = count x t.
Proof.
  intros Hs Ht. rewrite EqualFold_ascii, String.eqb_eq by done. clear Hs Ht. revert t.
  induction s as [|c s IH]; intros [|d t]; simpl; try done.
  intros [= Hc Hst] Hx. by rewrite (IH t), (separator_fold x c d Hx Hc).
Qed.

(** A template other than the bare star constrains the authority of what
    it matches: both have an authority or neither has, the schemes agree up
    to case, and the two authorities (when ASCII) contain every separator
    byte (dot, colon, at sign, bracket, ...) equally often, so a star never
    reaches across a label, a port or a user-info part. *)
Theorem matchUriTemplate_authority u t x :
  matchUriTemplate u t = true -> t <> "*" -> separator x = true ->
  let pu := splitSchemeAuthorityPath u in
  let pt := splitSchemeAuthorityPath t in
  p_hasAuthority pt = p_hasAuthority pu
  /\ matchPathTemplate (p_pathAndBeyond pu) (p_pathAndBeyond pt) = true
  /\ (p_hasAuthority pt = true ->
      EqualFold (p_scheme pt) (p_scheme pu) = true
      /\ (sforall is_ascii (p_authority pt) = true -> sforall is_ascii (p_authority pu) = true ->
          count x (p_authority pt) = count x (p_authority pu))).
Proof.
  unfold matchUriTemplate. intros Hm Ht Hx. simpl.
  destruct (String.eqb_spec t "*") as [|_]; [done|].
  set (pu := splitSchemeAuthorityPath u) in *. set (pt := splitSchemeAuthorityPath t) in *.
  destruct (Bool.eqb_spec (p_hasAuthority pt) (p_hasAuthority pu)) as [He|]; simpl in Hm; [|done].
  destruct (p_hasAuthority pt) eqn:Ea; simpl in Hm; [|done].
  destruct (EqualFold (p_scheme pt) (p_scheme pu)); simpl in Hm; [|done].
  destruct (validAuthorityTemplate (p_authority pt)); simpl in Hm; [|done].
  destruct (matchAuthorityTemplate _ _) eqn:Em; simpl in Hm; [|done].
  split_and!; auto. intros _. split; [done|]. intros Hat Hau.
  unfold matchAuthorityTemplate in Em. destruct (EqualFold (p_authority pu) _) eqn:Ef.
  - symmetry. by eapply fold_count.
  - rewrite Hat, Hau in Em. simpl in Em. apply authority_regex_glob in Em. by eapply glob_count.
Qed.
End Properties.

(** ** Witnesses *)

Definition no_unicode_match : AuthorityRegexp := {| unicode_authority_match := fun _ _ => false |}.

Definition sample_uri : string := "https://app.example.com/a/b?x=1".
Definition sample_templates : list string := ["https://login.example.com/"; "https://*.example.com/a/*"].

Lemma ValidateRedirectUri_wildcard_witness :
  @ValidateRedirectUri ascii_only_unicode no_unicode_match sample_uri sample_templates true = Ok sample_uri
  /\ (let p := splitSchemeAuthorityPath sample_uri in
      forall k, exists q,
        decode_rounds k (stripQueryAndFragment (p_pathAndBeyond p)) = Some q /\ traverses q = false).
Proof.
  split; [vm_compute; reflexivity|].
  pose proof (@ValidateRedirectUri_wildcard ascii_only_unicode no_unicode_match
                sample_uri sample_templates sample_uri ltac:(vm_compute; reflexivity)
                ltac:(discriminate)
                ltac:(apply (bool_decide_unpack _); vm_compute; exact I)) as Hw.
  simpl in Hw. destruct Hw as (_ & _ & _ & Hw & _). exact Hw.
Defined.

Lemma matchUriTemplate_authority_witness :
  let pu := splitSchemeAuthorityPath sample_uri in
  let pt := splitSchemeAuthorityPath "https://*.example.com/a/*" in
  count "." (p_authority pt) = count "." (p_authority pu).
Proof.
  pose proof (@matchUriTemplate_authority ascii_only_unicode no_unicode_match
                sample_uri "https://*.example.com/a/*" "." ltac:(vm_compute; reflexivity)
                ltac:(discriminate) ltac:(vm_compute; reflexivity)) as Hw.
  destruct Hw as (_ & _ & Hw). destruct Hw as [_ Hw]; [reflexivity|].
  exact (Hw eq_refl eq_refl).
Defined.

Example spans_no_label :
  @matchUriTemplate ascii_only_unicode no_unicode_match
    "https://evil.com.example.com/a/b" "https://*.example.com/a/*" = false.
Proof. vm_compute. reflexivity. Qed.

Example rejects_encoded_traversal :
  @ValidateRedirectUri ascii_only_unicode no_unicode_match
    "https://app.example.com/a/%252e%252e/admin" sample_templates true = errorf "invalid redirect uri".
Proof. vm_compute. reflexivity. Qed.
