(* ===== verification/Config.v ===== *)
(** * Configuration: [src/config/config.go], [src/config.go]

    The configuration structs, the defaults of [CreateConfig] and the
    migration of the legacy behaviour field.  A pointer to a sub-struct that
    may be nil is an [option]. *)

From Stdlib Require Import ZArith Lia Ascii String Bool List SpecFloat.
From S2P Require Import Prelude GoStrings.

(** [net.IP] and [net.IPNet] are byte slices, here lists of bytes. *)
Definition IP := list Z.
Record IPNet := { n_IP : IP; n_Mask : list Z }.

Definition DefaultSecret : string := "MLFs4TT99kOOq8h3UAVRtYoCTDYXiRcZ".
Definition SessionStorageTypeCookie : string := "Cookie".

Record SessionCookieConfig := {
  sc_Path : string;
  sc_Domain : string;
  sc_Secure : bool;
  sc_HttpOnly : bool;
  sc_SameSite : string;
  sc_MaxAge : Z
}.

Record ClaimAssertion := {
  as_Name : string;
  as_AnyOf : list string;
  as_AllOf : list string
}.

Record AuthorizationConfig := {
  az_AssertClaims : list ClaimAssertion;
  az_CheckOnEveryRequest : bool
}.

(** A parsed template is represented by its source text. *)
Record HeaderConfig := {
  h_Name : string;
  h_Value : string;
  h_Values : string;
  h_IncludeWhen : string;
  h_Template : option string
}.

Record ErrorPageConfig := {
  ep_FilePath : string;
  ep_RedirectTo : string
}.

Record ErrorPagesConfig := {
  ep_Unauthenticated : option ErrorPageConfig;
  ep_Unauthorized : option ErrorPageConfig
}.

Record ProviderConfig := {
  pv_Url : string;
  pv_InsecureSkipVerify : string;
  pv_InsecureSkipVerifyBool : bool;
  pv_CABundle : string;
  pv_CABundleFile : string;
  pv_ClientId : string;
  pv_ClientSecret : string;
  pv_ClientJwtPrivateKey : string;
  pv_ClientJwtPrivateKeyId : string;
  pv_UsePkce : string;
  pv_UsePkceBool : bool;
  pv_ValidateAudience : string;
  pv_ValidateAudienceBool : bool;
  pv_ValidAudience : string;
  pv_ValidateIssuer : string;
  pv_ValidateIssuerBool : bool;
  pv_ValidIssuer : string;
  pv_TokenValidation : string;
  pv_TokenRenewalThreshold : spec_float;
  pv_UseClaimsFromUserInfo : string;
  pv_UseClaimsFromUserInfoBool : bool;
  pv_ValidateNonce : string;
  pv_ValidateNonceBool : bool;
  pv_TokenClockSkewSeconds : Z;
  pv_RevokeTokensOnLogout : string;
  pv_RevokeTokensOnLogoutBool : bool;
  pv_MaxAuthAgeSeconds : Z;
  pv_OidcTimeoutSeconds : Z
}.

Record Config := {
  LogLevel : string;
  Secret : string;
  Provider : option ProviderConfig;
  Scopes : list string;
  CallbackUri : string;
  LoginUri : string;
  PostLoginRedirectUri : string;
  ValidPostLoginRedirectUris : list string;
  LogoutUri : string;
  PostLogoutRedirectUri : string;
  ValidPostLogoutRedirectUris : list string;
  FrontChannelLogoutUri : string;
  SessionStorageType : string;
  CookieNamePrefix : string;
  SessionCookie : option SessionCookieConfig;
  AuthorizationHeader : option string;
  AuthorizationCookie : option string;
  UnauthenticatedBehavior : string;
  UnauthorizedBehavior : string;
  Authorization : option AuthorizationConfig;
  Headers : list HeaderConfig;
  BypassAuthenticationRule : string;
  ErrorPages : option ErrorPagesConfig;
  RequestedResources : list string;
  AuthorizationParams : gmap string string;
  AuthorizationParamsOverridable : list string;
  TrustedProxies : list string;
  TrustedProxyNets : list IPNet;
  MaxSessionLifetimeSeconds : Z;
  SessionIdleTimeoutSeconds : Z
}.

(** Assignments to fields of a configuration. *)
Definition set_Provider (p : option ProviderConfig) (c : Config) : Config :=
  match c with
  | Build_Config f0 f1 _ f3 f4 f5 f6 f7 f8 f9 f10 f11 f12 f13 f14 f15 f16 f17 f18 f19 f20 f21 f22
      f23 f24 f25 f26 f27 f28 f29 =>
      Build_Config f0 f1 p f3 f4 f5 f6 f7 f8 f9 f10 f11 f12 f13 f14 f15 f16 f17 f18 f19 f20 f21 f22
      f23 f24 f25 f26 f27 f28 f29
  end.

Definition set_bounds (lifetime idle : Z) (c : Config) : Config :=
  match c with
  | Build_Config f0 f1 f2 f3 f4 f5 f6 f7 f8 f9 f10 f11 f12 f13 f14 f15 f16 f17 f18 f19 f20 f21 f22
      f23 f24 f25 f26 f27 _ _ =>
      Build_Config f0 f1 f2 f3 f4 f5 f6 f7 f8 f9 f10 f11 f12 f13 f14 f15 f16 f17 f18 f19 f20 f21 f22
      f23 f24 f25 f26 f27 lifetime idle
  end.

Definition set_ValidPostLoginRedirectUris (uris : list string) (c : Config) : Config :=
  match c with
  | Build_Config f0 f1 f2 f3 f4 f5 f6 _ f8 f9 f10 f11 f12 f13 f14 f15 f16 f17 f18 f19 f20 f21 f22
      f23 f24 f25 f26 f27 f28 f29 =>
      Build_Config f0 f1 f2 f3 f4 f5 f6 uris f8 f9 f10 f11 f12 f13 f14 f15 f16 f17 f18 f19 f20 f21
      f22 f23 f24 f25 f26 f27 f28 f29
  end.

(** The three-quarters threshold, as a binary64 number. *)
Definition float_0_75 : spec_float := S754_finite false 6755399441055744 (-53).

(** [CreateConfig]: unset fields take Go's zero values. *)
Definition default_provider : ProviderConfig := {|
  pv_Url := ""; pv_InsecureSkipVerify := ""; pv_InsecureSkipVerifyBool := false;
  pv_CABundle := ""; pv_CABundleFile := ""; pv_ClientId := ""; pv_ClientSecret := "";
  pv_ClientJwtPrivateKey := ""; pv_ClientJwtPrivateKeyId := "";
  pv_UsePkce := ""; pv_UsePkceBool := true;
  pv_ValidateAudience := ""; pv_ValidateAudienceBool := true; pv_ValidAudience := "";
  pv_ValidateIssuer := ""; pv_ValidateIssuerBool := true; pv_ValidIssuer := "";
  pv_TokenValidation := "IdToken"; pv_TokenRenewalThreshold := float_0_75;
  pv_UseClaimsFromUserInfo := ""; pv_UseClaimsFromUserInfoBool := false;
  pv_ValidateNonce := ""; pv_ValidateNonceBool := true; pv_TokenClockSkewSeconds := 60;
  pv_RevokeTokensOnLogout := ""; pv_RevokeTokensOnLogoutBool := true;
  pv_MaxAuthAgeSeconds := 0; pv_OidcTimeoutSeconds := 30
|}.

Definition default_session_cookie : SessionCookieConfig := {|
  sc_Path := "/"; sc_Domain := ""; sc_Secure := true; sc_HttpOnly := true;
  sc_SameSite := "lax"; sc_MaxAge := 0
|}.

Definition empty_error_page : ErrorPageConfig := {| ep_FilePath := ""; ep_RedirectTo := "" |}.

Definition CreateConfig : Config := {|
  LogLevel := "WARN";
  Secret := DefaultSecret;
  Provider := Some default_provider;
  Scopes := [];
  CallbackUri := "/oidc/callback";
  LoginUri := "";
  PostLoginRedirectUri := "";
  ValidPostLoginRedirectUris := [];
  LogoutUri := "/logout";
  PostLogoutRedirectUri := "/";
  ValidPostLogoutRedirectUris := [];
  FrontChannelLogoutUri := "/frontchannel-logout";
  SessionStorageType := "";
  CookieNamePrefix := "TraefikOidcAuth";
  SessionCookie := Some default_session_cookie;
  AuthorizationHeader := Some "";
  AuthorizationCookie := Some "";
  UnauthenticatedBehavior := "";
  UnauthorizedBehavior := "";
  Authorization := Some {| az_AssertClaims := []; az_CheckOnEveryRequest := false |};
  Headers := [];
  BypassAuthenticationRule := "";
  ErrorPages := Some {| ep_Unauthenticated := Some empty_error_page; ep_Unauthorized := Some empty_error_page |};
  RequestedResources := [];
  AuthorizationParams := ∅;
  AuthorizationParamsOverridable := [];
  TrustedProxies := [];
  TrustedProxyNets := [];
  MaxSessionLifetimeSeconds := 0;
  SessionIdleTimeoutSeconds := 0
|}.

(** [migrateAuthBehaviors] on the pair
    [(UnauthenticatedBehavior, UnauthorizedBehavior)], the only fields it
    reads and writes. *)
Definition migrateAuthBehaviors (b : string * string) : string * string :=
  let '(unauthenticated, unauthorized) := b in
  if negb (String.eqb unauthenticated "") then
    (unauthenticated, if String.eqb unauthorized "" then "Unauthorized" else unauthorized)
  else
    let unauthenticated := unauthorized in
    let unauthenticated := if String.eqb unauthenticated "" then "Auto" else unauthenticated in
    (unauthenticated, if negb (String.eqb unauthorized "Forward") then "Unauthorized" else unauthorized).

(** The migration leaves no field unset and is idempotent. *)
Lemma migrate_set b : (migrateAuthBehaviors b).1 <> "" /\ (migrateAuthBehaviors b).2 <> "".
Proof.
  destruct b as [a z]. unfold migrateAuthBehaviors.
  destruct (String.eqb_spec a "") as [->|]; simpl.
  - destruct (String.eqb_spec z "") as [->|]; simpl; [done|].
    by destruct (String.eqb_spec z "Forward") as [->|].
  - by destruct (String.eqb_spec z "").
Qed.

Lemma migrate_idem b : migrateAuthBehaviors (migrateAuthBehaviors b) = migrateAuthBehaviors b.
Proof.
  pose proof (migrate_set b) as [H1 H2]. destruct (migrateAuthBehaviors b) as [a z].
  simpl in *. unfold migrateAuthBehaviors. apply String.eqb_neq in H1, H2. by rewrite H1, H2.
Qed.
