(* ===== verification/Authorization.v ===== *)
(** * Claim assertions: [src/authorization.go]

    [isAuthorized] evaluates the configured assertions on the claims of a
    token.  The JSONPath library that finds the nodes of a claim and the
    formatting of floating-point numbers are interfaces. *)

From Stdlib Require Import ZArith Lia Ascii String Bool List.
From S2P Require Import Prelude GoStrings Json Config.

Abbreviation claims := (gmap string json).

(** [ajson.JSONPath]; each node is unpacked, which may fail. *)
Class JsonPath := {
  JSONPath : json -> string -> result (list (result json))
}.

(** [fmt.Sprint] of the [float64] a JSON number decodes to. *)
Class FloatText := { fmt_float : string -> string }.

(** ** Formatting with [%v] *)

Fixpoint string_insert (m : string * string) (l : list (string * string)) : list (string * string) :=
  match l with
  | [] => [m]
  | x :: r => if String.leb m.1 x.1 then m :: l else x :: string_insert m r
  end.

(** A map prints its entries in the order of their keys. *)
Definition sorted_entries (l : list (string * string)) : list (string * string) :=
  foldr string_insert [] (map_to_list (members_map l)).

Section Format.
Context `{FloatText}.

Fixpoint sprint (j : json) : string :=
  match j with
  | JNull => "<nil>"
  | JBool b => if b then "true" else "false"
  | JNum lit => fmt_float lit
  | JStr s => s
  | JArr l => "[" +:+ Join (map sprint l) " " +:+ "]"
  | JObj ms =>
      "map[" +:+ Join (map (fun m => m.1 +:+ ":" +:+ m.2)
                         (sorted_entries (map (fun m => (m.1, sprint m.2)) ms))) " " +:+ "]"
  end.
End Format.

(** ** The assertions *)

(** Marks the first entry of [allOf] that equals [s]. *)
Fixpoint mark_first (allOf : list string) (s : string) (allMatches : list bool) : list bool :=
  match allOf, allMatches with
  | a :: allOf', m :: allMatches' =>
      if String.eqb a s then true :: allMatches' else m :: mark_first allOf' s allMatches'
  | _, _ => allMatches
  end.

(** How the loop over the nodes of a claim ends: with the assertion satisfied
    by a node, or with what was collected from the scalar nodes. *)
Inductive matches_end :=
| Satisfied
| Collected (allMatches : list bool) (anyMatch : bool).

Section Authorize.
Context `{FloatText, JsonPath}.

Fixpoint matches_loop (assertion : ClaimAssertion) (value : list (result json))
  (allMatches : list bool) (anyMatch : bool) : matches_end :=
  match value with
  | [] => Collected allMatches anyMatch
  | Err _ :: rest => matches_loop assertion rest allMatches anyMatch
  | Ok (JArr val) :: rest =>
      let mapped := map sprint val in
      if existsb (fun assert => negb (slice_contains mapped assert)) (as_AllOf assertion)
      then Collected allMatches anyMatch
      else if (0 <? length (as_AnyOf assertion))%nat then
        if existsb (slice_contains mapped) (as_AnyOf assertion) then Satisfied
        else matches_loop assertion rest allMatches anyMatch
      else Satisfied
  | Ok val :: rest =>
      let strVal := sprint val in
      let anyMatch := if slice_contains (as_AnyOf assertion) strVal then true else anyMatch in
      let allMatches := mark_first (as_AllOf assertion) strVal allMatches in
      matches_loop assertion rest allMatches anyMatch
  end.

(** The tests after the loop. *)
Definition collected_ok (assertion : ClaimAssertion) (allMatches : list bool) (anyMatch : bool) : bool :=
  let any := (0 <? length (as_AnyOf assertion))%nat in
  let all := (0 <? length (as_AllOf assertion))%nat in
  let every := negb (existsb negb allMatches) in
  (any && anyMatch && all && every) || (any && anyMatch && negb all) || (all && every && negb any).

Definition assertion_holds (parsed : json) (assertion : ClaimAssertion) : bool :=
  match JSONPath parsed ("$." +:+ as_Name assertion) with
  | Err _ => false
  | Ok value =>
      if (length value =? 0)%nat then false
      else if (length (as_AllOf assertion) =? 0)%nat && (length (as_AnyOf assertion) =? 0)%nat then true
      else match matches_loop assertion value (replicate (length (as_AllOf assertion)) false) false with
           | Satisfied => true
           | Collected allMatches anyMatch => collected_ok assertion allMatches anyMatch
           end
  end.

Definition isAuthorized (authorization : AuthorizationConfig) (c : claims) : bool :=
  if (0 <? length (az_AssertClaims authorization))%nat then
    let parsed := JObj (map_to_list c) in
    forallb (assertion_holds parsed) (az_AssertClaims authorization)
  else true.

(** ** Specification

    What an assertion asks of the nodes of its claim: an array node that
    contains every [allOf] value and, if there are [anyOf] values, one of
    them; or scalar nodes that together provide them, where the [allOf] values
    are all different. *)

Definition complete_array (assertion : ClaimAssertion) (val : list json) : Prop :=
  forall x, x ∈ as_AllOf assertion -> x ∈ map sprint val.

Definition array_ok (assertion : ClaimAssertion) (val : list json) : Prop :=
  complete_array assertion val
  /\ (as_AnyOf assertion <> [] -> exists x, x ∈ as_AnyOf assertion /\ x ∈ map sprint val).

Definition scalar (j : json) : bool := match j with JArr _ => false | _ => true end.

(** The texts of the scalar nodes. *)
Definition scalar_texts (value : list (result json)) : list string :=
  omap (fun r => match r with Ok j => if scalar j then Some (sprint j) else None | Err _ => None end) value.

Definition satisfies (assertion : ClaimAssertion) (value : list (result json)) : Prop :=
  (exists val, Ok (JArr val) ∈ value /\ array_ok assertion val)
  \/ ((as_AnyOf assertion <> [] -> exists x, x ∈ as_AnyOf assertion /\ x ∈ scalar_texts value)
      /\ (forall x, x ∈ as_AllOf assertion -> x ∈ scalar_texts value)
      /\ NoDup (as_AllOf assertion)).

(** The nodes that count are those before the first array that lacks an [allOf]
    value. *)
Definition looked_at (assertion : ClaimAssertion) (value seen : list (result json)) : Prop :=
  exists rest, value = seen ++ rest
    /\ (forall val, Ok (JArr val) ∈ seen -> complete_array assertion val)
    /\ (rest = [] \/ exists val rest', rest = Ok (JArr val) :: rest' /\ ~ complete_array assertion val).

(** They can be computed. *)
Fixpoint considered (assertion : ClaimAssertion) (value : list (result json)) : list (result json) :=
  match value with
  | [] => []
  | Ok (JArr val) :: rest =>
      if existsb (fun x => negb (slice_contains (map sprint val) x)) (as_AllOf assertion) then []
      else Ok (JArr val) :: considered assertion rest
  | r :: rest => r :: considered assertion rest
  end.

(** ** Lemmas *)

Lemma slice_contains_texts l x : slice_contains l x = bool_decide (x ∈ l).
Proof.
  destruct (slice_contains l x) eqn:E; symmetry.
  - by apply bool_decide_eq_true, slice_contains_spec.
  - by apply bool_decide_eq_false, slice_contains_false.
Qed.

Lemma all_contained l xs :
  existsb (fun x => negb (slice_contains l x)) xs = false <-> forall x, x ∈ xs -> x ∈ l.
Proof.
  rewrite <- not_true_iff_false, existsb_exists. setoid_rewrite <- list_elem_of_In.
  setoid_rewrite negb_true_iff. setoid_rewrite slice_contains_false. split.
  - intros Hn x Hx. destruct (decide (x ∈ l)); [done|]. destruct Hn. by exists x.
  - intros Ha (x & Hx & Hn). by apply Hn, Ha.
Qed.

Lemma some_contained l xs :
  existsb (slice_contains l) xs = true <-> exists x, x ∈ xs /\ x ∈ l.
Proof.
  rewrite existsb_exists. setoid_rewrite <- list_elem_of_In. by setoid_rewrite slice_contains_spec.
Qed.

Lemma considered_spec assertion value seen :
  looked_at assertion value seen <-> seen = considered assertion value.
Proof.
  unfold looked_at, complete_array. split.
  - intros (rest & -> & Hs & Hr). induction seen as [|r seen IH]; cbn [app considered].
    + destruct Hr as [->|(val & rest' & -> & Hn)]; [done|]. cbn [considered].
      destruct existsb eqn:E; [done|]. by rewrite all_contained in E.
    + rewrite <- IH by (intros val Hv; apply Hs; by right).
      destruct r as [[| | | |l|]|]; try done. destruct existsb eqn:E; [|done].
      assert (Hc : forall x, x ∈ as_AllOf assertion -> x ∈ map sprint l) by (apply Hs; by left).
      apply all_contained in Hc. congruence.
  - intros ->. induction value as [|r value IH].
    { exists []. split; [done|]. split; [intros val; by intros ?%not_elem_of_nil | by left]. }
    assert (Hcons : considered assertion (r :: value) = r :: considered assertion value ->
      (forall val, r = Ok (JArr val) -> forall x, x ∈ as_AllOf assertion -> x ∈ map sprint val) ->
      looked_at assertion (r :: value) (considered assertion (r :: value))).
    { intros -> Hr. destruct IH as (rest & E & Hs & Hrest). exists rest. split; [cbn; congruence|].
      split; [|done]. intros val [E'|Hin]%elem_of_cons; [exact (Hr val (eq_sym E')) | exact (Hs val Hin)]. }
    destruct r as [j|err]; [|by apply Hcons]. destruct j as [|b|n|t|l|ms]; try (by apply Hcons).
    destruct (existsb (fun x => negb (slice_contains (map sprint l) x)) (as_AllOf assertion)) eqn:Ex.
    + exists (Ok (JArr l) :: value). cbn [considered]. rewrite Ex. split; [done|].
      split; [intros val; by intros ?%not_elem_of_nil|]. right. exists l, value. split; [done|].
      intros Hc%all_contained. congruence.
    + apply Hcons; [cbn [considered]; by rewrite Ex|]. intros val [= <-]. by apply all_contained.
Qed.

(** The flags record which [allOf] values were seen among [seen]; a value that
    is listed twice counts at its first entry only. *)
Fixpoint flags (before allOf seen : list string) : list bool :=
  match allOf with
  | [] => []
  | a :: rest => (negb (slice_contains before a) && slice_contains seen a) :: flags (a :: before) rest seen
  end.

Lemma contains_app seen s a : slice_contains (seen ++ [s]) a = slice_contains seen a || String.eqb a s.
Proof. unfold slice_contains. rewrite existsb_app. simpl. by rewrite orb_false_r. Qed.

Lemma flags_before before allOf seen s :
  s ∈ before -> flags before allOf (seen ++ [s]) = flags before allOf seen.
Proof.
  revert before. induction allOf as [|a l IH]; intros before Hs; cbn [flags]; [done|].
  rewrite IH by (by right). f_equal. rewrite contains_app.
  destruct (String.eqb_spec a s) as [->|]; [|by rewrite orb_false_r].
  apply slice_contains_spec in Hs. by rewrite Hs.
Qed.

Lemma mark_first_flags before allOf seen s :
  s ∉ before -> mark_first allOf s (flags before allOf seen) = flags before allOf (seen ++ [s]).
Proof.
  revert before. induction allOf as [|a l IH]; intros before Hs; cbn [flags mark_first]; [done|].
  rewrite contains_app. destruct (String.eqb_spec a s) as [->|Hne].
  - apply slice_contains_false in Hs. rewrite Hs, orb_true_r. cbn [negb andb]. f_equal.
    symmetry. apply flags_before. by left.
  - rewrite orb_false_r. f_equal. apply IH. by rewrite not_elem_of_cons.
Qed.

Lemma flags_all before allOf seen :
  existsb negb (flags before allOf seen) = false
  <-> (forall x, x ∈ allOf -> x ∈ seen) /\ NoDup allOf /\ (forall x, x ∈ allOf -> x ∉ before).
Proof.
  revert before. induction allOf as [|a l IH]; intros before; cbn [flags existsb].
  { split; [|done]. intros _. split_and!; [| constructor |]; intros x Hx; by apply not_elem_of_nil in Hx. }
  rewrite orb_false_iff, negb_false_iff, andb_true_iff, negb_true_iff, slice_contains_false,
    slice_contains_spec, IH, NoDup_cons. split.
  - intros ([Ha Hs] & Hl & Hnd & Hb). split_and!.
    + by intros x [->|Hx]%elem_of_cons; [|apply Hl].
    + intros Hal. destruct (Hb a Hal). by left.
    + done.
    + intros x [->|Hx]%elem_of_cons; [done|]. intros Hx'. destruct (Hb x Hx). by right.
  - intros (Hs & [Hal Hnd] & Hb). split_and!; try done; [apply Hb; by left | apply Hs; by left | |].
    + intros x Hx. apply Hs. by right.
    + intros x Hx [->|Hx']%elem_of_cons; [done|]. apply (Hb x); [by right | done].
Qed.

Lemma existsb_replicate_flags before allOf : replicate (length allOf) false = flags before allOf [].
Proof.
  revert before. induction allOf as [|a l IH]; intros before; cbn [flags length replicate]; [done|].
  by rewrite andb_false_r, <- IH.
Qed.

Lemma any_seen xs seen s :
  (if slice_contains xs s then true else existsb (slice_contains seen) xs)
  = existsb (slice_contains (seen ++ [s])) xs.
Proof.
  apply eq_true_iff_eq. rewrite (some_contained (seen ++ [s])).
  destruct (slice_contains xs s) eqn:E.
  - apply slice_contains_spec in E. split; [|done]. intros _. exists s. set_solver.
  - apply slice_contains_false in E. rewrite some_contained.
    split; intros (x & Hx & Hs); exists x; (split; [done|]); [set_solver|].
    apply elem_of_app in Hs as [|Hs]; [done|]. apply list_elem_of_singleton in Hs. by subst.
Qed.

Lemma contains_nothing xs : existsb (slice_contains []) xs = false.
Proof. by induction xs. Qed.

Lemma matches_loop_spec assertion value seen :
  match matches_loop assertion value (flags [] (as_AllOf assertion) seen)
          (existsb (slice_contains seen) (as_AnyOf assertion)) with
  | Satisfied => exists val, Ok (JArr val) ∈ considered assertion value /\ array_ok assertion val
  | Collected allMatches anyMatch =>
      let seen := seen ++ scalar_texts (considered assertion value) in
      (forall val, Ok (JArr val) ∈ considered assertion value -> ~ array_ok assertion val)
      /\ allMatches = flags [] (as_AllOf assertion) seen
      /\ anyMatch = existsb (slice_contains seen) (as_AnyOf assertion)
  end.
Proof.
  revert seen. induction value as [|r rest IH]; intros seen; simpl.
  { rewrite app_nil_r. split; [intros val; by intros ?%not_elem_of_nil | done]. }
  assert (forall j, scalar j = true ->
    match matches_loop assertion rest (mark_first (as_AllOf assertion) (sprint j) (flags [] (as_AllOf assertion) seen))
            (if slice_contains (as_AnyOf assertion) (sprint j) then true
             else existsb (slice_contains seen) (as_AnyOf assertion)) with
    | Satisfied => exists val, Ok (JArr val) ∈ Ok j :: considered assertion rest /\ array_ok assertion val
    | Collected allMatches anyMatch =>
        let seen := seen ++ sprint j :: scalar_texts (considered assertion rest) in
        (forall val, Ok (JArr val) ∈ Ok j :: considered assertion rest -> ~ array_ok assertion val)
        /\ allMatches = flags [] (as_AllOf assertion) seen
        /\ anyMatch = existsb (slice_contains seen) (as_AnyOf assertion)
    end) as Hscalar.
  { intros j Hj. rewrite mark_first_flags, any_seen by apply not_elem_of_nil. specialize (IH (seen ++ [sprint j])).
    destruct (matches_loop _ _ _ _).
    - destruct IH as (val & ? & ?). exists val. split; [by right | done].
    - simpl in IH. rewrite <- app_assoc in IH. destruct IH as (Hn & IH). split; [|done].
      intros val [E|?]%elem_of_cons; [|by apply Hn]. injection E as <-. done. }
  destruct r as [j|err].
  2: { specialize (IH seen). destruct (matches_loop _ _ _ _).
       - destruct IH as (val & ? & ?). exists val. split; [by right | done].
       - destruct IH as (Hn & IH). split; [|done].
         intros val [E|?]%elem_of_cons; [done | by apply Hn]. }
  destruct j as [|b|n|s|l|ms]; try (by apply Hscalar).
  destruct (existsb _ (as_AllOf assertion)) eqn:Eall.
  { simpl. rewrite app_nil_r. split; [intros val; by intros ?%not_elem_of_nil | done]. }
  pose proof Eall as Hall. rewrite all_contained in Hall.
  destruct (Nat.ltb_spec 0 (length (as_AnyOf assertion))) as [Hany|Hany].
  - destruct (existsb (slice_contains (map sprint l)) (as_AnyOf assertion)) eqn:Eany.
    + exists l. split; [by left|]. split; [done|]. intros _. by apply some_contained.
    + specialize (IH seen). destruct (matches_loop _ _ _ _).
      * destruct IH as (val & ? & ?). exists val. split; [by right | done].
      * destruct IH as (Hn & IH). split; [|done].
        intros val [E|?]%elem_of_cons; [|by apply Hn]. injection E as ->. intros [_ Ha].
        assert (existsb (slice_contains (map sprint l)) (as_AnyOf assertion) = true); [|congruence].
        apply some_contained, Ha. by destruct (as_AnyOf assertion); simpl in *; [lia|].
  - exists l. split; [by left|]. split; [done|].
    destruct (as_AnyOf assertion); simpl in *; [done | lia].
Qed.

Lemma not_both_nil (xs ys : list string) :
  ~ (xs = [] /\ ys = []) ->
  (xs <> [] \/ ys <> []) /\ (length xs =? 0)%nat && (length ys =? 0)%nat = false.
Proof.
  destruct xs; [destruct ys|]; simpl; intros Hn; [by destruct Hn | |];
    (split; [|done]); [by right | by left].
Qed.

Lemma collected_ok_spec assertion seen :
  as_AllOf assertion <> [] \/ as_AnyOf assertion <> [] ->
  collected_ok assertion (flags [] (as_AllOf assertion) seen)
    (existsb (slice_contains seen) (as_AnyOf assertion)) = true
  <-> (as_AnyOf assertion <> [] -> exists x, x ∈ as_AnyOf assertion /\ x ∈ seen)
      /\ (forall x, x ∈ as_AllOf assertion -> x ∈ seen) /\ NoDup (as_AllOf assertion).
Proof.
  intros Hne. rewrite <- some_contained.
  assert (Hf : existsb negb (flags [] (as_AllOf assertion) seen) = false
    <-> (forall x, x ∈ as_AllOf assertion -> x ∈ seen) /\ NoDup (as_AllOf assertion)).
  { rewrite flags_all. split; [by intros (? & ? & _)|]. intros [? ?]. split_and!; [done..|].
    intros x _. apply not_elem_of_nil. }
  rewrite <- Hf. unfold collected_ok.
  destruct (as_AnyOf assertion) as [|a xs], (as_AllOf assertion) as [|b ys]; cbn [length Nat.ltb Nat.leb].
  - by destruct Hne.
  - destruct (existsb negb (flags [] (b :: ys) seen)); simpl; (split; [done|]); by intros [_ ?].
  - destruct (existsb (slice_contains seen) (a :: xs)); simpl; (split; [done|]); [done|].
    intros [E _]. by apply E.
  - destruct (existsb (slice_contains seen) (a :: xs)), (existsb negb (flags [] (b :: ys) seen)); simpl;
      (split; [done|]); intros [E1 E2]; try done; by apply E1.
Qed.

Lemma assertion_holds_spec parsed a :
  assertion_holds parsed a = true
  <-> exists value, JSONPath parsed ("$." +:+ as_Name a) = Ok value /\ value <> []
        /\ ((as_AllOf a = [] /\ as_AnyOf a = []) \/ exists seen, looked_at a value seen /\ satisfies a seen).
Proof.
  unfold assertion_holds. destruct (JSONPath _ _) as [value|err]; [|by split; [|intros (? & ? & _)]].
  assert (Hseen : (exists seen, looked_at a value seen /\ satisfies a seen) <-> satisfies a (considered a value)).
  { setoid_rewrite considered_spec. split; [by intros (? & -> & ?) | eauto]. }
  destruct value as [|v vs].
  { split; [done|]. intros (value & [= <-] & Hne & _). by destruct Hne. }
  cbn [length Nat.eqb].
  trans ((as_AllOf a = [] /\ as_AnyOf a = []) \/ satisfies a (considered a (v :: vs))).
  2:{ rewrite <- Hseen. split.
      - intros Hs. by exists (v :: vs).
      - by intros (value & [= <-] & _ & Hs). }
  clear Hseen.
  destruct (decide (as_AllOf a = [] /\ as_AnyOf a = [])) as [[Hall Hany]|Hne].
  { rewrite Hall, Hany. cbn. split; [by left | done]. }
  pose proof (not_both_nil _ _ Hne) as [Hn ->]. rewrite (existsb_replicate_flags []).
  pose proof (matches_loop_spec a (v :: vs) []) as Hm. rewrite contains_nothing in Hm.
  destruct (matches_loop _ _ _ _) as [|ms b].
  - split; [|done]. intros _. right. by left.
  - destruct Hm as (Hna & -> & ->). rewrite collected_ok_spec by done. unfold satisfies. split.
    + intros Hs. right. by right.
    + intros [?|[(val & Hval & Hok)|Hs]]; [done | by destruct (Hna val Hval) | done].
Qed.

(** C30: a request is authorized exactly when every assertion finds nodes for
    its claim and is satisfied by the nodes before the first array that lacks a
    required value: there is an array with every [allOf] value and, if [anyOf]
    is given, some value of it, or the scalar nodes provide them together.  A
    later node does not count, and scalar nodes never satisfy an assertion that
    lists an [allOf] value twice.  An assertion without values only asks that
    the claim exists. *)
Theorem isAuthorized_spec authorization c :
  isAuthorized authorization c = true
  <-> forall a, a ∈ az_AssertClaims authorization ->
        exists value, JSONPath (JObj (map_to_list c)) ("$." +:+ as_Name a) = Ok value /\ value <> []
          /\ ((as_AllOf a = [] /\ as_AnyOf a = [])
              \/ exists seen, looked_at a value seen /\ satisfies a seen).
Proof.
  unfold isAuthorized. destruct (az_AssertClaims authorization) as [|a0 l0] eqn:E.
  { split; [|done]. intros _ a. by intros ?%not_elem_of_nil. }
  cbn [length Nat.ltb Nat.leb]. rewrite <- E in *. clear E.
  rewrite forallb_forall. setoid_rewrite <- list_elem_of_In.
  split; intros Ha a Hin; specialize (Ha a Hin); by apply assertion_holds_spec.
Qed.

(** The loop gives up at the first node that is an array without a
    required value, and the request is refused, even when a later node
    satisfies the assertion. *)
Theorem isAuthorized_stops_early a c val rest every x :
  JSONPath (JObj (map_to_list c)) ("$." +:+ as_Name a) = Ok (Ok (JArr val) :: rest) ->
  x ∈ as_AllOf a -> x ∉ map sprint val ->
  isAuthorized {| az_AssertClaims := [a]; az_CheckOnEveryRequest := every |} c = false.
Proof.
  intros Hv Hx Hn. unfold isAuthorized. cbn [az_AssertClaims length Nat.ltb Nat.leb forallb].
  unfold assertion_holds. rewrite Hv. cbn [length Nat.eqb].
  destruct (as_AllOf a) as [|y ys] eqn:Ea; [by apply not_elem_of_nil in Hx|].
  cbn [length Nat.eqb andb matches_loop]. rewrite Ea.
  destruct (existsb _ (y :: ys)) eqn:Ex.
  - unfold collected_ok. rewrite Ea. simpl. by rewrite !andb_false_r.
  - by rewrite all_contained in Ex; apply Ex in Hx.
Qed.

End Authorize.

(** ** Witnesses *)

Definition literal_floats : FloatText := {| fmt_float s := s |}.

(** A path library that knows the top-level members only. *)
Definition member_paths : JsonPath := {|
  JSONPath j path :=
    match j with
    | JObj ms => Ok (omap (fun m => if String.eqb path ("$." +:+ m.1) then Some (Ok m.2) else None) ms)
    | _ => Ok []
    end
|}.

Definition sample_claims : claims :=
  {["sub" := JStr "alice"; "roles" := JArr [JStr "admin"; JStr "dev"]]}.

Definition sample_authorization : AuthorizationConfig := {|
  az_AssertClaims := [{| as_Name := "roles"; as_AnyOf := ["dev"; "ops"]; as_AllOf := ["admin"] |}];
  az_CheckOnEveryRequest := false |}.

Lemma isAuthorized_spec_witness :
  exists value,
    @JSONPath member_paths (JObj (map_to_list sample_claims)) "$.roles" = Ok value /\ value <> [].
Proof.
  pose proof (proj1 (@isAuthorized_spec literal_floats member_paths sample_authorization sample_claims)
                ltac:(vm_compute; reflexivity)) as Hw.
  destruct (Hw _ (list_elem_of_here _ _)) as (value & H1 & H2 & _).
  exact (ex_intro _ value (conj H1 H2)).
Defined.

(** A path library whose path has two nodes, a group list each. *)
Definition two_nodes : JsonPath := {|
  JSONPath _ _ := Ok [Ok (JArr [JStr "guest"]); Ok (JArr [JStr "admin"])]
|}.

Definition admin_assertion : ClaimAssertion :=
  {| as_Name := "orgs[*].roles"; as_AnyOf := []; as_AllOf := ["admin"] |}.

Lemma isAuthorized_stops_early_witness :
  @satisfies literal_floats admin_assertion [Ok (JArr [JStr "guest"]); Ok (JArr [JStr "admin"])]
  /\ @isAuthorized literal_floats two_nodes
       {| az_AssertClaims := [admin_assertion]; az_CheckOnEveryRequest := false |} ∅ = false.
Proof.
  split.
  - left. exists [JStr "admin"]. split; [set_solver|]. split; [|done]. unfold complete_array. simpl. set_solver.
  - apply (@isAuthorized_stops_early literal_floats two_nodes admin_assertion ∅ [JStr "guest"]
             [Ok (JArr [JStr "admin"])] false "admin" eq_refl);
      [left | apply (bool_decide_unpack _); vm_compute; exact I].
Defined.
