(* ===== verification/Predicate.v ===== *)
(** * The predicate language: [src/predicate/]

    Expressions with the syntax of Go, evaluated over the operators and
    functions of a definition.  The lexer and parser are [go/parser]'s, behind
    the interface [GoParser]; what the package does with the syntax tree is
    modelled in full.  Functions are called through reflection: a wrong number
    or type of arguments panics, and the panic is recovered into an error. *)

From Stdlib Require Import ZArith Lia Ascii String Bool List.
From S2P Require Import Prelude GoStrings.

(** ** Syntax trees *)

Inductive token := NOT | LAND | LOR | GTR | GEQ | LSS | LEQ | EQL | NEQ | OtherToken.
Inductive literal_kind := FLOAT | INT | STRING | OtherLiteral.

Inductive expr :=
| BinaryExpr (Op : token) (X Y : expr)
| ParenExpr (X : expr)
| UnaryExpr (Op : token) (X : expr)
| BasicLit (Kind : literal_kind) (Value : string)
| IndexExpr (X Index : expr)
| SelectorExpr (X : expr) (Sel : string)
| Ident (Name : string)
| CallExpr (Fun : expr) (Args : list expr)
| OtherExpr.

(** [parser.ParseExpr] and [strconv.Unquote]; a float stays its literal, when
    [strconv.ParseFloat] accepts it. *)
Class GoParser := {
  ParseExpr : string -> result expr;
  Unquote : string -> result string;
  float_literal : string -> bool
}.

(** ** Values

    What an [interface{}] may hold: [U] stands for the types of the client. *)

Inductive value (U : Type) : Type :=
| VNil
| VString (s : string)
| VInt (z : Z)
| VFloat (literal : string)
| VStrings (l : list string)
| VStringMap (m : list (string * string))
| VStringsMap (m : list (string * list string))
| VStruct (fields : list (gmap string string * value U))
| VPointer (v : value U)
| VUser (u : U).
Arguments VNil {U}. Arguments VString {U} s. Arguments VInt {U} z. Arguments VFloat {U} literal.
Arguments VStrings {U} l. Arguments VStringMap {U} m. Arguments VStringsMap {U} m.
Arguments VStruct {U} fields. Arguments VPointer {U} v. Arguments VUser {U} u.

Section Predicates.
Context {U : Type}.

(** ** The helper functions of [lib.go] *)

Fixpoint assoc {A} (m : list (string * A)) (k : string) : option A :=
  match m with
  | [] => None
  | (k', x) :: r => if String.eqb k k' then Some x else assoc r k
  end.

Definition GetStringMapValue (mapVal keyVal : value U) : result (value U) :=
  match keyVal with
  | VString key =>
      match mapVal with
      | VStringsMap m => Ok (VStrings (default [] (assoc m key)))
      | VStringMap m => Ok (VString (default "" (assoc m key)))
      | _ => errorf "type is not supported"
      end
  | _ => errorf "only string keys are supported"
  end.

Fixpoint equal_strings (a b : list string) : bool :=
  match a, b with
  | [], [] => true
  | x :: a', y :: b' => String.eqb x y && equal_strings a' b'
  | _, _ => false
  end.

Definition Equals (a b : value U) : bool :=
  match a with
  | VString aval => match b with VString bval => String.eqb aval bval | _ => false end
  | VStrings aval =>
      match b with
      | VStrings bval =>
          if negb (length aval =? length bval)%nat then false else equal_strings aval bval
      | _ => false
      end
  | _ => false
  end.

Definition ContainsString (a b : value U) : bool :=
  match a, b with
  | VStrings aval, VString bval => existsb (fun v => String.eqb v bval) aval
  | _, _ => false
  end.

(** Predicates without arguments are their value. *)
Definition And (a b : bool) : bool := a && b.
Definition Or (a b : bool) : bool := a || b.
Definition Not (a : bool) : bool := negb a.

(** [strings.Split(tag, ",")[0]] of the tag of a field. *)
Definition tag_name (tags : gmap string string) (tagName : string) : string :=
  match SplitByte (default "" (tags !! tagName)) "," with p :: _ => p | [] => "" end.

Definition field_value (tagName fieldName : string) (fields : list (gmap string string * value U))
  : option (value U) :=
  snd <$> List.find (fun f => String.eqb (tag_name f.1 tagName) fieldName) fields.

Fixpoint GetFieldByTag (ival : value U) (tagName : string) (fieldNames : list string)
  : result (value U) :=
  match fieldNames with
  | [] => errorf "missing field names"
  | fieldName :: rest =>
      let val := match ival with VPointer v => v | v => v end in
      match val with
      | VStruct fields =>
          match field_value tagName fieldName fields with
          | Some v => match rest with [] => Ok v | _ => GetFieldByTag v tagName rest end
          | None => errorf "field name is not found"
          end
      | _ => errorf "field name is not found"
      end
  end.

(** ** Definitions and evaluation *)

(** A function as reflection sees it: it fails on arguments it cannot take. *)
Definition gofunc := list (value U) -> result (value U).

Record Operators := {
  op_EQ : option gofunc; op_NEQ : option gofunc; op_LT : option gofunc; op_GT : option gofunc;
  op_LE : option gofunc; op_GE : option gofunc; op_OR : option gofunc; op_AND : option gofunc;
  op_NOT : option gofunc
}.

Record Def := {
  d_Operators : Operators;
  d_Functions : gmap string gofunc;
  d_GetIdentifier : option (list string -> result (value U));
  d_GetProperty : option (value U -> value U -> result (value U))
}.

Definition getJoinFunction (d : Def) (op : token) : result gofunc :=
  let o := d_Operators d in
  of_option "operator is not supported"
    match op with
    | NOT => op_NOT o
    | LAND => op_AND o
    | LOR => op_OR o
    | GTR => op_GT o
    | GEQ => op_GE o
    | LSS => op_LT o
    | LEQ => op_LE o
    | EQL => op_EQ o
    | NEQ => op_NEQ o
    | OtherToken => None
    end.

(** [callFunction]: the call, with a panic recovered into an error. *)
Definition callFunction (f : gofunc) (args : list (value U)) : result (value U) :=
  match f args with
  | Err ErrPanic => errorf "reflect: call with wrong arguments"
  | r => r
  end.

Definition joinPredicates (d : Def) (op : token) (a b : value U) : result (value U) :=
  let? joinFn := getJoinFunction d op in callFunction joinFn [a; b].

Definition getIdentifier (node : expr) : result string :=
  match node with
  | SelectorExpr (Ident id) sel => Ok (id +:+ "." +:+ sel)
  | SelectorExpr _ _ => errorf "expected selector identifier"
  | Ident name => Ok name
  | _ => errorf "expected identifier"
  end.

Definition getFunction (d : Def) (name : string) : result gofunc :=
  of_option "unsupported function" (d_Functions d !! name).

(** The loop of [evaluateSelector]: [names] is collected innermost first. *)
Fixpoint selector_loop (X : expr) (names fields : list string) : result (list string) :=
  match X with
  | SelectorExpr X' sel => selector_loop X' (names ++ [sel]) fields
  | Ident name => Ok (name :: rev names ++ fields)
  | _ => errorf "unsupported selector type"
  end.

Definition evaluateSelector (X : expr) (sel : string) (fields : list string) : result (list string) :=
  selector_loop X [sel] fields.

Section MapResult.
Context {A B : Type} (f : A -> result B).
Fixpoint map_result (l : list A) : result (list B) :=
  match l with
  | [] => Ok []
  | x :: r => let? y := f x in let? ys := map_result r in Ok (y :: ys)
  end.
End MapResult.

Section Evaluate.
Context `{GoParser} (d : Def).

Definition literalToValue (kind : literal_kind) (value : string) : result (Predicate.value U) :=
  match kind with
  | FLOAT => if float_literal value then Ok (VFloat value) else errorf "failed to parse argument"
  | INT => match Atoi value with Some z => Ok (VInt z) | None => errorf "failed to parse argument" end
  | STRING => match Unquote value with Ok s => Ok (VString s) | Err _ => errorf "failed to parse argument" end
  | OtherLiteral => errorf "unsupported function argument type"
  end.

Fixpoint evaluateExpr (n : expr) : result (value U) :=
  match n with
  | BasicLit kind v => literalToValue kind v
  | IndexExpr X Index =>
      match d_GetProperty d with
      | None => errorf "properties are not supported"
      | Some GetProperty =>
          let? mapVal := evaluateExpr X in
          let? keyVal := evaluateExpr Index in
          GetProperty mapVal keyVal
      end
  | SelectorExpr X sel =>
      let? fields := evaluateSelector X sel [] in
      match d_GetIdentifier d with
      | None => errorf "identifier is not defined"
      | Some GetIdentifier => GetIdentifier fields
      end
  | Ident name =>
      match d_GetIdentifier d with
      | None => errorf "identifier is not defined"
      | Some GetIdentifier => GetIdentifier [name]
      end
  | CallExpr Fun Args =>
      let? name := getIdentifier Fun in
      let? fn := getFunction d name in
      let? arguments := map_result evaluateExpr Args in
      callFunction fn arguments
  | _ => errorf "expression is not supported"
  end.

(** [evaluateArguments] *)
Definition evaluateArguments (nodes : list expr) : result (list (value U)) := map_result evaluateExpr nodes.

(** [predicateParser.parse] and [Parse] *)
Fixpoint parse (e : expr) : result (value U) :=
  match e with
  | BinaryExpr op X Y =>
      let? x := parse X in
      let? y := parse Y in
      joinPredicates d op x y
  | ParenExpr X => parse X
  | UnaryExpr op X =>
      let? joinFn := getJoinFunction d op in
      let? node := parse X in
      callFunction joinFn [node]
  | _ => evaluateExpr e
  end.

Definition Parse (input : string) : result (value U) :=
  let? e := ParseExpr input in parse e.
End Evaluate.

(** ** Lemmas *)

(** The recursive reading of a selector, whose loop form replaced it. *)
Fixpoint selector_path (X : expr) : result (list string) :=
  match X with
  | SelectorExpr X' sel => let? p := selector_path X' in Ok (p ++ [sel])
  | Ident name => Ok [name]
  | _ => errorf "unsupported selector type"
  end.

Lemma selector_loop_path X names fields :
  selector_loop X names fields = let? p := selector_path X in Ok (p ++ rev names ++ fields).
Proof.
  revert names. induction X; intros names; simpl; try done.
  rewrite IHX. destruct (selector_path X) as [p|]; simpl; [|done].
  rewrite rev_app_distr. simpl. by rewrite <- app_assoc.
Qed.

(** The linear walk over a selector yields the same path as the recursive
    definition: the identifiers in source order, the appended fields last. *)
Theorem evaluateSelector_path X sel fields :
  evaluateSelector X sel fields
  = let? p := selector_path (SelectorExpr X sel) in Ok (p ++ fields).
Proof.
  unfold evaluateSelector. rewrite selector_loop_path. simpl.
  destruct (selector_path X) as [p|]; simpl; [|done]. by rewrite <- app_assoc.
Qed.

Lemma assoc_None {A} (m : list (string * A)) k : assoc m k = None <-> k ∉ map fst m.
Proof.
  induction m as [|[k' x] m IH]; simpl; [set_solver|].
  destruct (String.eqb_spec k k') as [->|Hne]; rewrite elem_of_cons.
  - split; [done|]. intros []. by left.
  - rewrite IH. split; [intros Hn [|]; done | auto].
Qed.

Lemma equal_strings_spec a b : equal_strings a b = true <-> a = b.
Proof.
  revert b. induction a as [|x a IH]; intros [|y b]; simpl; try done.
  rewrite andb_true_iff, IH, String.eqb_eq. split; [by intros [-> ->] | by intros [= -> ->]].
Qed.

(** [Equals] is equality of strings and of slices of strings. *)
Lemma Equals_spec (a b : value U) :
  Equals a b = true
  <-> (exists s, a = VString s /\ b = VString s) \/ (exists l, a = VStrings l /\ b = VStrings l).
Proof.
  destruct a as [| s | | | l | | | | |], b as [| t | | | k | | | | |]; simpl;
    try (split; [done | by intros [(? & ? & ?) | (? & ? & ?)]]).
  - rewrite String.eqb_eq. split; [intros ->; left; by exists t|].
    by intros [(? & [= ->] & [= ->]) | (? & ? & ?)].
  - destruct (Nat.eqb_spec (length l) (length k)) as [|Hne]; simpl.
    + rewrite equal_strings_spec. split; [intros ->; right; by exists k|].
      by intros [(? & ? & ?) | (? & [= ->] & [= ->])].
    + split; [done|]. by intros [(? & ? & ?) | (? & [= ->] & [= ->])].
Qed.

End Predicates.
Arguments gofunc U : clear implicits.
Arguments Operators U : clear implicits.
Arguments Def U : clear implicits.
