(* ===== verification/Rules.v ===== *)
(** * Request rules: [src/rules/]

    A bypass rule such as [Path(`/a`) || !Host(`b`)] is parsed with the
    predicate language into a tree, negations are pushed to the leaves, and
    the tree is compiled into a condition on requests. *)

From Stdlib Require Import ZArith Lia Ascii String Bool List.
From S2P Require Import Prelude GoStrings GoUrl Http Predicate.

(** [regexp.Compile], as the function [MatchString] of the result. *)
Class Regexp := { regexp_Compile : string -> result (string -> bool) }.

(** ** Rule trees: [parser.go]

    A tree whose [Matcher] is "and" or "or" has both sons; any other is a leaf
    with a matcher's name and its arguments. *)

Inductive Tree :=
| TAnd (RuleLeft RuleRight : Tree)
| TOr (RuleLeft RuleRight : Tree)
| TMatcher (Matcher : string) (Not : bool) (Value : list string).

(** A [TreeBuilder] builds the same tree at every call. *)
Definition andFunc (left right : Tree) : Tree := TAnd left right.
Definition orFunc (left right : Tree) : Tree := TOr left right.

Fixpoint invert (t : Tree) : Tree :=
  match t with
  | TOr l r => TAnd (invert l) (invert r)
  | TAnd l r => TOr (invert l) (invert r)
  | TMatcher m n v => TMatcher m (negb n) v
  end.

Definition notFunc (elem : Tree) : Tree := invert elem.

(** The functions as reflection calls them. *)
Definition call2 (f : Tree -> Tree -> Tree) : gofunc Tree := fun args =>
  match args with
  | [VUser a; VUser b] => Ok (VUser (f a b))
  | _ => Err ErrPanic
  end.
Definition call1 (f : Tree -> Tree) : gofunc Tree := fun args =>
  match args with
  | [VUser a] => Ok (VUser (f a))
  | _ => Err ErrPanic
  end.

Definition as_string (v : value Tree) : result string :=
  match v with VString s => Ok s | _ => Err ErrPanic end.

(** The variadic function of a matcher. *)
Definition matcher_call (name : string) : gofunc Tree := fun args =>
  let? values := map_result as_string args in
  Ok (VUser (TMatcher name false values)).

Definition NewParser (matchers : list string) : Def Tree := {|
  d_Operators := {|
    op_EQ := None; op_NEQ := None; op_LT := None; op_GT := None; op_LE := None; op_GE := None;
    op_OR := Some (call2 orFunc); op_AND := Some (call2 andFunc); op_NOT := Some (call1 notFunc) |};
  d_Functions := list_to_map (map (fun name => (name, matcher_call name)) matchers);
  d_GetIdentifier := None;
  d_GetProperty := None
|}.

Definition CheckRule (Value : list string) : result unit :=
  if (length Value =? 0)%nat then errorf "no args for matcher"
  else if existsb (fun v => (slen v =? 0)%nat) Value then errorf "empty args for matcher"
  else Ok tt.

Section Lower.
Context `{Unicode}.

Definition lower (slice : list string) : list string := map ToLower slice.

(** A matcher found keeps a nil result for no arguments too. *)
Fixpoint ParseMatchers (tree : Tree) (matchers : list string) : list string :=
  match tree with
  | TAnd l r | TOr l r => ParseMatchers l matchers ++ ParseMatchers r matchers
  | TMatcher m _ v => if existsb (String.eqb m) matchers then lower v else []
  end.
End Lower.

(** ** Matchers: [httpFuncs.go] *)

Definition condition := Request -> bool.

Definition exact1 (what : string) (get : Request -> string) (values : list string) : result condition :=
  match values with
  | [expected] => Ok (fun request => String.eqb (get request) expected)
  | _ => errorf (what +:+ "-rule requires exactly one argument")
  end.

Definition headerFunc (values : list string) : result condition :=
  match values with
  | [headerName; headerValue] => Ok (fun request => String.eqb (req_header request headerName) headerValue)
  | _ => errorf "header-rule requires exactly two arguments"
  end.
Definition pathFunc : list string -> result condition := exact1 "path" (fun r => u_Path (r_URL r)).
Definition methodFunc : list string -> result condition := exact1 "method" r_Method.
Definition hostFunc : list string -> result condition := exact1 "host" r_Host.
Definition pathPrefixFunc (values : list string) : result condition :=
  match values with
  | [pathPrefix] => Ok (fun request => HasPrefix (u_Path (r_URL request)) pathPrefix)
  | _ => errorf "path prefix-rule requires exactly one argument"
  end.
Definition queryFunc (values : list string) : result condition :=
  match values with
  | [name; v] => Ok (fun request => String.eqb (req_query request name) v)
  | _ => errorf "query-rule requires exactly two arguments"
  end.

Section Matchers.
Context `{Regexp}.

Definition regexp1 (what : string) (get : Request -> string) (values : list string) : result condition :=
  match values with
  | [pattern] => let? matches := regexp_Compile pattern in Ok (fun request => matches (get request))
  | _ => errorf (what +:+ " regexp-rule requires exactly one argument")
  end.

Definition headerRegexpFunc (values : list string) : result condition :=
  match values with
  | [name; pattern] =>
      let? matches := regexp_Compile pattern in Ok (fun request => matches (req_header request name))
  | _ => errorf "header regexp-rule requires exactly two arguments"
  end.
Definition pathRegexpFunc : list string -> result condition := regexp1 "path" (fun r => u_Path (r_URL r)).
Definition hostRegexpFunc : list string -> result condition := regexp1 "host" r_Host.
Definition queryRegexpFunc (values : list string) : result condition :=
  match values with
  | [name; pattern] =>
      let? matches := regexp_Compile pattern in Ok (fun request => matches (req_query request name))
  | _ => errorf "query regexp-rule requires exactly two arguments"
  end.

Definition httpFuncs : list (string * (list string -> result condition)) := [
  ("Header", headerFunc); ("HeaderRegexp", headerRegexpFunc); ("PathPrefix", pathPrefixFunc);
  ("Path", pathFunc); ("PathRegexp", pathRegexpFunc); ("Method", methodFunc); ("Query", queryFunc);
  ("QueryRegexp", queryRegexpFunc); ("Host", hostFunc); ("HostRegexp", hostRegexpFunc)
].

#[local] Arguments httpFuncs : simpl never.
#[local] Arguments assoc : simpl never.
#[local] Arguments String.eqb : simpl never.

(** ** Conditions: [requestCondition.go] *)

Inductive requestConditionTree :=
| RMatcher (matcher : condition)
| RAnd (left right : requestConditionTree)
| ROr (left right : requestConditionTree).

Fixpoint match_condition (m : requestConditionTree) (request : Request) : bool :=
  match m with
  | RMatcher f => f request
  | ROr l r => match_condition l request || match_condition r request
  | RAnd l r => match_condition l request && match_condition r request
  end.

(** A name that is not in the table is a nil function, which panics. *)
Fixpoint addRule (rule : Tree) : result requestConditionTree :=
  match rule with
  | TAnd l r => let? m := addRule l in let? n := addRule r in Ok (RAnd m n)
  | TOr l r => let? m := addRule l in let? n := addRule r in Ok (ROr m n)
  | TMatcher name not values =>
      let? _ := CheckRule values in
      match assoc httpFuncs name with
      | None => Err ErrPanic
      | Some f =>
          let? matcher := f values in
          Ok (RMatcher (if not then fun request => negb (matcher request) else matcher))
      end
  end.

Section Parsing.
Context `{GoParser}.

Definition rule_def : Def Tree := NewParser (map fst httpFuncs).

Definition ParseRequestCondition (rule : string) : result condition :=
  let? v := Parse rule_def rule in
  match v with
  | VUser tree => let? m := addRule tree in Ok (match_condition m)
  | _ => errorf "error while parsing rule"
  end.

(** ** Meaning

    The reference reading of a rule: Boolean connectives over the atoms, and
    an atom is a matcher of the table applied to non-empty string literals. *)

Definition literal_string (e : expr) : option string :=
  match e with
  | BasicLit STRING lit => match Unquote lit with Ok s => Some s | Err _ => None end
  | _ => None
  end.

Definition atom (name : string) (args : list expr) : option condition :=
  values ← mapM literal_string args;
  if (length values =? 0)%nat || existsb (String.eqb "") values then None
  else f ← assoc httpFuncs name; match f values with Ok c => Some c | Err _ => None end.

Fixpoint meaning (e : expr) : option condition :=
  match e with
  | ParenExpr X => meaning X
  | UnaryExpr NOT X => f ← meaning X; Some (fun r => negb (f r))
  | BinaryExpr LAND X Y => f ← meaning X; g ← meaning Y; Some (fun r => f r && g r)
  | BinaryExpr LOR X Y => f ← meaning X; g ← meaning Y; Some (fun r => f r || g r)
  | CallExpr (Ident name) args => atom name args
  | _ => None
  end.

(** The meaning of a tree. *)
Fixpoint tree_meaning (t : Tree) : option condition :=
  match t with
  | TAnd l r => f ← tree_meaning l; g ← tree_meaning r; Some (fun q => f q && g q)
  | TOr l r => f ← tree_meaning l; g ← tree_meaning r; Some (fun q => f q || g q)
  | TMatcher name not values =>
      if (length values =? 0)%nat || existsb (String.eqb "") values then None
      else f ← assoc httpFuncs name;
           match f values with
           | Ok c => Some (fun q => xorb not (c q))
           | Err _ => None
           end
  end.

(** Two optional conditions that hold of the same requests. *)
Definition same (a b : option condition) : Prop :=
  match a, b with
  | Some f, Some g => forall q, f q = g q
  | None, None => True
  | _, _ => False
  end.

#[global] Instance same_equivalence : Equivalence same.
Proof.
  split.
  - intros [f|]; simpl; done.
  - intros [f|] [g|]; simpl; done.
  - intros [f|] [g|] [h|]; simpl; try done. intros Hfg Hgh q. by rewrite Hfg.
Qed.

(** Pushing a negation to the leaves negates the meaning. *)
Lemma invert_meaning t :
  same (tree_meaning (invert t)) (f ← tree_meaning t; Some (fun q => negb (f q))).
Proof.
  induction t as [l IHl r IHr|l IHl r IHr|m n v]; simpl.
  1,2: destruct (tree_meaning l), (tree_meaning r), (tree_meaning (invert l)),
         (tree_meaning (invert r)); simpl in *; try done; intros q;
       rewrite IHl, IHr; by rewrite ?negb_andb, ?negb_orb.
  destruct (_ || _); [done|]. destruct (assoc httpFuncs m); simpl; [|done].
  destruct (r v); simpl; [|done]. intros q. by rewrite negb_xorb_l.
Qed.

Lemma existsb_empty values :
  existsb (fun v => (slen v =? 0)%nat) values = existsb (String.eqb "") values.
Proof. induction values as [|[|c s] vs IH]; simpl; [done | done | by rewrite IH]. Qed.

(** Compiling a tree succeeds exactly on the trees with a meaning, and the
    compiled condition is that meaning. *)
Lemma addRule_meaning t :
  same (match addRule t with Ok m => Some (match_condition m) | Err _ => None end) (tree_meaning t).
Proof.
  induction t as [l IHl r IHr|l IHl r IHr|m n v]; simpl.
  1,2: destruct (addRule l), (tree_meaning l); simpl in *; try done;
       destruct (addRule r), (tree_meaning r); simpl in *; try done;
       intros q; by rewrite IHl, IHr.
  unfold CheckRule. rewrite existsb_empty. destruct (length v =? 0)%nat; simpl; [done|].
  destruct (existsb (String.eqb "") v); simpl; [done|].
  destruct (assoc httpFuncs m) as [f|]; simpl; [|done].
  destruct (f v) as [c|]; simpl; [|done]. intros q. by destruct n, (c q).
Qed.

Lemma getFunction_spec name :
  getFunction rule_def name
  = match assoc httpFuncs name with
    | Some _ => Ok (matcher_call name)
    | None => errorf "unsupported function"
    end.
Proof.
  unfold getFunction, rule_def, NewParser. cbn [d_Functions].
  destruct (assoc httpFuncs name) as [f|] eqn:Ea.
  - assert (name ∈ map fst httpFuncs) as Hin.
    { destruct (decide (name ∈ map fst httpFuncs)) as [|Hn]; [done|].
      apply assoc_None in Hn. congruence. }
    clear Ea. unfold httpFuncs in *. cbn [map fst] in *.
    repeat (apply elem_of_cons in Hin as [-> | Hin]; [by vm_compute|]).
    by apply not_elem_of_nil in Hin.
  - destruct (_ !! name) as [g|] eqn:Eg; [|done]. apply assoc_None in Ea. destruct Ea.
    apply elem_of_list_to_map_2, list_elem_of_In, in_map_iff in Eg as (n & [= -> _] & Hn).
    by apply list_elem_of_In.
Qed.

Lemma callFunction_matcher name args v :
  callFunction (matcher_call name) args = Ok v ->
  exists values, v = VUser (TMatcher name false values).
Proof.
  unfold callFunction, matcher_call. destruct (map_result as_string args) as [vs|[]]; simpl; try done.
  intros [= <-]. by exists vs.
Qed.

(** An argument evaluates to a string only if it is a string literal. *)
Lemma evaluate_string e s :
  evaluateExpr rule_def e = Ok (VString s) <-> literal_string e = Some s.
Proof.
  destruct e as [| | |kind lit| | | |f args|]; simpl; try done.
  - unfold literalToValue, errorf. destruct kind; simpl.
    + destruct (float_literal lit); done.
    + destruct (Atoi lit); done.
    + destruct (Unquote lit); [|done]. split; by intros [= ->].
    + done.
  - destruct (evaluateSelector e Sel []); simpl; done.
  - split; [|done]. intros (name & _ & Hc)%rbind_Ok_inv. rewrite getFunction_spec in Hc.
    destruct (assoc httpFuncs name); simpl in Hc; [|done].
    apply rbind_Ok_inv in Hc as (vs & _ & Hc). apply callFunction_matcher in Hc as [? ?]. done.
Qed.

Lemma evaluate_strings args values :
  (let? vs := map_result (evaluateExpr rule_def) args in map_result as_string vs) = Ok values
  <-> mapM literal_string args = Some values.
Proof.
  revert values. induction args as [|e args IH]; intros values; simpl.
  { split; by intros [= <-]. }
  split.
  - intros (vs & Hvs & Hs)%rbind_Ok_inv. apply rbind_Ok_inv in Hvs as (v & Hv & Hvs).
    apply rbind_Ok_inv in Hvs as (vs' & Hvs & [= <-]). simpl in Hs.
    apply rbind_Ok_inv in Hs as (s & Hs & Hr). apply rbind_Ok_inv in Hr as (ss & Hr & [= <-]).
    destruct v; try done. injection Hs as ->. apply evaluate_string in Hv. rewrite Hv. simpl.
    assert (mapM literal_string args = Some ss) as ->; [|done]. apply IH. by rewrite Hvs.
  - destruct (literal_string e) as [s|] eqn:Es; simpl; [|done].
    destruct (mapM literal_string args) as [ss|] eqn:Ess; simpl; [|done]. intros [= <-].
    apply evaluate_string in Es. rewrite Es. simpl.
    assert ((let? vs := map_result (evaluateExpr rule_def) args in map_result as_string vs) = Ok ss)
      as Hr by by apply IH.
    apply rbind_Ok_inv in Hr as (vs & -> & Hr). simpl. by rewrite Hr.
Qed.

Lemma no_dotted_name id sel : assoc httpFuncs (id +:+ "." +:+ sel) = None.
Proof.
  apply assoc_None. intros Hin.
  assert (byte_in "." (id +:+ "." +:+ sel) = true) as Hd.
  { rewrite byte_in_app. simpl. by rewrite orb_true_r. }
  revert Hin Hd. generalize (id +:+ "." +:+ sel). intros n Hin Hd. unfold httpFuncs in Hin; cbn [map fst] in Hin.
  repeat (apply elem_of_cons in Hin as [-> | Hin]; [done|]). by apply not_elem_of_nil in Hin.
Qed.

(** Calling a matcher builds the atom. *)
Lemma call_meaning name args :
  match (let? fn := getFunction rule_def name in
         let? arguments := map_result (evaluateExpr rule_def) args in
         callFunction fn arguments) with
  | Ok (VUser t) => same (tree_meaning t) (atom name args)
  | _ => atom name args = None
  end.
Proof.
  rewrite getFunction_spec. unfold atom.
  destruct (assoc httpFuncs name) as [f|] eqn:Ef.
  2: { cbn [rbind errorf]. destruct (mapM literal_string args); simpl; [|done]. by case_match. }
  cbn [rbind].
  destruct (mapM literal_string args) as [values|] eqn:Ev.
  - apply evaluate_strings in Ev. apply rbind_Ok_inv in Ev as (vs & -> & Hs). simpl.
    unfold callFunction, matcher_call. rewrite Hs. simpl. rewrite Ef.
    destruct ((length values =? 0)%nat || existsb (String.eqb "") values); [done|]. simpl.
    destruct (f values); simpl; [|done]. intros q. by destruct (a q).
  - assert (forall values, (let? vs := map_result (evaluateExpr rule_def) args in
             map_result as_string vs) <> Ok values) as Hno.
    { intros values Hc. apply evaluate_strings in Hc. congruence. }
    destruct (map_result (evaluateExpr rule_def) args) as [vs|]; simpl in *; [|done].
    unfold callFunction, matcher_call. destruct (map_result as_string vs) as [ss|[]] eqn:Es; simpl; try done.
    by destruct (Hno ss).
Qed.

(** Parsing an expression gives a tree with its meaning; what is not a tree
    has no meaning. *)
Lemma parse_meaning e :
  match parse rule_def e with
  | Ok (VUser t) => same (tree_meaning t) (meaning e)
  | _ => meaning e = None
  end.
Proof.
  induction e as [op X IHX Y IHY|X IHX|op X IHX|kind lit|X IHX Y IHY|X IHX sel|name|f IHf args|];
    cbn [parse meaning].
  - destruct (parse rule_def X) as [x|]; cbn [rbind].
    2: { by destruct op; try done; rewrite IHX. }
    destruct (parse rule_def Y) as [y|]; cbn [rbind].
    2: { destruct op; try done; rewrite IHY; by destruct (meaning X). }
    destruct op; try done; unfold joinPredicates; cbn;
      (destruct x as [| | | | | | | | |t]; cbn; try done; try (by rewrite IHX);
       destruct y as [| | | | | | | | |u]; cbn; try done; try (rewrite IHY; by destruct (meaning X));
       destruct (tree_meaning t), (meaning X), (tree_meaning u), (meaning Y); cbn in *; try done;
       intros q; by rewrite IHX, IHY).
  - exact IHX.
  - destruct op; try done; cbn; destruct (parse rule_def X) as [x|]; cbn; try done;
      try (by rewrite IHX); destruct x as [| | | | | | | | |t]; cbn; try done; try (by rewrite IHX).
    rewrite invert_meaning. destruct (tree_meaning t), (meaning X); cbn in *; try done.
    intros q. by rewrite IHX.
  - cbn. unfold literalToValue, errorf. destruct kind; simpl; by repeat case_match.
  - done.
  - cbn. by destruct (evaluateSelector X sel []).
  - done.
  - cbn. destruct f as [| | | | |X sel|name| |]; cbn [getIdentifier rbind errorf]; try done.
    + destruct X; cbn [getIdentifier rbind errorf]; try done.
      rewrite getFunction_spec, no_dotted_name. done.
    + apply call_meaning.
  - done.
Qed.

(** C20: a rule is accepted exactly when it has a meaning - Boolean connectives
    over known matchers with well-formed, non-empty string arguments - and the
    compiled condition holds of a request exactly when the rule's meaning does:
    connectives and (pushed-in) negations mean what they say. *)
Theorem ParseRequestCondition_meaning rule :
  same (match ParseRequestCondition rule with Ok c => Some c | Err _ => None end)
       (match ParseExpr rule with Ok e => meaning e | Err _ => None end).
Proof.
  unfold ParseRequestCondition, Parse. destruct (ParseExpr rule) as [e|]; cbn [rbind]; [|done].
  pose proof (parse_meaning e) as Hm.
  destruct (parse rule_def e) as [v|]; cbn [rbind]; [|by rewrite Hm].
  destruct v as [| | | | | | | | |t]; cbn [errorf]; try (by rewrite Hm).
  rewrite <- Hm, <- addRule_meaning. by destruct (addRule t).
Qed.

End Parsing.
End Matchers.
