(* ===== verification/OidcState.v ===== *)
(** * The sealed login state: [src/oidc/state.go]

    The state of an authorization request travels through the browser as an
    opaque value: JSON, sealed with the purpose [PurposeOidcState], in
    unpadded base64url.  It carries its own type tag and expiry. *)

From Stdlib Require Import ZArith Lia Ascii String Bool List.
From S2P Require Import Prelude GoStrings Base64 GoUrl Json Http Utils Samples.

Definition stateLifetime : duration := 10 * Minute.
Definition stateTypeTag : string := "oidc-state".

Record OidcState := {
  st_Action : string;
  st_RedirectUrl : string;
  st_CodeVerifierEnc : string;
  st_Csrf : string;
  st_Nonce : string;
  st_IsChallenge : bool;
  st_Type : string;
  st_IssuedAt : time;
  st_Expires : time
}.

Definition zero_state : OidcState := {|
  st_Action := ""; st_RedirectUrl := ""; st_CodeVerifierEnc := ""; st_Csrf := ""; st_Nonce := "";
  st_IsChallenge := false; st_Type := ""; st_IssuedAt := 0; st_Expires := 0 |}.

(** ** The JSON of a state *)

Definition set_Action v (s : OidcState) : OidcState :=
  {| st_Action := v; st_RedirectUrl := st_RedirectUrl s; st_CodeVerifierEnc := st_CodeVerifierEnc s;
     st_Csrf := st_Csrf s; st_Nonce := st_Nonce s; st_IsChallenge := st_IsChallenge s;
     st_Type := st_Type s; st_IssuedAt := st_IssuedAt s; st_Expires := st_Expires s |}.
Definition set_RedirectUrl v (s : OidcState) : OidcState :=
  {| st_Action := st_Action s; st_RedirectUrl := v; st_CodeVerifierEnc := st_CodeVerifierEnc s;
     st_Csrf := st_Csrf s; st_Nonce := st_Nonce s; st_IsChallenge := st_IsChallenge s;
     st_Type := st_Type s; st_IssuedAt := st_IssuedAt s; st_Expires := st_Expires s |}.
Definition set_CodeVerifierEnc v (s : OidcState) : OidcState :=
  {| st_Action := st_Action s; st_RedirectUrl := st_RedirectUrl s; st_CodeVerifierEnc := v;
     st_Csrf := st_Csrf s; st_Nonce := st_Nonce s; st_IsChallenge := st_IsChallenge s;
     st_Type := st_Type s; st_IssuedAt := st_IssuedAt s; st_Expires := st_Expires s |}.
Definition set_Csrf v (s : OidcState) : OidcState :=
  {| st_Action := st_Action s; st_RedirectUrl := st_RedirectUrl s;
     st_CodeVerifierEnc := st_CodeVerifierEnc s; st_Csrf := v; st_Nonce := st_Nonce s;
     st_IsChallenge := st_IsChallenge s; st_Type := st_Type s; st_IssuedAt := st_IssuedAt s;
     st_Expires := st_Expires s |}.
Definition set_Nonce v (s : OidcState) : OidcState :=
  {| st_Action := st_Action s; st_RedirectUrl := st_RedirectUrl s;
     st_CodeVerifierEnc := st_CodeVerifierEnc s; st_Csrf := st_Csrf s; st_Nonce := v;
     st_IsChallenge := st_IsChallenge s; st_Type := st_Type s; st_IssuedAt := st_IssuedAt s;
     st_Expires := st_Expires s |}.
Definition set_IsChallenge v (s : OidcState) : OidcState :=
  {| st_Action := st_Action s; st_RedirectUrl := st_RedirectUrl s;
     st_CodeVerifierEnc := st_CodeVerifierEnc s; st_Csrf := st_Csrf s; st_Nonce := st_Nonce s;
     st_IsChallenge := v; st_Type := st_Type s; st_IssuedAt := st_IssuedAt s;
     st_Expires := st_Expires s |}.
(** The three fields that [SealState] stamps. *)
Definition set_stamp t i e (s : OidcState) : OidcState :=
  {| st_Action := st_Action s; st_RedirectUrl := st_RedirectUrl s;
     st_CodeVerifierEnc := st_CodeVerifierEnc s; st_Csrf := st_Csrf s; st_Nonce := st_Nonce s;
     st_IsChallenge := st_IsChallenge s; st_Type := t; st_IssuedAt := i; st_Expires := e |}.

Section State.
Context `{Unicode, JsonText, TimeText, Aead}.

Definition state_fields : list (string * (json -> OidcState -> result OidcState)) := [
  ("action", fun j s => let? v := dec_string (st_Action s) j in Ok (set_Action v s));
  ("redirect_url", fun j s => let? v := dec_string (st_RedirectUrl s) j in Ok (set_RedirectUrl v s));
  ("cve", fun j s => let? v := dec_string (st_CodeVerifierEnc s) j in Ok (set_CodeVerifierEnc v s));
  ("csrf", fun j s => let? v := dec_string (st_Csrf s) j in Ok (set_Csrf v s));
  ("nonce", fun j s => let? v := dec_string (st_Nonce s) j in Ok (set_Nonce v s));
  ("is_challenge", fun j s => let? v := dec_bool (st_IsChallenge s) j in Ok (set_IsChallenge v s));
  ("typ", fun j s => let? v := dec_string (st_Type s) j in
                     Ok (set_stamp v (st_IssuedAt s) (st_Expires s) s));
  ("issued_at", fun j s => let? v := dec_time (st_IssuedAt s) j in
                           Ok (set_stamp (st_Type s) v (st_Expires s) s));
  ("expires", fun j s => let? v := dec_time (st_Expires s) j in
                         Ok (set_stamp (st_Type s) (st_IssuedAt s) v s))
].

Definition marshal_state (s : OidcState) : result json :=
  let? issued := time_format (st_IssuedAt s) in
  let? expires := time_format (st_Expires s) in
  Ok (JObj ([("action", JStr (st_Action s)); ("redirect_url", JStr (st_RedirectUrl s))]
            ++ omit_string "cve" (st_CodeVerifierEnc s) ++ omit_string "csrf" (st_Csrf s)
            ++ omit_string "nonce" (st_Nonce s) ++ omit_bool "is_challenge" (st_IsChallenge s)
            ++ omit_string "typ" (st_Type s)
            ++ [("issued_at", JStr issued); ("expires", JStr expires)])).

Definition unmarshal_state (plain : string) : result OidcState :=
  let? j := json_parse plain in dec_struct state_fields j zero_state.

(** ** Sealing *)

(** [now] is the instant of the call and [rnd] the outcome of the random read
    of the nonce. *)
Definition SealState (now : time) (rnd : result string) (state : option OidcState) (secret : string)
  : result string :=
  match state with
  | None => errorf "state must not be nil"
  | Some st =>
      let stamped := set_stamp stateTypeTag now (Add now stateLifetime) st in
      let? stateBytes := marshal_state stamped in
      let? encrypted := EncryptWithPurpose rnd (json_print stateBytes) secret PurposeOidcState in
      Ok (EncodeToString RawURLEncoding encrypted)
  end.

(** The shape tests of [openState] on a purpose-less plaintext. *)
Definition legacy_state_shape (plain : string) : bool :=
  match (let? j := json_parse plain in dec_map j) with
  | Err _ => false
  | Ok probe =>
      match probe !! "typ" with
      | Some _ => false
      | None =>
          let stamped :=
            match probe !! "expires" with
            | Some raw =>
                match dec_time 0 raw with Ok expires => negb (IsZero expires) | Err _ => false end
            | None => false
            end in
          if stamped then false
          else match probe !! "action" with
               | None => false
               | Some action =>
                   match dec_string "" action with
                   | Ok actionValue => negb (String.eqb actionValue "")
                   | Err _ => false
                   end
               end
      end
  end.

Definition openState (enc secret : string) : result (string * bool) :=
  match DecryptWithPurpose enc secret PurposeOidcState with
  | Ok plain => Ok (plain, false)
  | Err err =>
      match Decrypt enc secret with
      | Err _ => Err err
      | Ok plain => if legacy_state_shape plain then Ok (plain, true) else Err err
      end
  end.

Definition UnsealState (now : time) (sealed secret : string) : result OidcState :=
  let? enc := DecodeString RawURLEncoding sealed in
  let? (plain, legacy) := openState enc secret in
  let? state := unmarshal_state plain in
  if negb legacy && negb (String.eqb (st_Type state) stateTypeTag)
  then errorf "unexpected oidc state type"
  else if negb (IsZero (st_Expires state)) && After now (st_Expires state)
  then Err ErrStateExpired
  else Ok state.

(** ** Lemmas *)

Definition state_utf8 (s : OidcState) : bool :=
  valid_utf8 (st_Action s) && valid_utf8 (st_RedirectUrl s) && valid_utf8 (st_CodeVerifierEnc s)
  && valid_utf8 (st_Csrf s) && valid_utf8 (st_Nonce s) && valid_utf8 (st_Type s).

(** Marshalling a state whose strings are UTF-8 and whose instants are in the
    years 1 to 9999, and unmarshalling the text, gives the state back. *)
Lemma state_json_roundtrip `{!JsonLaws, !TimeLaws} st :
  state_utf8 st = true -> time_ok (st_IssuedAt st) -> time_ok (st_Expires st) ->
  exists j, marshal_state st = Ok j /\ unmarshal_state (json_print j) = Ok st.
Proof.
  intros Hu Hi He. unfold marshal_state, unmarshal_state, state_utf8 in *. boolprop.
  destruct (time_format_parse _ Hi) as (si & -> & Hsi & Hpi).
  destruct (time_format_parse _ He) as (se & -> & Hse & Hpe).
  cbn [rbind]. eexists. split; [done|]. rewrite json_parse_print.
  - unfold dec_struct. cbn [app]. do 7 dec_step.
    etrans; [eapply dec_members_hit; [reflexivity | unfold dec_time; rewrite Hpi; reflexivity] |].
    etrans; [eapply dec_members_hit; [reflexivity | unfold dec_time; rewrite Hpe; reflexivity] |].
    by destruct st.
  - cbn [json_plain]. rewrite !forallb_app, !omit_string_plain, omit_bool_plain by done.
    cbn. repeat match goal with H : valid_utf8 _ = true |- _ => rewrite H; clear H end. done.
Qed.

(** Opening a purpose-bound state gives its plaintext; the fallback is not
    reached. *)
Lemma openState_sealed `{!AeadLaws} nonce plain secret enc :
  slen nonce = NonceSize ->
  EncryptWithPurpose (Ok nonce) plain secret PurposeOidcState = Ok enc ->
  openState enc secret = Ok (plain, false).
Proof. intros Hn He. unfold openState. by erewrite Decrypt_Encrypt_purpose. Qed.

(** What opens was sealed for the state purpose, or for none with the shape
    of a legacy state. *)
Lemma openState_Ok `{!AeadLaws} enc secret plain legacy :
  openState enc secret = Ok (plain, legacy) ->
  exists nonce, slen nonce = NonceSize
    /\ DecodeString StdEncoding enc
       = Ok (nonce +:+ gcm_Seal secret nonce plain (if legacy then "" else PurposeOidcState))
    /\ (legacy = true -> legacy_state_shape plain = true).
Proof.
  unfold openState. destruct (DecryptWithPurpose enc secret PurposeOidcState) as [p|e] eqn:E1.
  { intros [= -> <-]. apply DecryptWithPurpose_inv in E1 as (n & ? & _ & ?). by exists n. }
  destruct (Decrypt enc secret) as [p|] eqn:E2; [|done].
  destruct (legacy_state_shape p) eqn:E3; [|done]. intros [= -> <-].
  apply DecryptWithPurpose_inv in E2 as (n & ? & _ & ?). by exists n.
Qed.

(** C21: a state sealed at [now] is unsealed, with the same secret, to exactly
    the sealed fields stamped with the type tag and with the issue and expiry
    times, until ten minutes after [now]; later it is refused as expired, and
    never with another error. *)
Theorem UnsealState_SealState `{!JsonLaws, !TimeLaws, !AeadLaws} now nonce st secret sealed :
  slen nonce = NonceSize -> state_utf8 st = true -> time_ok now -> time_ok (now + stateLifetime) ->
  SealState now (Ok nonce) (Some st) secret = Ok sealed ->
  forall now', UnsealState now' sealed secret =
    if now' <=? now + stateLifetime
    then Ok (set_stamp stateTypeTag now (now + stateLifetime) st) else Err ErrStateExpired.
Proof.
  intros Hn Hu Hi He Hs now'. unfold SealState, Add in Hs.
  set (stamped := set_stamp stateTypeTag now (now + stateLifetime) st) in *.
  destruct (state_json_roundtrip stamped) as (j & Hj & Hback);
    [by unfold state_utf8 in *; boolprop; simpl; repeat (apply andb_true_iff; split) | done | done |].
  rewrite Hj in Hs. cbn [rbind] in Hs.
  apply rbind_Ok_inv in Hs as (enc & Henc & [= <-]).
  unfold UnsealState. rewrite rawurl_roundtrip. cbn [rbind].
  erewrite openState_sealed by done. cbn [rbind]. rewrite Hback. cbn [rbind negb andb].
  assert (st_Type stamped = stateTypeTag) as -> by done. rewrite String.eqb_refl. cbn [negb].
  assert (st_Expires stamped = now + stateLifetime) as -> by done.
  assert (IsZero (now + stateLifetime) = false) as ->.
  { apply Z.eqb_neq. unfold time_ok, stateLifetime, Minute, Second in *. lia. }
  unfold After. cbn [negb andb].
  destruct (Z.ltb_spec (now + stateLifetime) now'), (Z.leb_spec now' (now + stateLifetime));
    (done || lia).
Qed.

Lemma legacy_state_shape_spec plain :
  legacy_state_shape plain = true ->
  exists ms a, json_parse plain = Ok (JObj ms) /\ members_map ms !! "typ" = None
    /\ members_map ms !! "action" = Some (JStr a) /\ a <> "".
Proof.
  unfold legacy_state_shape. destruct (json_parse plain) as [j|]; cbn [rbind]; [|done].
  destruct j as [| | | | |ms]; cbn [dec_map type_error errorf]; try done.
  destruct (members_map ms !! "typ") eqn:Et; [done|].
  destruct (match members_map ms !! "expires" with Some _ => _ | None => _ end); [done|].
  destruct (members_map ms !! "action") as [a|] eqn:Ea; [|done].
  destruct a as [| | |a| |]; cbn; try done.
  destruct (String.eqb_spec a "") as [|Hne]; [done|]. intros _. by exists ms, a.
Qed.

(** C22: an accepted state is authentic and current.  Its ciphertext is a
    sealing under the secret, either for the state purpose and then carrying
    the state type tag, or (the upgrade path) for no purpose, and then the
    JSON object has no type tag and a non-empty action; and its expiry, when
    it has one, has not passed. *)
Theorem UnsealState_sound `{!AeadLaws} now sealed secret st :
  UnsealState now sealed secret = Ok st ->
  exists enc nonce plain (legacy : bool),
    DecodeString RawURLEncoding sealed = Ok enc
    /\ DecodeString StdEncoding enc
       = Ok (nonce +:+ gcm_Seal secret nonce plain (if legacy then "" else PurposeOidcState))
    /\ unmarshal_state plain = Ok st
    /\ (legacy = false -> st_Type st = stateTypeTag)
    /\ (legacy = true -> exists ms a,
          json_parse plain = Ok (JObj ms) /\ members_map ms !! "typ" = None
          /\ members_map ms !! "action" = Some (JStr a) /\ a <> "")
    /\ (st_Expires st = 0 \/ now <= st_Expires st).
Proof.
  unfold UnsealState. intros (enc & Henc & Hu)%rbind_Ok_inv.
  apply rbind_Ok_inv in Hu as ([plain legacy] & Ho & Hu).
  apply rbind_Ok_inv in Hu as (st' & Hp & Hu).
  apply openState_Ok in Ho as (nonce & _ & Hd & Hl).
  destruct (negb legacy && _) eqn:Et; [done|].
  destruct (negb (IsZero _) && _) eqn:Ee; [done|]. injection Hu as ->.
  exists enc, nonce, plain, legacy. split_and!; try done.
  - intros ->. cbn in Et. by boolprop.
  - intros ->. by apply legacy_state_shape_spec, Hl.
  - unfold IsZero, After in Ee. destruct (Z.eqb_spec (st_Expires st) 0); [by left|].
    right. cbn in Ee. boolprop. lia.
Qed.

(** A ciphertext minted for another purpose, such as a session ticket, is
    never accepted as a login state, and neither is a purpose-less one whose
    object has no action (a session ticket sealed before purposes existed). *)
Theorem UnsealState_other_purpose `{!AeadLaws, !AeadBinding} now nonce plain secret purpose t :
  slen nonce = NonceSize -> purpose <> PurposeOidcState ->
  (purpose = "" -> forall ms, json_parse plain = Ok (JObj ms) -> members_map ms !! "action" = None) ->
  EncryptWithPurpose (Ok nonce) plain secret purpose = Ok t ->
  exists e, UnsealState now (EncodeToString RawURLEncoding t) secret = Err e.
Proof.
  intros Hn Hp Hl He. unfold UnsealState. rewrite rawurl_roundtrip. cbn [rbind].
  destruct (Decrypt_other_purpose _ _ _ _ PurposeOidcState _ Hn ltac:(done) He) as [e He'].
  unfold openState. rewrite He'. destruct (decide (purpose = "")) as [->|Hne].
  - unfold Decrypt. rewrite (Decrypt_Encrypt_purpose _ _ _ _ _ Hn He).
    destruct (legacy_state_shape plain) eqn:Es; [|by exists e].
    apply legacy_state_shape_spec in Es as (ms & a & Hj & _ & Ha & _).
    by rewrite (Hl eq_refl ms Hj) in Ha.
  - destruct (Decrypt_other_purpose _ _ _ _ "" _ Hn ltac:(done) He) as [e2 He2].
    unfold Decrypt. rewrite He2. by exists e.
Qed.

End State.

(** ** Witnesses *)

Definition sample_state : OidcState := {|
  st_Action := "Login"; st_RedirectUrl := "https://app.example.com/a"; st_CodeVerifierEnc := "";
  st_Csrf := "c5f"; st_Nonce := "n0"; st_IsChallenge := false; st_Type := ""; st_IssuedAt := 0;
  st_Expires := 0 |}.

Definition sample_now : time := 63000000000 * Second.

Definition sample_sealed : string :=
  match @SealState binary_json binary_time clear_aead sample_now (Ok sample_nonce) (Some sample_state)
          sample_key with
  | Ok s => s
  | Err _ => ""
  end.

Lemma UnsealState_SealState_witness :
  @UnsealState ascii_only_unicode binary_json binary_time clear_aead
    (sample_now + 11 * Minute) sample_sealed sample_key = Err ErrStateExpired.
Proof.
  refine (eq_trans (@UnsealState_SealState ascii_only_unicode binary_json binary_time clear_aead
             binary_json_laws binary_time_laws clear_aead_laws sample_now sample_nonce sample_state
             sample_key sample_sealed _ _ _ _ _ (sample_now + 11 * Minute)) _).
  1: reflexivity. 1: vm_compute; reflexivity. 4: vm_compute; reflexivity. 3: vm_compute; reflexivity.
  all: unfold time_ok, sample_now, stateLifetime, time_limit, Minute, Second; lia.
Defined.

Lemma UnsealState_sound_witness :
  exists enc nonce plain (legacy : bool),
    DecodeString RawURLEncoding sample_sealed = Ok enc
    /\ DecodeString StdEncoding enc
       = Ok (nonce +:+ @gcm_Seal clear_aead sample_key nonce plain (if legacy then "" else PurposeOidcState)).
Proof.
  destruct (@UnsealState_sound ascii_only_unicode binary_json binary_time clear_aead
              clear_aead_laws sample_now sample_sealed sample_key
              (set_stamp stateTypeTag sample_now (sample_now + stateLifetime) sample_state))
    as (enc & nonce & plain & legacy & H1 & H2 & _); [vm_compute; reflexivity|].
  exists enc, nonce, plain, legacy. exact (conj H1 H2).
Defined.

Definition sample_ticket : string :=
  match @EncryptWithPurpose clear_aead (Ok sample_nonce) "{}" sample_key PurposeSession with
  | Ok s => s
  | Err _ => ""
  end.

Lemma UnsealState_other_purpose_witness :
  exists e, @UnsealState ascii_only_unicode binary_json binary_time clear_aead sample_now
              (EncodeToString RawURLEncoding sample_ticket) sample_key = Err e.
Proof.
  apply (@UnsealState_other_purpose ascii_only_unicode binary_json binary_time clear_aead
           clear_aead_laws clear_aead_binding sample_now sample_nonce "{}" sample_key PurposeSession);
    [reflexivity | discriminate | discriminate | vm_compute; reflexivity].
Defined.
