(* ===== verification/SessionStorage.v ===== *)
(** * The session ticket: [src/session/sessionStorage.go],
      [src/session/cookieSessionStorage.go]

    A session lives in the browser only, as a ticket: the JSON of its state
    sealed for the purpose [PurposeSession].  Its two timestamps are what the
    lifetime bounds of the middleware are measured against. *)

From Stdlib Require Import ZArith Lia Ascii String Bool List.
From S2P Require Import Prelude GoStrings Base64 GoUrl Json Http Utils Samples.

Definition ChunkSize : nat := 3072.
Definition MaxChunks : nat := 32.
Definition MaxTicketSize : nat := ChunkSize * MaxChunks.

Record SessionState := {
  ss_Id : string;
  ss_RefreshedAt : time;
  ss_AccessToken : string;
  ss_IdToken : string;
  ss_RefreshToken : string;
  ss_IsAuthorized : bool;
  ss_TokenExpiresIn : Z;
  ss_ChallengeAttempted : bool;
  ss_CreatedAt : time;
  ss_LastUsedAt : time
}.

Definition zero_session : SessionState := {|
  ss_Id := ""; ss_RefreshedAt := 0; ss_AccessToken := ""; ss_IdToken := ""; ss_RefreshToken := "";
  ss_IsAuthorized := false; ss_TokenExpiresIn := 0; ss_ChallengeAttempted := false;
  ss_CreatedAt := 0; ss_LastUsedAt := 0 |}.

(** Field updates, grouped the way the code assigns them. *)
Definition set_Id v (s : SessionState) : SessionState :=
  {| ss_Id := v; ss_RefreshedAt := ss_RefreshedAt s; ss_AccessToken := ss_AccessToken s;
     ss_IdToken := ss_IdToken s; ss_RefreshToken := ss_RefreshToken s;
     ss_IsAuthorized := ss_IsAuthorized s; ss_TokenExpiresIn := ss_TokenExpiresIn s;
     ss_ChallengeAttempted := ss_ChallengeAttempted s; ss_CreatedAt := ss_CreatedAt s;
     ss_LastUsedAt := ss_LastUsedAt s |}.
Definition set_tokens acc id ref (s : SessionState) : SessionState :=
  {| ss_Id := ss_Id s; ss_RefreshedAt := ss_RefreshedAt s; ss_AccessToken := acc;
     ss_IdToken := id; ss_RefreshToken := ref;
     ss_IsAuthorized := ss_IsAuthorized s; ss_TokenExpiresIn := ss_TokenExpiresIn s;
     ss_ChallengeAttempted := ss_ChallengeAttempted s; ss_CreatedAt := ss_CreatedAt s;
     ss_LastUsedAt := ss_LastUsedAt s |}.
Definition set_expiry refreshed expires (s : SessionState) : SessionState :=
  {| ss_Id := ss_Id s; ss_RefreshedAt := refreshed; ss_AccessToken := ss_AccessToken s;
     ss_IdToken := ss_IdToken s; ss_RefreshToken := ss_RefreshToken s;
     ss_IsAuthorized := ss_IsAuthorized s; ss_TokenExpiresIn := expires;
     ss_ChallengeAttempted := ss_ChallengeAttempted s; ss_CreatedAt := ss_CreatedAt s;
     ss_LastUsedAt := ss_LastUsedAt s |}.
Definition set_flags authorized attempted (s : SessionState) : SessionState :=
  {| ss_Id := ss_Id s; ss_RefreshedAt := ss_RefreshedAt s; ss_AccessToken := ss_AccessToken s;
     ss_IdToken := ss_IdToken s; ss_RefreshToken := ss_RefreshToken s;
     ss_IsAuthorized := authorized; ss_TokenExpiresIn := ss_TokenExpiresIn s;
     ss_ChallengeAttempted := attempted; ss_CreatedAt := ss_CreatedAt s;
     ss_LastUsedAt := ss_LastUsedAt s |}.
Definition set_times created used (s : SessionState) : SessionState :=
  {| ss_Id := ss_Id s; ss_RefreshedAt := ss_RefreshedAt s; ss_AccessToken := ss_AccessToken s;
     ss_IdToken := ss_IdToken s; ss_RefreshToken := ss_RefreshToken s;
     ss_IsAuthorized := ss_IsAuthorized s; ss_TokenExpiresIn := ss_TokenExpiresIn s;
     ss_ChallengeAttempted := ss_ChallengeAttempted s; ss_CreatedAt := created;
     ss_LastUsedAt := used |}.

Section Storage.
Context `{Unicode, JsonText, TimeText, Aead}.

Definition session_fields : list (string * (json -> SessionState -> result SessionState)) := [
  ("id", fun j s => let? v := dec_string (ss_Id s) j in Ok (set_Id v s));
  ("created_at", fun j s => let? v := dec_time (ss_RefreshedAt s) j in
                            Ok (set_expiry v (ss_TokenExpiresIn s) s));
  ("access_token", fun j s => let? v := dec_string (ss_AccessToken s) j in
                              Ok (set_tokens v (ss_IdToken s) (ss_RefreshToken s) s));
  ("id_token", fun j s => let? v := dec_string (ss_IdToken s) j in
                          Ok (set_tokens (ss_AccessToken s) v (ss_RefreshToken s) s));
  ("refresh_token", fun j s => let? v := dec_string (ss_RefreshToken s) j in
                               Ok (set_tokens (ss_AccessToken s) (ss_IdToken s) v s));
  ("is_authorized", fun j s => let? v := dec_bool (ss_IsAuthorized s) j in
                               Ok (set_flags v (ss_ChallengeAttempted s) s));
  ("token_expires_in", fun j s => let? v := dec_int (ss_TokenExpiresIn s) j in
                                  Ok (set_expiry (ss_RefreshedAt s) v s));
  ("challenge_attempted", fun j s => let? v := dec_bool (ss_ChallengeAttempted s) j in
                                     Ok (set_flags (ss_IsAuthorized s) v s));
  ("session_created_at", fun j s => let? v := dec_time (ss_CreatedAt s) j in
                                    Ok (set_times v (ss_LastUsedAt s) s));
  ("last_used_at", fun j s => let? v := dec_time (ss_LastUsedAt s) j in
                              Ok (set_times (ss_CreatedAt s) v s))
].

Definition marshal_session (s : SessionState) : result json :=
  let? refreshed := time_format (ss_RefreshedAt s) in
  let? created := time_format (ss_CreatedAt s) in
  let? used := time_format (ss_LastUsedAt s) in
  Ok (JObj [("id", JStr (ss_Id s)); ("created_at", JStr refreshed);
            ("access_token", JStr (ss_AccessToken s)); ("id_token", JStr (ss_IdToken s));
            ("refresh_token", JStr (ss_RefreshToken s)); ("is_authorized", JBool (ss_IsAuthorized s));
            ("token_expires_in", enc_int (ss_TokenExpiresIn s));
            ("challenge_attempted", JBool (ss_ChallengeAttempted s));
            ("session_created_at", JStr created); ("last_used_at", JStr used)]).

Definition unmarshal_session (plain : string) : result SessionState :=
  let? j := json_parse plain in dec_struct session_fields j zero_session.

(** [StoreSession] at the instant [now]: the caller's state with its
    timestamps updated (also when an error is returned), and the ticket. *)
Definition StoreSession (now : time) (rnd : result string) (secret : string) (state : SessionState)
  : SessionState * result string :=
  let state := if IsZero (ss_CreatedAt state) then set_times now (ss_LastUsedAt state) state else state in
  let state := set_times (ss_CreatedAt state) now state in
  (state,
   let? stateJson := marshal_session state in
   let? ticket := EncryptWithPurpose rnd (json_print stateJson) secret PurposeSession in
   if (MaxTicketSize <? slen ticket)%nat then Err ErrSessionTooLarge else Ok ticket).

(** The timestamps that [TryGetSession] fills in. *)
Definition backfill (now : time) (state : SessionState) : SessionState :=
  let state :=
    if IsZero (ss_CreatedAt state) then
      let created := ss_LastUsedAt state in
      let created := if IsZero created then now else created in
      set_times created (ss_LastUsedAt state) state
    else state in
  if IsZero (ss_LastUsedAt state) then set_times (ss_CreatedAt state) (ss_CreatedAt state) state
  else state.

Definition TryGetSession (now : time) (secret ticket : string) : result SessionState :=
  let? plain :=
    match DecryptWithPurpose ticket secret PurposeSession with
    | Ok plain => Ok plain
    | Err err =>
        match Decrypt ticket secret with
        | Ok legacyPlain => Ok legacyPlain
        | Err _ => Err err
        end
    end in
  let? state := unmarshal_session plain in
  Ok (backfill now state).

(** ** Lemmas *)

Definition session_utf8 (s : SessionState) : bool :=
  valid_utf8 (ss_Id s) && valid_utf8 (ss_AccessToken s) && valid_utf8 (ss_IdToken s)
  && valid_utf8 (ss_RefreshToken s).

(** States that [Marshal] writes without loss. *)
Record session_ok (s : SessionState) : Prop := {
  ok_utf8 : session_utf8 s = true;
  ok_refreshed : time_ok (ss_RefreshedAt s);
  ok_created : time_ok (ss_CreatedAt s);
  ok_used : time_ok (ss_LastUsedAt s);
  ok_expires : int64_range (ss_TokenExpiresIn s)
}.

Lemma session_json_roundtrip `{!JsonLaws, !TimeLaws} s :
  session_ok s ->
  exists j, marshal_session s = Ok j /\ unmarshal_session (json_print j) = Ok s.
Proof.
  intros [Hu Hr Hc Hl Hx]. unfold marshal_session, unmarshal_session, session_utf8 in *. boolprop.
  destruct (time_format_parse _ Hr) as (sr & -> & Hsr & Hpr).
  destruct (time_format_parse _ Hc) as (sc & -> & Hsc & Hpc).
  destruct (time_format_parse _ Hl) as (sl & -> & Hsl & Hpl).
  cbn [rbind]. eexists. split; [done|]. rewrite json_parse_print.
  - unfold dec_struct. dec_step.
    etrans; [eapply dec_members_hit; [reflexivity | unfold dec_time; rewrite Hpr; reflexivity] |].
    do 4 dec_step.
    etrans; [eapply dec_members_hit; [reflexivity | cbv beta; rewrite dec_enc_int by done; reflexivity] |].
    dec_step.
    etrans; [eapply dec_members_hit; [reflexivity | unfold dec_time; rewrite Hpc; reflexivity] |].
    etrans; [eapply dec_members_hit; [reflexivity | unfold dec_time; rewrite Hpl; reflexivity] |].
    by destruct s.
  - cbn [json_plain forallb fst snd]. rewrite enc_int_plain by done.
    repeat match goal with H : valid_utf8 _ = true |- _ => rewrite H; clear H end. reflexivity.
Qed.

(** The state that [StoreSession] seals. *)
Definition stamped (now : time) (s : SessionState) : SessionState :=
  set_times (if IsZero (ss_CreatedAt s) then now else ss_CreatedAt s) now s.

Lemma StoreSession_fst now rnd secret s : fst (StoreSession now rnd secret s) = stamped now s.
Proof. unfold StoreSession, stamped. by destruct (IsZero (ss_CreatedAt s)). Qed.

Lemma stamped_ok now s : session_ok (set_times 0 0 s) -> 0 < now -> time_ok now ->
  time_ok (ss_CreatedAt s) -> session_ok (stamped now s).
Proof.
  intros [? ? _ _ ?] Hn Hnow Hc. split; try done. simpl. by destruct (IsZero (ss_CreatedAt s)).
Qed.

Lemma backfill_stamped now now' s : 0 < now -> backfill now' (stamped now s) = stamped now s.
Proof.
  intros Hn. unfold backfill, stamped, IsZero. simpl.
  destruct (Z.eqb_spec (ss_CreatedAt s) 0) as [|Hc]; simpl.
  - destruct (Z.eqb_spec now 0); [lia|]. simpl. destruct (Z.eqb_spec now 0); [lia | done].
  - destruct (Z.eqb_spec (ss_CreatedAt s) 0); [done|]. simpl.
    destruct (Z.eqb_spec now 0); [lia | done].
Qed.

(** A stored ticket is the session's JSON sealed for the session purpose. *)
Lemma StoreSession_Ok now rnd secret s s' t :
  StoreSession now rnd secret s = (s', Ok t) ->
  s' = stamped now s /\ (slen t <= MaxTicketSize)%nat
  /\ exists j, marshal_session s' = Ok j
      /\ EncryptWithPurpose rnd (json_print j) secret PurposeSession = Ok t.
Proof.
  intros Hs. pose proof (StoreSession_fst now rnd secret s) as Hf. rewrite Hs in Hf. simpl in Hf.
  subst s'. split; [done|]. revert Hs. unfold StoreSession.
  replace (set_times _ now _) with (stamped now s)
    by (unfold stamped; by destruct (IsZero (ss_CreatedAt s))).
  intros [= Hs]. apply rbind_Ok_inv in Hs as (j & Hj & Hs).
  apply rbind_Ok_inv in Hs as (t' & Ht & Hs).
  destruct (Nat.ltb_spec MaxTicketSize (slen t')); [done|]. injection Hs as ->. eauto.
Qed.

Lemma TryGetSession_stored `{!JsonLaws, !TimeLaws, !AeadLaws} now now' nonce secret s s' t :
  slen nonce = NonceSize -> session_ok s -> 0 < now -> time_ok now ->
  StoreSession now (Ok nonce) secret s = (s', Ok t) -> TryGetSession now' secret t = Ok s'.
Proof.
  intros Hn Hok Hp Hnow Hs. apply StoreSession_Ok in Hs as (-> & Hlen & j & Hj & Ht).
  destruct (session_json_roundtrip (stamped now s)) as (j' & Hj' & Hback).
  { destruct Hok. by apply stamped_ok. }
  rewrite Hj in Hj'. injection Hj' as <-.
  unfold TryGetSession. erewrite Decrypt_Encrypt_purpose by done. cbn [rbind].
  rewrite Hback. cbn [rbind]. by rewrite backfill_stamped.
Qed.

(** C28: a stored session is read back, at any later instant, exactly as it
    was left in the caller's hands: last used at the instant of the store, and
    created at that instant when it had no creation time yet, and otherwise at
    the same instant as before, so storing never extends the lifetime of a
    session.  Its ticket fits the cookie budget. *)
Theorem TryGetSession_StoreSession `{!JsonLaws, !TimeLaws, !AeadLaws} now now' nonce secret s s' t :
  slen nonce = NonceSize -> session_ok s -> 0 < now -> time_ok now ->
  StoreSession now (Ok nonce) secret s = (s', Ok t) ->
  TryGetSession now' secret t = Ok s'
  /\ (slen t <= MaxTicketSize)%nat
  /\ ss_LastUsedAt s' = now
  /\ ss_CreatedAt s' = (if IsZero (ss_CreatedAt s) then now else ss_CreatedAt s).
Proof.
  intros Hn Hok Hp Hnow Hs. split; [by eapply TryGetSession_stored|].
  by apply StoreSession_Ok in Hs as (-> & Hlen & _).
Qed.

(** A session that is read has both its timestamps set. *)
Lemma backfill_dated now raw :
  now <> 0 -> ss_CreatedAt (backfill now raw) <> 0 /\ ss_LastUsedAt (backfill now raw) <> 0.
Proof.
  intros Hnow. unfold backfill, IsZero. destruct (Z.eqb_spec (ss_CreatedAt raw) 0) as [|Hc],
    (Z.eqb_spec (ss_LastUsedAt raw) 0) as [Hl|Hl]; simpl; rewrite ?Hl; simpl; try done;
    destruct (Z.eqb_spec (ss_LastUsedAt raw) 0); simpl; done.
Qed.

Lemma TryGetSession_dated now secret ticket s :
  now <> 0 -> TryGetSession now secret ticket = Ok s -> ss_CreatedAt s <> 0 /\ ss_LastUsedAt s <> 0.
Proof.
  intros Hnow. unfold TryGetSession. intros (plain & _ & Hu)%rbind_Ok_inv.
  apply rbind_Ok_inv in Hu as (raw & _ & [= <-]). by apply backfill_dated.
Qed.

(** C29: a session read from a ticket is authentic and can be bounded.  The
    ticket is a sealing, under the secret, of its JSON for the session purpose
    (or, on the upgrade path, for no purpose), and both its timestamps are
    set, so neither lifetime bound is skipped for want of one. *)
Theorem TryGetSession_sound `{!AeadLaws} now secret ticket s :
  now <> 0 -> TryGetSession now secret ticket = Ok s ->
  ss_CreatedAt s <> 0 /\ ss_LastUsedAt s <> 0
  /\ exists nonce purpose plain raw,
      (purpose = PurposeSession \/ purpose = ""%string)
      /\ DecodeString StdEncoding ticket = Ok (nonce +:+ gcm_Seal secret nonce plain purpose)
      /\ unmarshal_session plain = Ok raw /\ s = backfill now raw.
Proof.
  intros Hnow. unfold TryGetSession. intros (plain & Hd & Hu)%rbind_Ok_inv.
  apply rbind_Ok_inv in Hu as (raw & Hr & [= <-]).
  split_and!.
  3: {
    destruct (DecryptWithPurpose ticket secret PurposeSession) as [p|] eqn:E1.
    - injection Hd as ->. apply DecryptWithPurpose_inv in E1 as (n & _ & _ & ?).
      exists n, PurposeSession, plain, raw. auto.
    - destruct (Decrypt ticket secret) as [p|] eqn:E2; [|done]. injection Hd as ->.
      apply DecryptWithPurpose_inv in E2 as (n & _ & _ & ?).
      exists n, ""%string, plain, raw. auto. }
  all: by apply backfill_dated.
Qed.

(** A ciphertext minted for another non-empty purpose, such as a login
    state, is never accepted as a session. *)
Theorem TryGetSession_other_purpose `{!AeadLaws, !AeadBinding} now nonce plain secret purpose t :
  slen nonce = NonceSize -> purpose <> PurposeSession -> purpose <> ""%string ->
  EncryptWithPurpose (Ok nonce) plain secret purpose = Ok t ->
  exists e, TryGetSession now secret t = Err e.
Proof.
  intros Hn Hp Hne He. unfold TryGetSession.
  destruct (Decrypt_other_purpose _ _ _ _ PurposeSession _ Hn ltac:(done) He) as [e ->].
  destruct (Decrypt_other_purpose _ _ _ _ ""%string _ Hn ltac:(done) He) as [e2 He2].
  unfold Decrypt. rewrite He2. by exists e.
Qed.

End Storage.

(** ** Witnesses *)

Definition sample_session : SessionState := {|
  ss_Id := "7f6c"; ss_RefreshedAt := 62999999000 * Second; ss_AccessToken := "at"; ss_IdToken := "it";
  ss_RefreshToken := "rt"; ss_IsAuthorized := true; ss_TokenExpiresIn := 300;
  ss_ChallengeAttempted := false; ss_CreatedAt := 0; ss_LastUsedAt := 0 |}.

Definition session_now : time := 63000000000 * Second.

Definition stored_session : SessionState * result string :=
  @StoreSession binary_json binary_time clear_aead session_now (Ok sample_nonce) sample_key sample_session.

Definition stored_ticket : string :=
  match stored_session.2 with Ok t => t | Err _ => "" end.

Lemma sample_session_ok : session_ok sample_session.
Proof.
  split; try (vm_compute; reflexivity);
    (split; [vm_compute; congruence | vm_compute; first [reflexivity | congruence]]).
Defined.

Lemma TryGetSession_StoreSession_witness :
  @TryGetSession ascii_only_unicode binary_json binary_time clear_aead 0 sample_key stored_ticket
  = Ok (set_times session_now session_now sample_session).
Proof.
  refine (proj1 (@TryGetSession_StoreSession ascii_only_unicode binary_json binary_time clear_aead
    binary_json_laws binary_time_laws clear_aead_laws session_now 0 sample_nonce sample_key
    sample_session _ stored_ticket _ sample_session_ok _ _ _)).
  - reflexivity.
  - vm_compute. reflexivity.
  - split; [vm_compute; congruence | vm_compute; reflexivity].
  - vm_compute. reflexivity.
Defined.

Lemma TryGetSession_sound_witness :
  ss_CreatedAt (set_times session_now session_now sample_session) <> 0 /\ 0 < session_now.
Proof.
  split; [|vm_compute; reflexivity].
  refine (proj1 (@TryGetSession_sound ascii_only_unicode binary_json binary_time clear_aead
    clear_aead_laws 1 sample_key stored_ticket _ _ _)); [lia | vm_compute; reflexivity].
Defined.

Definition state_ticket : string :=
  match @EncryptWithPurpose clear_aead (Ok sample_nonce) "{}" sample_key PurposeOidcState with
  | Ok s => s
  | Err _ => ""
  end.

Lemma TryGetSession_other_purpose_witness :
  exists e, @TryGetSession ascii_only_unicode binary_json binary_time clear_aead 0 sample_key state_ticket
            = Err e.
Proof.
  apply (@TryGetSession_other_purpose ascii_only_unicode binary_json binary_time clear_aead
           clear_aead_laws clear_aead_binding 0 sample_nonce "{}" sample_key PurposeOidcState);
    [reflexivity | discriminate | discriminate | vm_compute; reflexivity].
Defined.
