(* ===== verification/Jwks.v ===== *)
(** * Signing keys of the provider: [src/oidc/jwks.go]

    The handler caches the provider's public keys; it reloads them when it has
    none, when they are old, and on demand, and keeps the cached ones when a
    reload fails.  [Keyfunc] chooses the key a token is verified with. *)

From Stdlib Require Import ZArith Lia Ascii String Bool List.
From S2P Require Import Prelude GoStrings Base64 GoUrl Json Http Utils Samples World.

Definition reloadFailureBackoff : duration := Minute.
Definition maxJwksBodySize : nat := Nat.shiftl 4 20.
Definition maxErrorExcerpt : nat := 512.

(** ** Keys *)

Inductive curve := P224 | P256 | P384 | P521.

Record JwksKey := {
  jk_Crv : string;
  jk_E : string;
  jk_Kid : string;
  jk_Kty : string;
  jk_N : string;
  jk_Use : string;
  jk_X : string;
  jk_Y : string
}.

Record RsaKey := { rk_kid : string; rk_N : Z; rk_E : Z }.
Record EcdsaKey := { ek_kid : string; ek_Curve : curve; ek_X : Z; ek_Y : Z }.

Record JwksHandler := {
  jh_Url : string;
  jh_RsaKeys : list RsaKey;
  jh_EcdsaKeys : list EcdsaKey;
  jh_CacheDate : time;
  jh_lastReloadError : time
}.

Definition getEllipticCurve (crv : string) : option curve :=
  if String.eqb crv "P-224" then Some P224
  else if String.eqb crv "P-256" then Some P256
  else if String.eqb crv "P-384" then Some P384
  else if String.eqb crv "P-521" then Some P521
  else None.

Definition extractRsaKey (key : JwksKey) : result RsaKey :=
  let? decodedN := ParseBigInt (jk_N key) in
  let? decodedE := ParseInt (jk_E key) in
  Ok {| rk_kid := jk_Kid key; rk_N := decodedN; rk_E := decodedE |}.

Definition extractEcdsaKey (key : JwksKey) : result EcdsaKey :=
  let? decodedX := ParseBigInt (jk_X key) in
  let? decodedY := ParseBigInt (jk_Y key) in
  match getEllipticCurve (jk_Crv key) with
  | None => errorf "unsupported or empty elliptic curve"
  | Some c => Ok {| ek_kid := jk_Kid key; ek_Curve := c; ek_X := decodedX; ek_Y := decodedY |}
  end.

(** The loop of [extractKeys] with its two accumulators. *)
Fixpoint extract_loop (keys : list JwksKey) (rsa : list RsaKey) (ec : list EcdsaKey)
  : list RsaKey * list EcdsaKey :=
  match keys with
  | [] => (rsa, ec)
  | k :: rest =>
      if String.eqb (jk_Use k) "sig" || String.eqb (jk_Use k) "" then
        if String.eqb (jk_Kty k) "RSA" then
          match extractRsaKey k with
          | Ok x => extract_loop rest (rsa ++ [x]) ec
          | Err _ => extract_loop rest rsa ec
          end
        else if String.eqb (jk_Kty k) "EC" then
          match extractEcdsaKey k with
          | Ok x => extract_loop rest rsa (ec ++ [x])
          | Err _ => extract_loop rest rsa ec
          end
        else extract_loop rest rsa ec
      else extract_loop rest rsa ec
  end.

Definition extractKeys (keys : list JwksKey) : result (list RsaKey * list EcdsaKey) :=
  let '(rsa, ec) := extract_loop keys [] [] in
  if (length ec =? 0)%nat && (length rsa =? 0)%nat then errorf "no public Keys found"
  else Ok (rsa, ec).

(** ** Choosing a key *)

Definition allowedAlgorithms : gset string :=
  list_to_set ["RS256"; "RS384"; "RS512"; "PS256"; "PS384"; "PS512"; "ES256"; "ES384"; "ES512"].

(** [AllowedAlgorithms]: the sorted members of the set. *)
Definition AllowedAlgorithms : list string :=
  ["ES256"; "ES384"; "ES512"; "PS256"; "PS384"; "PS512"; "RS256"; "RS384"; "RS512"].

Inductive PublicKey := RsaPublic (k : RsaKey) | EcdsaPublic (k : EcdsaKey).

(** A parsed token: the name of its signing method, if it has one, and its
    header. *)
Record Token := { t_Alg : option string; t_Header : gmap string json }.

Fixpoint getRsaKey (keys : list RsaKey) (kid : string) : result RsaKey :=
  match keys with
  | [] => errorf "unknown kid"
  | k :: rest => if String.eqb kid (rk_kid k) then Ok k else getRsaKey rest kid
  end.

Fixpoint getEcdsaKey (keys : list EcdsaKey) (kid : string) : result EcdsaKey :=
  match keys with
  | [] => errorf "unknown kid"
  | k :: rest => if String.eqb kid (ek_kid k) then Ok k else getEcdsaKey rest kid
  end.

Definition header_kid (token : Token) : result string :=
  match t_Header token !! "kid" with
  | Some (JStr kid) =>
      if String.eqb kid "" then errorf "missing or invalid kid in token header" else Ok kid
  | _ => errorf "missing or invalid kid in token header"
  end.

Section Keys.
Context `{Unicode}.

Definition isAlgorithmAllowed (alg : string) : bool := bool_decide (ToUpper alg ∈ allowedAlgorithms).

Definition Keyfunc (h : JwksHandler) (token : Token) : result PublicKey :=
  match t_Alg token with
  | None => errorf "token has no signing method"
  | Some method =>
      if negb (isAlgorithmAllowed method) then errorf "unsupported algorithm"
      else
        let alg := ToUpper method in
        if slice_contains ["RS256"; "RS384"; "RS512"; "PS256"; "PS384"; "PS512"] alg then
          let? kid := header_kid token in
          let? k := getRsaKey (jh_RsaKeys h) kid in
          Ok (RsaPublic k)
        else if slice_contains ["ES256"; "ES384"; "ES512"] alg then
          let? kid := header_kid token in
          let? k := getEcdsaKey (jh_EcdsaKeys h) kid in
          Ok (EcdsaPublic k)
        else errorf "unsupported algorithm"
  end.
End Keys.

(** ** Loading *)

Definition hasKeys (h : JwksHandler) : bool :=
  (0 <? length (jh_RsaKeys h))%nat || (0 <? length (jh_EcdsaKeys h))%nat.

Definition needsReload (h : JwksHandler) (now : time) (forceReload : bool) : bool :=
  let maxCacheTimeout := Add now (- (6 * Hour)) in
  let minCacheTimeout := Add now (- (5 * Minute)) in
  let reload := negb (hasKeys h) in
  let reload := if Before (jh_CacheDate h) maxCacheTimeout then true else reload in
  let reload := if forceReload && Before (jh_CacheDate h) minCacheTimeout then true else reload in
  if reload && negb (IsZero (jh_lastReloadError h))
     && (Sub now (jh_lastReloadError h) <? reloadFailureBackoff) && hasKeys h
  then false else reload.

Definition excerptForError (body : string) : string :=
  if (maxErrorExcerpt <? slen body)%nat
  then stake maxErrorExcerpt body +:+ "...(truncated)" else body.

Section Loading.
Context `{Unicode, JsonText, UrlLib, External}.

Definition zero_key : JwksKey := {|
  jk_Crv := ""; jk_E := ""; jk_Kid := ""; jk_Kty := ""; jk_N := ""; jk_Use := ""; jk_X := ""; jk_Y := "" |}.

Definition key_fields : list (string * (json -> JwksKey -> result JwksKey)) :=
  let on (f : JwksKey -> string) (g : string -> JwksKey -> JwksKey) j k :=
    let? v := dec_string (f k) j in Ok (g v k) in
  [ ("crv", on jk_Crv (fun v k => {| jk_Crv := v; jk_E := jk_E k; jk_Kid := jk_Kid k; jk_Kty := jk_Kty k;
       jk_N := jk_N k; jk_Use := jk_Use k; jk_X := jk_X k; jk_Y := jk_Y k |}));
    ("e", on jk_E (fun v k => {| jk_Crv := jk_Crv k; jk_E := v; jk_Kid := jk_Kid k; jk_Kty := jk_Kty k;
       jk_N := jk_N k; jk_Use := jk_Use k; jk_X := jk_X k; jk_Y := jk_Y k |}));
    ("kid", on jk_Kid (fun v k => {| jk_Crv := jk_Crv k; jk_E := jk_E k; jk_Kid := v; jk_Kty := jk_Kty k;
       jk_N := jk_N k; jk_Use := jk_Use k; jk_X := jk_X k; jk_Y := jk_Y k |}));
    ("kty", on jk_Kty (fun v k => {| jk_Crv := jk_Crv k; jk_E := jk_E k; jk_Kid := jk_Kid k; jk_Kty := v;
       jk_N := jk_N k; jk_Use := jk_Use k; jk_X := jk_X k; jk_Y := jk_Y k |}));
    ("n", on jk_N (fun v k => {| jk_Crv := jk_Crv k; jk_E := jk_E k; jk_Kid := jk_Kid k; jk_Kty := jk_Kty k;
       jk_N := v; jk_Use := jk_Use k; jk_X := jk_X k; jk_Y := jk_Y k |}));
    ("use", on jk_Use (fun v k => {| jk_Crv := jk_Crv k; jk_E := jk_E k; jk_Kid := jk_Kid k; jk_Kty := jk_Kty k;
       jk_N := jk_N k; jk_Use := v; jk_X := jk_X k; jk_Y := jk_Y k |}));
    ("x", on jk_X (fun v k => {| jk_Crv := jk_Crv k; jk_E := jk_E k; jk_Kid := jk_Kid k; jk_Kty := jk_Kty k;
       jk_N := jk_N k; jk_Use := jk_Use k; jk_X := v; jk_Y := jk_Y k |}));
    ("y", on jk_Y (fun v k => {| jk_Crv := jk_Crv k; jk_E := jk_E k; jk_Kid := jk_Kid k; jk_Kty := jk_Kty k;
       jk_N := jk_N k; jk_Use := jk_Use k; jk_X := jk_X k; jk_Y := v |})) ].

Fixpoint dec_keys (l : list json) : result (list JwksKey) :=
  match l with
  | [] => Ok []
  | j :: rest =>
      let? k := dec_struct key_fields j zero_key in
      let? ks := dec_keys rest in
      Ok (k :: ks)
  end.

(** [JwksKeys]: the only field is the list of keys. *)
Definition jwks_fields : list (string * (json -> list JwksKey -> result (list JwksKey))) :=
  [ ("keys", fun j old => match j with
                          | JArr l => dec_keys l
                          | JNull => Ok []
                          | _ => type_error
                          end) ].

Definition unmarshal_jwks (body : string) : result (list JwksKey) :=
  let? j := json_parse body in dec_struct jwks_fields j [].

Definition loadKeys : M JwksHandler (result unit) :=
  h ← get;
  let! req := lift (NewRequest "GET" (jh_Url h) [] "") in
  let! resp := client_Do req in
  let! body := lift (read_limited (S maxJwksBodySize) resp) in
  if negb (p_Status resp =? StatusOK)
  then lift (errorf ("JWKS request returned a bad status: " +:+ excerptForError body))
  else
    let! loaded := lift (unmarshal_jwks body) in
    let! (rsaKeys, ecdsaKeys) := lift (extractKeys loaded) in
    now ← time_Now;
    _ ← modify (fun h => {| jh_Url := jh_Url h; jh_RsaKeys := rsaKeys; jh_EcdsaKeys := ecdsaKeys;
                            jh_CacheDate := now; jh_lastReloadError := 0 |});
    lift (Ok tt).

(** [EnsureLoadedContext] run alone: the second test of [needsReload], made
    after waiting for the reload lock, reads the clock again. *)
Definition EnsureLoaded (forceReload : bool) : M JwksHandler (result unit) :=
  now ← time_Now;
  h ← get;
  if negb (needsReload h now forceReload) then mret (Ok tt)
  else
    now ← time_Now;
    h ← get;
    let hasKeys := hasKeys h in
    if negb (needsReload h now forceReload) then mret (Ok tt)
    else
      err ← loadKeys;
      match err with
      | Ok _ => mret (Ok tt)
      | Err e =>
          if hasKeys then
            now ← time_Now;
            _ ← modify (fun h => {| jh_Url := jh_Url h; jh_RsaKeys := jh_RsaKeys h;
                                    jh_EcdsaKeys := jh_EcdsaKeys h; jh_CacheDate := jh_CacheDate h;
                                    jh_lastReloadError := now |});
            mret (Ok tt)
          else mret (Err e)
      end.

End Loading.

(** ** Lemmas *)

Lemma AllowedAlgorithms_spec alg : alg ∈ AllowedAlgorithms <-> alg ∈ allowedAlgorithms.
Proof.
  unfold AllowedAlgorithms, allowedAlgorithms. rewrite elem_of_list_to_set, !elem_of_cons. tauto.
Qed.

Lemma header_kid_Ok token kid :
  header_kid token = Ok kid <-> t_Header token !! "kid" = Some (JStr kid) /\ kid <> "".
Proof.
  unfold header_kid, errorf. destruct (t_Header token !! "kid") as [[| | |s| |]|];
    try (split; [done | by intros [? ?]]).
  destruct (String.eqb_spec s "") as [->|Hne].
  - split; [done|]. intros [[= <-] []]; done.
  - split; [intros [= <-]; done | by intros [[= <-] _]].
Qed.

Lemma getRsaKey_Ok keys kid k : getRsaKey keys kid = Ok k -> k ∈ keys /\ rk_kid k = kid.
Proof.
  induction keys as [|x keys IH]; simpl; [done|].
  destruct (String.eqb_spec kid (rk_kid x)) as [->|_].
  - intros [= ->]. split; [by left | done].
  - intros [? ?]%IH. split; [by right | done].
Qed.

Lemma getEcdsaKey_Ok keys kid k : getEcdsaKey keys kid = Ok k -> k ∈ keys /\ ek_kid k = kid.
Proof.
  induction keys as [|x keys IH]; simpl; [done|].
  destruct (String.eqb_spec kid (ek_kid x)) as [->|_].
  - intros [= ->]. split; [by left | done].
  - intros [? ?]%IH. split; [by right | done].
Qed.

Lemma hasKeys_spec h : hasKeys h = true <-> jh_RsaKeys h <> [] \/ jh_EcdsaKeys h <> [].
Proof.
  unfold hasKeys. rewrite orb_true_iff, !Nat.ltb_lt.
  destruct (jh_RsaKeys h), (jh_EcdsaKeys h); simpl; split; try (intros _; first [by left | by right]);
    try (intros [|]; lia); by intros [[] | []].
Qed.

Lemma extractKeys_nonempty loaded rsa ec :
  extractKeys loaded = Ok (rsa, ec) -> rsa <> [] \/ ec <> [].
Proof.
  unfold extractKeys. destruct (extract_loop loaded [] []) as [r c].
  destruct r, c; simpl; try done; intros [= <- <-]; auto; by (left + right).
Qed.

(** The reference reading of a document: the usable keys of each family, in
    order. *)
Definition for_signing (k : JwksKey) : bool :=
  String.eqb (jk_Use k) "sig" || String.eqb (jk_Use k) "".
Definition rsa_of (k : JwksKey) : option RsaKey :=
  if for_signing k && String.eqb (jk_Kty k) "RSA"
  then match extractRsaKey k with Ok x => Some x | Err _ => None end else None.
Definition ecdsa_of (k : JwksKey) : option EcdsaKey :=
  if for_signing k && String.eqb (jk_Kty k) "EC"
  then match extractEcdsaKey k with Ok x => Some x | Err _ => None end else None.

Lemma extract_loop_omap keys rsa ec :
  extract_loop keys rsa ec = (rsa ++ omap rsa_of keys, ec ++ omap ecdsa_of keys).
Proof.
  revert rsa ec. induction keys as [|k keys IH]; intros rsa ec; cbn [extract_loop omap list_omap].
  { by rewrite !app_nil_r. }
  unfold rsa_of at 1, ecdsa_of at 1. fold (for_signing k).
  destruct (for_signing k); cbn [andb]; [|apply IH].
  destruct (String.eqb_spec (jk_Kty k) "RSA") as [->|_]; cbn [String.eqb Ascii.eqb Bool.eqb].
  - destruct (extractRsaKey k); rewrite IH; by rewrite <- ?app_assoc.
  - destruct (String.eqb (jk_Kty k) "EC"); [|apply IH].
    destruct (extractEcdsaKey k); rewrite IH; by rewrite <- ?app_assoc.
Qed.

(** The keys taken from a document are exactly its usable keys, in order:
    those for signatures (or for an unstated use) that decode, elliptic-curve
    keys only on a supported curve; unusable keys are skipped, and a document
    without any usable key is an error. *)
Theorem extractKeys_spec loaded rsa ec :
  extractKeys loaded = Ok (rsa, ec)
  <-> rsa = omap rsa_of loaded /\ ec = omap ecdsa_of loaded /\ (rsa <> [] \/ ec <> []).
Proof.
  unfold extractKeys. rewrite extract_loop_omap. cbn [app].
  set (rs := omap rsa_of loaded). set (es := omap ecdsa_of loaded).
  destruct (decide (rs = [] /\ es = [])) as [[-> ->]|Hne].
  { cbn. split; [done|]. intros (-> & -> & []); done. }
  replace ((length es =? 0)%nat && (length rs =? 0)%nat) with false.
  - split; [intros [= <- <-] | by intros (-> & -> & _)]. split; [done|]. split; [done|].
    destruct rs; [right; naive_solver | by left].
  - symmetry. apply andb_false_iff. rewrite !Nat.eqb_neq.
    destruct es; [right | by left]. destruct rs; [naive_solver | done].
Qed.

Section Properties.
Context `{Unicode, JsonText, UrlLib, External}.

(** C32: the key a token is verified with is chosen by an allowed signature
    algorithm and a non-empty key id, is a cached key with that id, and is of
    the family of the algorithm: an elliptic-curve key is never handed to an
    RSA verifier nor the reverse, and unsigned tokens get no key. *)
Theorem Keyfunc_sound h token k :
  Keyfunc h token = Ok k ->
  exists alg kid,
    t_Alg token = Some alg /\ ToUpper alg ∈ AllowedAlgorithms
    /\ t_Header token !! "kid" = Some (JStr kid) /\ kid <> ""
    /\ match k with
       | RsaPublic x => x ∈ jh_RsaKeys h /\ rk_kid x = kid
                        /\ ToUpper alg ∈ ["RS256"; "RS384"; "RS512"; "PS256"; "PS384"; "PS512"]
       | EcdsaPublic x => x ∈ jh_EcdsaKeys h /\ ek_kid x = kid
                          /\ ToUpper alg ∈ ["ES256"; "ES384"; "ES512"]
       end.
Proof.
  unfold Keyfunc, errorf. destruct (t_Alg token) as [alg|]; [|done].
  unfold isAlgorithmAllowed. destruct (bool_decide_reflect (ToUpper alg ∈ allowedAlgorithms))
    as [Ha|]; [|done]. cbn [negb]. apply AllowedAlgorithms_spec in Ha.
  destruct (slice_contains _ _) eqn:E1.
  - intros (kid & Hk & Hg)%rbind_Ok_inv. apply rbind_Ok_inv in Hg as (x & Hx & [= <-]).
    apply header_kid_Ok in Hk as [? ?]. apply getRsaKey_Ok in Hx as [? ?].
    apply slice_contains_spec in E1. by exists alg, kid.
  - clear E1. destruct (slice_contains _ _) eqn:E2; [|done].
    intros (kid & Hk & Hg)%rbind_Ok_inv. apply rbind_Ok_inv in Hg as (x & Hx & [= <-]).
    apply header_kid_Ok in Hk as [? ?]. apply getEcdsaKey_Ok in Hx as [? ?].
    apply slice_contains_spec in E2. by exists alg, kid.
Qed.

(** The request a reload makes, and the keys of a good answer to it. *)
Definition jwks_request (h : JwksHandler) : HttpRequest :=
  {| q_Method := "GET"; q_Url := jh_Url h; q_Header := []; q_Body := "" |}.

Definition fetched (e : Env) (h : JwksHandler) (rsa : list RsaKey) (ec : list EcdsaKey) : Prop :=
  exists resp body loaded,
    http_Do (e_calls e) (jwks_request h) = Ok resp /\ p_Status resp = StatusOK
    /\ read_limited (S maxJwksBodySize) resp = Ok body
    /\ unmarshal_jwks body = Ok loaded /\ extractKeys loaded = Ok (rsa, ec).

(** A reload makes at most one request and either leaves the handler alone
    with an error, or installs the fetched keys. *)
Lemma loadKeys_spec e h :
  runs loadKeys e h (fun r e' h' =>
    (e_calls e' = e_calls e \/ e_calls e' = e_calls e ++ [jwks_request h])
    /\ jh_Url h' = jh_Url h
    /\ match r with
       | Err _ => h' = h
       | Ok _ => fetched e h (jh_RsaKeys h') (jh_EcdsaKeys h') /\ jh_lastReloadError h' = 0
       end).
Proof.
  unfold loadKeys, NewRequest. m_steps.
  destruct (url_Parse (jh_Url h)) as [u|]; cbn [rbind]; m_steps; [|auto].
  change {| q_Method := "GET"; q_Url := jh_Url h; q_Header := []; q_Body := "" |} with (jwks_request h).
  destruct (http_Do (e_calls e) (jwks_request h)) as [resp|] eqn:Edo; m_steps; [|auto].
  destruct (read_limited _ resp) as [body|] eqn:Eb; m_steps; [|auto].
  destruct (Z.eqb_spec (p_Status resp) StatusOK) as [Hst|]; cbn [negb]; m_steps; [|cbn; auto].
  destruct (unmarshal_jwks body) as [loaded|] eqn:El; m_steps; [|auto].
  destruct (extractKeys loaded) as [[rsa ec]|] eqn:Ex; m_steps; [|auto].
  split; [by right|]. split; [done|]. split; [|done]. by exists resp, body, loaded.
Qed.

(** A use of the keys by another component only needs that loading ends. *)
Lemma EnsureLoaded_runs force e h : runs (EnsureLoaded force) e h (fun _ _ _ => True).
Proof.
  unfold EnsureLoaded. by wp.
Qed.

(** Loading keys never loses keys.  A handler that has keys still has keys
    afterwards and reports success, whatever the provider answers; success
    means that there are keys; at most one request is made, to the handler's
    own URL; and the keys afterwards are the cached ones or those of a
    successful answer to that request. *)
Theorem EnsureLoaded_keeps_keys force e h :
  runs (EnsureLoaded force) e h (fun r e' h' =>
    (hasKeys h = true -> r = Ok tt)
    /\ (r = Ok tt -> hasKeys h' = true)
    /\ (e_calls e' = e_calls e \/ e_calls e' = e_calls e ++ [jwks_request h])
    /\ jh_Url h' = jh_Url h
    /\ ((jh_RsaKeys h' = jh_RsaKeys h /\ jh_EcdsaKeys h' = jh_EcdsaKeys h)
        \/ exists e1, e_calls e1 = e_calls e /\ fetched e1 h (jh_RsaKeys h') (jh_EcdsaKeys h'))).
Proof.
  assert (forall now, needsReload h now force = false -> hasKeys h = true) as Hno.
  { intros now. unfold needsReload. destruct (hasKeys h); [done|].
    rewrite !andb_false_r. cbn [negb]. by repeat case_match. }
  unfold EnsureLoaded. m_steps.
  destruct (needsReload h (clock (e_ticks e)) force) eqn:E1; cbn [negb]; m_steps; [|eauto 10].
  destruct (needsReload h _ force) eqn:E2 in |- *; cbn [negb]; m_steps; [|eauto 10].
  m_call loadKeys_spec.
  intros r e' h' (Hcalls & Hu & Hr). destruct r as [[]|err]; m_steps.
  - destruct Hr as [Hf _]. split_and!; try done.
    + intros _. apply hasKeys_spec. destruct Hf as (? & ? & ? & _ & _ & _ & _ & Hx).
      by eapply extractKeys_nonempty.
    + right. by eexists; split; [|exact Hf].
  - subst h'. destruct (hasKeys h) eqn:Eh; m_steps; split_and!; auto; done.
Qed.

(** After a failed reload the provider is left alone for a minute: as
    long as there are cached keys, every call within that time, forced or not
    and however old the keys are, succeeds without a request and without
    changing the cache. *)
Theorem EnsureLoaded_backoff force e h :
  hasKeys h = true -> jh_lastReloadError h <> 0 ->
  clock (e_ticks e) - jh_lastReloadError h < reloadFailureBackoff ->
  exists e', EnsureLoaded force e h = Some (Ok tt, e', h) /\ e_calls e' = e_calls e.
Proof.
  intros Hk Hl Hb. unfold EnsureLoaded, mbind, M_bind, time_Now, get.
  assert (needsReload h (clock (e_ticks e)) force = false) as ->.
  { unfold needsReload, IsZero, Sub. rewrite Hk. cbn [negb].
    destruct (Z.eqb_spec (jh_lastReloadError h) 0); [done|]. cbn [negb].
    assert (sat64 (clock (e_ticks e) - jh_lastReloadError h) <? reloadFailureBackoff = true) as ->.
    { apply Z.ltb_lt. unfold sat64, reloadFailureBackoff, Minute, Second, int64_min, int64_max in *. lia. }
    rewrite !andb_true_r. by destruct (if _ && _ then true else _). }
  eexists. split; [reflexivity|]. done.
Qed.

End Properties.

(** ** The cache in the course of a computation *)

Section Reloading.
Context `{Unicode, JsonText, UrlLib, External}.

(** What the cache may have become between two moments: it stays as it is, or
    it is loaded by runs of [EnsureLoaded] in between, one after the other. *)
Inductive reloaded : Env -> JwksHandler -> Env -> JwksHandler -> Prop :=
| reloaded_not e e' h : elapsed e e' -> reloaded e h e' h
| reloaded_by force e h e1 r e2 h2 e' h' :
    elapsed e e1 -> EnsureLoaded force e1 h = Some (r, e2, h2) -> reloaded e2 h2 e' h' ->
    reloaded e h e' h'.

Lemma EnsureLoaded_passing force : respects passing (EnsureLoaded force).
Proof.
  unfold EnsureLoaded, loadKeys. go_respects; by apply respects_modify.
Qed.

Lemma reloaded_elapsed e h e' h' : reloaded e h e' h' -> elapsed e e'.
Proof.
  induction 1 as [|force e h e1 r e2 h2 e' h' He Hr _ IH]; [done|].
  pose proof (EnsureLoaded_passing force e1 h) as Hp. unfold outcome in Hp. rewrite Hr in Hp.
  etrans; [exact He|]. by etrans.
Qed.

Lemma reloaded_trans e1 h1 e2 h2 e3 h3 : reloaded e1 h1 e2 h2 -> reloaded e2 h2 e3 h3 -> reloaded e1 h1 e3 h3.
Proof.
  induction 1 as [e e' h He | force e h e1 r e2 h2 e' h' He1 Hr _ IH]; intros H23.
  - destruct H23; [apply reloaded_not | eapply reloaded_by; [| done..]]; by etrans.
  - eapply reloaded_by; eauto.
Qed.

#[export] Instance reloaded_passage : Passage reloaded.
Proof.
  split; [|apply reloaded_trans|..]; intros; apply reloaded_not; [done|..]; auto with toa.
Qed.

Lemma EnsureLoaded_reloaded force : respects reloaded (EnsureLoaded force).
Proof.
  intros e h. pose proof (EnsureLoaded_runs force e h) as Hr. unfold outcome in *.
  destruct EnsureLoaded as [[[r e'] h']|] eqn:E; [|done].
  eapply reloaded_by; [reflexivity | exact E | by apply reloaded_not].
Qed.
End Reloading.

(** ** Witnesses *)

Definition sample_handler : JwksHandler := {|
  jh_Url := "https://idp.example.com/jwks"; jh_RsaKeys := [{| rk_kid := "k1"; rk_N := 3233; rk_E := 17 |}];
  jh_EcdsaKeys := [{| ek_kid := "k1"; ek_Curve := P256; ek_X := 1; ek_Y := 2 |}];
  jh_CacheDate := 0; jh_lastReloadError := still_now - 30 * Second |}.

Definition sample_token : Token :=
  {| t_Alg := Some "ES256"; t_Header := {["kid" := JStr "k1"]} |}.

Lemma Keyfunc_sound_witness :
  exists k alg kid,
    @Keyfunc ascii_only_unicode sample_handler sample_token = Ok k
    /\ t_Alg sample_token = Some alg /\ t_Header sample_token !! "kid" = Some (JStr kid).
Proof.
  assert (@Keyfunc ascii_only_unicode sample_handler sample_token
          = Ok (EcdsaPublic {| ek_kid := "k1"; ek_Curve := P256; ek_X := 1; ek_Y := 2 |})) as Hk
    by (vm_compute; reflexivity).
  destruct (@Keyfunc_sound ascii_only_unicode _ _ _ Hk) as (alg & kid & Ha & _ & Hkid & _).
  exact (ex_intro _ _ (ex_intro _ alg (ex_intro _ kid (conj Hk (conj Ha Hkid))))).
Defined.

Lemma EnsureLoaded_backoff_witness :
  exists e', @EnsureLoaded ascii_only_unicode binary_json path_urls still_world true start sample_handler
             = Some (Ok tt, e', sample_handler) /\ e_calls e' = [].
Proof.
  apply (@EnsureLoaded_backoff ascii_only_unicode binary_json path_urls still_world true start
           sample_handler); [reflexivity | discriminate | reflexivity].
Defined.

(** The token says RSA, the provider has no RSA key of that id: no key. *)
Example no_key_confusion :
  @Keyfunc ascii_only_unicode
    {| jh_Url := ""; jh_RsaKeys := []; jh_EcdsaKeys := jh_EcdsaKeys sample_handler;
       jh_CacheDate := 0; jh_lastReloadError := 0 |}
    {| t_Alg := Some "RS256"; t_Header := {["kid" := JStr "k1"]} |} = errorf "unknown kid".
Proof. vm_compute. reflexivity. Qed.
