(* ===== verification/Cookies.v ===== *)
(** * Cookies: [src/cookie.go] and [createSessionCookie] of [src/session.go]

    The session ticket is stored in one cookie, or in numbered chunk cookies
    behind a count cookie.  The count and the names come back from the client
    and are untrusted. *)

From Stdlib Require Import ZArith Lia Ascii String Bool List.
From S2P Require Import Prelude GoStrings Base64 GoUrl Http Utils Config.

Definition SessionCookieChunkSize : nat := 3072.
Definition MaxSessionCookieChunks : nat := 32.
Definition MaxSessionCookieSize : nat := SessionCookieChunkSize * MaxSessionCookieChunks.
Definition maxLegacyCookiesToExpire : nat := 32.
Definition loginCsrfMaxAge : Z := 600.

(** ** Attributes *)

Definition parseCookieSameSiteChecked (sameSite : string) : SameSite * option error :=
  if String.eqb sameSite "none" then (SameSiteNoneMode, None)
  else if String.eqb sameSite "lax" then (SameSiteLaxMode, None)
  else if String.eqb sameSite "strict" then (SameSiteStrictMode, None)
  else if String.eqb sameSite "" || String.eqb sameSite "default" then (SameSiteDefaultMode, None)
  else (SameSiteLaxMode, Some (ErrText "unknown session cookie same_site value")).

Definition parseCookieSameSite (sameSite : string) : SameSite :=
  let '(mode, err) := parseCookieSameSiteChecked sameSite in
  match err with Some _ => SameSiteLaxMode | None => mode end.

Definition makeCookieExpireImmediately (now : time) (c : Cookie) : Cookie :=
  {| c_Name := c_Name c; c_Value := c_Value c; c_Path := c_Path c; c_Domain := c_Domain c;
     c_Expires := Add now (- (24 * Hour)); c_MaxAge := -1; c_Secure := c_Secure c;
     c_HttpOnly := c_HttpOnly c; c_SameSite := c_SameSite c |}.

Definition makeCookieName (cfg : Config) (name : string) : string :=
  CookieNamePrefix cfg +:+ "." +:+ name.
Definition getCodeVerifierCookieName (cfg : Config) : string := makeCookieName cfg "CodeVerifier".
Definition getLoginCsrfCookieName (cfg : Config) (csrf : string) : string :=
  makeCookieName cfg ("LoginCsrf." +:+ csrf).
Definition getSessionCookieName (cfg : Config) : string := makeCookieName cfg "Session".

(** The session cookie without name suffix and value; a nil [SessionCookie] is
    dereferenced. *)
Definition createSessionCookie (cfg : Config) : result Cookie :=
  match SessionCookie cfg with
  | None => Err ErrPanic
  | Some sc =>
      Ok {| c_Name := getSessionCookieName cfg; c_Value := ""; c_Path := sc_Path sc;
            c_Domain := sc_Domain sc; c_Expires := 0; c_MaxAge := sc_MaxAge sc;
            c_Secure := sc_Secure sc; c_HttpOnly := sc_HttpOnly sc;
            c_SameSite := (parseCookieSameSiteChecked (sc_SameSite sc)).1 |}
  end.

Definition with_name_value (n v : string) (c : Cookie) : Cookie :=
  {| c_Name := n; c_Value := v; c_Path := c_Path c; c_Domain := c_Domain c;
     c_Expires := c_Expires c; c_MaxAge := c_MaxAge c; c_Secure := c_Secure c;
     c_HttpOnly := c_HttpOnly c; c_SameSite := c_SameSite c |}.

(** ** Chunked cookies *)

Definition count_name (cookieName : string) : string := cookieName +:+ ".Chunks".

(** [fmt.Sprintf("%s.%d", cookieName, i+1)] for the chunk of index [i]. *)
Definition chunk_name (cookieName : string) (i : nat) : string :=
  cookieName +:+ "." +:+ Itoa (Z.of_nat i + 1).

(** The loop that emits the chunks from index [i] on. *)
Fixpoint set_chunks (base : Cookie) (cookieName : string) (i : nat) (chunks : list string)
  (rw : Response) : Response :=
  match chunks with
  | [] => rw
  | chunk :: rest =>
      set_chunks base cookieName (S i) rest
        (SetCookie (with_name_value (chunk_name cookieName i) chunk base) rw)
  end.

Definition setChunkedCookies (cfg : Config) (rw : Response) (cookieName cookieValue : string)
  : result Response :=
  let cookieChunks := ChunkString cookieValue SessionCookieChunkSize in
  let cookieChunks :=
    if (MaxSessionCookieChunks <? length cookieChunks)%nat
    then take MaxSessionCookieChunks cookieChunks else cookieChunks in
  let? baseCookie := createSessionCookie cfg in
  if (length cookieChunks =? 1)%nat
  then Ok (SetCookie (with_name_value cookieName cookieValue baseCookie) rw)
  else
    let rw := SetCookie (with_name_value (count_name cookieName)
                           (Itoa (Z.of_nat (length cookieChunks))) baseCookie) rw in
    Ok (set_chunks baseCookie cookieName 0 cookieChunks rw).

Definition getChunkedCookieCount (req : Request) (cookieName : string) : result Z :=
  match req_Cookie req (count_name cookieName) with
  | Err ErrNoCookie => Ok 0
  | Err e => Err e
  | Ok value =>
      match Atoi value with
      | None => errorf "invalid chunk count cookie"
      | Some chunkCount =>
          if (chunkCount <? 0) || (Z.of_nat MaxSessionCookieChunks <? chunkCount)
          then errorf "chunk count cookie out of range"
          else Ok chunkCount
      end
  end.

(** The loop of [readChunkedCookie] over [n] chunks from index [i]. *)
Fixpoint read_chunks (req : Request) (cookieName : string) (i n : nat) : result string :=
  match n with
  | O => Ok ""
  | S n' =>
      let? v := req_Cookie req (chunk_name cookieName i) in
      let? rest := read_chunks req cookieName (S i) n' in
      Ok (v +:+ rest)
  end.

Definition readChunkedCookie (req : Request) (cookieName : string) : result string :=
  let? chunkCount := getChunkedCookieCount req cookieName in
  if chunkCount =? 0 then req_Cookie req cookieName
  else read_chunks req cookieName 0 (Z.to_nat chunkCount).

Fixpoint clear_chunks (base : Cookie) (cookieName : string) (i n : nat) (rw : Response) : Response :=
  match n with
  | O => rw
  | S n' =>
      clear_chunks base cookieName (S i) n'
        (SetCookie (with_name_value (chunk_name cookieName i) "" base) rw)
  end.

(** Returns the response and the error of the count cookie, if any; a count
    that is refused is treated as no chunks. *)
Definition clearChunkedCookie (cfg : Config) (now : time) (rw : Response) (req : Request)
  (cookieName : string) : result (Response * option error) :=
  let '(chunkCount, err) :=
    match getChunkedCookieCount req cookieName with
    | Ok n => (n, None)
    | Err e => (0, Some e)
    end in
  let? baseCookie := createSessionCookie cfg in
  let baseCookie := makeCookieExpireImmediately now (with_name_value cookieName "" baseCookie) in
  if chunkCount =? 0 then Ok (SetCookie baseCookie rw, err)
  else
    let rw := SetCookie (with_name_value (count_name cookieName) "" baseCookie) rw in
    Ok (clear_chunks baseCookie cookieName 0 (Z.to_nat chunkCount) rw, err).

(** ** Legacy PKCE cookies *)

Definition valid_optional_port (p : string) : bool :=
  match p with
  | EmptyString => true
  | String c ds => Ascii.eqb c ":" && sforall is_digit ds
  end.

(** [u.Hostname()] *)
Definition Hostname (u : URL) : string :=
  let hostPort := u_Host u in
  let host :=
    match LastIndexByte hostPort ":" with
    | Some i => if valid_optional_port (sdrop i hostPort) then stake i hostPort else hostPort
    | None => hostPort
    end in
  if HasPrefix host "[" && HasSuffix host "]" then stake (slen host - 2) (sdrop 1 host) else host.

Section Legacy.
Context (now : time) (callbackURL : URL).

(** The closures [expire] and [expireVariants] over the set of seen keys.  The
    code reads the clock for each cookie; the loop has no other effect, and one
    reading serves all the dates, a day in the past. *)
Definition expire (name cookieDomain : string) (st : gset string * Response) : gset string * Response :=
  let '(seen, rw) := st in
  let key := name +:+ String "000" cookieDomain in
  if decide (key ∈ seen) then (seen, rw)
  else ({[key]} ∪ seen,
        SetCookie (makeCookieExpireImmediately now
          {| c_Name := name; c_Value := ""; c_Path := u_Path callbackURL; c_Domain := cookieDomain;
             c_Expires := 0; c_MaxAge := 0; c_Secure := true; c_HttpOnly := true;
             c_SameSite := SameSiteLaxMode |}) rw).

Definition expireVariants (name : string) (st : gset string * Response) : gset string * Response :=
  let st := if negb (String.eqb (Hostname callbackURL) "")
            then expire name (Hostname callbackURL) st else st in
  expire name "" st.

Fixpoint expire_loop (prefix : string) (cookies : list (string * string)) (expired : nat)
  (st : gset string * Response) : gset string * Response :=
  match cookies with
  | [] => st
  | c :: rest =>
      if (maxLegacyCookiesToExpire <=? expired)%nat then st
      else if String.eqb c.1 prefix || HasPrefix c.1 (prefix +:+ ".")
      then expire_loop prefix rest (S expired) (expireVariants c.1 st)
      else expire_loop prefix rest expired st
  end.
End Legacy.

Definition clearLegacyCodeVerifierCookies (cfg : Config) (now : time) (rw : Response) (req : Request)
  (callbackURL : option URL) : Response :=
  match callbackURL with
  | None => rw
  | Some url =>
      let prefix := getCodeVerifierCookieName cfg in
      (expire_loop now url prefix (r_Cookies req) 0 (expireVariants now url prefix (∅, rw))).2
  end.

(** ** Login CSRF cookies *)

Definition csrfCookieSecure (cfg : option Config) : bool :=
  match cfg with
  | None => true
  | Some c => match SessionCookie c with None => true | Some sc => sc_Secure sc end
  end.

Definition setLoginCsrfCookie (cfg : Config) (rw : Response) (callbackURL : option URL) (csrf : string)
  : Response :=
  match callbackURL with
  | None => rw
  | Some url =>
      if String.eqb csrf "" then rw
      else SetCookie {| c_Name := getLoginCsrfCookieName cfg csrf; c_Value := csrf;
                        c_Path := u_Path url; c_Domain := ""; c_Expires := 0;
                        c_MaxAge := loginCsrfMaxAge; c_Secure := csrfCookieSecure (Some cfg);
                        c_HttpOnly := true; c_SameSite := SameSiteLaxMode |} rw
  end.

Definition clearLoginCsrfCookie (cfg : Config) (now : time) (rw : Response) (callbackURL : option URL)
  (csrf : string) : Response :=
  match callbackURL with
  | None => rw
  | Some url =>
      if String.eqb csrf "" then rw
      else SetCookie (makeCookieExpireImmediately now
             {| c_Name := getLoginCsrfCookieName cfg csrf; c_Value := "";
                c_Path := u_Path url; c_Domain := ""; c_Expires := 0; c_MaxAge := 0;
                c_Secure := csrfCookieSecure (Some cfg); c_HttpOnly := true;
                c_SameSite := SameSiteLaxMode |}) rw
  end.

(** [subtle.ConstantTimeCompare(a, b) == 1] is equality of the contents. *)
Definition ConstantTimeCompare (a b : string) : bool := String.eqb a b.

Definition validateLoginCsrf (cfg : Config) (req : Request) (csrf : string) : result unit :=
  if String.eqb csrf "" then errorf "missing CSRF in state"
  else match req_Cookie req (getLoginCsrfCookieName cfg csrf) with
       | Err _ => errorf "missing CSRF cookie"
       | Ok v => if negb (ConstantTimeCompare v csrf) then errorf "CSRF cookie mismatch" else Ok tt
       end.

(** ** The browser

    A browser keeps the cookies of one scope by name, with the text of their
    values: a negative [MaxAge] removes a cookie, any other sets it.  It sends
    all of them back, and the server reads the ones with a valid value. *)

Abbreviation jar := (gmap string string).

Definition jar_apply (j : jar) (c : Cookie) : jar :=
  if c_MaxAge c <? 0 then delete (c_Name c) j else <[c_Name c := c_Value c]> j.

Definition jar_receive (j : jar) (w : Response) : jar := foldl jar_apply j (w_Cookies w).

Definition jar_send (j : jar) (r : Request) : Request :=
  with_cookies (map_to_list (omap parseCookieValue j)) r.

(** ** Lemmas *)

Lemma lookup_cookie_In cs n v :
  NoDup (map fst cs) -> lookup_cookie cs n = Some v <-> (n, v) ∈ cs.
Proof.
  induction cs as [|[m u] cs IH]; simpl; intros Hnd.
  - rewrite lookup_cookie_nil. split; [done | by intros ?%not_elem_of_nil].
  - apply NoDup_cons in Hnd as [Hm Hnd]. rewrite lookup_cookie_cons, elem_of_cons.
    case_decide as Hmn.
    + subst. split; [intros [= ->]; by left|]. intros [[= ->] | Hin]; [done|].
      exfalso. apply Hm. apply list_elem_of_In, in_map_iff. exists (n, v).
      by rewrite <- list_elem_of_In.
    + rewrite IH by done. split; [by right|]. intros [[= -> ->] | Hin]; done.
Qed.

Lemma jar_send_Cookie j r n :
  req_Cookie (jar_send j r) n
  = match j !! n ≫= parseCookieValue with Some v => Ok v | None => Err ErrNoCookie end.
Proof.
  unfold req_Cookie, jar_send. simpl. rewrite <- lookup_omap. generalize (omap parseCookieValue j). intros m.
  assert (lookup_cookie (map_to_list m) n = m !! n) as ->; [|done].
  apply option_eq. intros v. rewrite lookup_cookie_In; [by rewrite elem_of_map_to_list|].
  apply NoDup_fst_map_to_list.
Qed.

Lemma chunk_name_inj n i k : chunk_name n i = chunk_name n k -> i = k.
Proof.
  unfold chunk_name, Itoa. intros H%sapp_inv_head. injection H as H.
  apply (inj pretty) in H. lia.
Qed.

Lemma chunk_name_ne_count n i : chunk_name n i <> count_name n.
Proof.
  unfold chunk_name, count_name, Itoa. intros H%sapp_inv_head. injection H as H.
  assert (Hd : digits 0 (pretty (Z.of_nat i + 1)) = digits 0 "Chunks") by by rewrite H.
  replace (Z.of_nat i + 1) with (Z.pos (Pos.of_succ_nat i)) in Hd by lia.
  change (pretty (Z.pos (Pos.of_succ_nat i))) with (pretty (N.pos (Pos.of_succ_nat i))) in Hd.
  unfold pretty, pretty_N in Hd. rewrite decide_False in Hd by lia.
  by rewrite digits_pretty_go in Hd.
Qed.

Lemma app_ne_self n s : s <> "" -> n +:+ s <> n.
Proof.
  intros Hs H. apply (f_equal slen) in H. rewrite slen_app in H. apply Hs, slen_0. lia.
Qed.

Lemma count_name_ne n : count_name n <> n.
Proof. by apply app_ne_self. Qed.

Lemma chunk_name_ne n i : chunk_name n i <> n.
Proof. unfold chunk_name. by apply app_ne_self. Qed.

Lemma valid_name_app n s :
  s <> "" -> sforall token_char n = true -> sforall token_char s = true ->
  valid_cookie_name (n +:+ s) = true.
Proof.
  intros Hs Hn Ht. unfold valid_cookie_name. rewrite sforall_app, Hn, Ht.
  destruct (String.eqb_spec (n +:+ s) "") as [E|]; [|done].
  apply (f_equal slen) in E. rewrite slen_app in E. simpl in E.
  destruct Hs. apply slen_0. lia.
Qed.

Lemma count_name_valid n : sforall token_char n = true -> valid_cookie_name (count_name n) = true.
Proof. intros. by apply valid_name_app. Qed.

Lemma chunk_name_valid n i :
  sforall token_char n = true -> (i < MaxSessionCookieChunks)%nat ->
  valid_cookie_name (chunk_name n i) = true.
Proof.
  intros Hn Hi. unfold chunk_name. apply valid_name_app; [done | done |].
  assert (forallb (fun i => sforall token_char ("." +:+ Itoa (Z.of_nat i + 1)))
            (seq 0 MaxSessionCookieChunks) = true) as H by (vm_compute; reflexivity).
  rewrite forallb_forall in H. apply H, in_seq. lia.
Qed.

Lemma SetCookie_cookies c w :
  committed w = false -> valid_cookie_name (c_Name c) = true ->
  w_Cookies (SetCookie c w) = w_Cookies w ++ [serialised c].
Proof. unfold SetCookie. by intros -> ->. Qed.

(** Setting and clearing cookies leaves the response uncommitted. *)
Lemma set_chunks_committed base n i chunks w : committed (set_chunks base n i chunks w) = committed w.
Proof.
  revert i w. induction chunks as [|c chunks IH]; intros i w; simpl; [done|].
  by rewrite IH, SetCookie_committed.
Qed.

Lemma clear_chunks_committed base n i m w : committed (clear_chunks base n i m w) = committed w.
Proof.
  revert i w. induction m as [|m IH]; intros i w; simpl; [done|]. by rewrite IH, SetCookie_committed.
Qed.

Lemma setChunkedCookies_committed cfg rw n v w :
  setChunkedCookies cfg rw n v = Ok w -> committed w = committed rw.
Proof.
  unfold setChunkedCookies. intros (base & _ & Hw)%rbind_Ok_inv.
  destruct Nat.eqb; injection Hw as <-; [apply SetCookie_committed|].
  by rewrite set_chunks_committed, SetCookie_committed.
Qed.

Lemma clearChunkedCookie_committed cfg now rw req n w err :
  clearChunkedCookie cfg now rw req n = Ok (w, err) -> committed w = committed rw.
Proof.
  unfold clearChunkedCookie. destruct getChunkedCookieCount as [count|];
    intros (base & _ & Hw)%rbind_Ok_inv; repeat case_match; injection Hw as <- _;
    by rewrite ?clear_chunks_committed, SetCookie_committed.
Qed.

Lemma clearChunkedCookie_panic cfg now rw req n e :
  clearChunkedCookie cfg now rw req n = Err e -> SessionCookie cfg = None.
Proof.
  unfold clearChunkedCookie, createSessionCookie.
  destruct (SessionCookie cfg); [|done]. destruct getChunkedCookieCount; simpl; by repeat case_match.
Qed.

(** The cookies [set_chunks] and [clear_chunks] emit. *)
Definition chunk_cookies (base : Cookie) (n : string) (i : nat) (chunks : list string) : list Cookie :=
  imap (fun k chunk => serialised (with_name_value (chunk_name n (i + k)) chunk base)) chunks.

Lemma chunk_cookies_cons base n i c chunks :
  chunk_cookies base n i (c :: chunks)
  = serialised (with_name_value (chunk_name n i) c base) :: chunk_cookies base n (S i) chunks.
Proof.
  unfold chunk_cookies. simpl. rewrite Nat.add_0_r. f_equal.
  apply imap_ext. intros k x _. simpl. by rewrite Nat.add_succ_r.
Qed.

Lemma set_chunks_cookies base n i chunks w :
  committed w = false -> sforall token_char n = true ->
  (i + length chunks <= MaxSessionCookieChunks)%nat ->
  w_Cookies (set_chunks base n i chunks w) = w_Cookies w ++ chunk_cookies base n i chunks
  /\ committed (set_chunks base n i chunks w) = false.
Proof.
  intros Hc Hn. revert i w Hc. induction chunks as [|c chunks IH]; intros i w Hc Hl; simpl in *.
  - unfold chunk_cookies. simpl. by rewrite app_nil_r.
  - rewrite chunk_cookies_cons.
    destruct (IH (S i) (SetCookie (with_name_value (chunk_name n i) c base) w)) as [H1 H2].
    + by rewrite SetCookie_committed.
    + lia.
    + rewrite H1. rewrite SetCookie_cookies by (done || (simpl; apply chunk_name_valid; auto; lia)).
      by rewrite <- app_assoc.
Qed.

Lemma clear_chunks_set base n i m w :
  clear_chunks base n i m w = set_chunks base n i (replicate m "") w.
Proof. revert i w. induction m; intros; simpl; auto. Qed.

Section JarChunks.
Context (base : Cookie) (n : string).

Lemma jar_chunks_other j i chunks x :
  (forall k, x <> chunk_name n k) -> foldl jar_apply j (chunk_cookies base n i chunks) !! x = j !! x.
Proof.
  intros Hx. revert i j. induction chunks as [|c chunks IH]; intros i j; [done|].
  rewrite chunk_cookies_cons. simpl. rewrite IH. unfold jar_apply. simpl.
  specialize (Hx i). destruct (c_MaxAge base <? 0).
  - by rewrite lookup_delete_ne.
  - by rewrite lookup_insert_ne.
Qed.

Lemma jar_chunks_before j i chunks k :
  (k < i)%nat ->
  foldl jar_apply j (chunk_cookies base n i chunks) !! chunk_name n k = j !! chunk_name n k.
Proof.
  revert i j. induction chunks as [|c chunks IH]; intros i j Hk; [done|].
  rewrite chunk_cookies_cons. simpl. rewrite IH by lia. unfold jar_apply. simpl.
  assert (chunk_name n i <> chunk_name n k) by (intros ?%chunk_name_inj; lia).
  destruct (c_MaxAge base <? 0); [by rewrite lookup_delete_ne | by rewrite lookup_insert_ne].
Qed.

Lemma jar_chunks_hit j i chunks k v :
  c_MaxAge base >= 0 -> chunks !! k = Some v ->
  foldl jar_apply j (chunk_cookies base n i chunks) !! chunk_name n (i + k) = Some (sanitizeCookieValue v).
Proof.
  intros Hm. revert i j k. induction chunks as [|c chunks IH]; intros i j k; [done|].
  rewrite chunk_cookies_cons. simpl. destruct k as [|k]; simpl.
  - intros [= ->]. rewrite Nat.add_0_r, jar_chunks_before by lia. unfold jar_apply. simpl.
    destruct (Z.ltb_spec (c_MaxAge base) 0); [lia|]. by rewrite lookup_insert_eq.
  - intros Hk. replace (i + S k)%nat with (S i + k)%nat by lia. by apply IH.
Qed.
End JarChunks.

Lemma read_chunks_spec req n i chunks :
  (forall k v, chunks !! k = Some v -> req_Cookie req (chunk_name n (i + k)) = Ok v) ->
  read_chunks req n i (length chunks) = Ok (sconcat chunks).
Proof.
  revert i. induction chunks as [|c chunks IH]; intros i Hk; simpl; [done|].
  pose proof (Hk 0%nat c eq_refl) as H0. rewrite Nat.add_0_r in H0. rewrite H0. simpl.
  rewrite IH; [done|]. intros k v Hv. specialize (Hk (S k) v Hv).
  by replace (S i + k)%nat with (i + S k)%nat by lia.
Qed.

(** The count cookie bounds what a client can make the middleware do. *)
Lemma getChunkedCookieCount_range req n c :
  getChunkedCookieCount req n = Ok c -> 0 <= c <= Z.of_nat MaxSessionCookieChunks.
Proof.
  unfold getChunkedCookieCount, errorf. intros H. crush_matches. boolprop. lia.
Qed.

Lemma ticket_chunks v :
  (0 < slen v <= MaxSessionCookieSize)%nat ->
  (0 < length (ChunkString v SessionCookieChunkSize) <= MaxSessionCookieChunks)%nat.
Proof.
  intros Hv.
  destruct (ChunkString_length v SessionCookieChunkSize) as [H1 H2]; [unfold SessionCookieChunkSize; lia|].
  unfold MaxSessionCookieSize, SessionCookieChunkSize, MaxSessionCookieChunks in *. lia.
Qed.

(** ** The session cookies of a response *)

(** Everything that carries a ticket, or tells the browser to forget one, is
    called like the session cookie, or like one of its parts. *)
Definition session_cookie (cfg : Config) (c : Cookie) : bool :=
  String.eqb (c_Name c) (getSessionCookieName cfg) || HasPrefix (c_Name c) (getSessionCookieName cfg +:+ ".").

Definition session_cookies (cfg : Config) (w : Response) : list Cookie :=
  List.filter (session_cookie cfg) (w_Cookies w).

(** The cookies of a ticket. *)
Definition ticket_cookies (cfg : Config) (ticket : string) : list Cookie :=
  match setChunkedCookies cfg empty_response (getSessionCookieName cfg) ticket with
  | Ok w => w_Cookies w
  | Err _ => []
  end.

Lemma HasPrefix_cancel a b p : HasPrefix (p +:+ a) (p +:+ b) = HasPrefix a b.
Proof. induction p as [|c p IH]; simpl; [done|]. by rewrite Ascii.eqb_refl, IH. Qed.

(** Cookies of another name are not session cookies. *)
Lemma session_cookie_other cfg c name :
  c_Name c = makeCookieName cfg name ->
  String.eqb name "Session" || HasPrefix name "Session." = false -> session_cookie cfg c = false.
Proof.
  intros Hn Ho. unfold session_cookie, getSessionCookieName. rewrite Hn. unfold makeCookieName.
  rewrite !sapp_assoc. apply orb_false_iff in Ho as [He Hp].
  change (_ +:+ ("." +:+ ("Session" +:+ "."))) with (CookieNamePrefix cfg +:+ ("." +:+ "Session.")).
  rewrite !HasPrefix_cancel, Hp, orb_false_r.
  apply String.eqb_neq. intros E%sapp_inv_head%sapp_inv_head. subst. done.
Qed.

Lemma SetCookie_sessions cfg c w :
  session_cookies cfg (SetCookie c w)
  = session_cookies cfg w ++ (if session_cookie cfg c && valid_cookie_name (c_Name c) && negb (committed w)
                              then [serialised c] else []).
Proof.
  unfold session_cookies, SetCookie. destruct (committed w); [by rewrite andb_false_r, app_nil_r|].
  rewrite andb_true_r. destruct (valid_cookie_name (c_Name c)); [|by rewrite andb_false_r, app_nil_r].
  rewrite andb_true_r. simpl. rewrite List.filter_app. simpl.
  assert (session_cookie cfg (serialised c) = session_cookie cfg c) as -> by done. by destruct session_cookie.
Qed.

Lemma SetCookie_no_session cfg c w :
  session_cookie cfg c = false -> session_cookies cfg (SetCookie c w) = session_cookies cfg w.
Proof. intros Hc. by rewrite SetCookie_sessions, Hc, app_nil_r. Qed.

Lemma rw_header_sessions cfg f w : session_cookies cfg (rw_header f w) = session_cookies cfg w.
Proof. unfold session_cookies. by rewrite rw_header_cookies. Qed.
Lemma http_Error_sessions cfg msg code w : session_cookies cfg (http_Error msg code w) = session_cookies cfg w.
Proof. unfold session_cookies. by rewrite http_Error_cookies. Qed.
Lemma http_Redirect_sessions `{UrlLib} cfg r url code w :
  session_cookies cfg (http_Redirect r url code w) = session_cookies cfg w.
Proof. unfold session_cookies. by rewrite http_Redirect_cookies. Qed.

Lemma setLoginCsrfCookie_sessions cfg w u csrf :
  session_cookies cfg (setLoginCsrfCookie cfg w u csrf) = session_cookies cfg w.
Proof.
  unfold setLoginCsrfCookie. repeat case_match; try done. apply SetCookie_no_session.
  by eapply session_cookie_other.
Qed.

Lemma clearLoginCsrfCookie_sessions cfg now w u csrf :
  session_cookies cfg (clearLoginCsrfCookie cfg now w u csrf) = session_cookies cfg w.
Proof.
  unfold clearLoginCsrfCookie. repeat case_match; try done. apply SetCookie_no_session.
  by eapply session_cookie_other.
Qed.

Lemma code_verifier_names cfg name :
  name = getCodeVerifierCookieName cfg \/ HasPrefix name (getCodeVerifierCookieName cfg +:+ ".") = true ->
  exists rest, name = makeCookieName cfg ("CodeVerifier" +:+ rest).
Proof.
  unfold getCodeVerifierCookieName, makeCookieName. intros [->|(t & ->)%HasPrefix_spec].
  - exists "". by rewrite sapp_nil_r.
  - exists ("." +:+ t). by rewrite !sapp_assoc.
Qed.

Lemma expireVariants_sessions cfg now u name st rest :
  name = makeCookieName cfg ("CodeVerifier" +:+ rest) ->
  session_cookies cfg (expireVariants now u name st).2 = session_cookies cfg st.2.
Proof.
  intros Hn. assert (He : forall dom st, session_cookies cfg (expire now u name dom st).2 = session_cookies cfg st.2).
  { intros dom [seen w]. unfold expire. case_decide; [done|]. apply SetCookie_no_session.
    eapply session_cookie_other; [exact Hn | done]. }
  unfold expireVariants. rewrite He. destruct (negb _); [apply He | done].
Qed.

Lemma clearLegacy_sessions cfg now w req u :
  session_cookies cfg (clearLegacyCodeVerifierCookies cfg now w req u) = session_cookies cfg w.
Proof.
  unfold clearLegacyCodeVerifierCookies. destruct u as [u|]; [|done].
  assert (Hl : forall cs k st, session_cookies cfg
      (expire_loop now u (getCodeVerifierCookieName cfg) cs k st).2 = session_cookies cfg st.2).
  { induction cs as [|c cs IH]; intros k st; cbn [expire_loop]; [done|].
    destruct Nat.leb; [done|]. destruct (String.eqb _ _ || _) eqn:Ec; rewrite IH; [|done].
    destruct (code_verifier_names cfg c.1) as [rest Hr].
    { apply orb_true_iff in Ec as [?%String.eqb_eq|?]; auto. }
    by eapply expireVariants_sessions. }
  rewrite Hl. destruct (code_verifier_names cfg (getCodeVerifierCookieName cfg)) as [rest Hr]; [by left|].
  by erewrite expireVariants_sessions.
Qed.

Lemma part_is_session cfg base part v :
  session_cookie cfg (with_name_value (getSessionCookieName cfg +:+ ("." +:+ part)) v base) = true.
Proof.
  unfold session_cookie. simpl c_Name. apply orb_true_iff. right. apply HasPrefix_spec. exists part.
  by rewrite sapp_assoc.
Qed.

Lemma chunk_is_session cfg base i v :
  session_cookie cfg (with_name_value (chunk_name (getSessionCookieName cfg) i) v base) = true.
Proof. apply part_is_session. Qed.

Lemma plain_is_session cfg base v :
  session_cookie cfg (with_name_value (getSessionCookieName cfg) v base) = true.
Proof. unfold session_cookie. simpl c_Name. by rewrite String.eqb_refl. Qed.

Lemma count_is_session cfg base v :
  session_cookie cfg (with_name_value (count_name (getSessionCookieName cfg)) v base) = true.
Proof. apply part_is_session. Qed.

(** A cookie that is set is added to the others, unless it is too late. *)
Lemma SetCookie_app c w :
  committed w = false -> w_Cookies (SetCookie c w) = w_Cookies w ++ w_Cookies (SetCookie c empty_response).
Proof. intros Hw. unfold SetCookie. rewrite Hw. simpl. by destruct valid_cookie_name; simpl; rewrite ?app_nil_r. Qed.

Lemma set_chunks_app base n i chunks w w0 :
  committed w = false -> committed w0 = false ->
  exists l, w_Cookies (set_chunks base n i chunks w) = w_Cookies w ++ l
    /\ w_Cookies (set_chunks base n i chunks w0) = w_Cookies w0 ++ l.
Proof.
  revert i w w0. induction chunks as [|c chunks IH]; intros i w w0 Hw Hw0; cbn [set_chunks].
  { exists []. by rewrite !app_nil_r. }
  destruct (IH (S i) (SetCookie (with_name_value (chunk_name n i) c base) w)
              (SetCookie (with_name_value (chunk_name n i) c base) w0)) as (l & -> & ->);
    [by rewrite SetCookie_committed..|].
  exists (w_Cookies (SetCookie (with_name_value (chunk_name n i) c base) empty_response) ++ l).
  by rewrite (SetCookie_app _ w Hw), (SetCookie_app _ w0 Hw0), !app_assoc.
Qed.

Lemma set_chunks_sessions cfg base i chunks w :
  w_Cookies w = session_cookies cfg w ->
  w_Cookies (set_chunks base (getSessionCookieName cfg) i chunks w)
  = session_cookies cfg (set_chunks base (getSessionCookieName cfg) i chunks w).
Proof.
  revert i w. induction chunks as [|c chunks IH]; intros i w Hw; cbn [set_chunks]; [done|]. apply IH.
  rewrite SetCookie_sessions, chunk_is_session, <- Hw. unfold SetCookie.
  destruct (committed w); [by rewrite andb_false_r, app_nil_r|]. rewrite andb_true_r. cbn [andb].
  by destruct valid_cookie_name; simpl; rewrite ?app_nil_r.
Qed.

(** What storing a ticket adds to a response that is still open. *)
Lemma setChunkedCookies_sessions cfg w v w' :
  committed w = false -> setChunkedCookies cfg w (getSessionCookieName cfg) v = Ok w' ->
  session_cookies cfg w' = session_cookies cfg w ++ ticket_cookies cfg v.
Proof.
  unfold ticket_cookies, setChunkedCookies. intros Hw (base & -> & Hw')%rbind_Ok_inv. cbn [rbind].
  set (chunks := if (_ <? _)%nat then _ else _) in *. set (n := getSessionCookieName cfg) in *.
  destruct (length chunks =? 1)%nat; injection Hw' as <-.
  - rewrite SetCookie_sessions, Hw, plain_is_session. cbn [andb negb].
    unfold SetCookie. simpl. by destruct valid_cookie_name; simpl; rewrite ?app_nil_r.
  - set (count := with_name_value (count_name n) _ base).
    destruct (set_chunks_app base n 0 chunks (SetCookie count w) (SetCookie count empty_response)) as (l & E1 & E2);
      [by rewrite SetCookie_committed..|].
    assert (Hs : w_Cookies (SetCookie count empty_response) = session_cookies cfg (SetCookie count empty_response)).
    { rewrite SetCookie_sessions. unfold count, n. rewrite count_is_session. unfold SetCookie. simpl.
      by destruct valid_cookie_name. }
    pose proof (set_chunks_sessions cfg base 0 chunks _ Hs) as Hall. fold n in Hall. rewrite Hall.
    unfold session_cookies. rewrite E1, E2, (SetCookie_app _ w Hw), !List.filter_app. by rewrite app_assoc.
Qed.

(** Clearing adds only cookies that expire. *)
Definition expired (c : Cookie) : Prop := c_MaxAge c = -1.

(** Of the session cookies, a response says only which ones to forget. *)
Definition only_expires (cfg : Config) (w w' : Response) : Prop :=
  exists l, session_cookies cfg w' = session_cookies cfg w ++ l /\ Forall expired l.

Lemma no_cookie_expires cfg w w' : session_cookies cfg w' = session_cookies cfg w -> only_expires cfg w w'.
Proof. intros E. exists []. by rewrite app_nil_r. Qed.

Lemma SetCookie_expired cfg c w : expired c -> only_expires cfg w (SetCookie c w).
Proof.
  intros Hc. unfold only_expires. rewrite SetCookie_sessions. eexists. split; [done|]. by case_match; [constructor|].
Qed.

Lemma clear_chunks_expired cfg base n i m w :
  expired base -> only_expires cfg w (clear_chunks base n i m w).
Proof.
  intros Hb. unfold only_expires. revert i w.
  induction m as [|m IH]; intros i w; cbn [clear_chunks]; [by apply no_cookie_expires|].
  destruct (IH (S i) (SetCookie (with_name_value (chunk_name n i) "" base) w)) as (l & -> & Hl).
  destruct (SetCookie_expired cfg (with_name_value (chunk_name n i) "" base) w Hb) as (l' & -> & Hl').
  exists (l' ++ l). rewrite app_assoc. split; [done | by apply Forall_app].
Qed.

Lemma clearChunkedCookie_sessions cfg now w req n w' err :
  clearChunkedCookie cfg now w req n = Ok (w', err) -> only_expires cfg w w'.
Proof.
  unfold clearChunkedCookie, only_expires.
  destruct (match getChunkedCookieCount req n with Ok k => _ | Err e => _ end) as [k e].
  intros (base0 & _ & Hw)%rbind_Ok_inv. destruct (k =? 0); injection Hw as <- _.
  - by apply SetCookie_expired.
  - set (base := makeCookieExpireImmediately _ _).
    destruct (clear_chunks_expired cfg base n 0 (Z.to_nat k)
                (SetCookie (with_name_value (count_name n) "" base) w)) as (l & -> & Hl); [done|].
    destruct (SetCookie_expired cfg (with_name_value (count_name n) "" base) w) as (l' & -> & Hl'); [done|].
    exists (l' ++ l). rewrite app_assoc. split; [done | by apply Forall_app].
Qed.

(** What is sealed is written in base64, in bytes a cookie value may hold. *)
Lemma enc_char_valid v : validCookieValueByte (enc_char StdEncoding v) = true.
Proof.
  assert (Ha : sforall validCookieValueByte std_alphabet = true) by (vm_compute; reflexivity).
  unfold enc_char. cbn [alphabet StdEncoding]. generalize (Z.to_nat v). revert Ha.
  induction std_alphabet as [|c s IH]; [done|]. cbn [sforall]. intros [Hc Hs]%andb_true_iff [|k]; cbn [String.get];
    [done | by apply IH].
Qed.

Lemma base64_cookie_bytes s : sforall validCookieValueByte (EncodeToString StdEncoding s) = true.
Proof.
  induction s as [s IH] using (induction_ltof1 _ String.length). unfold ltof in IH.
  destruct s as [|a [|b [|c s]]]; cbn [EncodeToString sforall]; rewrite ?enc_char_valid; try done.
  apply IH. simpl. lia.
Qed.

Lemma sealed_cookie_bytes `{Aead} rnd plaintext secret purpose t :
  EncryptWithPurpose rnd plaintext secret purpose = Ok t -> sforall validCookieValueByte t = true.
Proof. intros (nonce & _ & _ & ->)%EncryptWithPurpose_Ok. apply base64_cookie_bytes. Qed.

(** ** Properties *)

Section Chunked.
Context (cfg : Config) (sc : SessionCookieConfig) (Hsc : SessionCookie cfg = Some sc).

Lemma createSessionCookie_Ok :
  exists base, createSessionCookie cfg = Ok base /\ c_MaxAge base = sc_MaxAge sc.
Proof. unfold createSessionCookie. rewrite Hsc. eauto. Qed.

Lemma valid_name_tokens n : valid_cookie_name n = true -> sforall token_char n = true.
Proof. unfold valid_cookie_name. by intros [_ ?]%andb_true_iff. Qed.

(** What storing a ticket that fits the budget emits. *)
Lemma setChunkedCookies_cookies n v w :
  valid_cookie_name n = true -> (0 < slen v <= MaxSessionCookieSize)%nat ->
  setChunkedCookies cfg empty_response n v = Ok w ->
  exists base, c_MaxAge base = sc_MaxAge sc /\
    let chunks := ChunkString v SessionCookieChunkSize in
    w_Cookies w =
      if (length chunks =? 1)%nat then [serialised (with_name_value n v base)]
      else serialised (with_name_value (count_name n) (Itoa (Z.of_nat (length chunks))) base)
           :: chunk_cookies base n 0 chunks.
Proof.
  intros Hn Hv. unfold setChunkedCookies.
  destruct createSessionCookie_Ok as (base & -> & Hm). cbn [rbind].
  pose proof (ticket_chunks v Hv) as Hl.
  assert ((MaxSessionCookieChunks <? length (ChunkString v SessionCookieChunkSize))%nat = false) as ->
    by (apply Nat.ltb_ge; lia).
  destruct (Nat.eqb (length (ChunkString v SessionCookieChunkSize)) 1) eqn:H1;
    intros [= <-]; exists base; (split; [done|]); cbv zeta.
  - by rewrite SetCookie_cookies.
  - destruct (set_chunks_cookies base n 0 (ChunkString v SessionCookieChunkSize)
      (SetCookie (with_name_value (count_name n)
         (Itoa (Z.of_nat (length (ChunkString v SessionCookieChunkSize)))) base) empty_response))
      as [-> _]; [by rewrite SetCookie_committed | by apply valid_name_tokens | lia |].
    rewrite SetCookie_cookies by (done || by apply count_name_valid, valid_name_tokens). done.
Qed.

(** The count is written in digits. *)
Lemma count_value_valid m :
  (m <= MaxSessionCookieChunks)%nat -> sforall validCookieValueByte (Itoa (Z.of_nat m)) = true.
Proof.
  intros Hm.
  assert (forallb (fun m => sforall validCookieValueByte (Itoa (Z.of_nat m))) (seq 0 (S MaxSessionCookieChunks)) = true)
    as H by (vm_compute; reflexivity).
  rewrite forallb_forall in H. apply H, in_seq. lia.
Qed.

Lemma sforall_sconcat P l : sforall P (sconcat l) = true -> Forall (fun s => sforall P s = true) l.
Proof.
  induction l as [|s l IH]; simpl; [by constructor|]. rewrite sforall_app.
  intros [Hs Hl]%andb_true_iff. constructor; auto.
Qed.

(** The state of the jar after a chunked ticket of [n]. *)
Lemma chunked_jar j n base chunks :
  c_MaxAge base >= 0 -> Forall (fun c => sforall validCookieValueByte c = true) chunks -> (1 <= length chunks <= MaxSessionCookieChunks)%nat ->
  let j' := foldl jar_apply j
    (serialised (with_name_value (count_name n) (Itoa (Z.of_nat (length chunks))) base)
     :: chunk_cookies base n 0 chunks) in
  forall req, readChunkedCookie (jar_send j' req) n = Ok (sconcat chunks).
Proof.
  intros Hm Hval Hl j' req. unfold readChunkedCookie, getChunkedCookieCount.
  rewrite jar_send_Cookie.
  assert (j' !! count_name n = Some (sanitizeCookieValue (Itoa (Z.of_nat (length chunks))))) as ->.
  { unfold j'. simpl. rewrite jar_chunks_other by (intros k; by apply not_eq_sym, chunk_name_ne_count).
    unfold jar_apply. simpl. destruct (Z.ltb_spec (c_MaxAge base) 0); [lia|].
    apply lookup_insert_eq. }
  cbn [mbind option_bind]. rewrite parse_sanitized by (apply count_value_valid; lia).
  rewrite Atoi_Itoa by (unfold MaxSessionCookieChunks, int64_range, int64_min, int64_max in *; lia).
  assert ((Z.of_nat (length chunks) <? 0) || (Z.of_nat MaxSessionCookieChunks <? Z.of_nat (length chunks))
          = false) as -> by (apply orb_false_iff; rewrite !Z.ltb_ge; lia).
  cbn [rbind]. destruct (Z.eqb_spec (Z.of_nat (length chunks)) 0); [lia|].
  rewrite Nat2Z.id. apply read_chunks_spec. intros k v Hk. rewrite jar_send_Cookie.
  unfold j'. cbn [foldl]. erewrite (jar_chunks_hit base n _ 0 chunks k v Hm Hk).
  cbn [mbind option_bind]. rewrite parse_sanitized; [done|]. by eapply (Forall_lookup_1 _ _ _ _ Hval Hk).
Qed.

(** C35: a ticket is read back unchanged from the browser, if it is made of
    bytes that a cookie value may hold, as every sealed ticket is
    ([sealed_cookie_bytes]), fits the cookie budget, and the browser holds
    no readable count cookie of an earlier session, or the ticket needs more
    than one chunk itself.  A one-chunk ticket beside an older count cookie is
    not read back ([one_chunk_ticket_shadowed]). *)
Theorem session_cookie_roundtrip j n v w req :
  sc_MaxAge sc >= 0 -> valid_cookie_name n = true ->
  sforall validCookieValueByte v = true ->
  (0 < slen v <= MaxSessionCookieSize)%nat ->
  (j !! count_name n ≫= parseCookieValue = None \/ SessionCookieChunkSize < slen v)%nat ->
  setChunkedCookies cfg empty_response n v = Ok w ->
  readChunkedCookie (jar_send (jar_receive j w) req) n = Ok v.
Proof.
  intros Hm Hn Hval Hv Hj Hw.
  destruct (setChunkedCookies_cookies n v w Hn Hv Hw) as (base & Hb & Hc).
  unfold jar_receive. rewrite Hc. clear Hc Hw.
  assert (0 < SessionCookieChunkSize)%nat as Hpos by (unfold SessionCookieChunkSize; lia).
  destruct (Nat.eqb_spec (length (ChunkString v SessionCookieChunkSize)) 1) as [H1|H1].
  - destruct Hj as [Hj|Hlong].
    2:{ destruct (ChunkString_length v SessionCookieChunkSize Hpos). rewrite H1 in *. lia. }
    unfold readChunkedCookie, getChunkedCookieCount. rewrite !jar_send_Cookie. simpl.
    unfold jar_apply. simpl. destruct (Z.ltb_spec (c_MaxAge base) 0); [lia|].
    rewrite lookup_insert_ne by (apply not_eq_sym, count_name_ne). rewrite Hj. simpl.
    rewrite lookup_insert_eq. cbn [mbind option_bind]. by rewrite parse_sanitized.
  - rewrite chunked_jar; [by rewrite ChunkString_concat | lia | |].
    + apply sforall_sconcat. by rewrite ChunkString_concat.
    + pose proof (ticket_chunks v Hv). lia.
Qed.

(** A one-chunk ticket stored while the browser still holds the chunk
    cookies of an earlier, longer ticket is never read: the reader keeps
    returning what it returned before the store. *)
Theorem one_chunk_ticket_shadowed j n v w req c :
  sc_MaxAge sc >= 0 -> valid_cookie_name n = true ->
  (0 < slen v <= SessionCookieChunkSize)%nat ->
  getChunkedCookieCount (jar_send j req) n = Ok c -> c <> 0 ->
  setChunkedCookies cfg empty_response n v = Ok w ->
  readChunkedCookie (jar_send (jar_receive j w) req) n = readChunkedCookie (jar_send j req) n.
Proof.
  intros Hm Hn Hv Hcount Hc Hw.
  assert (Hv' : (0 < slen v <= MaxSessionCookieSize)%nat)
    by (unfold MaxSessionCookieSize, SessionCookieChunkSize, MaxSessionCookieChunks in *; lia).
  destruct (setChunkedCookies_cookies n v w Hn Hv' Hw) as (base & Hb & Hck).
  destruct (ChunkString_length v SessionCookieChunkSize) as [Hl _];
    [unfold SessionCookieChunkSize; lia|].
  pose proof (ticket_chunks v Hv').
  assert (length (ChunkString v SessionCookieChunkSize) = 1)%nat as H1
    by (unfold SessionCookieChunkSize in *; lia).
  set (j' := jar_receive j w).
  assert (Hsame : forall x, x <> n -> req_Cookie (jar_send j' req) x = req_Cookie (jar_send j req) x).
  { intros x Hx. unfold j', jar_receive. rewrite Hck, H1. simpl. unfold jar_apply. simpl.
    destruct (Z.ltb_spec (c_MaxAge base) 0); [lia|]. by rewrite !jar_send_Cookie, lookup_insert_ne. }
  unfold readChunkedCookie. rewrite Hcount. unfold getChunkedCookieCount in *.
  rewrite Hsame by apply count_name_ne. rewrite Hcount. simpl. destruct (Z.eqb_spec c 0); [done|].
  generalize 0%nat. induction (Z.to_nat c) as [|m IH]; intros i; simpl; [done|].
  rewrite Hsame by apply chunk_name_ne. by rewrite IH.
Qed.

(** What clearing emits when the count cookie is present and accepted. *)
Lemma clearChunkedCookie_cookies now req n c :
  valid_cookie_name n = true -> getChunkedCookieCount req n = Ok c -> c <> 0 ->
  exists base w, clearChunkedCookie cfg now empty_response req n = Ok (w, None)
    /\ c_MaxAge base = -1
    /\ w_Cookies w = serialised (with_name_value (count_name n) "" base)
                     :: chunk_cookies base n 0 (replicate (Z.to_nat c) "").
Proof.
  intros Hn Hc Hne. pose proof (getChunkedCookieCount_range _ _ _ Hc) as Hr.
  unfold clearChunkedCookie. rewrite Hc.
  destruct createSessionCookie_Ok as (base0 & -> & _). cbn [rbind].
  apply Z.eqb_neq in Hne. rewrite Hne.
  set (base := makeCookieExpireImmediately now (with_name_value n "" base0)).
  eexists base, _. split; [done|]. split; [done|]. rewrite clear_chunks_set.
  apply valid_name_tokens in Hn.
  destruct (set_chunks_cookies base n 0 (replicate (Z.to_nat c) "")
              (SetCookie (with_name_value (count_name n) "" base) empty_response)) as [-> _].
  - by rewrite SetCookie_committed.
  - done.
  - rewrite length_replicate. lia.
  - rewrite SetCookie_cookies by (done || by apply count_name_valid). done.
Qed.

(** Clearing a session whose count cookie announces chunks removes the
    count and chunk cookies but leaves the plain session cookie in the
    browser, so the next request presents that one again. *)
Theorem clear_leaves_plain_cookie j n v c now req :
  valid_cookie_name n = true -> j !! n ≫= parseCookieValue = Some v ->
  getChunkedCookieCount (jar_send j req) n = Ok c -> c <> 0 ->
  exists w, clearChunkedCookie cfg now empty_response (jar_send j req) n = Ok (w, None)
    /\ readChunkedCookie (jar_send (jar_receive j w) req) n = Ok v.
Proof.
  intros Hn Hv Hc Hne.
  destruct (clearChunkedCookie_cookies now _ n c Hn Hc Hne) as (base & w & Hw & Hm & Hck).
  exists w. split; [done|]. unfold jar_receive. rewrite Hck. simpl.
  assert (jar_apply j (serialised (with_name_value (count_name n) "" base)) = delete (count_name n) j) as ->
    by (unfold jar_apply; simpl; by rewrite Hm).
  unfold readChunkedCookie, getChunkedCookieCount. rewrite !jar_send_Cookie.
  rewrite jar_chunks_other by (intros k; by apply not_eq_sym, chunk_name_ne_count).
  rewrite lookup_delete_eq. simpl.
  rewrite jar_chunks_other by (intros k; by apply not_eq_sym, chunk_name_ne).
  rewrite lookup_delete_ne by apply count_name_ne. by rewrite Hv.
Qed.

(** Whatever the request says, storing and clearing a session emit at
    most one count cookie and [MaxSessionCookieChunks] chunk cookies. *)
Theorem session_cookies_bounded n v now req :
  (forall w, setChunkedCookies cfg empty_response n v = Ok w ->
     length (w_Cookies w) <= S MaxSessionCookieChunks)%nat
  /\ (forall w e, clearChunkedCookie cfg now empty_response req n = Ok (w, e) ->
     length (w_Cookies w) <= S MaxSessionCookieChunks)%nat.
Proof.
  assert (Hset : forall c w, (length (w_Cookies (SetCookie c w)) <= S (length (w_Cookies w)))%nat).
  { intros c w. unfold SetCookie. repeat case_match; simpl; rewrite ?length_app; simpl; lia. }
  assert (Hchunks : forall base i chunks w,
    (length (w_Cookies (set_chunks base n i chunks w)) <= length chunks + length (w_Cookies w))%nat).
  { intros base i chunks. revert i. induction chunks as [|ch chunks IH]; intros i w; simpl; [lia|].
    specialize (IH (S i) (SetCookie (with_name_value (chunk_name n i) ch base) w)).
    specialize (Hset (with_name_value (chunk_name n i) ch base) w). lia. }
  destruct createSessionCookie_Ok as (base & Hb & _). split.
  - intros w. unfold setChunkedCookies. rewrite Hb. cbn [rbind].
    set (chunks := if (_ <? _)%nat then _ else _).
    assert (length chunks <= MaxSessionCookieChunks)%nat as Hl.
    { unfold chunks. destruct (Nat.ltb_spec MaxSessionCookieChunks
        (length (ChunkString v SessionCookieChunkSize))); [rewrite length_take|]; lia. }
    destruct (length chunks =? 1)%nat; intros [= <-].
    + etrans; [apply Hset|]. simpl. lia.
    + etrans; [apply Hchunks|]. etrans; [apply Nat.add_le_mono_l, Hset|]. simpl. lia.
  - intros w e. unfold clearChunkedCookie. rewrite Hb. cbn [rbind].
    destruct (getChunkedCookieCount req n) as [c|err] eqn:Ec.
    + pose proof (getChunkedCookieCount_range _ _ _ Ec). destruct (c =? 0); intros [= <- <-].
      * etrans; [apply Hset|]. simpl. lia.
      * rewrite clear_chunks_set. etrans; [apply Hchunks|].
        etrans; [apply Nat.add_le_mono_l, Hset|]. rewrite length_replicate. simpl. lia.
    + simpl. intros [= <- <-]. etrans; [apply Hset|]. simpl. lia.
Qed.
End Chunked.

(** The login CSRF check succeeds exactly when the state carries a
    non-empty token and the browser sends the cookie of that token with the
    token as its value. *)
Theorem validateLoginCsrf_ok cfg req csrf :
  validateLoginCsrf cfg req csrf = Ok tt
  <-> csrf <> "" /\ req_Cookie req (getLoginCsrfCookieName cfg csrf) = Ok csrf.
Proof.
  unfold validateLoginCsrf, errorf, ConstantTimeCompare.
  destruct (String.eqb_spec csrf "") as [->|Hne]; [split; [done | by intros []]|].
  destruct (req_Cookie req _) as [v|e]; [|split; [done | by intros []]].
  destruct (String.eqb_spec v csrf) as [->|]; simpl; split; (done || intros [_ [= ?]]; done).
Qed.

(** ** Witnesses *)

Definition blank_request : Request := {|
  r_Method := "GET"; r_URL := {| u_Scheme := ""; u_Host := ""; u_Path := "/"; u_RawQuery := "" |};
  r_Host := "app.example.com"; r_RequestURI := "/"; r_Header := ∅; r_Cookies := [];
  r_TLS := true; r_RemoteAddr := "10.0.0.1:1234" |}.

Definition small_jar : jar :=
  <["S.Session" := "plain"]> (<["S.Session.Chunks" := "2"]>
    (<["S.Session.1" := "long"]> (<["S.Session.2" := "er"]> ∅))).

Lemma session_cookie_roundtrip_witness :
  exists w, setChunkedCookies CreateConfig empty_response "S.Session" "ticket" = Ok w
    /\ readChunkedCookie (jar_send (jar_receive ∅ w) blank_request) "S.Session" = Ok "ticket".
Proof.
  eexists. split; [vm_compute; reflexivity|].
  eapply (session_cookie_roundtrip CreateConfig default_session_cookie eq_refl ∅ "S.Session" "ticket");
    [simpl; lia | reflexivity | reflexivity | split; [apply Nat.ltb_lt; reflexivity | apply Nat.leb_le; vm_compute; reflexivity] | left; reflexivity | vm_compute; reflexivity].
Defined.

Lemma one_chunk_ticket_shadowed_witness :
  exists w, setChunkedCookies CreateConfig empty_response "S.Session" "new" = Ok w
    /\ readChunkedCookie (jar_send (jar_receive small_jar w) blank_request) "S.Session" = Ok "longer".
Proof.
  eexists. split; [vm_compute; reflexivity|].
  etransitivity; [|vm_compute; reflexivity].
  eapply (one_chunk_ticket_shadowed CreateConfig default_session_cookie eq_refl small_jar
            "S.Session" "new" _ blank_request 2);
    [simpl; lia | reflexivity | split; [apply Nat.ltb_lt; reflexivity | apply Nat.leb_le; vm_compute; reflexivity]
    | vm_compute; reflexivity | lia | vm_compute; reflexivity].
Defined.

Lemma clear_leaves_plain_cookie_witness :
  exists w, clearChunkedCookie CreateConfig 0 empty_response (jar_send small_jar blank_request) "S.Session"
            = Ok (w, None)
    /\ readChunkedCookie (jar_send (jar_receive small_jar w) blank_request) "S.Session" = Ok "plain".
Proof.
  apply (clear_leaves_plain_cookie CreateConfig default_session_cookie eq_refl small_jar
           "S.Session" "plain" 2 0 blank_request);
    [reflexivity | vm_compute; reflexivity | vm_compute; reflexivity | lia].
Defined.

Lemma session_cookies_bounded_witness :
  exists w, setChunkedCookies CreateConfig empty_response "S.Session" "t" = Ok w
    /\ (length (w_Cookies w) <= S MaxSessionCookieChunks)%nat.
Proof.
  eexists. split; [vm_compute; reflexivity|].
  refine (proj1 (session_cookies_bounded CreateConfig default_session_cookie eq_refl "S.Session" "t" 0
                  blank_request) _ _). vm_compute. reflexivity.
Defined.
