(* ===== verification/Tokens.v ===== *)
(** * Talking to the provider: [src/oidc.go], [src/oidc/types.go]

    Discovery, the token endpoint, local validation of tokens, introspection,
    revocation, userinfo, and the merging of claims.  The middleware's state is
    the record [Toa]; the operations run in the state monad over it.  The JWT
    library is the interface [Jwt], and logging is left out. *)

From Stdlib Require Import ZArith Lia Ascii String Bool List SpecFloat.
From S2P Require Import Prelude GoStrings Base64 GoUrl Json Http Utils World Samples Config Authorization Rules Jwks.

Definition defaultOidcTimeout : duration := 30 * Second.
Definition maxOidcResponseBody : nat := Nat.shiftl 1 20.
Definition maxIdcErrorBody : nat := 512.

(** ** The discovery document

    The fields the code reads; the others are decoded, so that a value of the
    wrong kind is an error, and dropped. *)

Record OidcDiscovery := {
  dd_AuthorizationEndpoint : string;
  dd_EndSessionEndpoint : string;
  dd_IntrospectionEndpoint : string;
  dd_Issuer : string;
  dd_JWKSURI : string;
  dd_RevocationEndpoint : string;
  dd_TokenEndpoint : string;
  dd_UserinfoEndpoint : string
}.

Definition empty_discovery : OidcDiscovery := {|
  dd_AuthorizationEndpoint := ""; dd_EndSessionEndpoint := ""; dd_IntrospectionEndpoint := "";
  dd_Issuer := ""; dd_JWKSURI := ""; dd_RevocationEndpoint := ""; dd_TokenEndpoint := "";
  dd_UserinfoEndpoint := "" |}.

Definition discovery_strings : list string := [
  "backchannel_authentication_endpoint"; "check_session_iframe"; "device_authorization_endpoint";
  "pushed_authorization_request_endpoint"; "registration_endpoint" ].

Definition discovery_bools : list string := [
  "backchannel_logout_session_supported"; "backchannel_logout_supported";
  "claims_parameter_supported"; "frontchannel_logout_session_supported";
  "frontchannel_logout_supported"; "http_logout_supported"; "request_parameter_supported";
  "request_uri_parameter_supported"; "require_pushed_authorization_requests";
  "require_request_uri_registration"; "tls_client_certificate_bound_access_tokens" ].

Definition discovery_lists : list string := [
  "acr_values_supported"; "authorization_encryption_alg_values_supported";
  "authorization_encryption_enc_values_supported"; "authorization_signing_alg_values_supported";
  "backchannel_authentication_request_signing_alg_values_supported";
  "backchannel_token_delivery_modes_supported"; "claims_supported"; "claim_types_supported";
  "code_challenge_methods_supported"; "display_values_supported"; "grant_types_supported";
  "id_token_encryption_alg_values_supported"; "id_token_encryption_enc_values_supported";
  "id_token_signing_alg_values_supported"; "introspection_endpoint_auth_methods_supported";
  "introspection_endpoint_auth_signing_alg_values_supported";
  "request_object_encryption_alg_values_supported"; "request_object_encryption_enc_values_supported";
  "request_object_signing_alg_values_supported"; "response_modes_supported";
  "response_types_supported"; "revocation_endpoint_auth_methods_supported";
  "revocation_endpoint_auth_signing_alg_values_supported"; "scopes_supported";
  "subject_types_supported"; "token_endpoint_auth_methods_supported";
  "token_endpoint_auth_signing_alg_values_supported"; "userinfo_encryption_alg_values_supported";
  "userinfo_encryption_enc_values_supported"; "userinfo_signing_alg_values_supported" ].

Definition discovery_fields : list (string * (json -> OidcDiscovery -> result OidcDiscovery)) :=
  let str (f : OidcDiscovery -> string) (g : string -> OidcDiscovery -> OidcDiscovery) j d :=
    let? v := dec_string (f d) j in Ok (g v d) in
  [ ("authorization_endpoint", str dd_AuthorizationEndpoint (fun v d =>
      Build_OidcDiscovery v (dd_EndSessionEndpoint d) (dd_IntrospectionEndpoint d) (dd_Issuer d)
        (dd_JWKSURI d) (dd_RevocationEndpoint d) (dd_TokenEndpoint d) (dd_UserinfoEndpoint d)));
    ("end_session_endpoint", str dd_EndSessionEndpoint (fun v d =>
      Build_OidcDiscovery (dd_AuthorizationEndpoint d) v (dd_IntrospectionEndpoint d) (dd_Issuer d)
        (dd_JWKSURI d) (dd_RevocationEndpoint d) (dd_TokenEndpoint d) (dd_UserinfoEndpoint d)));
    ("introspection_endpoint", str dd_IntrospectionEndpoint (fun v d =>
      Build_OidcDiscovery (dd_AuthorizationEndpoint d) (dd_EndSessionEndpoint d) v (dd_Issuer d)
        (dd_JWKSURI d) (dd_RevocationEndpoint d) (dd_TokenEndpoint d) (dd_UserinfoEndpoint d)));
    ("issuer", str dd_Issuer (fun v d =>
      Build_OidcDiscovery (dd_AuthorizationEndpoint d) (dd_EndSessionEndpoint d)
        (dd_IntrospectionEndpoint d) v (dd_JWKSURI d) (dd_RevocationEndpoint d) (dd_TokenEndpoint d)
        (dd_UserinfoEndpoint d)));
    ("jwks_uri", str dd_JWKSURI (fun v d =>
      Build_OidcDiscovery (dd_AuthorizationEndpoint d) (dd_EndSessionEndpoint d)
        (dd_IntrospectionEndpoint d) (dd_Issuer d) v (dd_RevocationEndpoint d) (dd_TokenEndpoint d)
        (dd_UserinfoEndpoint d)));
    ("revocation_endpoint", str dd_RevocationEndpoint (fun v d =>
      Build_OidcDiscovery (dd_AuthorizationEndpoint d) (dd_EndSessionEndpoint d)
        (dd_IntrospectionEndpoint d) (dd_Issuer d) (dd_JWKSURI d) v (dd_TokenEndpoint d)
        (dd_UserinfoEndpoint d)));
    ("token_endpoint", str dd_TokenEndpoint (fun v d =>
      Build_OidcDiscovery (dd_AuthorizationEndpoint d) (dd_EndSessionEndpoint d)
        (dd_IntrospectionEndpoint d) (dd_Issuer d) (dd_JWKSURI d) (dd_RevocationEndpoint d) v
        (dd_UserinfoEndpoint d)));
    ("userinfo_endpoint", str dd_UserinfoEndpoint (fun v d =>
      Build_OidcDiscovery (dd_AuthorizationEndpoint d) (dd_EndSessionEndpoint d)
        (dd_IntrospectionEndpoint d) (dd_Issuer d) (dd_JWKSURI d) (dd_RevocationEndpoint d)
        (dd_TokenEndpoint d) v)) ]
  ++ map (fun n => (n, fun j d => let? _ := dec_string "" j in Ok d)) discovery_strings
  ++ map (fun n => (n, fun j d => let? _ := dec_bool false j in Ok d)) discovery_bools
  ++ map (fun n => (n, fun j d => let? _ := dec_strings j in Ok d)) discovery_lists.

(** ** Token responses *)

Record OidcTokenResponse := {
  tr_AccessToken : string;
  tr_IdToken : string;
  tr_TokenType : string;
  tr_ExpiresIn : Z;
  tr_RefreshToken : string
}.

Definition empty_tokens : OidcTokenResponse :=
  {| tr_AccessToken := ""; tr_IdToken := ""; tr_TokenType := ""; tr_ExpiresIn := 0; tr_RefreshToken := "" |}.

Definition token_fields : list (string * (json -> OidcTokenResponse -> result OidcTokenResponse)) := [
  ("access_token", fun j t => let? v := dec_string (tr_AccessToken t) j in
     Ok (Build_OidcTokenResponse v (tr_IdToken t) (tr_TokenType t) (tr_ExpiresIn t) (tr_RefreshToken t)));
  ("id_token", fun j t => let? v := dec_string (tr_IdToken t) j in
     Ok (Build_OidcTokenResponse (tr_AccessToken t) v (tr_TokenType t) (tr_ExpiresIn t) (tr_RefreshToken t)));
  ("token_type", fun j t => let? v := dec_string (tr_TokenType t) j in
     Ok (Build_OidcTokenResponse (tr_AccessToken t) (tr_IdToken t) v (tr_ExpiresIn t) (tr_RefreshToken t)));
  ("expires_in", fun j t => let? v := dec_int (tr_ExpiresIn t) j in
     Ok (Build_OidcTokenResponse (tr_AccessToken t) (tr_IdToken t) (tr_TokenType t) v (tr_RefreshToken t)));
  ("refresh_token", fun j t => let? v := dec_string (tr_RefreshToken t) j in
     Ok (Build_OidcTokenResponse (tr_AccessToken t) (tr_IdToken t) (tr_TokenType t) (tr_ExpiresIn t) v))
].

(** ** The middleware *)

(** [sessionWriteTracker] of [src/main.go]; a nil map is an empty one. *)
Record sessionWriteTracker := { sw_last : gmap string time; sw_count : Z }.

Record Toa := {
  t_ProviderURL : URL;
  t_ClientJwtPrivateKey : option string;
  t_CallbackURL : URL;
  t_Config : Config;
  t_DiscoveryDocument : option OidcDiscovery;
  t_Jwks : JwksHandler;
  t_BypassAuthenticationRule : option condition;
  t_RedirectUriWildcardsEnabled : bool;
  t_validIssuer : string;
  t_validAudience : string;
  t_sessionWrites : sessionWriteTracker
}.

Definition set_Jwks (j : JwksHandler) (t : Toa) : Toa := {|
  t_ProviderURL := t_ProviderURL t; t_ClientJwtPrivateKey := t_ClientJwtPrivateKey t;
  t_CallbackURL := t_CallbackURL t; t_Config := t_Config t;
  t_DiscoveryDocument := t_DiscoveryDocument t; t_Jwks := j;
  t_BypassAuthenticationRule := t_BypassAuthenticationRule t;
  t_RedirectUriWildcardsEnabled := t_RedirectUriWildcardsEnabled t; t_validIssuer := t_validIssuer t;
  t_validAudience := t_validAudience t; t_sessionWrites := t_sessionWrites t |}.

(** ** The JWT library *)

Record ParserOptions := {
  jo_ExpirationRequired : bool;
  jo_Leeway : duration;
  jo_ValidMethods : list string;
  jo_Issuer : option string;
  jo_Audience : option string
}.

(** [parser.ParseWithClaims] at an instant, with a key function, and
    [SignedString] with the header's key id. *)
Class Jwt := {
  jwt_ParseWithClaims : ParserOptions -> time -> (Token -> result PublicKey) -> string -> result claims;
  jwt_Sign : string -> string -> claims -> result string;
  jwt_ErrTokenExpired : string
}.

(** What a parsed token has been checked for: it is signed with the key the
    key function chose, its method is listed, and issuer and audience are the
    expected ones when they are given. *)
Class JwtLaws `{Jwt} := {
  jwt_Signed : string -> Token -> PublicKey -> claims -> Prop;
  jwt_Audience : claims -> string -> Prop;
  jwt_Parse_sound opts now kf tok c :
    jwt_ParseWithClaims opts now kf tok = Ok c ->
    exists token key alg,
      kf token = Ok key /\ jwt_Signed tok token key c
      /\ t_Alg token = Some alg /\ alg ∈ jo_ValidMethods opts
      /\ (forall iss, jo_Issuer opts = Some iss -> iss <> "" -> c !! "iss" = Some (JStr iss))
      /\ (forall aud, jo_Audience opts = Some aud -> aud <> "" -> jwt_Audience c aud)
}.

(** [int64(v)] of the [float64] a JSON number decodes to. *)
Class FloatInt := { float_int64 : string -> Z }.

(** [secretValuePattern.ReplaceAll(body, "${1}[REDACTED]")]. *)
Class SecretPattern := { secretValuePattern_ReplaceAll : string -> string }.

(** What the validation functions return: [(ok, claims, err)]. *)
Definition validation := (bool * claims * option error)%type.

Definition invalid (e : error) : validation := (false, ∅, Some e).

Section Pure.

Definition oidcTimeout (c : Config) : duration :=
  match Provider c with
  | None => defaultOidcTimeout
  | Some p => if pv_OidcTimeoutSeconds p <=? 0 then defaultOidcTimeout else seconds (pv_OidcTimeoutSeconds p)
  end.

Definition scrubSecret (body secret : string) : string :=
  if String.eqb secret "" then body else ReplaceAll body secret "[REDACTED]".

Definition capIdcErrorBody `{SecretPattern} (c : Config) (body : string) : string :=
  let body :=
    match Provider c with
    | None => body
    | Some p => scrubSecret (scrubSecret body (pv_ClientSecret p)) (pv_ClientId p)
    end in
  let body := secretValuePattern_ReplaceAll body in
  if (maxIdcErrorBody <? slen body)%nat then stake maxIdcErrorBody body +:+ "...(truncated)" else body.

Definition ConstantTimeEqual (a b : string) : bool := String.eqb a b.

Definition oidcNonceMatches (claimNonce expected : string) : bool := ConstantTimeEqual claimNonce expected.

Definition isTokenExpiredError `{Jwt} (e : error) : bool := Contains (error_text e) jwt_ErrTokenExpired.

(** [claims[key].(string)] *)
Definition string_claim (c : claims) (key : string) : option string :=
  match c !! key with Some (JStr s) => Some s | _ => None end.

Definition protectedClaims : list string := ["iss"; "aud"; "exp"; "iat"; "nbf"; "jti"; "azp"].

Definition mergeClaims (tokenClaims userInfoClaims : claims) : claims :=
  map_fold (fun key value merged =>
              if negb (slice_contains protectedClaims key) then <[key := value]> merged else merged)
    tokenClaims userInfoClaims.

Definition authParamsForChallenge (c : Config) (isChallenge : bool) : list (string * string) :=
  match Provider c with
  | None => []
  | Some p =>
      if negb isChallenge then []
      else if pv_MaxAuthAgeSeconds p <=? 0 then []
      else [("max_age", Itoa (pv_MaxAuthAgeSeconds p))]
  end.

(** [time.Unix(sec, 0)]: the seconds from year 1 wrap in an [int64]. *)
Definition Unix (sec : Z) : time := wrap64 (sec + 62135596800) * Second.

Section AuthTime.
Context `{TimeText, FloatInt}.

Definition authTimeFromClaims (c : claims) : option time :=
  match c !! "auth_time" with
  | Some (JNum lit) => Some (Unix (float_int64 lit))
  | Some (JStr value) =>
      match time_Parse_RFC3339 value with
      | Ok parsed => Some parsed
      | Err _ => match Atoi value with Some seconds => Some (Unix seconds) | None => None end
      end
  | _ => None
  end.

Definition authTimeIsFresh (cfg : Config) (c : claims) (now : time) : bool :=
  match Provider cfg with
  | None => true
  | Some p =>
      if pv_MaxAuthAgeSeconds p <=? 0 then true
      else match authTimeFromClaims c with
           | None => false
           | Some authTime =>
               let maxAge := seconds (pv_MaxAuthAgeSeconds p) in
               negb (Before (Add authTime maxAge) now)
           end
  end.
End AuthTime.
End Pure.

(** [hex.EncodeToString] *)
Fixpoint hex_encode (s : string) : string :=
  match s with
  | EmptyString => ""
  | String c r =>
      let d n := lower_char (hex_digit n) in
      String (d (nat_of_ascii c / 16)%nat) (String (d (nat_of_ascii c mod 16)%nat) (hex_encode r))
  end.

Section Operations.
Context `{Unicode, JsonText, UrlLib, External, Jwt, Aead}.

(** The provider configuration, dereferenced. *)
Definition provider : M Toa ProviderConfig :=
  c ← gets t_Config;
  match Provider c with Some p => mret p | None => panic end.

Definition jwks_EnsureLoaded (force : bool) : M Toa (result unit) :=
  zoom t_Jwks set_Jwks (EnsureLoaded force).

Definition randomBytesInHex (count : nat) : M Toa (result string) :=
  let! buf := rand_Read count in lift (Ok (hex_encode buf)).

Definition GetOidcDiscovery (providerUrl : URL) : M Toa (result OidcDiscovery) :=
  let wellKnownUrl :=
    {| u_Scheme := u_Scheme providerUrl; u_Host := u_Host providerUrl;
       u_Path := path_Join (u_Path providerUrl) ".well-known/openid-configuration";
       u_RawQuery := u_RawQuery providerUrl |} in
  match NewRequest "GET" (url_String wellKnownUrl) [] "" with
  | Err _ => lift (errorf "HTTP GET error")
  | Ok req =>
      r ← client_Do req;
      match r with
      | Err _ => lift (errorf "HTTP GET error")
      | Ok resp =>
          if 300 <=? p_Status resp then lift (errorf "HTTP error - Status code")
          else match (let? j := json_decode (stake maxOidcResponseBody (p_Body resp)) in
                      dec_struct discovery_fields j empty_discovery) with
               | Ok document => lift (Ok document)
               | Err _ => lift (errorf "failed to decode OIDC discovery document")
               end
      end
  end.

(** The signing key is present. *)
Definition getClientAssertionJwtToken (key : string) : M Toa (result string) :=
  p ← provider;
  iat ← time_Now;
  exp ← time_Now;
  let unix t := Itoa (t / Second - 62135596800) in
  let c : claims :=
    <["iss" := JStr (pv_ClientId p)]> (<["sub" := JStr (pv_ClientId p)]>
      (<["aud" := JStr (pv_Url p)]> (<["iat" := JNum (unix iat)]>
        (<["exp" := JNum (unix (Add exp (5 * Minute)))]> ∅)))) in
  lift (jwt_Sign key (pv_ClientJwtPrivateKeyId p) c).

(** The client assertion parameters, when a key is configured. *)
Definition addClientAssertion (v : values) : M Toa (result values) :=
  k ← gets t_ClientJwtPrivateKey;
  match k with
  | None => lift (Ok v)
  | Some key =>
      let! clientAssertionToken := getClientAssertionJwtToken key in
      lift (Ok (values_Add (values_Add v "client_assertion_type"
                              "urn:ietf:params:oauth:client-assertion-type:jwt-bearer")
                  "client_assertion" clientAssertionToken))
  end.

Definition form_header : list (string * string) :=
  [("Content-Type", "application/x-www-form-urlencoded")].

(** The body of a response, refused when it exceeds the cap. *)
Definition read_body (resp : HttpResponse) (too_large : string) : result string :=
  let? body := read_limited (S maxOidcResponseBody) resp in
  if (maxOidcResponseBody <? slen body)%nat then errorf too_large else Ok body.

Definition postFormToTokenEndpoint (urlValues : values) : M Toa (result OidcTokenResponse) :=
  doc ← gets t_DiscoveryDocument;
  match doc with
  | None => lift (errorf "token_endpoint is not set")
  | Some d =>
      if String.eqb (dd_TokenEndpoint d) "" then lift (errorf "token_endpoint is not set")
      else
        let! req := lift (NewRequest "POST" (dd_TokenEndpoint d) form_header (values_Encode urlValues)) in
        let! resp := client_Do req in
        if negb (p_Status resp =? StatusOK) then lift (errorf "invalid status code")
        else
          let! body := lift (read_body resp "token response too large") in
          lift (let? j := json_parse body in dec_struct token_fields j empty_tokens)
  end.

Definition exchangeAuthCode (redirectUrl authCode codeVerifierEnc : string)
  : M Toa (result OidcTokenResponse) :=
  c ← gets t_Config;
  p ← provider;
  let v : values :=
    <["grant_type" := ["authorization_code"]]> (<["client_id" := [pv_ClientId p]]>
      (<["code" := [authCode]]> (<["redirect_uri" := [redirectUrl]]>
        (<["resource" := RequestedResources c]> ∅)))) in
  let v := if negb (String.eqb (pv_ClientSecret p) "")
           then values_Add v "client_secret" (pv_ClientSecret p) else v in
  let! v := addClientAssertion v in
  if pv_UsePkceBool p then
    if String.eqb codeVerifierEnc "" then lift (errorf "missing PKCE code verifier in state")
    else
      let! codeVerifier := lift (Decrypt codeVerifierEnc (Secret c)) in
      postFormToTokenEndpoint (values_Add v "code_verifier" codeVerifier)
  else postFormToTokenEndpoint v.

Definition renewToken (refreshToken : string) : M Toa (result OidcTokenResponse) :=
  c ← gets t_Config;
  p ← provider;
  let v : values :=
    <["grant_type" := ["refresh_token"]]> (<["client_id" := [pv_ClientId p]]>
      (<["scope" := [Join (Scopes c) " "]]> (<["refresh_token" := [refreshToken]]>
        (<["resources" := RequestedResources c]> ∅)))) in
  let v := if negb (String.eqb (pv_ClientSecret p) "")
           then values_Add v "client_secret" (pv_ClientSecret p) else v in
  let! v := addClientAssertion v in
  postFormToTokenEndpoint v.

(** One attempt: the parser reads the clock, the key function the cache. *)
Definition parse_attempt (options : ParserOptions) (tokenString : string) : M Toa (result claims) :=
  h ← gets t_Jwks;
  now ← time_Now;
  lift (jwt_ParseWithClaims options now (Keyfunc h) tokenString).

Definition parseJwtWithJwksRetry (tokenString : string) (options : ParserOptions)
  : M Toa (result claims) :=
  let! _ := jwks_EnsureLoaded false in
  r ← parse_attempt options tokenString;
  match r with
  | Ok c => lift (Ok c)
  | Err err =>
      if isTokenExpiredError err then lift (Err err)
      else
        let! _ := jwks_EnsureLoaded true in
        parse_attempt options tokenString
  end.

Definition validateTokenLocally (tokenString expectedNonce : string) : M Toa validation :=
  p ← provider;
  let options := {|
    jo_ExpirationRequired := true;
    jo_Leeway := seconds (pv_TokenClockSkewSeconds p);
    jo_ValidMethods := AllowedAlgorithms;
    jo_Issuer := if pv_ValidateIssuerBool p then Some (pv_ValidIssuer p) else None;
    jo_Audience := if pv_ValidateAudienceBool p then Some (pv_ValidAudience p) else None |} in
  r ← parseJwtWithJwksRetry tokenString options;
  match r with
  | Err err => mret (invalid err)
  | Ok parsed =>
      if negb (String.eqb expectedNonce "") && pv_ValidateNonceBool p
         && negb (oidcNonceMatches (default "" (string_claim parsed "nonce")) expectedNonce)
      then mret (invalid (ErrText "oidc nonce mismatch"))
      else mret (true, parsed, None)
  end.

Definition basic_auth (user password : string) : string * string :=
  ("Authorization", "Basic " +:+ EncodeToString StdEncoding (user +:+ ":" +:+ password)).

Definition introspectToken (token : string) : M Toa validation :=
  doc ← gets t_DiscoveryDocument;
  r ← (match doc with
       | None => lift (errorf "introspection_endpoint is not set")
       | Some d =>
           if String.eqb (dd_IntrospectionEndpoint d) "" then
             lift (errorf "introspection_endpoint is not set")
           else
             let! data := addClientAssertion {["token" := [token]]} in
             p ← provider;
             let! req := lift (NewRequest "POST" (dd_IntrospectionEndpoint d)
                                 (form_header ++ [basic_auth (pv_ClientId p) (pv_ClientSecret p)])
                                 (values_Encode data)) in
             let! resp := client_Do req in
             if negb (p_Status resp =? StatusOK) then lift (errorf "introspection returned a bad status")
             else
               let! body := lift (read_body resp "introspection response too large") in
               let! introspectResponse := lift (let? j := json_parse body in dec_map j) in
               match introspectResponse !! "active" with
               | Some (JBool active) => lift (Ok (active, introspectResponse))
               | _ => lift (errorf "received invalid introspection response")
               end
       end : M Toa (result (bool * claims)));
  match r with
  | Err err => mret (invalid err)
  | Ok (active, response) => mret (active, response, None)
  end.

Definition revokeToken `{SecretPattern} (refreshToken : string) : M Toa (result unit) :=
  c ← gets t_Config;
  doc ← gets t_DiscoveryDocument;
  match Provider c, doc with
  | Some p, Some d =>
      if negb (pv_RevokeTokensOnLogoutBool p) then lift (Ok tt)
      else if String.eqb (dd_RevocationEndpoint d) "" then lift (Ok tt)
      else if String.eqb refreshToken "" then lift (Ok tt)
      else
        let data : values := <["token" := [refreshToken]]> {["token_type_hint" := ["refresh_token"]]} in
        k ← gets t_ClientJwtPrivateKey;
        let! data :=
          match k with
          | Some key =>
              let! token := getClientAssertionJwtToken key in
              lift (Ok (values_Add (values_Add (values_Add data "client_assertion_type"
                                      "urn:ietf:params:oauth:client-assertion-type:jwt-bearer")
                                      "client_assertion" token) "client_id" (pv_ClientId p)))
          | None =>
              if String.eqb (pv_ClientSecret p) "" then
                lift (errorf "cannot revoke token: neither client assertion key nor client secret is configured")
              else
                lift (Ok (values_Add (values_Add data "client_id" (pv_ClientId p))
                            "client_secret" (pv_ClientSecret p)))
          end in
        let! req := lift (NewRequest "POST" (dd_RevocationEndpoint d) form_header (values_Encode data)) in
        let! resp := client_Do req in
        if negb (p_Status resp =? StatusOK) && negb (p_Status resp =? 204) then
          lift (errorf ("revocation returned a bad status: "
                        +:+ capIdcErrorBody c (stake maxOidcResponseBody (p_Body resp))))
        else lift (Ok tt)
  | _, _ => lift (Ok tt)
  end.

Definition getUserInfo (accessToken idTokenSubject : string) : M Toa (result claims) :=
  doc ← gets t_DiscoveryDocument;
  match doc with
  | None => lift (errorf "userinfo_endpoint is not set")
  | Some d =>
      if String.eqb (dd_UserinfoEndpoint d) "" then lift (errorf "userinfo_endpoint is not set")
      else
        let! req := lift (NewRequest "GET" (dd_UserinfoEndpoint d)
                            [("Authorization", "Bearer " +:+ accessToken)] "") in
        let! resp := client_Do req in
        if negb (p_Status resp =? StatusOK) then
          if p_Status resp =? 401 then lift (errorf "token is not valid")
          else lift (errorf "invalid status code")
        else
          let! userInfoClaims :=
            if HasPrefix (p_ContentType resp) "application/jwt" then
              let! tokenString := lift (read_body resp "userinfo response too large") in
              p ← provider;
              parseJwtWithJwksRetry tokenString {|
                jo_ExpirationRequired := false;
                jo_Leeway := seconds (pv_TokenClockSkewSeconds p);
                jo_ValidMethods := AllowedAlgorithms;
                jo_Issuer := if pv_ValidateIssuerBool p then Some (pv_ValidIssuer p) else None;
                jo_Audience := None |}
            else if HasPrefix (p_ContentType resp) "application/json" then
              lift (let? j := json_decode (stake maxOidcResponseBody (p_Body resp)) in dec_map j)
            else lift (errorf "unsupported content type") in
          match string_claim userInfoClaims "sub" with
          | None => lift (Ok ∅)
          | Some userInfoSub =>
              if negb (String.eqb userInfoSub idTokenSubject) then lift (Ok ∅)
              else lift (Ok userInfoClaims)
          end
  end.

End Operations.

(** ** What the operations may change *)

(** The provider operations change nothing of the middleware but the cache of
    keys. *)
Definition frame (t t' : Toa) : Prop := t' = set_Jwks (t_Jwks t') t.

Lemma frame_refl t : frame t t.
Proof. by destruct t. Qed.

Lemma frame_trans t1 t2 t3 : frame t1 t2 -> frame t2 t3 -> frame t1 t3.
Proof. unfold frame. intros -> ->. done. Qed.

Lemma frame_set_Jwks t j : frame t (set_Jwks j t).
Proof. done. Qed.

#[export] Hint Resolve frame_refl frame_trans frame_set_Jwks : toa.

Lemma frame_Config t t' : frame t t' -> t_Config t' = t_Config t.
Proof. by intros ->. Qed.

(** ** Between two moments of a request *)

(** The options local validation uses under a provider configuration. *)
Definition local_options (p : ProviderConfig) : ParserOptions := {|
  jo_ExpirationRequired := true;
  jo_Leeway := seconds (pv_TokenClockSkewSeconds p);
  jo_ValidMethods := AllowedAlgorithms;
  jo_Issuer := if pv_ValidateIssuerBool p then Some (pv_ValidIssuer p) else None;
  jo_Audience := if pv_ValidateAudienceBool p then Some (pv_ValidAudience p) else None |}.

Section Between.
Context `{Unicode, JsonText, UrlLib, External, Jwt, Aead}.

(** What the provider operations make of the middleware between two moments:
    the cache of keys is reloaded, and nothing else changes. *)
Definition advances (e : Env) (t : Toa) (e' : Env) (t' : Toa) : Prop :=
  frame t t' /\ reloaded e (t_Jwks t) e' (t_Jwks t').

#[export] Instance advances_passage : Passage advances.
Proof.
  split; unfold advances.
  - intros e t. split; [auto with toa | apply passage_refl].
  - intros e1 t1 e2 t2 e3 t3 [F1 R1] [F2 R2]. split; [eauto with toa | by eapply reloaded_trans].
  - intros e t. split; [auto with toa | apply passage_tick].
  - intros e t. split; [auto with toa | apply passage_draw].
  - intros q e t. split; [auto with toa | apply passage_called].
Qed.

Lemma advances_elapsed e t e' t' : advances e t e' t' -> elapsed e e'.
Proof. intros [_ R]. by eapply reloaded_elapsed. Qed.

Lemma advances_Config e t e' t' : advances e t e' t' -> t_Config t' = t_Config t.
Proof. intros [F _]. by apply frame_Config. Qed.

Lemma advances_frame e t e' t' : advances e t e' t' -> frame t t'.
Proof. by intros []. Qed.

(** The token [tok] was verified between two moments, with claims [c]: under
    the options of [p], at a reading of the clock in between, with the keys
    that the cache held at that moment. *)
Definition verified (p : ProviderConfig) (tok : string) (c : claims) (e : Env) (t : Toa) (e' : Env) (t' : Toa)
  : Prop :=
  exists e1 t1, advances e t e1 t1
    /\ jwt_ParseWithClaims (local_options p) (clock (e_ticks e1)) (Keyfunc (t_Jwks t1)) tok = Ok c
    /\ advances (tick e1) t1 e' t'.

(** A question to the introspection endpoint about [tok]: the client names
    itself, and the form carries the token. *)
Definition introspection_query (d : OidcDiscovery) (p : ProviderConfig) (tok : string) (q : HttpRequest)
  : Prop :=
  q_Method q = "POST" /\ q_Url q = dd_IntrospectionEndpoint d
  /\ basic_auth (pv_ClientId p) (pv_ClientSecret p) ∈ q_Header q
  /\ exists data, q_Body q = values_Encode data /\ data !! "token" = Some [tok].

(** What a response says about it: status 200, and an object whose [active]
    member is a Boolean. *)
Definition introspection_says (resp : HttpResponse) (active : bool) (c : claims) : Prop :=
  p_Status resp = StatusOK /\ (slen (p_Body resp) <= maxOidcResponseBody)%nat /\ p_BodyErr resp = None
  /\ exists j, json_parse (p_Body resp) = Ok j /\ dec_map j = Ok c /\ c !! "active" = Some (JBool active).

(** The provider has said so between two moments. *)
Definition introspected (t : Toa) (p : ProviderConfig) (tok : string) (active : bool) (c : claims)
    (e e' : Env) : Prop :=
  exists d q resp, t_DiscoveryDocument t = Some d /\ introspection_query d p tok q
    /\ answered e e' q (Ok resp) /\ introspection_says resp active c.

(** The provider was asked once, and said so; or it was asked and said nothing,
    or it was not asked, for want of an endpoint that can be asked or with a
    client key that did not sign. *)
Definition told (t : Toa) (p : ProviderConfig) (tok : string) (active : bool) (c : claims) (e e' : Env) : Prop :=
  exists d q resp, t_DiscoveryDocument t = Some d /\ introspection_query d p tok q
    /\ e_calls e' = e_calls e ++ [q] /\ http_Do (e_calls e) q = Ok resp /\ introspection_says resp active c.

Definition untold (t : Toa) (p : ProviderConfig) (tok : string) (e e' : Env) : Prop :=
  (e_calls e' = e_calls e
   /\ forall d, t_DiscoveryDocument t = Some d ->
        dd_IntrospectionEndpoint d = "" \/ is_Ok (url_Parse (dd_IntrospectionEndpoint d)) = false
        \/ t_ClientJwtPrivateKey t <> None)
  \/ exists d q, t_DiscoveryDocument t = Some d /\ introspection_query d p tok q
       /\ e_calls e' = e_calls e ++ [q]
       /\ forall resp active c, http_Do (e_calls e) q = Ok resp -> ~ introspection_says resp active c.

(** The request for the tokens of an authorisation code: for the code, the
    callback URL it was sent to, and with PKCE the verifier that the state
    carries encrypted. *)
Definition code_query (t : Toa) (d : OidcDiscovery) (p : ProviderConfig) (redirectUrl code verifierEnc : string)
    (q : HttpRequest) : Prop :=
  q_Method q = "POST" /\ q_Url q = dd_TokenEndpoint d
  /\ exists data, q_Body q = values_Encode data
       /\ data !! "grant_type" = Some ["authorization_code"] /\ data !! "client_id" = Some [pv_ClientId p]
       /\ data !! "code" = Some [code] /\ data !! "redirect_uri" = Some [redirectUrl]
       /\ (pv_UsePkceBool p = true ->
           exists verifier, Decrypt verifierEnc (Secret (t_Config t)) = Ok verifier
             /\ data !! "code_verifier" = Some [verifier]).

(** What the token endpoint grants in its answer. *)
Definition grants (resp : HttpResponse) (token : OidcTokenResponse) : Prop :=
  p_Status resp = StatusOK /\ (slen (p_Body resp) <= maxOidcResponseBody)%nat /\ p_BodyErr resp = None
  /\ exists j, json_parse (p_Body resp) = Ok j /\ dec_struct token_fields j empty_tokens = Ok token.

(** The provider granted [token] for a code between two moments. *)
Definition granted (t : Toa) (redirectUrl code verifierEnc : string) (token : OidcTokenResponse) (e e' : Env)
  : Prop :=
  exists d p q resp, t_DiscoveryDocument t = Some d /\ Provider (t_Config t) = Some p
    /\ code_query t d p redirectUrl code verifierEnc q
    /\ answered e e' q (Ok resp) /\ grants resp token.

Lemma granted_widen t u code v token e1 e2 e3 e4 :
  elapsed e1 e2 -> granted t u code v token e2 e3 -> elapsed e3 e4 -> granted t u code v token e1 e4.
Proof.
  intros E1 (d & p & q & resp & Hd & Hp & Hq & Ha & Hg) E2. exists d, p, q, resp.
  split_and!; [done..| by eapply answered_widen | done].
Qed.

Lemma told_introspected t p tok a c e e' : told t p tok a c e e' -> introspected t p tok a c e e'.
Proof.
  intros (d & q & resp & Hd & Hq & He & Hr & Hs). exists d, q, resp. split_and!; try done.
  exists (e_calls e). by rewrite He.
Qed.

Lemma verified_widen p tok c e t e1 t1 e2 t2 e' t' :
  advances e t e1 t1 -> verified p tok c e1 t1 e2 t2 -> advances e2 t2 e' t' -> verified p tok c e t e' t'.
Proof.
  intros A1 (e3 & t3 & A2 & Hp & A3) A4. exists e3, t3. split_and!; [|done|]; by eapply passage_trans.
Qed.

Lemma introspected_widen t t' p tok a c e1 e2 e3 e4 :
  frame t t' -> elapsed e1 e2 -> introspected t' p tok a c e2 e3 -> elapsed e3 e4 ->
  introspected t p tok a c e1 e4.
Proof.
  intros F E1 (d & q & resp & Hd & Hq & Ha & Hs) E2. exists d, q, resp. rewrite F in Hd.
  split_and!; [done..| by eapply answered_widen | done].
Qed.

(** All operations on the provider advance. *)
Lemma provider_advances : respects advances provider.
Proof. unfold provider. go_respects. Qed.

Lemma jwks_EnsureLoaded_advances force : respects advances (jwks_EnsureLoaded force).
Proof.
  unfold jwks_EnsureLoaded. eapply respects_zoom; [apply EnsureLoaded_reloaded|].
  intros e t e' h' R. by split.
Qed.
#[local] Hint Resolve provider_advances jwks_EnsureLoaded_advances : respects.
#[local] Opaque provider jwks_EnsureLoaded.

Lemma addClientAssertion_advances v : respects advances (addClientAssertion v).
Proof. unfold addClientAssertion, getClientAssertionJwtToken. go_respects. Qed.
#[local] Hint Resolve addClientAssertion_advances : respects.

Lemma postForm_advances v : respects advances (postFormToTokenEndpoint v).
Proof. unfold postFormToTokenEndpoint. go_respects. Qed.
#[local] Hint Resolve postForm_advances : respects.
#[local] Opaque addClientAssertion postFormToTokenEndpoint.

Lemma exchangeAuthCode_advances u c v : respects advances (exchangeAuthCode u c v).
Proof. unfold exchangeAuthCode. go_respects. Qed.

Lemma renewToken_advances r : respects advances (renewToken r).
Proof. unfold renewToken. go_respects. Qed.

Lemma parseJwtWithJwksRetry_advances tok o : respects advances (parseJwtWithJwksRetry tok o).
Proof. unfold parseJwtWithJwksRetry, parse_attempt. go_respects. Qed.
#[local] Hint Resolve parseJwtWithJwksRetry_advances : respects.
#[local] Opaque parseJwtWithJwksRetry.

Lemma validateTokenLocally_advances tok n : respects advances (validateTokenLocally tok n).
Proof. unfold validateTokenLocally. go_respects. Qed.

Lemma introspectToken_advances tok : respects advances (introspectToken tok).
Proof. unfold introspectToken. go_respects. Qed.

Lemma getUserInfo_advances acc sub : respects advances (getUserInfo acc sub).
Proof. unfold getUserInfo. go_respects. Qed.
End Between.

#[export] Hint Resolve provider_advances exchangeAuthCode_advances renewToken_advances
  validateTokenLocally_advances introspectToken_advances getUserInfo_advances : respects.

Lemma string_claim_Some c k s : string_claim c k = Some s <-> c !! k = Some (JStr s).
Proof.
  unfold string_claim. destruct (c !! k) as [[]|]; split; try done; by intros [= ->].
Qed.

(** ** Outcomes

    The only way the provider operations can panic is a configuration without
    a provider section; [P] below is what that would mean for the caller. *)

Section Outcomes.
Context `{Unicode, JsonText, UrlLib, External, Jwt, Aead}.
Context (P : Prop).
Implicit Types (e : Env) (t : Toa).

Definition no_provider t : Prop := Provider (t_Config t) = None.

Lemma frame_provider t t' : frame t t' -> no_provider t' -> no_provider t.
Proof. unfold no_provider. by intros ->%frame_Config. Qed.

Lemma provider_ok e t Q :
  (no_provider t -> P) -> (forall p, Provider (t_Config t) = Some p -> Q p e t) ->
  outcome P provider e t Q.
Proof. unfold no_provider. intros HP HQ. unfold provider. m_step. m_step. m_case; m_step; [by apply HQ | by apply HP]. Qed.
#[local] Opaque provider.

Lemma jwks_EnsureLoaded_ok force e t :
  outcome P (jwks_EnsureLoaded force) e t (fun r e' t' => frame t t').
Proof.
  unfold jwks_EnsureLoaded. apply outcome_zoom. eapply outcome_mono; [apply EnsureLoaded_runs | done |]. done.
Qed.
#[local] Opaque jwks_EnsureLoaded.

Lemma getClientAssertionJwtToken_ok key e t :
  (no_provider t -> P) ->
  outcome P (getClientAssertionJwtToken key) e t (fun _ _ t' => t' = t).
Proof.
  intros HP. unfold getClientAssertionJwtToken. wp. apply provider_ok; [done|]. intros p _. by wp.
Qed.
#[local] Opaque getClientAssertionJwtToken.

Lemma addClientAssertion_ok v e t :
  (no_provider t -> P) -> outcome P (addClientAssertion v) e t (fun _ _ t' => t' = t).
Proof.
  intros HP. unfold addClientAssertion. wp; [|done].
  m_call getClientAssertionJwtToken_ok; [done|]. intros r e' t' ->. by wp.
Qed.
#[local] Opaque addClientAssertion.

Lemma postForm_ok v e t : outcome P (postFormToTokenEndpoint v) e t (fun _ _ t' => t' = t).
Proof. unfold postFormToTokenEndpoint. by wp. Qed.
#[local] Opaque postFormToTokenEndpoint.

Lemma renewToken_ok r e t :
  (no_provider t -> P) -> outcome P (renewToken r) e t (fun _ _ t' => t' = t).
Proof.
  intros HP. unfold renewToken. wp. apply provider_ok; [done|]. intros p _. wp.
  m_call addClientAssertion_ok; [done|]. intros [v|] e' t' ->; [|done]. apply postForm_ok.
Qed.

Lemma parse_attempt_ok o tok e t : outcome P (parse_attempt o tok) e t
  (fun r e' t' => t' = t /\ e' = tick e
     /\ r = jwt_ParseWithClaims o (clock (e_ticks e)) (Keyfunc (t_Jwks t)) tok).
Proof. unfold parse_attempt. by wp. Qed.
#[local] Opaque parse_attempt.

(** Parsing a token, whether or not the keys are reloaded for it, checks it
    with the keys the cache ends with, as the last thing it does. *)
Lemma parseJwtWithJwksRetry_ok tok o e t :
  outcome P (parseJwtWithJwksRetry tok o) e t (fun r e' t' =>
    frame t t' /\ forall c, r = Ok c -> exists e1,
      advances e t e1 t' /\ e' = tick e1
      /\ jwt_ParseWithClaims o (clock (e_ticks e1)) (Keyfunc (t_Jwks t')) tok = Ok c).
Proof.
  unfold parseJwtWithJwksRetry. m_step. m_call (outcome_respects advances); [apply jwks_EnsureLoaded_advances | apply jwks_EnsureLoaded_ok |].
  intros [[]|err] e1 t1 [F1 A1]; [|done]. m_step. m_call parse_attempt_ok.
  intros r e2 t2 (-> & -> & ->).
  destruct (jwt_ParseWithClaims _ _ _ _) as [c|err] eqn:Hc; [wp; split; [done|]; intros c' [= <-]; eauto|].
  wp; [done|]. m_call (outcome_respects advances); [apply jwks_EnsureLoaded_advances | apply jwks_EnsureLoaded_ok |].
  intros r3 e3 t3 [F3 A3]. wp; [|split; [eauto with toa | done]].
  m_call parse_attempt_ok. intros r e4 t4 (-> & -> & ->). split; [eauto with toa|].
  intros c Hc'. exists e3. split_and!; [|done..]. eapply passage_trans; [exact A1|].
  eapply passage_trans; [apply passage_tick | exact A3].
Qed.
#[local] Opaque parseJwtWithJwksRetry.

(** The assertion of the client is added to the form, and no request is made
    for it; it can fail only if there is a key. *)
Lemma addClientAssertion_form v e t :
  (no_provider t -> P) ->
  outcome P (addClientAssertion v) e t (fun r e' t' => t' = t /\ e_calls e' = e_calls e
    /\ match r with
       | Ok v' => forall k, k ∉ ["client_assertion_type"; "client_assertion"] -> v' !! k = v !! k
       | Err _ => t_ClientJwtPrivateKey t <> None
       end).
Proof.
  Transparent addClientAssertion getClientAssertionJwtToken.
  intros HP. unfold addClientAssertion, getClientAssertionJwtToken. wp; [apply provider_ok; [done|]; intros p _; wp|done].
  - split_and!; [done..|]. intros k Hk. unfold values_Add. rewrite !lookup_insert_ne; [done|set_solver..].
  - split_and!; [done..|]. congruence.
Qed.
#[local] Opaque addClientAssertion getClientAssertionJwtToken.

Lemma read_limited_Ok n resp body :
  read_limited (S n) resp = Ok body -> (slen body <= n)%nat ->
  body = p_Body resp /\ p_BodyErr resp = None.
Proof.
  unfold read_limited. destruct (Nat.leb_spec (S n) (slen (p_Body resp))).
  - intros E. assert (body = stake (S n) (p_Body resp)) as -> by congruence. rewrite slen_stake. lia.
  - destruct (p_BodyErr resp); [done|]. intros E _. split; congruence.
Qed.

Lemma read_limited_whole n resp :
  (slen (p_Body resp) <= n)%nat -> p_BodyErr resp = None -> read_limited (S n) resp = Ok (p_Body resp).
Proof.
  intros Hl He. unfold read_limited. rewrite He. by destruct (Nat.leb_spec (S n) (slen (p_Body resp))); [lia|].
Qed.

(** The body of a response counts only as a whole. *)
Lemma read_body_Ok resp msg body :
  read_body resp msg = Ok body
  <-> body = p_Body resp /\ (slen (p_Body resp) <= maxOidcResponseBody)%nat /\ p_BodyErr resp = None.
Proof.
  unfold read_body. generalize maxOidcResponseBody. intros n. split.
  - intros (b & Hb & Hm)%rbind_Ok_inv. destruct (Nat.ltb_spec n (slen b)); [done|].
    assert (b = body) as -> by congruence. apply read_limited_Ok in Hb as [-> He]; [|lia]. by split_and!; [|lia|].
  - intros (-> & Hl & He). rewrite read_limited_whole by done. cbn [rbind].
    by destruct (Nat.ltb_spec n (slen (p_Body resp))); [lia|].
Qed.

Lemma disjoint_lists (l1 l2 : list string) :
  bool_decide (Forall (fun k => k ∉ l2) l1) = true -> forall k, k ∈ l1 -> k ∈ l2 -> False.
Proof. intros Hl%bool_decide_eq_true k. rewrite Forall_forall in Hl. by intros ?%Hl. Qed.

(** The tokens that the token endpoint returns are those of its one answer. *)
Lemma postForm_grants v e t :
  outcome P (postFormToTokenEndpoint v) e t (fun r e' t' => t' = t /\ elapsed e e'
    /\ forall token, r = Ok token ->
       exists d q resp, t_DiscoveryDocument t = Some d
         /\ q_Method q = "POST" /\ q_Url q = dd_TokenEndpoint d /\ q_Body q = values_Encode v
         /\ answered e e' q (Ok resp) /\ grants resp token).
Proof.
  Transparent postFormToTokenEndpoint.
  unfold postFormToTokenEndpoint. m_step. m_step. destruct (t_DiscoveryDocument t) as [d|] eqn:Ed; [|by wp].
  m_case; [by wp|]. m_steps. destruct (NewRequest _ _ _ _) as [q|err] eqn:Er; [|by wp].
  assert (Hq : q_Method q = "POST" /\ q_Url q = dd_TokenEndpoint d /\ q_Body q = values_Encode v).
  { unfold NewRequest in Er. by apply rbind_Ok_inv in Er as (u & _ & [= <-]). }
  m_steps. destruct (http_Do _ _) as [resp|err] eqn:Eh; [|wp; split_and!; [done | apply elapsed_called | done]].
  destruct (Z.eqb_spec (p_Status resp) StatusOK) as [Es|Es]; cbn [negb];
    [|wp; split_and!; [done | apply elapsed_called | done]].
  m_steps. destruct (read_body resp _) as [body|err] eqn:Eb; [|wp; split_and!; [done | apply elapsed_called | done]].
  apply read_body_Ok in Eb as (-> & Hl & Hn). m_steps. split_and!; [done | apply elapsed_called|].
  intros token (j & Hj & Ht)%rbind_Ok_inv. exists d, q, resp. split_and!; try apply Hq; [done| |].
  - rewrite <- Eh. by apply answered_now.
  - split_and!; [done..|]. by exists j.
Qed.
#[local] Opaque postFormToTokenEndpoint.

Lemma exchangeAuthCode_ok u c v e t :
  (no_provider t -> P) ->
  outcome P (exchangeAuthCode u c v) e t (fun r e' t' => t' = t
    /\ forall token, r = Ok token -> granted t u c v token e e').
Proof.
  intros HP. unfold exchangeAuthCode. m_steps. apply provider_ok; [done|]. intros p Hp. m_steps.
  set (form := if negb _ then _ else _).
  set (base := <["grant_type" := _]> _ : values) in form.
  assert (Hform : forall k, k <> "client_secret" -> form !! k = base !! k).
  { intros k Hk. unfold form. destruct negb; [|done]. unfold values_Add. by rewrite lookup_insert_ne. }
  clearbody form. m_call addClientAssertion_form; [done|].
  intros [data|err] e1 t1 (-> & Hc1 & Hdata); cbv beta iota; [|by wp].
  assert (Hgrant : forall w, (forall k, k ∉ ["client_assertion_type"; "client_assertion"; "client_secret"; "code_verifier"] ->
      w !! k = data !! k) ->
    (pv_UsePkceBool p = true -> exists verifier, Decrypt v (Secret (t_Config t)) = Ok verifier
       /\ w !! "code_verifier" = Some [verifier]) ->
    outcome P (postFormToTokenEndpoint w) e1 t (fun r e' t' => t' = t
      /\ forall token, r = Ok token -> granted t u c v token e e')).
  { intros w Hw Hv. m_call postForm_grants. intros r e2 t2 (-> & [Ht2 Hc2] & Hr). split; [done|].
    intros token (d & q & resp & Hd & Hm & Hu & Hb & (calls & P1 & P2 & Ha) & Hg)%Hr.
    exists d, p, q, resp. split_and!; [done..| | |done].
    - split_and!; [done..|]. exists w. split; [done|].
      assert (Hk : forall k, k ∈ ["grant_type"; "client_id"; "code"; "redirect_uri"] ->
                w !! k = form !! k /\ k <> "client_secret").
      { intros k Hk. rewrite Hw, Hdata; [|intros Hin; revert k Hin Hk; by apply disjoint_lists..].
        split; [done|]. intros ->. revert Hk. by apply (bool_decide_unpack _). }
      assert (Hkey : forall k, k ∈ ["grant_type"; "client_id"; "code"; "redirect_uri"] -> w !! k = base !! k).
      { intros k [-> Hs]%Hk. by apply Hform. }
      split_and!; [rewrite Hkey by (by apply (bool_decide_unpack _)); reflexivity..|done].
    - exists calls. rewrite <- Hc1. done. }
  m_case; [|by apply Hgrant].
  m_case; [by wp|]. m_steps. destruct (Decrypt v _) as [plain|err] eqn:Ed; [|by wp].
  apply Hgrant.
  - intros k Hk. unfold values_Add. rewrite lookup_insert_ne; [done | set_solver].
  - intros _. exists plain. split; [done|]. unfold values_Add. rewrite lookup_insert_eq.
    by rewrite Hdata, Hform by set_solver.
Qed.

Lemma introspection_query_made d p tok data req :
  NewRequest "POST" (dd_IntrospectionEndpoint d)
    (form_header ++ [basic_auth (pv_ClientId p) (pv_ClientSecret p)]) (values_Encode data) = Ok req ->
  (forall k, k ∉ ["client_assertion_type"; "client_assertion"] -> data !! k = ({["token" := [tok]]} : values) !! k) ->
  introspection_query d p tok req.
Proof.
  unfold NewRequest. intros (u & _ & [= <-])%rbind_Ok_inv Hdata. split_and!; [done..| |].
  - cbn [q_Header]. set_solver.
  - exists data. split; [done|]. rewrite Hdata by set_solver. by rewrite lookup_singleton_eq.
Qed.

(** The contract of introspection: a result without an error is the provider's
    own answer to the one question about the token; every failure has an error
    and says that the token is not active. *)
Lemma introspectToken_ok tok e t :
  (no_provider t -> P) ->
  outcome P (introspectToken tok) e t (fun '(active, response, err) e' t' => t' = t /\
    match err with
    | None => exists p, Provider (t_Config t) = Some p /\ told t p tok active response e e'
    | Some _ => active = false /\ response = ∅
                /\ (forall p, Provider (t_Config t) = Some p -> untold t p tok e e')
    end).
Proof.
  intros HP. unfold introspectToken. m_step. m_step. destruct (t_DiscoveryDocument t) as [d|] eqn:Ed.
  2:{ wp. split_and!; [done..|]. intros p _. left. split; [done|]. congruence. }
  destruct (String.eqb_spec (dd_IntrospectionEndpoint d) "") as [Ee|Ee].
  { wp. split_and!; [done..|]. intros p _. left. split; [done|]. rewrite Ed. intros ? [= <-]. by left. }
  m_steps. m_call addClientAssertion_form; [done|]. intros [data|err] e1 t1 (-> & Hc1 & Hdata); cbv beta iota.
  2:{ wp. split_and!; [done..|]. intros p _. left. split; [done|]. rewrite Ed. intros ? [= <-]. auto. }
  m_step. apply provider_ok; [done|]. intros p Hp. m_steps.
  destruct (NewRequest _ _ _ _) as [req|err] eqn:Er.
  2:{ wp. split_and!; [done..|]. intros p' _. left. split; [done|]. rewrite Ed. intros ? [= <-]. right. left.
      unfold NewRequest in Er. by destruct url_Parse. }
  pose proof (introspection_query_made _ _ _ _ _ Er Hdata) as Hq.
  assert (Hun : forall e', e_calls e' = e_calls e1 ++ [req] ->
            (forall resp active c, http_Do (e_calls e1) req = Ok resp -> ~ introspection_says resp active c) ->
            forall p', Provider (t_Config t) = Some p' -> untold t p' tok e e').
  { intros e' Hc Hno p' Hp'. rewrite Hp in Hp'. injection Hp' as <-. right. exists d, req. rewrite <- Hc1.
    by split_and!. }
  m_steps. destruct (http_Do (e_calls e1) req) as [resp|err] eqn:Ed'.
  2:{ wp. split_and!; [done..|]. apply Hun; [done|]. done. }
  destruct (Z.eqb_spec (p_Status resp) StatusOK) as [Es|Es]; cbn [negb].
  2:{ wp. split_and!; [done..|]. apply Hun; [done|]. intros r a c [= <-] [? _]. done. }
  m_steps. destruct (read_body resp _) as [body|err] eqn:Eb.
  2:{ wp. split_and!; [done..|]. apply Hun; [done|]. intros r a c [= <-] (_ & Hl & Hn & _).
      assert (read_body resp "introspection response too large" = Ok (p_Body resp)) by (by apply read_body_Ok). congruence. }
  apply read_body_Ok in Eb as (-> & Hl & Hn). m_steps.
  destruct (let? j := json_parse (p_Body resp) in dec_map j) as [c|err] eqn:Ej.
  2:{ wp. split_and!; [done..|]. apply Hun; [done|]. intros r a c [= <-] (_ & _ & _ & j & Hj & Hm & _).
      rewrite Hj in Ej. cbn [rbind] in Ej. congruence. }
  apply rbind_Ok_inv in Ej as (j & Hj & Hm). m_steps.
  assert (Hc : forall v, c !! "active" = v -> (forall a, v <> Some (JBool a)) ->
            forall r a c', Ok resp = Ok r -> ~ introspection_says r a c').
  { intros v Hv Hno r a c' [= <-] (_ & _ & _ & j' & Hj' & Hm' & Ha).
    rewrite Hj in Hj'. injection Hj' as <-. rewrite Hm in Hm'. injection Hm' as <-. rewrite Hv in Ha. by eapply Hno. }
  destruct (c !! "active") as [[|active| | | |]|] eqn:Ea;
    try (wp; split_and!; [done..|]; apply Hun; [done|]; by refine (Hc _ eq_refl _)).
  wp. split; [done|]. exists p. split; [done|]. exists d, req, resp. rewrite <- Hc1. split_and!; try done.
  split_and!; try done. by exists j.
Qed.

Lemma revokeToken_ok `{SecretPattern} tok e t :
  (no_provider t -> P) -> outcome P (revokeToken tok) e t (fun _ _ t' => t' = t).
Proof.
  intros HP. unfold revokeToken. wp; try done.
  all: m_call getClientAssertionJwtToken_ok; try done; intros [v|] e' t' ->; by wp.
Qed.

(** Userinfo claims are used only for the subject of the token. *)
Lemma getUserInfo_ok acc sub e t :
  (no_provider t -> P) ->
  outcome P (getUserInfo acc sub) e t (fun r _ t' =>
    frame t t' /\ forall u, r = Ok u -> u = ∅ \/ u !! "sub" = Some (JStr sub)).
Proof.
  intros HP. unfold getUserInfo. wp; auto with toa.
  all: try (apply provider_ok; [done|]; intros p _; wp; m_call parseJwtWithJwksRetry_ok; intros r e' t' [F _]; wp).
  all: split; [auto with toa|]; intros u [= <-]; try (by left).
  all: right; apply string_claim_Some; boolprop; by subst.
Qed.

Lemma validateTokenLocally_ok tok nonce e t :
  (no_provider t -> P) ->
  outcome P (validateTokenLocally tok nonce) e t (fun v e' t' => frame t t' /\
    match v with
    | (ok, c, Some _) => ok = false /\ c = ∅
    | (ok, c, None) =>
        ok = true /\ exists p now,
          Provider (t_Config t) = Some p
          /\ jwt_ParseWithClaims (local_options p) now (Keyfunc (t_Jwks t')) tok = Ok c
          /\ verified p tok c e t e' t'
          /\ (nonce <> "" -> pv_ValidateNonceBool p = true -> c !! "nonce" = Some (JStr nonce))
    end).
Proof.
  intros HP. unfold validateTokenLocally. m_step. apply provider_ok; [done|]. intros p Hp.
  fold (local_options p). m_step. m_call parseJwtWithJwksRetry_ok. intros r e' t' [F Hr].
  wp; try done. split; [done|]. split; [done|]. destruct (Hr _ eq_refl) as (e1 & A1 & -> & Hnow).
  exists p, (clock (e_ticks e1)). split; [done|]. split; [done|]. split.
  { exists e1, t'. split_and!; [done..|]. apply passage_refl. }
  intros Hne Hv. apply String.eqb_neq in Hne.
  match goal with H : _ && _ && _ = false |- _ => rewrite Hne, Hv in H; simpl in H; rename H into En end.
  apply negb_false_iff in En. unfold oidcNonceMatches, ConstantTimeEqual in En.
  apply String.eqb_eq in En. apply string_claim_Some. destruct (string_claim _ _); simpl in *.
  - by subst.
  - subst. by apply String.eqb_neq in Hne.
Qed.

End Outcomes.

(** ** Properties *)

Lemma protected_lookup u : forall t k,
  mergeClaims t u !! k
  = if slice_contains protectedClaims k then t !! k
    else match u !! k with Some v => Some v | None => t !! k end.
Proof.
  intros t. unfold mergeClaims.
  apply (map_fold_weak_ind (fun merged u => forall k, merged !! k
           = if slice_contains protectedClaims k then t !! k
             else match u !! k with Some v => Some v | None => t !! k end)).
  - intros k. rewrite lookup_empty. by case_match.
  - intros k v m merged Hk IH k'. destruct (negb (slice_contains protectedClaims k)) eqn:Ep.
    + apply negb_true_iff in Ep. destruct (decide (k = k')) as [->|Hne].
      * by rewrite !lookup_insert_eq, Ep.
      * rewrite !lookup_insert_ne by done. apply IH.
    + apply negb_false_iff in Ep. rewrite IH. destruct (decide (k = k')) as [->|Hne].
      * by rewrite Ep.
      * by rewrite lookup_insert_ne.
Qed.

(** Merging userinfo claims never changes a claim about the token itself
    (issuer, audience, times, token id, authorized party); any other claim of
    the userinfo response wins, and the remaining token claims stay. *)
Theorem mergeClaims_spec t u k :
  mergeClaims t u !! k
  = if decide (k ∈ ["iss"; "aud"; "exp"; "iat"; "nbf"; "jti"; "azp"]) then t !! k
    else match u !! k with Some v => Some v | None => t !! k end.
Proof.
  rewrite protected_lookup. unfold protectedClaims. case_decide as Hd.
  - by apply slice_contains_spec in Hd as ->.
  - by apply slice_contains_false in Hd as ->.
Qed.

Section Properties.
Context `{Unicode, JsonText, UrlLib, External, Jwt, Aead}.

(** C19: local validation accepts a token only if it is signed, with an allowed
    algorithm, by a cached key that the key function chose for it; its issuer
    and audience are the configured ones when they are to be validated; and
    its nonce is the expected one.  A refusal always carries an error and no
    claims, and nothing of the middleware changes but the cache of keys. *)
Theorem validateTokenLocally_sound `{!JwtLaws} tok nonce e t p :
  Provider (t_Config t) = Some p ->
  runs (validateTokenLocally tok nonce) e t (fun '(ok, c, err) _ t' =>
    t' = set_Jwks (t_Jwks t') t
    /\ (ok = false -> c = ∅ /\ err <> None)
    /\ (ok = true -> err = None
        /\ (exists token key alg,
              Keyfunc (t_Jwks t') token = Ok key /\ jwt_Signed tok token key c
              /\ t_Alg token = Some alg /\ alg ∈ AllowedAlgorithms)
        /\ (pv_ValidateIssuerBool p = true -> pv_ValidIssuer p <> "" ->
            c !! "iss" = Some (JStr (pv_ValidIssuer p)))
        /\ (pv_ValidateAudienceBool p = true -> pv_ValidAudience p <> "" ->
            jwt_Audience c (pv_ValidAudience p))
        /\ (nonce <> "" -> pv_ValidateNonceBool p = true -> c !! "nonce" = Some (JStr nonce)))).
Proof.
  intros Hp. eapply outcome_mono; [apply (validateTokenLocally_ok False) | done |].
  { unfold no_provider. by rewrite Hp. }
  intros [[ok c] [err|]] e' t' [F Hv]; (split; [done|]).
  { destruct Hv as [-> ->]. by split. }
  destruct Hv as [-> (p' & now & Hp' & Hparse & _ & Hnonce)]. rewrite Hp in Hp'. injection Hp' as <-.
  split; [done|]. intros _. split; [done|].
  apply jwt_Parse_sound in Hparse as (token & key & alg & Hk & Hs & Ha & Hin & Hiss & Haud).
  split; [by exists token, key, alg|]. split_and!.
  - intros Hb Hne. apply Hiss; [|done]. simpl. by rewrite Hb.
  - intros Hb Hne. apply Haud; [|done]. simpl. by rewrite Hb.
  - done.
Qed.

(** C33: introspection vouches for a token only on the provider's own word.  A
    result without an error means that one request was made, a POST to the
    introspection endpoint that carries the client's credentials and the token;
    that the provider answered it with status 200 and, in a body of at most one
    MiB, an object whose [active] member is a Boolean; and the result is that
    Boolean with that object.  In every other case, whether the provider could
    not be asked, could not be reached, or answered anything else, there is an
    error, the token counts as inactive, and no claims are returned. *)
Theorem introspectToken_contract tok e t p :
  Provider (t_Config t) = Some p ->
  runs (introspectToken tok) e t (fun '(active, response, err) e' t' =>
    t' = t
    /\ match err with
       | None =>
           exists d q resp, t_DiscoveryDocument t = Some d /\ introspection_query d p tok q
             /\ e_calls e' = e_calls e ++ [q] /\ http_Do (e_calls e) q = Ok resp
             /\ introspection_says resp active response
       | Some _ =>
           active = false /\ response = ∅
           /\ ((e_calls e' = e_calls e
                /\ forall d, t_DiscoveryDocument t = Some d ->
                     dd_IntrospectionEndpoint d = ""
                     \/ is_Ok (url_Parse (dd_IntrospectionEndpoint d)) = false
                     \/ t_ClientJwtPrivateKey t <> None)
               \/ exists d q, t_DiscoveryDocument t = Some d /\ introspection_query d p tok q
                    /\ e_calls e' = e_calls e ++ [q]
                    /\ forall resp a c, http_Do (e_calls e) q = Ok resp -> ~ introspection_says resp a c)
       end).
Proof.
  intros Hp. eapply outcome_mono; [apply (introspectToken_ok False) | done |].
  { unfold no_provider. by rewrite Hp. }
  intros [[active response] [err|]] e' t' [-> Hv]; (split; [done|]).
  - destruct Hv as (-> & -> & Hun). split; [done|]. split; [done|]. by apply Hun.
  - destruct Hv as (p' & Hp' & Htold). rewrite Hp in Hp'. by injection Hp' as <-.
Qed.

(** Userinfo claims are only ever used for the subject of the token: what
    is returned is empty or has that subject, whichever way the response was
    encoded. *)
Theorem getUserInfo_subject acc sub e t p :
  Provider (t_Config t) = Some p ->
  runs (getUserInfo acc sub) e t (fun r _ t' =>
    t' = set_Jwks (t_Jwks t') t
    /\ forall u, r = Ok u -> u = ∅ \/ u !! "sub" = Some (JStr sub)).
Proof.
  intros Hp. eapply outcome_mono; [apply (getUserInfo_ok False) | done | done].
  unfold no_provider. by rewrite Hp.
Qed.
End Properties.

(** An authentication is fresh enough exactly when its time can be read
    and is at most the configured age ago; a missing or unreadable time is not
    fresh, and the check is off when no age is configured. *)
Theorem authTimeIsFresh_spec `{TimeText, FloatInt} cfg p c now :
  Provider cfg = Some p -> pv_MaxAuthAgeSeconds p <= 9223372036 ->
  authTimeIsFresh cfg c now = true
  <-> pv_MaxAuthAgeSeconds p <= 0
      \/ exists t, authTimeFromClaims c = Some t /\ now - t <= pv_MaxAuthAgeSeconds p * Second.
Proof.
  intros Hp Hr. unfold authTimeIsFresh. rewrite Hp.
  destruct (Z.leb_spec (pv_MaxAuthAgeSeconds p) 0) as [|Hpos].
  { split; [by left | done]. }
  destruct (authTimeFromClaims c) as [t|].
  - rewrite seconds_no_overflow by (unfold seconds_ok; lia). unfold Before, Add.
    rewrite negb_true_iff, Z.ltb_ge. split.
    + intros Hle. right. exists t. split; [done | lia].
    + intros [|(t' & [= <-] & Hle)]; lia.
  - split; [done|]. intros [|(t' & ? & _)]; [lia | done].
Qed.

(** ** Witnesses *)

(** A JWT library whose tokens are their own nonce. *)
Definition sample_parse (opts : ParserOptions) (kf : Token -> result PublicKey) (tok : string)
  : result claims :=
  let? _ := kf sample_token in
  if slice_contains (jo_ValidMethods opts) "ES256"
  then Ok {["iss" := JStr (default "" (jo_Issuer opts)); "sub" := JStr "alice"; "nonce" := JStr tok]}
  else errorf "token signature is invalid".

Definition sample_jwt : Jwt := {|
  jwt_ParseWithClaims opts _ kf tok := sample_parse opts kf tok;
  jwt_Sign _ _ _ := Ok "assertion";
  jwt_ErrTokenExpired := "token is expired"
|}.

Definition sample_jwt_laws : @JwtLaws sample_jwt.
Proof.
  refine {| jwt_Signed _ token key _ := True; jwt_Audience _ _ := True |}.
  intros opts now kf tok c. cbn [jwt_ParseWithClaims sample_jwt]. unfold sample_parse.
  intros (key & Hk & Hc)%rbind_Ok_inv. destruct (slice_contains _ _) eqn:Em; [|done].
  apply slice_contains_spec in Em. injection Hc as <-.
  exists sample_token, key, "ES256". split_and!; try done.
  intros iss Hi _. rewrite Hi. simpl. by rewrite lookup_insert_eq.
Defined.

Definition seconds_floats : FloatInt := {| float_int64 s := default 0 (Atoi s) |}.

Definition sample_discovery : OidcDiscovery := {|
  dd_AuthorizationEndpoint := "https://idp.example.com/authorize";
  dd_EndSessionEndpoint := "https://idp.example.com/logout"; dd_IntrospectionEndpoint := "";
  dd_Issuer := "https://idp.example.com"; dd_JWKSURI := "https://idp.example.com/jwks";
  dd_RevocationEndpoint := ""; dd_TokenEndpoint := "https://idp.example.com/token";
  dd_UserinfoEndpoint := "" |}.

Definition fresh_handler : JwksHandler := {|
  jh_Url := jh_Url sample_handler; jh_RsaKeys := jh_RsaKeys sample_handler;
  jh_EcdsaKeys := jh_EcdsaKeys sample_handler; jh_CacheDate := still_now; jh_lastReloadError := 0 |}.

Definition sample_toa : Toa := {|
  t_ProviderURL := {| u_Scheme := "https"; u_Host := "idp.example.com"; u_Path := "/"; u_RawQuery := "" |};
  t_ClientJwtPrivateKey := None;
  t_CallbackURL := {| u_Scheme := ""; u_Host := ""; u_Path := "/oidc/callback"; u_RawQuery := "" |};
  t_Config := CreateConfig; t_DiscoveryDocument := Some sample_discovery; t_Jwks := fresh_handler;
  t_BypassAuthenticationRule := None; t_RedirectUriWildcardsEnabled := false; t_validIssuer := "";
  t_validAudience := ""; t_sessionWrites := {| sw_last := ∅; sw_count := 0 |} |}.

Lemma validateTokenLocally_sound_witness :
  (exists c e' t', @validateTokenLocally ascii_only_unicode binary_json path_urls still_world sample_jwt
     "n1" "n1" start sample_toa = Some ((true, c, None), e', t'))
  /\ runs (@validateTokenLocally ascii_only_unicode binary_json path_urls still_world sample_jwt
            "n1" "n1") start sample_toa (fun '(ok, c, _) _ _ => ok = true -> c !! "nonce" = Some (JStr "n1")).
Proof.
  split; [eexists _, _, _; vm_compute; reflexivity|].
  eapply outcome_mono;
    [exact (@validateTokenLocally_sound ascii_only_unicode binary_json path_urls still_world sample_jwt
              sample_jwt_laws "n1" "n1" start sample_toa default_provider eq_refl) | intros [] |].
  intros [[ok c] err] e' t' (_ & _ & Hv) Hok. destruct (Hv Hok) as (_ & _ & _ & _ & Hn).
  apply Hn; [discriminate | reflexivity].
Defined.

(** A provider that vouches for every token it is asked about. *)
Definition active_answer : HttpResponse := {|
  p_Status := 200; p_ContentType := "application/json";
  p_Body := @json_print binary_json (JObj [("active", JBool true); ("sub", JStr "alice")]);
  p_BodyErr := None |}.

Definition vouching_world : External := {|
  clock _ := still_now; random _ _ := Ok sample_nonce; http_Do _ _ := Ok active_answer |}.

Definition introspecting_toa : Toa := {|
  t_ProviderURL := t_ProviderURL sample_toa; t_ClientJwtPrivateKey := None;
  t_CallbackURL := t_CallbackURL sample_toa; t_Config := CreateConfig;
  t_DiscoveryDocument := Some {|
    dd_AuthorizationEndpoint := ""; dd_EndSessionEndpoint := "";
    dd_IntrospectionEndpoint := "https://idp.example.com/introspect"; dd_Issuer := "";
    dd_JWKSURI := ""; dd_RevocationEndpoint := ""; dd_TokenEndpoint := ""; dd_UserinfoEndpoint := "" |};
  t_Jwks := fresh_handler; t_BypassAuthenticationRule := None; t_RedirectUriWildcardsEnabled := false;
  t_validIssuer := ""; t_validAudience := ""; t_sessionWrites := t_sessionWrites sample_toa |}.

Lemma introspectToken_contract_witness :
  (exists c e' t', @introspectToken binary_json path_urls vouching_world sample_jwt "tok" start introspecting_toa
     = Some ((true, c, None), e', t') /\ c !! "sub" = Some (JStr "alice"))
  /\ runs (@introspectToken binary_json path_urls vouching_world sample_jwt "tok") start introspecting_toa
       (fun '(active, _, err) e' _ => err = None -> length (e_calls e') = 1%nat).
Proof.
  split; [eexists _, _, _; split; vm_compute; reflexivity|].
  eapply outcome_mono;
    [exact (@introspectToken_contract binary_json path_urls vouching_world sample_jwt
              "tok" start introspecting_toa default_provider eq_refl) | intros [] |].
  intros [[active r] [err|]] e' t' (_ & Hv) He; [discriminate|].
  destruct Hv as (d & q & resp & _ & _ & Hc & _). rewrite Hc. reflexivity.
Defined.

Lemma getUserInfo_subject_witness :
  runs (@getUserInfo ascii_only_unicode binary_json path_urls still_world sample_jwt "at" "alice")
    start sample_toa (fun r _ _ => forall u, r = Ok u -> u = ∅ \/ u !! "sub" = Some (JStr "alice")).
Proof.
  eapply outcome_mono;
    [exact (@getUserInfo_subject ascii_only_unicode binary_json path_urls still_world sample_jwt
              "at" "alice" start sample_toa default_provider eq_refl) | intros [] |].
  intros r e' t' [_ Hu]. exact Hu.
Defined.

Definition stepup_config : Config :=
  {| LogLevel := ""; Secret := ""; Scopes := []; CallbackUri := ""; LoginUri := "";
     Provider := Some {|
       pv_Url := ""; pv_InsecureSkipVerify := ""; pv_InsecureSkipVerifyBool := false;
       pv_CABundle := ""; pv_CABundleFile := ""; pv_ClientId := ""; pv_ClientSecret := "";
       pv_ClientJwtPrivateKey := ""; pv_ClientJwtPrivateKeyId := ""; pv_UsePkce := "";
       pv_UsePkceBool := true; pv_ValidateAudience := ""; pv_ValidateAudienceBool := true;
       pv_ValidAudience := ""; pv_ValidateIssuer := ""; pv_ValidateIssuerBool := true;
       pv_ValidIssuer := ""; pv_TokenValidation := ""; pv_TokenRenewalThreshold := float_0_75;
       pv_UseClaimsFromUserInfo := ""; pv_UseClaimsFromUserInfoBool := false; pv_ValidateNonce := "";
       pv_ValidateNonceBool := true; pv_TokenClockSkewSeconds := 60; pv_RevokeTokensOnLogout := "";
       pv_RevokeTokensOnLogoutBool := true; pv_MaxAuthAgeSeconds := 300; pv_OidcTimeoutSeconds := 30 |};
     PostLoginRedirectUri := ""; ValidPostLoginRedirectUris := []; LogoutUri := "";
     PostLogoutRedirectUri := ""; ValidPostLogoutRedirectUris := []; FrontChannelLogoutUri := "";
     SessionStorageType := ""; CookieNamePrefix := ""; SessionCookie := None;
     AuthorizationHeader := None; AuthorizationCookie := None; UnauthenticatedBehavior := "";
     UnauthorizedBehavior := ""; Authorization := None; Headers := []; BypassAuthenticationRule := "";
     ErrorPages := None; RequestedResources := []; AuthorizationParams := ∅;
     AuthorizationParamsOverridable := []; TrustedProxies := []; TrustedProxyNets := [];
     MaxSessionLifetimeSeconds := 0; SessionIdleTimeoutSeconds := 0 |}.

Lemma authTimeIsFresh_spec_witness :
  @authTimeIsFresh binary_time seconds_floats stepup_config {["auth_time" := JNum "1000"]}
    (Unix 1300) = true.
Proof.
  apply (proj2 (@authTimeIsFresh_spec binary_time seconds_floats stepup_config _ _ (Unix 1300) eq_refl
                  ltac:(vm_compute; congruence))).
  right. exists (Unix 1000). split; [reflexivity | vm_compute; congruence].
Defined.
