(* ===== verification/Session.v ===== *)
(** * Sessions of requests: [src/session.go]

    Which session, if any, a request has: a token in a configured header or
    cookie, or the sealed session cookie, whose ticket is checked against the
    lifetime bounds, validated, and renewed when its token is about to expire.
    The ticket store is the interface [SessionStorage], implemented by the
    cookie storage of [SessionStorage.v]. *)

From Stdlib Require Import ZArith Lia Ascii String Bool List SpecFloat.
From S2P Require Import Prelude GoStrings Base64 GoUrl Json Http Utils World Samples Config Authorization.
From S2P Require Import OidcState SessionStorage Jwks Cookies Tokens.

(** ** The session store *)

(** [session.SessionStorage]: storing returns the state as the caller sees it
    afterwards, and the ticket; reading may find no session. *)
Class SessionStore := {
  store_StoreSession : time -> result string -> Config -> SessionState -> SessionState * result string;
  store_TryGetSession : time -> Config -> string -> result (option SessionState)
}.

(** What the middleware relies on: storing stamps the creation time once and
    the last use always, a session that is read has both times set, and a stored
    session is read back as it was left. *)
Class SessionStoreLaws `{SessionStore} : Prop := {
  store_stamps now rnd c s :
    (store_StoreSession now rnd c s).1
    = set_times (if IsZero (ss_CreatedAt s) then now else ss_CreatedAt s) now s;
  store_dated now c t s :
    now <> 0 -> store_TryGetSession now c t = Ok (Some s) -> ss_CreatedAt s <> 0 /\ ss_LastUsedAt s <> 0;
  store_reads now now' nonce c s s' t :
    slen nonce = NonceSize -> session_ok s -> 0 < now -> time_ok now ->
    store_StoreSession now (Ok nonce) c s = (s', Ok t) -> store_TryGetSession now' c t = Ok (Some s')
}.

#[global] Instance cookie_store `{Unicode, JsonText, TimeText, Aead} : SessionStore := {|
  store_StoreSession now rnd c s := StoreSession now rnd (Secret c) s;
  store_TryGetSession now c t := let? s := TryGetSession now (Secret c) t in Ok (Some s)
|}.

#[global] Instance cookie_store_laws `{Unicode, JsonLaws, TimeLaws, AeadLaws} : SessionStoreLaws.
Proof.
  split.
  - intros now rnd c s. apply StoreSession_fst.
  - intros now c t s Hnow (s' & Hs & [= ->])%rbind_Ok_inv. by eapply TryGetSession_dated.
  - intros now now' nonce c s s' t Hn Hok Hp Hnow Hs. cbn in *. by erewrite TryGetSession_stored.
Qed.

(** ** Floating point: Go's [float64] is binary64 *)

Definition float_of_int (z : Z) : spec_float := binary_normalize 53 1024 z 0 false.

(** [time.Duration.Seconds] *)
Definition Seconds (d : duration) : spec_float :=
  SFadd 53 1024 (float_of_int (Z.quot d Second))
    (SFdiv 53 1024 (float_of_int (Z.rem d Second)) (float_of_int Second)).

Section Sessions.
Context `{Unicode, JsonText, UrlLib, External, Jwt, Aead, SessionStore}.

(** ** Bounds *)

(** [checkSessionBounds]; [Now] is read only for a bound that applies. *)
Definition checkSessionBounds (state : SessionState) : M Toa (result unit) :=
  c ← gets t_Config;
  let! _ :=
    if (0 <? MaxSessionLifetimeSeconds c) && negb (IsZero (ss_CreatedAt state)) then
      now ← time_Now;
      if seconds (MaxSessionLifetimeSeconds c) <? Since now (ss_CreatedAt state)
      then lift (Err ErrSessionExpired) else lift (Ok tt)
    else lift (Ok tt) in
  if (0 <? SessionIdleTimeoutSeconds c) && negb (IsZero (ss_LastUsedAt state)) then
    now ← time_Now;
    if seconds (SessionIdleTimeoutSeconds c) <? Since now (ss_LastUsedAt state)
    then lift (Err ErrSessionExpired) else lift (Ok tt)
  else lift (Ok tt).

Definition checkIdpTokenExpiresSoon (session : SessionState) : M Toa bool :=
  if 0 <? ss_TokenExpiresIn session then
    now ← time_Now;
    p ← provider;
    let pastDuration := Since now (ss_RefreshedAt session) in
    let halfMaxAge := SFmul 53 1024 (float_of_int (ss_TokenExpiresIn session)) (pv_TokenRenewalThreshold p) in
    mret (SFltb halfMaxAge (Seconds pastDuration))
  else mret false.

(** ** Validation *)

Definition external_session (id : string) : bool :=
  String.eqb id "AuthorizationHeader" || String.eqb id "AuthorizationCookie".

(** Which token of the session is validated. *)
Definition token_to_validate (p : ProviderConfig) (session : SessionState) : option string :=
  if external_session (ss_Id session) then Some (ss_AccessToken session)
  else if String.eqb (pv_TokenValidation p) "AccessToken" || String.eqb (pv_TokenValidation p) "Introspection"
  then Some (ss_AccessToken session)
  else if String.eqb (pv_TokenValidation p) "IdToken" then Some (ss_IdToken session)
  else None.

Definition validateToken (session : SessionState) : M Toa validation :=
  p ← provider;
  match token_to_validate p session with
  | None => mret (invalid (ErrText "invalid value for TokenValidation"))
  | Some token =>
      if String.eqb (pv_TokenValidation p) "Introspection" then introspectToken token
      else
        v ← validateTokenLocally token "";
        let '(ok, c, err) := v in
        if negb ok then mret (ok, c, err)
        else if pv_UseClaimsFromUserInfoBool p then
          match string_claim c "sub" with
          | None => mret (invalid (ErrText "failed to fetch UserInfo: 'sub' claim is not a string or missing"))
          | Some subClaim =>
              r ← getUserInfo (ss_AccessToken session) subClaim;
              match r with
              | Err _ => mret (invalid (ErrText "failed to fetch UserInfo"))
              | Ok userInfoClaims => mret (ok, mergeClaims c userInfoClaims, err)
              end
          end
        else mret (ok, c, err)
  end.

(** What [validateSessionTicket] returns: the session, the claims, the session
    to write back, and the error. *)
Definition ticket_result := (option SessionState * claims * option SessionState * option error)%type.

Definition ticket_error (e : error) : ticket_result := (None, ∅, None, Some e).


Definition validateSessionTicket (sessionTicket : string) : M Toa ticket_result :=
  c ← gets t_Config;
  now ← time_Now;
  match store_TryGetSession now c sessionTicket with
  | Err err => mret (ticket_error err)
  | Ok None => mret (None, ∅, None, None)
  | Ok (Some session) =>
      b ← checkSessionBounds session;
      match b with
      | Err err => mret (ticket_error err)
      | Ok _ =>
          v ← validateToken session;
          let '(success, cl, err) := v in
          idpTokenExpiresSoon ← (if success : bool then checkIdpTokenExpiresSoon session else mret false);
          if negb success || negb (is_none err) || idpTokenExpiresSoon then
            if negb (String.eqb (ss_RefreshToken session) "") then
              r ← renewToken (ss_RefreshToken session);
              match r with
              | Err err => mret (ticket_error err)
              | Ok newTokens =>
                  let session := set_tokens (tr_AccessToken newTokens)
                    (if negb (String.eqb (tr_IdToken newTokens) "") then tr_IdToken newTokens
                     else ss_IdToken session)
                    (if negb (String.eqb (tr_RefreshToken newTokens) "") then tr_RefreshToken newTokens
                     else ss_RefreshToken session) session in
                  v ← validateToken session;
                  let '(success, cl, err) := v in
                  if negb success || negb (is_none err) then mret (None, ∅, Some session, err)
                  else
                    now ← time_Now;
                    let session := set_expiry now (tr_ExpiresIn newTokens) session in
                    mret (Some session, cl, Some session, err)
              end
            else mret (ticket_error (default (ErrText "no refresh_token available") err))
          else
            now ← time_Now;
            mret (Some (set_times (ss_CreatedAt session) now session), cl, None, None)
      end
  end.

(** ** The session of a request *)

(** The session, whether to write it back, the claims, and the error. *)
Definition session_result := (option SessionState * bool * claims * option error)%type.

(** A token supplied by a configured header or cookie. *)
Definition external (id token : string) : SessionState :=
  set_Id id (set_tokens token "" "" zero_session).

Definition external_session_for (id token : string) : M Toa session_result :=
  let session := external id token in
  v ← validateToken session;
  let '(ok, cl, err) := v in
  if ok : bool then mret (Some session, false, cl, err)
  else mret (None, false, ∅, Some (ErrText ("failed to validate token from " +:+ id))).

Definition getSessionForRequest (req : Request) : M Toa session_result :=
  c ← gets t_Config;
  let header :=
    match AuthorizationHeader c with
    | Some name =>
        if String.eqb name "" then ""
        else
          let authHeader := req_header req name in
          if negb (String.eqb authHeader "") && String.eqb name "Authorization"
          then TrimPrefix authHeader "Bearer " else authHeader
    | None => ""
    end in
  let has_header :=
    match AuthorizationHeader c with
    | Some name => negb (String.eqb name "") && negb (String.eqb (req_header req name) "")
    | None => false
    end in
  let cookie :=
    match AuthorizationCookie c with
    | Some name =>
        if String.eqb name "" then ""
        else match req_Cookie req name with Ok v => v | Err _ => "" end
    | None => ""
    end in
  if has_header then external_session_for "AuthorizationHeader" header
  else if negb (String.eqb cookie "") then external_session_for "AuthorizationCookie" cookie
  else
    match readChunkedCookie req (getSessionCookieName c) with
    | Err err => mret (None, false, ∅, Some (ErrText "unable to read session cookie"))
    | Ok sessionTicket =>
        if String.eqb sessionTicket "" then mret (None, false, ∅, Some (ErrText "no session cookie is present"))
        else
          r ← validateSessionTicket sessionTicket;
          let '(session, cl, updatedSession, err) := r in
          match err with
          | Some _ => mret (None, false, cl, Some (ErrText "failed to validate session ticket"))
          | None => mret (session, negb (is_none updatedSession), cl, None)
          end
    end.

(** [storeSessionAndAttachCookie] on the response [rw]: the session as it is
    left, the response, and the error. *)
Definition storeSessionAndAttachCookie (session : SessionState) (rw : Response)
  : M Toa (SessionState * Response * option error) :=
  c ← gets t_Config;
  now ← time_Now;
  rnd ← rand_Read NonceSize;
  match store_StoreSession now rnd c session with
  | (session, Err err) =>
      mret (session, http_Error "Failed to store session" 500 rw, Some err)
  | (session, Ok sessionTicket) =>
      match setChunkedCookies c rw (getSessionCookieName c) sessionTicket with
      | Ok rw => mret (session, rw, None)
      | Err _ => panic
      end
  end.

(** ** Outcomes *)

(** The token of session [s] was accepted between two moments, with claims [c]:
    the provider said in between that it is active, or it was verified in
    between with the keys of the cache, and then userinfo changed neither the
    subject nor the protected claims. *)
Definition accepted (s : SessionState) (c : claims) (e : Env) (t : Toa) (e' : Env) (t' : Toa) : Prop :=
  exists p token, Provider (t_Config t) = Some p /\ token_to_validate p s = Some token
    /\ if String.eqb (pv_TokenValidation p) "Introspection" then introspected t p token true c e e'
       else exists c0, verified p token c0 e t e' t'
           /\ (pv_UseClaimsFromUserInfoBool p = false -> c = c0)
           /\ (forall k, k ∈ "sub" :: protectedClaims -> c !! k = c0 !! k).

Lemma accepted_widen s c e t e1 t1 e2 t2 e' t' :
  advances e t e1 t1 -> accepted s c e1 t1 e2 t2 -> advances e2 t2 e' t' -> accepted s c e t e' t'.
Proof.
  intros A1 (p & token & Hp & Ht & Ha) A2. exists p, token. rewrite <- (advances_Config _ _ _ _ A1).
  split_and!; [done..|]. destruct (String.eqb (pv_TokenValidation p) "Introspection").
  - eapply introspected_widen; [by eapply advances_frame | by eapply advances_elapsed | done
      | by eapply advances_elapsed].
  - destruct Ha as (c0 & Hv & Hc). exists c0. split; [by eapply verified_widen | done].
Qed.

(** The operations on sessions advance. *)
Lemma validateToken_advances s : respects advances (validateToken s).
Proof. unfold validateToken. go_respects. Qed.
#[local] Hint Resolve validateToken_advances : respects.
#[local] Opaque validateToken.

Lemma checkSessionBounds_advances s : respects advances (checkSessionBounds s).
Proof. unfold checkSessionBounds. go_respects. Qed.

Lemma checkIdpTokenExpiresSoon_advances s : respects advances (checkIdpTokenExpiresSoon s).
Proof. unfold checkIdpTokenExpiresSoon. go_respects. Qed.
#[local] Hint Resolve checkSessionBounds_advances checkIdpTokenExpiresSoon_advances : respects.

Lemma validateSessionTicket_advances ticket : respects advances (validateSessionTicket ticket).
Proof. unfold validateSessionTicket. go_respects. Qed.
#[local] Hint Resolve validateSessionTicket_advances : respects.
#[local] Opaque validateSessionTicket.

Lemma getSessionForRequest_advances req : respects advances (getSessionForRequest req).
Proof. unfold getSessionForRequest, external_session_for. go_respects. Qed.
#[local] Transparent validateToken validateSessionTicket.

Definition introspecting (cfg : Config) : Prop :=
  exists p, Provider cfg = Some p /\ pv_TokenValidation p = "Introspection".

#[local] Opaque provider validateTokenLocally introspectToken getUserInfo renewToken.

Section Outcomes.
Context (P : Prop).
Implicit Types (e : Env) (t : Toa).

Lemma getUserInfo_merge c u sub :
  c !! "sub" = Some (JStr sub) -> (u = ∅ \/ u !! "sub" = Some (JStr sub)) ->
  forall k, k ∈ "sub" :: protectedClaims -> mergeClaims c u !! k = c !! k.
Proof.
  intros Hc Hu k Hk. rewrite protected_lookup.
  destruct (slice_contains protectedClaims k) eqn:Ep; [done|].
  apply elem_of_cons in Hk as [->|Hk]; [|by apply slice_contains_spec in Hk; congruence].
  destruct Hu as [->|Hu]; [by rewrite lookup_empty | by rewrite Hu, Hc].
Qed.

Lemma validateToken_ok s e t :
  (no_provider t -> P) ->
  outcome P (validateToken s) e t (fun v e' t' => frame t t' /\
    match v with
    | (true, c, err) => err = None /\ accepted s c e t e' t'
    | (false, c, Some _) => c = ∅
    | (false, c, None) => c !! "active" = Some (JBool false) /\ introspecting (t_Config t)
    end).
Proof.
  intros HP. unfold validateToken. m_step. apply provider_ok; [done|]. intros p Hp.
  m_case; [|m_step; by split; [apply frame_refl|]]. m_case.
  { m_call introspectToken_ok; [done|]. intros [[ok c] [err|]] e' t' [-> Hv].
    - destruct Hv as (-> & -> & _). auto with toa.
    - apply String.eqb_eq in E0 as Ev. destruct Hv as (p' & Hp' & Hv). rewrite Hp in Hp'. injection Hp' as <-.
      destruct ok; (split; [auto with toa|]).
      + split; [done|]. exists p, s0. rewrite E0. eauto using told_introspected.
      + split; [by destruct Hv as (? & ? & ? & _ & _ & _ & _ & _ & _ & _ & ? & _ & _ & ?) | by exists p]. }
  m_step. m_call validateTokenLocally_ok; [done|]. intros [[ok c] [err|]] e' t' [F Hv].
  { destruct Hv as [-> ->]. wp. by split. }
  destruct Hv as [-> (p' & now & Hp' & _ & Hver & _)]. rewrite Hp in Hp'. injection Hp' as <-.
  cbn [negb]. wp.
  - m_call (outcome_respects advances); [apply getUserInfo_advances | |].
    { apply getUserInfo_ok. intros Hn. by apply HP, (frame_provider t t'). }
    intros r e2 t2 [[F2 Hu] A2]. wp; [|split; [eauto with toa | done]].
    split; [eauto with toa|]. split; [done|]. exists p, s0. rewrite E0. split_and!; try done.
    exists c. split_and!; [by eapply verified_widen; [apply passage_refl|..] | congruence |].
    apply string_claim_Some in E2. eapply getUserInfo_merge; eauto.
  - by split.
  - split; [done|]. split; [done|]. exists p, s0. rewrite E0. split_and!; try done.
    by exists c.
Qed.

(** A bound: [anchor] was at most [limit] seconds ago at one of the clock
    readings from [lo] on and before [hi]. *)
Definition within (limit : Z) (anchor : time) (lo hi : nat) : Prop :=
  0 < limit -> anchor <> 0 ->
  exists n, (lo <= n < hi)%nat /\ Since (clock n) anchor <= seconds limit.

Lemma within_mono limit anchor lo hi lo' hi' :
  within limit anchor lo hi -> (lo' <= lo)%nat -> (hi <= hi')%nat -> within limit anchor lo' hi'.
Proof. intros Hw L1 L2 Hl Ha. destruct (Hw Hl Ha) as (n & ? & ?). exists n. split; [lia | done]. Qed.

(** One bound: both have this shape. *)
Lemma bound_ok limit anchor e t :
  outcome P (if (0 <? limit) && negb (IsZero anchor) then
               now ← time_Now;
               if seconds limit <? Since now anchor then lift (Err ErrSessionExpired) else lift (Ok tt)
             else lift (Ok tt)) e t
    (fun r e' t' => t' = t /\ (e_ticks e <= e_ticks e' <= S (e_ticks e))%nat
                    /\ (r = Ok tt -> within limit anchor (e_ticks e) (e_ticks e'))).
Proof.
  unfold IsZero, within. wp; split; try done; (split; [simpl; lia|]); try done; intros _ Hl Ha.
  - exists (e_ticks e). boolprop. split; [simpl; lia | done].
  - apply Z.ltb_lt in Hl. apply Z.eqb_neq in Ha. rewrite Hl, Ha in *. done.
Qed.

(** Both bounds, measured by readings from [lo] on. *)
Definition in_bounds (cfg : Config) (s : SessionState) (lo hi : nat) : Prop :=
  within (MaxSessionLifetimeSeconds cfg) (ss_CreatedAt s) lo hi
  /\ within (SessionIdleTimeoutSeconds cfg) (ss_LastUsedAt s) lo hi.

Lemma checkSessionBounds_ok s e t :
  outcome P (checkSessionBounds s) e t (fun r e' t' =>
    t' = t /\ (e_ticks e' <= S (S (e_ticks e)))%nat
    /\ (r = Ok tt -> in_bounds (t_Config t) s (e_ticks e) (e_ticks e'))).
Proof.
  unfold checkSessionBounds. m_step. m_step. m_call bound_ok.
  intros [[]|err] e1 t1 (-> & Ht1 & W1); [|split_and!; [done | lia | done]].
  m_call bound_ok. intros r e2 t2 (-> & Ht2 & W2). split; [done|]. split; [lia|].
  intros ->. split; eapply within_mono; (apply W1 || apply W2 || lia); done.
Qed.

Lemma checkIdpTokenExpiresSoon_ok s e t :
  (no_provider t -> P) -> outcome P (checkIdpTokenExpiresSoon s) e t (fun _ _ t' => t' = t).
Proof.
  intros HP. unfold checkIdpTokenExpiresSoon. wp; [|done]. by apply provider_ok.
Qed.

(** What never changes while a session is used: its identity, its
    authorisation, and the instant its lifetime counts from. *)
Definition same_session (s0 s : SessionState) : Prop :=
  ss_Id s = ss_Id s0 /\ ss_IsAuthorized s = ss_IsAuthorized s0
  /\ ss_ChallengeAttempted s = ss_ChallengeAttempted s0 /\ ss_CreatedAt s = ss_CreatedAt s0.

(** [ticket] gives the session [s] with the claims [cl] between two moments: at
    the first reading of the clock the store reads a session from it; that is
    within the bounds, measured by the next two readings at most; and what comes
    out is that session, with tokens accepted meanwhile. *)
Definition ticket_gives (ticket : string) (s : SessionState) (cl : claims) (e : Env) (t : Toa)
    (e' : Env) (t' : Toa) : Prop :=
  exists s0 hi, store_TryGetSession (clock (e_ticks e)) (t_Config t) ticket = Ok (Some s0)
    /\ (hi <= e_ticks e + 3)%nat /\ (hi <= e_ticks e')%nat
    /\ in_bounds (t_Config t) s0 (S (e_ticks e)) hi
    /\ same_session s0 s /\ accepted s cl e t e' t'.

#[local] Opaque checkSessionBounds validateToken checkIdpTokenExpiresSoon.

Lemma validateSessionTicket_ok ticket e t :
  (no_provider t -> P) ->
  outcome P (validateSessionTicket ticket) e t (fun r e' t' => frame t t' /\
    match r with
    | (Some s, cl, upd, err) =>
        err = None /\ (upd = None \/ upd = Some s) /\ ticket_gives ticket s cl e t e' t'
    | (None, cl, _, Some _) => cl = ∅
    | (None, cl, upd, None) =>
        cl = ∅ /\ (store_TryGetSession (clock (e_ticks e)) (t_Config t) ticket = Ok None
                   \/ introspecting (t_Config t))
    end).
Proof.
  intros HP. unfold validateSessionTicket. m_steps.
  destruct store_TryGetSession as [[s0|]|err] eqn:Es;
    [|m_step; split; [apply frame_refl | by auto].. ].
  m_step. m_call (outcome_respects advances); [apply checkSessionBounds_advances | apply checkSessionBounds_ok |].
  intros [[]|err] e1 t1 [(-> & Hhi & Hb) A1]; [|m_step; by split; [apply frame_refl|]].
  specialize (Hb eq_refl). assert (A01 : advances e t e1 t) by (eapply passage_trans; [apply passage_tick | exact A1]).
  m_step. m_call (outcome_respects advances); [apply validateToken_advances | by apply validateToken_ok |].
  intros [[ok cl] err] e2 t2 [[F2 Hv] A2].
  m_step.
  assert (Hn2 : no_provider t2 -> P) by (intros Hn; by apply HP, (frame_provider t t2)).
  eapply (outcome_weaken _ _ _ _ (fun b e' t' => t' = t2 /\ advances e2 t2 e' t')).
  { destruct ok; [|m_step; by split; [|apply passage_refl]].
    apply (outcome_respects advances); [apply checkIdpTokenExpiresSoon_advances | by apply checkIdpTokenExpiresSoon_ok]. }
  intros soon e3 t3 [-> A3]. assert (A13 := passage_trans _ _ _ _ _ _ A2 A3).
  assert (Hhi' : forall e' t', advances e1 t e' t' -> (e_ticks e1 <= e_ticks e')%nat) by (by intros e' t' [? _]%advances_elapsed).
  destruct (negb ok || negb (is_none err) || soon) eqn:Eb.
  - m_case; [|m_step; by split].
    m_step. m_call (outcome_respects advances); [apply renewToken_advances | by apply renewToken_ok |].
    intros [newTokens|rerr] e4 t4 [-> A4]; [|m_step; by split].
    cbv beta iota. m_step.
    match goal with |- context [validateToken ?x] => set (s1 := x) end.
    m_call (outcome_respects advances); [apply validateToken_advances | by apply validateToken_ok |].
    intros [[ok2 cl2] err2] e5 t5 [[F5 Hv2] A5].
    assert (F : frame t t5) by eauto with toa. assert (A14 := passage_trans _ _ _ _ _ _ A13 A4).
    pose proof (frame_Config _ _ F2) as Ec.
    destruct ok2; [destruct Hv2 as [-> Hacc] | destruct err2; (m_step; split; [done|])].
    + m_steps. split; [done|]. split; [done|]. split; [by right|].
      exists s0, (e_ticks e1). split_and!; try done.
      * simpl in Hhi. lia.
      * assert (H15 := Hhi' _ _ (passage_trans _ _ _ _ _ _ A14 A5)). simpl. lia.
      * eapply accepted_widen; [|exact Hacc|apply passage_tick]. by eapply passage_trans.
    + done.
    + split; [done|]. right. unfold introspecting. rewrite <- Ec. apply Hv2.
  - boolprop. destruct ok; [|done]. destruct Hv as [-> Hacc]. m_steps.
    split; [done|]. split; [done|]. split; [by left|]. exists s0, (e_ticks e1). split_and!; try done.
    + simpl in Hhi. lia.
    + assert (H13 := Hhi' _ _ A13). simpl. lia.
    + eapply accepted_widen; [exact A01 | exact Hacc |]. eapply passage_trans; [exact A3 | apply passage_tick].
Qed.

(** Where the session of a request may come from. *)
Definition supplied (cfg : Config) (req : Request) (s : SessionState) : Prop :=
  exists name value, value <> "" /\ name <> ""
    /\ ((AuthorizationHeader cfg = Some name /\ req_header req name = value
         /\ s = external "AuthorizationHeader"
                (if String.eqb name "Authorization" then TrimPrefix value "Bearer " else value))
        \/ (AuthorizationCookie cfg = Some name /\ req_Cookie req name = Ok value
            /\ s = external "AuthorizationCookie" value)).

Definition gives_session (req : Request) (s : SessionState) (upd : bool) (cl : claims)
    (e : Env) (t : Toa) (e' : Env) (t' : Toa) : Prop :=
  (supplied (t_Config t) req s /\ accepted s cl e t e' t' /\ upd = false)
  \/ exists ticket, readChunkedCookie req (getSessionCookieName (t_Config t)) = Ok ticket /\ ticket <> ""
        /\ ticket_gives ticket s cl e t e' t'.

(** The store answers that there is no session, without an error. *)
Definition store_has_none (cfg : Config) (ticket : string) : Prop :=
  exists now, store_TryGetSession now cfg ticket = Ok None.

#[local] Opaque validateSessionTicket.

Lemma external_session_for_ok id token e t :
  (no_provider t -> P) ->
  outcome P (external_session_for id token) e t (fun r e' t' => frame t t' /\
    match r with
    | (Some s, upd, cl, err) =>
        s = external id token /\ accepted s cl e t e' t' /\ upd = false /\ err = None
    | (None, upd, cl, err) => cl = ∅ /\ exists msg, err = Some (ErrText msg)
    end).
Proof.
  intros HP. unfold external_session_for. m_step. m_call validateToken_ok; [done|].
  intros [[ok cl] err] e1 t1 [F Hv]. destruct ok.
  - destruct Hv as [-> Hacc]. m_step. by split.
  - m_step. split; [done|]. split; [done|]. by eexists.
Qed.

Lemma getSessionForRequest_ok req e t :
  (no_provider t -> P) ->
  outcome P (getSessionForRequest req) e t (fun r e' t' => frame t t' /\
    match r with
    | (Some s, upd, cl, err) =>
        err = None /\ gives_session req s upd cl e t e' t'
    | (None, _, cl, Some _) => cl = ∅
    | (None, _, cl, None) =>
        introspecting (t_Config t) \/ exists ticket, store_has_none (t_Config t) ticket
    end).
Proof.
  intros HP. unfold getSessionForRequest. m_step. m_step.
  set (cfg := t_Config t). m_case.
  { m_call external_session_for_ok; [done|].
    intros [[[[s|] upd] cl] err] e1 t1 [F Hr]; (split; [done|]); [|by destruct Hr as [-> (msg & ->)]].
    destruct Hr as (-> & Hacc & -> & ->). split; [done|]. left. split; [|done].
    destruct (AuthorizationHeader cfg) as [name|] eqn:En; [|done]. boolprop.
    exists name, (req_header req name). split_and!; try done. left. split_and!; try done. f_equal.
    destruct (String.eqb_spec name ""); [done|].
    destruct (String.eqb_spec (req_header req name) ""); done. }
  m_case.
  { m_call external_session_for_ok; [done|].
    intros [[[[s|] upd] cl] err] e1 t1 [F Hr]; (split; [done|]); [|by destruct Hr as [-> (msg & ->)]].
    destruct Hr as (-> & Hacc & -> & ->). split; [done|]. left. split; [|done]. boolprop.
    destruct (AuthorizationCookie cfg) as [name|] eqn:En; [|done].
    destruct (String.eqb_spec name ""); [done|].
    destruct (req_Cookie req name) as [v|] eqn:Ev; [|done].
    exists name, v. split_and!; try done. by right. }
  m_case; [|m_step; split; [apply frame_refl | done]].
  m_case; [m_step; split; [apply frame_refl | done] |]. m_step.
  m_call validateSessionTicket_ok; [done|].
  intros [[[so cl] upd] err] e1 t1 [F Hr]. boolprop. destruct err as [err|].
  - m_step. split; [done|]. destruct so; [by destruct Hr | done].
  - m_step. split; [done|]. destruct so as [s|].
    + destruct Hr as (_ & _ & Hg). split; [done|]. right. by eexists.
    + destruct Hr as (_ & [Hn|Hi]); [right; by repeat eexists | by left].
Qed.

(** A session is stored at one reading of the clock, with one nonce: the
    response of a failed store is an error page, the other one carries the
    cookie. *)
Lemma storeSessionAndAttachCookie_ok s rw e t :
  (SessionCookie (t_Config t) = None -> P) ->
  outcome P (storeSessionAndAttachCookie s rw) e t (fun '(s', rw', err) e' t' =>
    t' = t /\ e' = draw (tick e) /\
    match err with
    | Some _ => rw' = http_Error "Failed to store session" 500 rw
    | None => exists ticket,
        store_StoreSession (clock (e_ticks e)) (random (e_draws e) NonceSize) (t_Config t) s = (s', Ok ticket)
        /\ setChunkedCookies (t_Config t) rw (getSessionCookieName (t_Config t)) ticket = Ok rw'
    end).
Proof.
  intros HP. unfold storeSessionAndAttachCookie. m_steps.
  destruct store_StoreSession as [s' [ticket|err]]; [|by m_step].
  destruct setChunkedCookies eqn:Ec; m_step; [by eauto|].
  apply HP. unfold setChunkedCookies, createSessionCookie in Ec.
  destruct SessionCookie; [|done]. simpl in Ec. by destruct Nat.eqb.
Qed.

End Outcomes.

(** ** Properties *)

(** A bound, with the duration it stands for. *)
Lemma within_exact limit anchor lo hi :
  within limit anchor lo hi -> seconds_ok limit -> 0 < limit -> anchor <> 0 ->
  exists n, (lo <= n < hi)%nat /\ clock n - anchor <= limit * Second.
Proof.
  intros Hw Hok Hl Ha. destruct (Hw Hl Ha) as (n & Hn & Hs). exists n. split; [done|].
  rewrite seconds_no_overflow in Hs by done.
  pose proof (seconds_ok_Sub _ Hok). apply Z.ltb_ge. apply Z.ltb_ge in Hs. unfold Since in Hs.
  rewrite Sub_gt in Hs; [done | done |].
  unfold seconds_ok in Hok. unfold int64_max, Second. lia.
Qed.

(** C8: a request has a session only for one of two reasons.  Either the token
    in its configured header or cookie is accepted, and then no session is
    written back; or the store reads one from the ticket in its cookies, at the
    instant at which the request begins, and then its tokens are accepted, its
    identity, authorisation and creation time are the sealed ones, and readings
    of the clock made later in the same request show that it was created at most
    [MaxSessionLifetimeSeconds] and used at most [SessionIdleTimeoutSeconds]
    ago, for each of the two that is configured.  A token is accepted during the
    request itself: the provider answers in the course of it that the token is
    active, or the token is verified at a reading of the clock in the course of
    it, with a key that the cache of the middleware then holds.  A request
    without a session has no claims, unless there was no error. *)
Theorem getSessionForRequest_sound `{!SessionStoreLaws} req e t p :
  Provider (t_Config t) = Some p -> (forall n, clock n <> 0) ->
  seconds_ok (MaxSessionLifetimeSeconds (t_Config t)) ->
  seconds_ok (SessionIdleTimeoutSeconds (t_Config t)) ->
  runs (getSessionForRequest req) e t (fun '(so, upd, cl, err) e' t' =>
    t' = set_Jwks (t_Jwks t') t /\
    match so with
    | None => err <> None -> cl = ∅
    | Some s =>
        err = None /\ accepted s cl e t e' t' /\
        (supplied (t_Config t) req s /\ upd = false
         \/ exists ticket s0,
             readChunkedCookie req (getSessionCookieName (t_Config t)) = Ok ticket
             /\ store_TryGetSession (clock (e_ticks e)) (t_Config t) ticket = Ok (Some s0)
             /\ same_session s0 s
             /\ (0 < MaxSessionLifetimeSeconds (t_Config t) ->
                 exists now, reading (tick e) e' now
                   /\ now - ss_CreatedAt s <= MaxSessionLifetimeSeconds (t_Config t) * Second)
             /\ (0 < SessionIdleTimeoutSeconds (t_Config t) ->
                 exists now, reading (tick e) e' now
                   /\ now - ss_LastUsedAt s0 <= SessionIdleTimeoutSeconds (t_Config t) * Second))
    end).
Proof.
  intros Hp Hclock Hmax Hidle. eapply outcome_mono; [apply (getSessionForRequest_ok False) | done |].
  { unfold no_provider. by rewrite Hp. }
  intros [[[so upd] cl] err] e' t' [F Hr]. split; [done|]. destruct so as [s|].
  2:{ intros He. by destruct err. }
  destruct Hr as (-> & [(Hs & Ha & ->)|(ticket & Ht & _ & s0 & hi & Hs0 & _ & Hhi & [Wl Wi] & Hsame & Ha)]);
    (split; [done|]); (split; [done|]); [by left | right].
  destruct (store_dated _ _ _ _ (Hclock _) Hs0) as [Hc Hu].
  assert (Hread : forall n, (S (e_ticks e) <= n < hi)%nat -> reading (tick e) e' (clock n)).
  { intros n Hn. exists n. simpl. split; [lia | done]. }
  exists ticket, s0. split_and!; try done.
  - destruct Hsame as (_ & _ & _ & ->). intros Hpos.
    destruct (within_exact _ _ _ _ Wl Hmax Hpos Hc) as (n & Hn & Hage). eauto.
  - intros Hpos. destruct (within_exact _ _ _ _ Wi Hidle Hpos Hu) as (n & Hn & Hage). eauto.
Qed.

(** The tickets of a login: the one issued with the new session, at the
    instant [birth], and every one that a later request stores after it was
    given the session by an earlier one, with whatever tokens and flags. *)
Inductive tickets_of (cfg : Config) (birth : time) : string -> Prop :=
| first_ticket nonce s s' ticket :
    ss_CreatedAt s = 0 -> slen nonce = NonceSize -> session_ok s -> 0 < birth -> time_ok birth ->
    store_StoreSession birth (Ok nonce) cfg s = (s', Ok ticket) -> tickets_of cfg birth ticket
| next_ticket ticket e t s cl upd err e' t' now nonce s1 s' ticket' :
    tickets_of cfg birth ticket -> t_Config t = cfg ->
    validateSessionTicket ticket e t = Some ((Some s, cl, upd, err), e', t') ->
    ss_CreatedAt s1 = ss_CreatedAt s -> slen nonce = NonceSize -> session_ok s1 -> 0 < now ->
    time_ok now -> store_StoreSession now (Ok nonce) cfg s1 = (s', Ok ticket') ->
    tickets_of cfg birth ticket'.

(** What every ticket of the login reads as. *)
Definition born (cfg : Config) (birth : time) (ticket : string) : Prop :=
  forall now, exists s, store_TryGetSession now cfg ticket = Ok (Some s) /\ ss_CreatedAt s = birth.

Lemma stored_born `{!SessionStoreLaws} cfg now nonce s s' ticket birth :
  slen nonce = NonceSize -> session_ok s -> 0 < now -> time_ok now ->
  store_StoreSession now (Ok nonce) cfg s = (s', Ok ticket) ->
  (if IsZero (ss_CreatedAt s) then now else ss_CreatedAt s) = birth -> born cfg birth ticket.
Proof.
  intros Hn Hs Hp Ht Hst Hb now'. exists s'. split; [by eapply store_reads|].
  pose proof (store_stamps now (Ok nonce) cfg s) as Hf. rewrite Hst in Hf. cbn in Hf. by subst s'.
Qed.

Lemma tickets_born `{!SessionStoreLaws} cfg birth ticket p :
  Provider cfg = Some p -> tickets_of cfg birth ticket -> 0 < birth /\ born cfg birth ticket.
Proof.
  intros Hp. induction 1 as [nonce s s' ticket Hz Hn Hs Hpos Ht Hst
    | ticket e t s cl upd err e' t' now nonce s1 s' ticket' _ [Hpos IH] Ht Hv Hc Hn Hs Hnow Hok Hst].
  - split; [done|]. eapply stored_born; eauto. by rewrite Hz.
  - split; [done|].
    assert (ss_CreatedAt s = birth) as Hb.
    { pose proof (validateSessionTicket_ok True ticket e t (fun _ => I)) as Ho.
      unfold outcome in Ho. rewrite Hv in Ho.
      destruct Ho as (_ & _ & _ & s0 & hi & Hs0 & _ & _ & _ & (_ & _ & _ & ->) & _). rewrite Ht in Hs0.
      destruct (IH (clock (e_ticks e))) as (s2 & Hs2 & <-). congruence. }
    eapply stored_born; eauto. rewrite Hc, Hb. unfold IsZero.
    destruct (Z.eqb_spec birth 0); [lia | done].
Qed.

(** C23: renewal never extends the lifetime of a login.  Whichever ticket of
    it a request presents, however often the session was renewed and stored in
    between, the request has the session only if, at a reading of the clock
    while it was validated, the login was at most [MaxSessionLifetimeSeconds]
    old. *)
Theorem session_lifetime_bounded `{!SessionStoreLaws} cfg birth ticket e t p :
  Provider cfg = Some p -> tickets_of cfg birth ticket -> t_Config t = cfg ->
  seconds_ok (MaxSessionLifetimeSeconds cfg) -> 0 < MaxSessionLifetimeSeconds cfg ->
  runs (validateSessionTicket ticket) e t (fun '(so, _, _, _) _ _ =>
    so = None
    \/ exists n, (e_ticks e < n <= e_ticks e + 2)%nat
        /\ clock n - birth <= MaxSessionLifetimeSeconds cfg * Second).
Proof.
  intros Hp Hb Ht Hok Hpos. destruct (tickets_born _ _ _ _ Hp Hb) as [Hbirth Hborn].
  eapply outcome_mono; [apply (validateSessionTicket_ok False) | done |].
  { unfold no_provider. by rewrite Ht, Hp. }
  intros [[[[s|] cl] upd] err] e' t' [_ Hr]; [right | by left].
  destruct Hr as (_ & _ & s0 & hi & Hs0 & Hhi & _ & [Wl _] & _). rewrite Ht in *.
  destruct (Hborn (clock (e_ticks e))) as (s1 & Hs1 & Hc). rewrite Hs0 in Hs1. injection Hs1 as <-.
  destruct (within_exact _ _ _ _ Wl Hok Hpos ltac:(lia)) as (n & Hn & Hage).
  exists n. split; [lia|]. by rewrite <- Hc.
Qed.

End Sessions.

(** ** Witnesses *)

Definition bounded_config : Config := set_bounds 3600 600 CreateConfig.

Definition bounded_toa : Toa :=
  {| t_ProviderURL := t_ProviderURL sample_toa; t_ClientJwtPrivateKey := None;
     t_CallbackURL := t_CallbackURL sample_toa; t_Config := bounded_config;
     t_DiscoveryDocument := Some sample_discovery; t_Jwks := fresh_handler;
     t_BypassAuthenticationRule := None; t_RedirectUriWildcardsEnabled := false;
     t_validIssuer := ""; t_validAudience := ""; t_sessionWrites := t_sessionWrites sample_toa |}.

Definition login_session : SessionState := set_expiry still_now 0 sample_session.

#[local] Instance sample_store : SessionStore :=
  @cookie_store ascii_only_unicode binary_json binary_time clear_aead.

#[local] Instance sample_store_laws : SessionStoreLaws :=
  @cookie_store_laws ascii_only_unicode binary_json binary_json_laws binary_time binary_time_laws
    clear_aead clear_aead_laws.

Definition login_ticket : string :=
  match (store_StoreSession still_now (Ok sample_nonce) bounded_config login_session).2 with
  | Ok t => t
  | Err _ => ""
  end.

Definition login_request : Request := {|
  r_Method := "GET"; r_URL := {| u_Scheme := ""; u_Host := ""; u_Path := "/"; u_RawQuery := "" |};
  r_Host := "app.example.com"; r_RequestURI := "/"; r_Header := ∅;
  r_Cookies := [("TraefikOidcAuth.Session", login_ticket)]; r_TLS := true; r_RemoteAddr := "" |}.

Lemma login_session_ok : session_ok login_session.
Proof.
  split; try (vm_compute; reflexivity);
    (split; [vm_compute; congruence | vm_compute; first [reflexivity | congruence]]).
Defined.

Lemma getSessionForRequest_sound_witness :
  (exists s cl e' t',
     @getSessionForRequest ascii_only_unicode binary_json path_urls still_world sample_jwt sample_store
       login_request start bounded_toa = Some ((Some s, false, cl, None), e', t')
     /\ ss_Id s = "7f6c")
  /\ runs (@getSessionForRequest ascii_only_unicode binary_json path_urls still_world sample_jwt
             sample_store login_request) start bounded_toa
       (fun '(so, _, cl, err) _ _ => so = None -> err <> None -> cl = ∅).
Proof.
  split; [eexists _, _, _, _; split; vm_compute; reflexivity|].
  eapply outcome_mono;
    [exact (@getSessionForRequest_sound ascii_only_unicode binary_json path_urls still_world sample_jwt
              sample_store sample_store_laws login_request start bounded_toa default_provider eq_refl
              ltac:(discriminate) ltac:(split; vm_compute; congruence) ltac:(split; vm_compute; congruence))
    | intros [] |].
  intros [[[[s|] upd] cl] err] e' t' [_ Hr]; [discriminate | intros _; exact Hr].
Defined.

Lemma session_lifetime_bounded_witness :
  runs (@validateSessionTicket ascii_only_unicode binary_json path_urls still_world sample_jwt
          sample_store login_ticket) start bounded_toa
    (fun '(so, _, _, _) _ _ =>
       so = None \/ exists n, (0 < n <= 2)%nat
                     /\ @clock still_world n - still_now <= 3600 * Second).
Proof.
  refine (@session_lifetime_bounded ascii_only_unicode binary_json path_urls still_world sample_jwt
            sample_store sample_store_laws bounded_config still_now login_ticket start bounded_toa
            default_provider eq_refl _ eq_refl _ _).
  - refine (@first_ticket _ _ _ _ _ _ bounded_config still_now sample_nonce login_session _ login_ticket
              eq_refl eq_refl login_session_ok _ _ _).
    + reflexivity.
    + split; [vm_compute; congruence | vm_compute; reflexivity].
    + vm_compute. reflexivity.
  - split; vm_compute; congruence.
  - reflexivity.
Defined.
