(* ===== verification/Network.v ===== *)
(** * Package [net]: addresses and networks

    [net.SplitHostPort], [net.ParseIP], [net.ParseCIDR] and [IPNet.Contains],
    by which both programs decide whether a peer is a trusted proxy.  An
    address is its list of bytes, as in Go: four of them, or sixteen. *)

From Stdlib Require Import ZArith Lia Ascii String Bool List.
From S2P Require Import Prelude GoStrings GoUrl Config.

(** ** Host and port *)

Definition IndexByte (s : string) (c : ascii) : option nat := IndexFunc (Ascii.eqb c) s.

(** [net.SplitHostPort]: the host, when the form is [host:port] or
    [[host]:port]. *)
Definition SplitHostPort (hostport : string) : option (string * string) :=
  match LastIndexByte hostport ":" with
  | None => None
  | Some i =>
      let port := sdrop (S i) hostport in
      if HasPrefix hostport "[" then
        match IndexByte hostport "]" with
        | None => None
        | Some close =>
            if negb (S close =? i)%nat then None
            else if byte_in "[" (sdrop 1 hostport) || byte_in "]" (sdrop (S close) hostport) then None
            else Some (stake (close - 1) (sdrop 1 hostport), port)
        end
      else
        let host := stake i hostport in
        if byte_in ":" host || byte_in "[" hostport || byte_in "]" hostport then None
        else Some (host, port)
  end.

(** ** Addresses *)

(** One field of a dotted address: decimal, below 256, no leading zero. *)
Definition ipv4_field (f : string) : option Z :=
  if String.eqb f "" || negb (sforall is_digit f) then None
  else if HasPrefix f "0" && (1 <? slen f)%nat then None
  else match digits 0 f with
       | Some n => if n <=? 255 then Some n else None
       | None => None
       end.

Definition parseIPv4 (s : string) : option IP :=
  match SplitByte s "." with
  | [a; b; c; d] =>
      a ← ipv4_field a; b ← ipv4_field b; c ← ipv4_field c; d ← ipv4_field d; Some [a; b; c; d]
  | _ => None
  end.

(** The hexadecimal digits at the front, with what follows them. *)
Fixpoint hex_group (s : string) : list nat * string :=
  match s with
  | EmptyString => ([], "")
  | String c r =>
      match hex_val c with
      | Some d => let '(ds, rest) := hex_group r in (d :: ds, rest)
      | None => ([], s)
      end
  end.

Definition hex_number (ds : list nat) : Z := fold_left (fun acc d => acc * 16 + Z.of_nat d) ds 0.

(** [parseIPv6] after a leading [::]: the bytes so far, the place of the
    ellipsis, and the rest of the text.  Two bytes are read per round, so eight
    rounds fill the address. *)
Fixpoint ipv6_loop (rounds : nat) (ip : IP) (ellipsis : option nat) (s : string)
  : option (IP * option nat) :=
  match rounds with
  | O => if String.eqb s "" then Some (ip, ellipsis) else None
  | S rounds =>
      let '(ds, rest) := hex_group s in
      if (length ds =? 0)%nat || (4 <? length ds)%nat then None
      else if HasPrefix rest "." then
        if bool_decide (ellipsis = None) && negb (length ip =? 12)%nat then None
        else if (12 <? length ip)%nat then None
        else tail ← parseIPv4 s; Some (ip ++ tail, ellipsis)
      else
        let acc := hex_number ds in
        let ip := ip ++ [acc / 256; acc mod 256] in
        match rest with
        | EmptyString => Some (ip, ellipsis)
        | String c rest =>
            if negb (Ascii.eqb c ":") || String.eqb rest "" then None
            else if HasPrefix rest ":" then
              if negb (bool_decide (ellipsis = None)) then None
              else
                let rest := sdrop 1 rest in
                if String.eqb rest "" then Some (ip, Some (length ip))
                else ipv6_loop rounds ip (Some (length ip)) rest
            else ipv6_loop rounds ip ellipsis rest
        end
  end.

Definition expand_ellipsis (r : IP * option nat) : option IP :=
  let '(ip, ellipsis) := r in
  match ellipsis with
  | None => if (length ip =? 16)%nat then Some ip else None
  | Some k =>
      if (length ip <? 16)%nat
      then Some (take k ip ++ replicate (16 - length ip) 0 ++ drop k ip)
      else None
  end.

Definition parseIPv6 (s : string) : option IP :=
  if HasPrefix s "::" then
    let s := sdrop 2 s in
    if String.eqb s "" then Some (replicate 16 0)
    else r ← ipv6_loop 8 [] (Some 0%nat) s; expand_ellipsis r
  else r ← ipv6_loop 8 [] None s; expand_ellipsis r.

(** [netip.ParseAddr], refusing zones as both its callers do. *)
Definition ParseAddr (s : string) : option IP :=
  if byte_in "%" s then None
  else match IndexAny s ".:" with
       | None => None
       | Some i => if HasPrefix (sdrop i s) "." then parseIPv4 s else parseIPv6 s
       end.

Definition v4InV6Prefix : list Z := replicate 10 0 ++ [255; 255].

(** [addr.As16()], [net.ParseIP], [ip.To4()]. *)
Definition As16 (ip : IP) : IP := if (length ip =? 4)%nat then v4InV6Prefix ++ ip else ip.

Definition ParseIP (s : string) : option IP := As16 <$> ParseAddr s.

Definition To4 (ip : IP) : option IP :=
  if (length ip =? 4)%nat then Some ip
  else if (length ip =? 16)%nat && bool_decide (take 12 ip = v4InV6Prefix) then Some (drop 12 ip)
  else None.

(** ** Networks *)

(** Byte [n] bits of which are ones, from the top. *)
Definition mask_byte (n : nat) : Z := 256 - 2 ^ (8 - Z.of_nat (Nat.min n 8)).

(** [net.CIDRMask(ones, 8 * size)] *)
Fixpoint CIDRMask (ones size : nat) : list Z :=
  match size with
  | O => []
  | S size => mask_byte ones :: CIDRMask (ones - 8) size
  end.

Definition and_bytes (ip mask : list Z) : list Z := zip_with Z.land ip mask.

(** [net.ParseCIDR], the network. *)
Definition ParseCIDR (s : string) : result IPNet :=
  of_option "invalid CIDR address"
    (i ← IndexByte s "/";
     ip ← ParseAddr (stake i s);
     let mask := sdrop (S i) s in
     if String.eqb mask "" || negb (sforall is_digit mask) then None
     else
       n ← digits 0 mask;
       if Z.of_nat (8 * length ip) <? n then None
       else
         let m := CIDRMask (Z.to_nat n) (length ip) in
         Some {| n_IP := and_bytes ip m; n_Mask := m |}).

(** [n.Contains(ip)]: an IPv4 address in its 16-byte form is compared as
    IPv4. *)
Definition networkNumberAndMask (n : IPNet) : option (IP * list Z) :=
  let ip := default (n_IP n) (To4 (n_IP n)) in
  if negb (length ip =? 4)%nat && negb (length ip =? 16)%nat then None
  else if (length (n_Mask n) =? length ip)%nat then Some (ip, n_Mask n)
  else if (length (n_Mask n) =? 16)%nat && (length ip =? 4)%nat then Some (ip, drop 12 (n_Mask n))
  else None.

Definition net_Contains (n : IPNet) (ip : IP) : bool :=
  match networkNumberAndMask n with
  | None => false
  | Some (nn, m) =>
      let x := default ip (To4 ip) in
      bool_decide (length x = length nn /\ and_bytes nn m = and_bytes x m)
  end.

Example parse_v4 : ParseIP "10.0.0.1" = Some (v4InV6Prefix ++ [10; 0; 0; 1]).
Proof. vm_compute. reflexivity. Qed.
Example parse_v4_zero : ParseIP "10.0.0.01" = None.
Proof. vm_compute. reflexivity. Qed.
Example parse_v6 : ParseIP "2001:db8::1.2.3.4"
                   = Some [32; 1; 13; 184; 0; 0; 0; 0; 0; 0; 0; 0; 1; 2; 3; 4].
Proof. vm_compute. reflexivity. Qed.
Example parse_v6_long : ParseIP "1:2:3:4:5:6:7::8" = None.
Proof. vm_compute. reflexivity. Qed.
Example split_v6 : SplitHostPort "[::1]:443" = Some ("::1", "443").
Proof. vm_compute. reflexivity. Qed.
Example cidr_v4 : ParseCIDR "10.9.8.7/12"
                  = Ok {| n_IP := [10; 0; 0; 0]; n_Mask := [255; 240; 0; 0] |}.
Proof. vm_compute. reflexivity. Qed.
