(* ===== verification/Prefixes.v ===== *)
(** * Networks as intervals of numbers

    What [ParseCIDR] and [Contains] of [Network] decide, in terms of the number
    that an address is: an address is in a network when their leading bits are
    the same number.  The lists of trusted proxies of both programs are stated
    with it. *)

From Stdlib Require Import ZArith Lia Ascii String Bool List.
From S2P Require Import Prelude GoStrings GoUrl Config Network.

(** ** Bytes and numbers *)

Definition byte (b : Z) : Prop := 0 <= b < 256.

Fixpoint ip_number (ip : IP) : Z :=
  match ip with
  | [] => 0
  | b :: r => b * 2 ^ (8 * Z.of_nat (length r)) + ip_number r
  end.

(** The number that the first [n] bits of an address are. *)
Definition leading (n : nat) (ip : IP) : Z := ip_number ip / 2 ^ (8 * Z.of_nat (length ip) - Z.of_nat n).

Lemma ip_number_range ip : Forall byte ip -> 0 <= ip_number ip < 2 ^ (8 * Z.of_nat (length ip)).
Proof.
  induction 1 as [|b r Hb _ IH]; [done|]. cbn [ip_number length]. unfold byte in Hb.
  replace (8 * Z.of_nat (S (length r))) with (8 + 8 * Z.of_nat (length r)) by lia.
  rewrite Z.pow_add_r by lia. change (2 ^ 8) with 256. nia.
Qed.

(** Masking a byte keeps its leading bits. *)
Lemma mask_byte_land b n :
  byte b -> (n <= 8)%nat -> Z.land b (mask_byte n) = b / 2 ^ (8 - Z.of_nat n) * 2 ^ (8 - Z.of_nat n).
Proof.
  intros Hb Hn.
  assert (forallb (fun n => forallb (fun b => Z.land (Z.of_nat b) (mask_byte n)
            =? Z.of_nat b / 2 ^ (8 - Z.of_nat n) * 2 ^ (8 - Z.of_nat n)) (seq 0 256)) (seq 0 9) = true) as Hall
    by (vm_compute; reflexivity).
  rewrite forallb_forall in Hall. specialize (Hall n ltac:(apply in_seq; lia)). cbv beta in Hall.
  rewrite forallb_forall in Hall. specialize (Hall (Z.to_nat b)). unfold byte in Hb.
  rewrite Z2Nat.id in Hall by lia. apply Z.eqb_eq, Hall, in_seq. lia.
Qed.

Lemma mask_byte_eq a b n :
  byte a -> byte b -> (n <= 8)%nat ->
  Z.land a (mask_byte n) = Z.land b (mask_byte n) <-> a / 2 ^ (8 - Z.of_nat n) = b / 2 ^ (8 - Z.of_nat n).
Proof.
  intros Ha Hb Hn. rewrite !mask_byte_land by done.
  assert (0 < 2 ^ (8 - Z.of_nat n)) by (apply Z.pow_pos_nonneg; lia). split; [nia | by intros ->].
Qed.

Lemma CIDRMask_0 size : CIDRMask 0 size = replicate size 0.
Proof. induction size as [|size IH]; [done|]. cbn [CIDRMask replicate]. by rewrite Nat.sub_0_l, IH. Qed.

Lemma and_bytes_zero ip : and_bytes ip (replicate (length ip) 0) = replicate (length ip) 0.
Proof. unfold and_bytes. induction ip as [|b ip IH]; [done|]. cbn. by rewrite Z.land_0_r, IH. Qed.

Lemma mask_byte_full n : (8 <= n)%nat -> mask_byte n = mask_byte 8.
Proof. intros Hn. unfold mask_byte. by rewrite !Nat.min_r by lia. Qed.

(** The leading bits of a number with a high byte. *)
Lemma div_high a r L k :
  0 <= k <= L -> 0 <= r < 2 ^ L ->
  (a * 2 ^ L + r) / 2 ^ (L - k) = a * 2 ^ k + r / 2 ^ (L - k) /\ 0 <= r / 2 ^ (L - k) < 2 ^ k.
Proof.
  intros Hk Hr. assert (0 < 2 ^ (L - k)) as Hp by (apply Z.pow_pos_nonneg; lia).
  assert (2 ^ L = 2 ^ k * 2 ^ (L - k)) as HL by (rewrite <- Z.pow_add_r by lia; f_equal; lia).
  split.
  - rewrite HL at 1. rewrite Z.mul_assoc, Z.div_add_l by lia. done.
  - split; [apply Z.div_pos; lia|]. apply Z.div_lt_upper_bound; [done|]. rewrite Z.mul_comm, <- HL. lia.
Qed.

Lemma div_low a r L j : 0 <= L -> 0 <= j -> 0 <= r < 2 ^ L -> (a * 2 ^ L + r) / 2 ^ (L + j) = a / 2 ^ j.
Proof.
  intros HL Hj Hr. rewrite Z.pow_add_r by lia. rewrite <- Z.div_div.
  - f_equal. rewrite Z.div_add_l by lia. rewrite Z.div_small; lia.
  - lia.
  - apply Z.pow_pos_nonneg; lia.
Qed.

(** Two addresses agree under a mask when their leading bits do. *)
Lemma masked_eq x y n :
  Forall byte x -> Forall byte y -> length x = length y -> (n <= 8 * length x)%nat ->
  and_bytes x (CIDRMask n (length x)) = and_bytes y (CIDRMask n (length x)) <-> leading n x = leading n y.
Proof.
  intros Hx. revert y n. induction Hx as [|a x Ha Hx IH]; intros [|b y] n Hy Hl Hn; try done.
  apply Forall_cons in Hy as [Hb Hy]. injection Hl as Hl. cbn [length] in Hn.
  pose proof (ip_number_range x Hx) as Rx. pose proof (ip_number_range y Hy) as Ry. rewrite <- Hl in Ry.
  unfold leading in *. cbn [length CIDRMask ip_number and_bytes zip_with]. rewrite <- Hl in *.
  set (L := 8 * Z.of_nat (length x)) in *.
  replace (8 * Z.of_nat (S (length x))) with (8 + L) by lia.
  destruct (decide (8 <= n)%nat) as [Hge|Hlt].
  - specialize (IH y (n - 8)%nat Hy Hl ltac:(lia)). rewrite <- Hl in IH. fold L in IH.
    set (k := Z.of_nat (n - 8)) in *. replace (8 + L - Z.of_nat n) with (L - k) by lia.
    destruct (div_high a (ip_number x) L k) as [-> Hqx]; [lia..|].
    destruct (div_high b (ip_number y) L k) as [-> Hqy]; [lia..|].
    rewrite (mask_byte_full n Hge). pose proof (mask_byte_eq a b 8 Ha Hb ltac:(lia)) as H8.
    change (2 ^ (8 - Z.of_nat 8)) with 1 in H8. rewrite !Z.div_1_r in H8. unfold and_bytes in IH.
    split.
    + intros [= E1 E2]. apply H8 in E1. apply IH in E2. lia.
    + intros E. assert (a = b) as -> by nia. f_equal. apply IH. lia.
  - replace (n - 8)%nat with 0%nat by lia. rewrite CIDRMask_0.
    replace (8 + L - Z.of_nat n) with (L + (8 - Z.of_nat n)) by lia.
    rewrite !div_low by lia. rewrite <- (mask_byte_eq a b n) by (done || lia).
    pose proof (and_bytes_zero x) as Zx. pose proof (and_bytes_zero y) as Zy. rewrite <- Hl in Zy.
    unfold and_bytes in Zx, Zy. rewrite Zx, Zy. split; [by intros [= E] | by intros ->].
Qed.

Lemma and_bytes_idem x m : and_bytes (and_bytes x m) m = and_bytes x m.
Proof.
  unfold and_bytes. revert m. induction x as [|b x IH]; intros [|c m]; try done. cbn [zip_with].
  by rewrite IH, <- Z.land_assoc, Z.land_diag.
Qed.

(** ** Parsed addresses *)

Lemma digits_nonneg s acc n : 0 <= acc -> digits acc s = Some n -> 0 <= n.
Proof.
  revert acc. induction s as [|c s IH]; cbn [digits]; intros acc Ha; [by intros [= <-]|].
  destruct ((0 <=? _) && _) eqn:E; [|done]. boolprop. intros H'. apply IH in H'; lia.
Qed.

Lemma ipv4_field_byte f b : ipv4_field f = Some b -> byte b.
Proof.
  unfold ipv4_field. destruct (_ || _); [done|]. destruct (_ && _); [done|].
  destruct (digits 0 f) as [n|] eqn:E; [|done]. destruct (n <=? 255) eqn:En; [|done]. intros [= <-].
  apply digits_nonneg in E; [|lia]. boolprop. unfold byte. lia.
Qed.

(** An address of the right kind: bytes, four or sixteen of them. *)
Definition address (ip : IP) : Prop := Forall byte ip /\ (length ip = 4%nat \/ length ip = 16%nat).

Lemma parseIPv4_address s ip : parseIPv4 s = Some ip -> Forall byte ip /\ length ip = 4%nat.
Proof.
  unfold parseIPv4. destruct (SplitByte s ".") as [|a [|b [|c [|d [|]]]]]; try done.
  intros H. simplify_option_eq. split; [|done].
  repeat match goal with E : ipv4_field _ = Some _ |- _ => apply ipv4_field_byte in E end. auto.
Qed.

Lemma hex_val_small c d : hex_val c = Some d -> (d < 16)%nat.
Proof. destruct c as [[] [] [] [] [] [] [] []]; vm_compute; intros [= <-]; lia. Qed.

Lemma hex_group_small s ds rest : hex_group s = (ds, rest) -> Forall (fun d => (d < 16)%nat) ds.
Proof.
  revert ds rest. induction s as [|c s IH]; cbn [hex_group]; intros ds rest; [by intros [= <- <-]|].
  destruct (hex_val c) as [d|] eqn:Ed; [|by intros [= <- <-]].
  destruct (hex_group s) as [ds' rest'] eqn:Eg. intros [= <- <-].
  constructor; [by eapply hex_val_small | by eapply IH].
Qed.

Lemma hex_number_small ds :
  Forall (fun d => (d < 16)%nat) ds -> (length ds <= 4)%nat -> 0 <= hex_number ds < 65536.
Proof.
  intros Hd Hl. unfold hex_number.
  do 5 (destruct ds as [|? ds]; [cbn; repeat match goal with H : Forall _ (_ :: _) |- _ =>
    apply Forall_cons in H; destruct H end; lia|]). simpl in Hl. lia.
Qed.

Definition partial_address (ip : IP) : Prop := Forall byte ip /\ (length ip <= 16)%nat.

Lemma ipv6_loop_bytes rounds ip e s ip' e' :
  ipv6_loop rounds ip e s = Some (ip', e') -> Forall byte ip -> (length ip + 2 * rounds <= 16)%nat ->
  Forall byte ip' /\ (length ip' <= 16)%nat.
Proof.
  revert ip e s. induction rounds as [|rounds IH]; cbn [ipv6_loop]; intros ip e s.
  { destruct (String.eqb s ""); [|done]. intros [= <- <-]. split; [done | lia]. }
  destruct (hex_group s) as [ds rest] eqn:Eg. apply hex_group_small in Eg.
  destruct ((length ds =? 0)%nat || (4 <? length ds)%nat) eqn:El; [done|]. boolprop.
  pose proof (hex_number_small ds Eg ltac:(lia)) as Hn.
  assert (Forall byte [hex_number ds / 256; hex_number ds mod 256]) as Hb.
  { constructor; [|constructor; [|constructor]]; unfold byte.
    - split; [apply Z.div_pos; lia | apply Z.div_lt_upper_bound; lia].
    - apply Z.mod_pos_bound. lia. }
  intros Hres Hip Hlen. destruct (HasPrefix rest ".").
  - destruct (_ && _); [done|]. destruct (12 <? length ip)%nat eqn:E12; [done|]. boolprop.
    destruct (parseIPv4 s) as [tail|] eqn:E4; [|done]. injection Hres as <- <-.
    apply parseIPv4_address in E4 as [Ht Htl]. rewrite Forall_app, length_app. split; [done | lia].
  - assert (Forall byte (ip ++ [hex_number ds / 256; hex_number ds mod 256])) as Hip' by by apply Forall_app.
    assert (length (ip ++ [hex_number ds / 256; hex_number ds mod 256]) = (length ip + 2)%nat) as Hl'
      by by rewrite length_app.
    repeat case_match; simplify_eq; try done; try (split; [done | lia]);
      eapply IH; eauto; lia.
Qed.

Lemma parseIPv6_address s ip : parseIPv6 s = Some ip -> Forall byte ip /\ length ip = 16%nat.
Proof.
  assert (forall e s ip, (r ← ipv6_loop 8 [] e s; expand_ellipsis r) = Some ip ->
            Forall byte ip /\ length ip = 16%nat) as Hgen.
  { clear. intros e s ip. destruct (ipv6_loop 8 [] e s) as [[ip' [k|]]|] eqn:El; cbn [mbind option_bind expand_ellipsis]; [| |done].
    - apply ipv6_loop_bytes in El as [Hb Hl]; [|constructor|simpl; lia].
      destruct (length ip' <? 16)%nat eqn:E16; [|done]. intros [= <-]. boolprop.
      rewrite !Forall_app, !length_app, length_replicate, length_take, length_drop. split; [|lia].
      split_and!; [by apply Forall_take | by apply Forall_replicate | by apply Forall_drop].
    - apply ipv6_loop_bytes in El as [Hb Hl]; [|constructor|simpl; lia].
      destruct (length ip' =? 16)%nat eqn:E16; [|done]. intros [= <-]. boolprop. done. }
  unfold parseIPv6. destruct (HasPrefix s "::"); [|apply Hgen].
  destruct (String.eqb _ ""); [|apply Hgen]. intros [= <-]. split; [change (Forall byte (replicate 16 0)); by apply Forall_replicate | done].
Qed.

Lemma ParseAddr_address s ip : ParseAddr s = Some ip -> address ip.
Proof.
  unfold ParseAddr, address. destruct (byte_in "%" s); [done|]. destruct (IndexAny s ".:"); [|done].
  destruct (HasPrefix _ "."); [intros []%parseIPv4_address | intros []%parseIPv6_address]; auto.
Qed.

(** ** Networks *)

(** An address in the form that addresses are compared in: an IPv4 address in
    sixteen bytes is its four last. *)
Definition plain (ip : IP) : IP := default ip (To4 ip).

(** The network of [n] leading bits of [a] as it is compared: an IPv4 network
    in sixteen bytes is one of four when its prefix covers the twelve first. *)
Definition plain_network (a : IP) (n : nat) : IP * nat :=
  if (length a =? 16)%nat && (96 <=? n)%nat && bool_decide (take 12 a = v4InV6Prefix)
  then (drop 12 a, (n - 96)%nat) else (a, n).

(** The address is in the network of the [n] leading bits of [a]. *)
Definition in_network (ip a : IP) (n : nat) : Prop :=
  length (plain ip) = length (plain_network a n).1
  /\ leading (plain_network a n).2 (plain ip) = leading (plain_network a n).2 (plain_network a n).1.

Lemma length_and_bytes x m : length x = length m -> length (and_bytes x m) = length x.
Proof. intros H. unfold and_bytes. rewrite length_zip_with. lia. Qed.

Lemma length_CIDRMask n size : length (CIDRMask n size) = size.
Proof. revert n. induction size as [|size IH]; intros n; cbn; [done | by rewrite IH]. Qed.

Lemma and_bytes_drop k x m : drop k (and_bytes x m) = and_bytes (drop k x) (drop k m).
Proof.
  unfold and_bytes. revert x m. induction k as [|k IH]; intros [|b x] [|c m]; try done; cbn.
  - by destruct (drop k x).
  - apply IH.
Qed.

Lemma and_bytes_take k x m : take k (and_bytes x m) = and_bytes (take k x) (take k m).
Proof.
  unfold and_bytes. revert x m. induction k as [|k IH]; intros [|b x] [|c m]; try done; cbn.
  by rewrite IH.
Qed.

Lemma CIDRMask_drop k n size : drop k (CIDRMask n size) = CIDRMask (n - 8 * k) (size - k).
Proof.
  revert n size. induction k as [|k IH]; intros n size; [by rewrite drop_0, Nat.mul_0_r, !Nat.sub_0_r|].
  destruct size as [|size]; [done|]. cbn [CIDRMask drop]. rewrite IH. f_equal; lia.
Qed.

Lemma CIDRMask_take k n size : (k <= size)%nat -> take k (CIDRMask n size) = CIDRMask n k.
Proof.
  revert n size. induction k as [|k IH]; intros n [|size] Hk; try done; [lia|].
  cbn [CIDRMask take]. by rewrite IH by lia.
Qed.

Lemma land_full b : byte b -> Z.land b (mask_byte 8) = b.
Proof. intros Hb. rewrite mask_byte_land by (done || lia). change (2 ^ (8 - Z.of_nat 8)) with 1. rewrite Z.div_1_r. lia. Qed.

(** A full mask changes nothing. *)
Lemma and_bytes_full x n : Forall byte x -> (8 * length x <= n)%nat -> and_bytes x (CIDRMask n (length x)) = x.
Proof.
  unfold and_bytes. intros Hx. revert n. induction Hx as [|b x Hb _ IH]; intros n Hn; [done|].
  cbn [length CIDRMask zip_with] in *. rewrite mask_byte_full, land_full by (done || lia). by rewrite IH by lia.
Qed.

(** A mask that does not cover a list ends it with an even number. *)
Lemma and_bytes_short x n b :
  Forall byte x -> (n < 8 * length x)%nat -> last (and_bytes x (CIDRMask n (length x))) = Some b -> Z.even b = true.
Proof.
  unfold and_bytes. intros Hx. revert n. induction Hx as [|a x Ha Hx IH]; intros n Hn; [simpl in Hn; lia|].
  cbn [length CIDRMask zip_with] in *. destruct x as [|a' x].
  - cbn. intros [= <-]. rewrite mask_byte_land by (done || (simpl in Hn; lia)).
    replace (8 - Z.of_nat n) with (1 + (7 - Z.of_nat n)) at 2 by lia.
    rewrite Z.pow_add_r by (simpl in Hn; lia). rewrite !Z.even_mul. by rewrite orb_true_r.
  - intros Hl. apply (IH (n - 8)%nat); [simpl in *; lia|]. exact Hl.
Qed.

(** Masking leaves the prefix of mapped addresses only where it covers it. *)
Lemma masked_mapped a n :
  Forall byte a -> length a = 16%nat ->
  take 12 (and_bytes a (CIDRMask n 16)) = v4InV6Prefix <-> (96 <= n)%nat /\ take 12 a = v4InV6Prefix.
Proof.
  intros Ha Hl. rewrite and_bytes_take, CIDRMask_take by lia.
  assert (length (take 12 a) = 12%nat) as H12 by (rewrite length_take; lia).
  assert (Forall byte (take 12 a)) as Hb by by apply Forall_take.
  destruct (decide (96 <= n)%nat) as [Hn|Hn].
  - pose proof (and_bytes_full (take 12 a) n Hb ltac:(lia)) as E. rewrite H12 in E. rewrite E. tauto.
  - split; [|by intros [? _]]. intros E. exfalso.
    pose proof (and_bytes_short (take 12 a) n 255 Hb ltac:(lia)) as Ev. rewrite H12, E in Ev.
    by specialize (Ev eq_refl).
Qed.

Lemma plain_bytes ip : address ip -> Forall byte (plain ip).
Proof.
  intros [Hb _]. unfold plain, To4. destruct (length ip =? 4)%nat; [done|].
  destruct (_ && _); [|done]. by apply Forall_drop.
Qed.

(** The comparison that [Contains] makes. *)
Lemma compared_eq x a n size :
  Forall byte x -> Forall byte a -> length a = size -> (n <= 8 * size)%nat ->
  bool_decide (length x = length (and_bytes a (CIDRMask n size))
               /\ and_bytes (and_bytes a (CIDRMask n size)) (CIDRMask n size) = and_bytes x (CIDRMask n size))
  = true <-> length x = length a /\ leading n x = leading n a.
Proof.
  intros Hx Ha <- Hn. rewrite bool_decide_eq_true, and_bytes_idem, length_and_bytes by by rewrite length_CIDRMask.
  split; intros [Hl E]; (split; [done|]);
    pose proof (masked_eq a x n Ha Hx (eq_sym Hl) Hn) as M; [symmetry|]; apply M; congruence.
Qed.

Lemma net_Contains_prefix a n ip :
  address a -> address ip -> (n <= 8 * length a)%nat ->
  net_Contains {| n_IP := and_bytes a (CIDRMask n (length a)); n_Mask := CIDRMask n (length a) |} ip = true
  <-> in_network ip a n.
Proof.
  intros [Ha La] Hip Hn. pose proof (plain_bytes ip Hip) as Hp.
  assert (length (and_bytes a (CIDRMask n (length a))) = length a) as Hl
    by (apply length_and_bytes; by rewrite length_CIDRMask).
  unfold net_Contains, networkNumberAndMask, in_network. fold (plain ip). cbn [n_IP n_Mask].
  unfold To4, plain_network. rewrite Hl, length_CIDRMask.
  destruct La as [La|La]; rewrite La in *.
  - cbn [Nat.eqb andb default from_option fst snd]. unfold id. rewrite Hl. cbn [Nat.eqb andb negb].
    by apply compared_eq.
  - cbn [Nat.eqb andb]. pose proof (masked_mapped a n Ha La) as Hm.
    destruct (bool_decide_reflect (take 12 (and_bytes a (CIDRMask n 16)) = v4InV6Prefix)) as [E|E].
    + apply Hm in E as [H96 Et]. apply Nat.leb_le in H96 as H96'. rewrite H96', (bool_decide_eq_true_2 _ Et).
      cbn [andb default from_option fst snd]. unfold id.
      rewrite and_bytes_drop, CIDRMask_drop. change (16 - 12)%nat with 4%nat. change (8 * 12)%nat with 96%nat.
      assert (length (drop 12 a) = 4%nat) as L4 by (rewrite length_drop; lia).
      assert (length (and_bytes (drop 12 a) (CIDRMask (n - 96) 4)) = 4%nat) as L4'
        by (rewrite length_and_bytes; [done | by rewrite length_CIDRMask]).
      rewrite L4'. cbn [Nat.eqb negb andb].
      apply compared_eq; [done | by apply Forall_drop | done | lia].
    + assert ((96 <=? n)%nat && bool_decide (take 12 a = v4InV6Prefix) = false) as ->.
      { apply andb_false_iff. destruct (96 <=? n)%nat eqn:E96; [right | by left].
        apply bool_decide_eq_false. intros Et. apply E, Hm. boolprop. done. }
      cbn [default from_option fst snd]. unfold id. rewrite Hl. cbn [Nat.eqb negb andb].
      by apply compared_eq.
Qed.

(** A parsed network contains an address when their leading bits, as many
    as the prefix length says, are the same number, among addresses of the same
    kind: IPv4 addresses are never in an IPv6 network, in whichever form they
    are written. *)
Lemma ParseCIDR_Contains s net :
  ParseCIDR s = Ok net ->
  exists i a n, IndexByte s "/" = Some i /\ ParseAddr (stake i s) = Some a
    /\ digits 0 (sdrop (S i) s) = Some (Z.of_nat n) /\ (n <= 8 * length a)%nat
    /\ forall ip, address ip -> (net_Contains net ip = true <-> in_network ip a n).
Proof.
  unfold ParseCIDR. intros H%of_option_Ok.
  destruct (IndexByte s "/") as [i|]; [|done]. cbn [mbind option_bind] in H.
  destruct (ParseAddr (stake i s)) as [a|] eqn:Ea; [|done]. cbn [mbind option_bind] in H.
  destruct (_ || _); [done|]. destruct (digits 0 (sdrop (S i) s)) as [z|] eqn:Ed; [|done].
  cbn [mbind option_bind] in H. pose proof (digits_nonneg _ _ _ ltac:(done) Ed) as Hz.
  destruct (Z.of_nat (8 * length a) <? z) eqn:El; [done|]. injection H as <-. boolprop.
  exists i, a, (Z.to_nat z). rewrite Z2Nat.id by lia. split_and!; [done..|lia|]. intros ip Hip.
  apply net_Contains_prefix; [by eapply ParseAddr_address | done | lia].
Qed.

Lemma ParseIP_address s ip : ParseIP s = Some ip -> address ip.
Proof.
  unfold ParseIP. destruct (ParseAddr s) as [a|] eqn:E; [|done]. intros [= <-].
  apply ParseAddr_address in E as [Ha La]. unfold As16. destruct (length a =? 4)%nat eqn:E4; [|done].
  boolprop. split; [|right; rewrite length_app, E4; done]. apply Forall_app. split; [|done].
  unfold v4InV6Prefix. apply Forall_app. split; [by apply Forall_replicate|].
  by repeat (constructor; [unfold byte; lia|]).
Qed.
