(* ===== verification/HtmlTemplate.v ===== *)
(** * Package [html/template], as the built-in error page uses it

    Fields and conditions of [text/template], and the escapers that
    [html/template] puts behind a field: in text, and in the address of a link.
    Beside them, how a page is read: the characters that are markup, those that
    are text, and those of attribute values. *)

From Stdlib Require Import ZArith Lia Ascii String Bool List.
From S2P Require Import Prelude GoStrings GoUrl.

#[global] Abbreviation quote := (ascii_of_nat 34).
Definition lt_char : ascii := "<"%char.
Definition gt_char : ascii := ">"%char.

(** ** Reading a page *)

(** Where a reader is: in text, in a tag, or in a quoted attribute value of a
    tag.  The contents of [title] and [style] are read as text: the page has
    neither a tag nor a reference in them. *)
Inductive mode := InText | InTag | InValue.

#[global] Instance mode_eq_dec : EqDecision mode.
Proof. solve_decision. Defined.

Abbreviation segment := (mode * string)%type.

Definition push (c : ascii) (l : list segment) : list segment :=
  match l with (m, x) :: l => (m, String c x) :: l | [] => [] end.

(** The page in segments; a tag has its angle brackets and quotation marks. *)
Fixpoint read (m : mode) (s : string) : list segment :=
  match s with
  | EmptyString => [(m, "")]
  | String c s =>
      match m with
      | InText => if Ascii.eqb c lt_char then (InText, "") :: push c (read InTag s) else push c (read InText s)
      | InTag =>
          if Ascii.eqb c quote then (InTag, String c "") :: read InValue s
          else if Ascii.eqb c gt_char then (InTag, String c "") :: read InText s
          else push c (read InTag s)
      | InValue => if Ascii.eqb c quote then (InValue, "") :: push c (read InTag s) else push c (read InValue s)
      end
  end.

(** The place at the end. *)
Fixpoint mode_after (m : mode) (s : string) : mode :=
  match s with
  | EmptyString => m
  | String c s =>
      mode_after
        (match m with
         | InText => if Ascii.eqb c lt_char then InTag else InText
         | InTag => if Ascii.eqb c quote then InValue else if Ascii.eqb c gt_char then InText else InTag
         | InValue => if Ascii.eqb c quote then InTag else InValue
         end) s
  end.

(** One reading after another: the last segment goes on. *)
Fixpoint join (a b : list segment) : list segment :=
  match a with
  | [] => b
  | [(m, x)] => match b with (_, y) :: b => (m, x +:+ y) :: b | [] => a end
  | sg :: a => sg :: join a b
  end.

Lemma read_ne m s : exists x l, read m s = (m, x) :: l.
Proof.
  revert m. induction s as [|c s IH]; intros m; [by eexists _, _|].
  destruct (IH m) as (x & l & E).
  destruct m; cbn [read]; repeat case_match; rewrite ?E; cbn [push]; by eexists _, _.
Qed.

Lemma push_join c a b : a <> [] -> push c (join a b) = join (push c a) b.
Proof.
  destruct a as [|[m x] [|sg a]]; [done|..]; intros _; cbn [push join]; [|done].
  by destruct b as [|[m' y] b].
Qed.

Lemma cons_join sg a b : a <> [] -> sg :: join a b = join (sg :: a) b.
Proof. by destruct sg, a. Qed.

Lemma read_app m a b : read m (a +:+ b) = join (read m a) (read (mode_after m a) b).
Proof.
  assert (forall m s, read m s <> []) as Hne by (intros m' s; by destruct (read_ne m' s) as (? & ? & ->)).
  assert (forall c m s, push c (read m s) <> []) as Hne'.
  { intros c m' s. by destruct (read_ne m' s) as (? & ? & ->). }
  revert m. induction a as [|c a IH]; intros m.
  { cbn. destruct (read_ne m b) as (x & l & ->). done. }
  change (String c a +:+ b) with (String c (a +:+ b)).
  destruct m; cbn [read mode_after]; repeat case_match; rewrite IH.
  all: rewrite ?push_join by done; by rewrite ?cons_join by done.
Qed.

Lemma mode_after_app m a b : mode_after m (a +:+ b) = mode_after (mode_after m a) b.
Proof. revert m. induction a as [|c a IH]; intros m; [done|]. apply IH. Qed.

(** Characters that end neither text nor a value. *)
Definition inert (c : ascii) : bool := negb (byte_in c (String quote "<>")).

Lemma read_inert m s : m <> InTag -> sforall inert s = true -> read m s = [(m, s)] /\ mode_after m s = m.
Proof.
  intros Hm. induction s as [|c s IH]; [done|]. cbn [sforall]. intros [Hc Hs]%andb_true_iff.
  destruct (IH Hs) as [E1 E2]. unfold inert in Hc. cbn [byte_in] in Hc. boolprop.
  destruct m; [| done |]; cbn [read mode_after].
  - destruct (Ascii.eqb c lt_char) eqn:E; [apply Ascii.eqb_eq in E as ->; done|]. by rewrite E1.
  - destruct (Ascii.eqb c quote) eqn:E; [apply Ascii.eqb_eq in E as ->; done|]. by rewrite E1.
Qed.

(** *** Character references *)

(** Those that the escapers write. *)
Definition references : list (string * ascii) :=
  [("&amp;", "&"%char); ("&lt;", lt_char); ("&gt;", gt_char); ("&#34;", quote);
   ("&#39;", "'"%char); ("&#43;", "+"%char)].

(** The character of the reference that the text begins with, and how many
    bytes there are after the first. *)
Fixpoint find_reference (rs : list (string * ascii)) (s : string) : option (ascii * nat) :=
  match rs with
  | [] => None
  | (r, c) :: rs => if HasPrefix s r then Some (c, (slen r - 1)%nat) else find_reference rs s
  end.

(** Text as it is shown: [skip] bytes of a reference are left out. *)
Fixpoint shown_from (skip : nat) (s : string) : string :=
  match s with
  | EmptyString => ""
  | String c s' =>
      match skip with
      | S skip => shown_from skip s'
      | O => match find_reference references s with
             | Some (d, skip) => String d (shown_from skip s')
             | None => String c (shown_from 0 s')
             end
      end
  end.

Definition shown : string -> string := shown_from 0.

(** ** The escapers *)

(** U+FFFD *)
Definition replacement_char : string := bytes [239; 191; 189]%nat.

(** [htmlReplacementTable] *)
Definition html_replacement (c : ascii) : option string :=
  if Ascii.eqb c zero then Some replacement_char
  else if Ascii.eqb c quote then Some "&#34;"
  else if Ascii.eqb c "&" then Some "&amp;"
  else if Ascii.eqb c "'" then Some "&#39;"
  else if Ascii.eqb c "+" then Some "&#43;"
  else if Ascii.eqb c lt_char then Some "&lt;"
  else if Ascii.eqb c gt_char then Some "&gt;"
  else None.

(** [htmlReplacer]: of [htmlEscaper], [rcdataEscaper] and [attrEscaper] alike,
    for data that is a plain string. *)
Fixpoint html_escape (s : string) : string :=
  match s with
  | EmptyString => ""
  | String c s => default (String c "") (html_replacement c) +:+ html_escape s
  end.

(** What is left of the data: everything but NUL. *)
Fixpoint without_nul (s : string) : string :=
  match s with
  | EmptyString => ""
  | String c s => (if Ascii.eqb c zero then replacement_char else String c "") +:+ without_nul s
  end.

Lemma html_escape_inert s : sforall inert (html_escape s) = true.
Proof.
  induction s as [|c s IH]; [done|]. cbn [html_escape]. rewrite sforall_app, IH, andb_true_r.
  revert c. apply byte_forall. vm_compute. reflexivity.
Qed.

(** *** Nothing of the data is lost, and nothing of it is markup *)

Lemma shown_plain c s : Ascii.eqb "&" c = false -> shown (String c s) = String c (shown s).
Proof. intros Hc. unfold shown. cbn [shown_from references find_reference HasPrefix]. by rewrite Hc. Qed.

Lemma shown_reference r c t : (r, c) ∈ references -> shown (r +:+ t) = String c (shown t).
Proof.
  unfold references. intros Hr. repeat (apply elem_of_cons in Hr as [[= -> ->]|Hr]; [reflexivity|]).
  by apply elem_of_nil in Hr.
Qed.

Lemma shown_replacement t : shown (replacement_char +:+ t) = replacement_char +:+ shown t.
Proof. reflexivity. Qed.

(** What takes the place of a character: itself, a reference to it, or U+FFFD. *)
Lemma html_replacement_cases c :
  match html_replacement c with
  | None => Ascii.eqb "&" c = false /\ Ascii.eqb c zero = false
  | Some r => (c = zero /\ r = replacement_char) \/ (Ascii.eqb c zero = false /\ (r, c) ∈ references)
  end.
Proof.
  unfold html_replacement.
  destruct (Ascii.eqb_spec c zero) as [->|]; [by left|].
  repeat match goal with
  | |- context [if Ascii.eqb c ?x then _ else _] =>
      destruct (Ascii.eqb_spec c x) as [->|]; [right; split; [done|]; unfold references; set_solver|]
  end.
  split; [|done]. rewrite Ascii.eqb_sym. by apply Ascii.eqb_neq.
Qed.

Lemma shown_html_escape s t : shown (html_escape s +:+ t) = without_nul s +:+ shown t.
Proof.
  induction s as [|c s IH]; [done|]. cbn [html_escape without_nul]. rewrite !sapp_assoc.
  pose proof (html_replacement_cases c) as Hc. destruct (html_replacement c) as [r|]; cbn [default].
  - destruct Hc as [[-> ->]|[-> Hr]].
    + change (Ascii.eqb zero zero) with true. by rewrite shown_replacement, IH.
    + by rewrite (shown_reference r c), IH.
  - destruct Hc as [Hc ->]. cbn [String.append]. by rewrite shown_plain, IH.
Qed.

Definition no_reference (s : string) : bool := sforall (fun c => negb (Ascii.eqb "&" c)) s.

Lemma shown_no_reference s t : no_reference s = true -> shown (s +:+ t) = s +:+ shown t.
Proof.
  induction s as [|c s IH]; [done|]. intros [Hc%negb_true_iff Hs]%andb_true_iff.
  cbn [String.append]. by rewrite shown_plain, IH.
Qed.

Lemma without_nul_id s : sforall (fun c => negb (Ascii.eqb c zero)) s = true -> without_nul s = s.
Proof.
  induction s as [|c s IH]; [done|]. intros [Hc%negb_true_iff Hs]%andb_true_iff.
  cbn [without_nul]. by rewrite Hc, IH.
Qed.

(** ** Addresses *)

Section Urls.
Context `{Unicode}.

(** [isSafeURL] *)
Definition isSafeURL (s : string) : bool :=
  match IndexFunc (Ascii.eqb ":") s with
  | Some i =>
      let protocol := stake i s in
      if Contains protocol "/" then true
      else EqualFold protocol "http" || EqualFold protocol "https" || EqualFold protocol "mailto"
  | None => true
  end.

(** [urlFilter] *)
Definition url_filter (s : string) : string := if isSafeURL s then s else "#ZgotmplZ".
End Urls.

Definition hex_lower (n : nat) : ascii :=
  match String.get n "0123456789abcdef" with Some c => c | None => "0"%char end.

Definition percent (c : ascii) (rest : string) : string :=
  String "%" (String (hex_lower (nat_of_ascii c / 16)) (String (hex_lower (nat_of_ascii c mod 16)) rest)).

Definition kept_in_url (c : ascii) : bool := is_alnum c || byte_in c "!#$&*+,/:;=?@[]-._~".

Definition is_hex (c : ascii) : bool := match hex_val c with Some _ => true | None => false end.

(** [urlNormalizer]: [processURLOnto] with [norm]. *)
Fixpoint url_normalize (s : string) : string :=
  match s with
  | EmptyString => ""
  | String c s =>
      if kept_in_url c then String c (url_normalize s)
      else if Ascii.eqb c "%"
              && match s with String h (String l _) => is_hex h && is_hex l | _ => false end
      then String c (url_normalize s)
      else percent c (url_normalize s)
  end.

(** A link's address, from the data to what the browser reads. *)
Definition link_address `{Unicode} (s : string) : string := url_normalize (url_filter s).

Lemma url_normalize_forall (P : ascii -> bool) s :
  (forall c, kept_in_url c = true -> P c = true) -> P "%"%char = true -> (forall n, P (hex_lower n) = true) ->
  sforall P (url_normalize s) = true.
Proof.
  intros Hk Hp Hh. induction s as [|c s IH]; [done|]. cbn [url_normalize].
  destruct (kept_in_url c) eqn:Ek; [cbn [sforall]; by rewrite Hk, IH|].
  destruct (Ascii.eqb_spec c "%") as [->|]; cbn [andb].
  - case_match; unfold percent; cbn [sforall]; by rewrite ?Hp, ?Hh, ?IH.
  - unfold percent. cbn [sforall]. by rewrite Hp, !Hh, IH.
Qed.

Lemma hex_lower_cases n : byte_in (hex_lower n) "0123456789abcdef" = true.
Proof. by do 16 (destruct n as [|n]; [done|]). Qed.

Lemma hex_lower_forall (P : ascii -> bool) : sforall P "0123456789abcdef" = true -> forall n, P (hex_lower n) = true.
Proof. intros HP n. exact (proj1 (sforall_spec _ _) HP _ (hex_lower_cases n)). Qed.

Lemma url_normalize_no_nul s : sforall (fun c => negb (Ascii.eqb c zero)) (url_normalize s) = true.
Proof.
  apply url_normalize_forall; [|done | by apply (hex_lower_forall (fun c => negb (Ascii.eqb c zero)))].
  intros c Hc. apply negb_true_iff, Ascii.eqb_neq. by intros ->.
Qed.

(** *** The scheme of an address *)

Definition scheme_char (c : ascii) : bool := is_alnum c || byte_in c "+-.".

(** What a browser takes for the scheme, in lower case. *)
Definition url_scheme (s : string) : option string :=
  match IndexFunc (Ascii.eqb ":") s with
  | Some i =>
      let p := stake i s in
      if negb (String.eqb p "") && sforall scheme_char p then Some (smap lower_char p) else None
  | None => None
  end.

(** Before a scheme's colon nothing was encoded. *)
Lemma normalize_scheme s i :
  IndexFunc (Ascii.eqb ":") (url_normalize s) = Some i ->
  sforall scheme_char (stake i (url_normalize s)) = true ->
  IndexFunc (Ascii.eqb ":") s = Some i /\ stake i s = stake i (url_normalize s).
Proof.
  revert i. induction s as [|c s IH]; [done|]. intros i. cbn [url_normalize].
  assert (forall rest, IndexFunc (Ascii.eqb ":") (String "%" rest) = Some i ->
            sforall scheme_char (stake i (String "%" rest)) = false) as Hpct.
  { intros rest. cbn [IndexFunc]. change (Ascii.eqb ":" "%") with false. cbv iota.
    destruct (IndexFunc _ rest) as [j|]; [|done]. by intros [= <-]. }
  destruct (kept_in_url c) eqn:Ek.
  - cbn [IndexFunc]. destruct (Ascii.eqb ":" c) eqn:Ec; [by intros [= <-]|].
    destruct (IndexFunc _ (url_normalize s)) as [j|] eqn:Ej; [|done]. intros [= <-]. cbn [stake sforall].
    intros [_ Hs]%andb_true_iff. destruct (IH j eq_refl Hs) as [-> ->]. done.
  - destruct (Ascii.eqb_spec c "%") as [->|]; cbn [andb].
    + unfold percent. case_match; intros Hi Hs; by rewrite (Hpct _ Hi) in Hs.
    + unfold percent. intros Hi Hs. by rewrite (Hpct _ Hi) in Hs.
Qed.

Lemma scheme_char_ascii c : negb (scheme_char c) || (is_ascii c && negb (Ascii.eqb c "/")) = true.
Proof. revert c. apply byte_forall. vm_compute. reflexivity. Qed.

Lemma scheme_chars_ascii p :
  sforall scheme_char p = true -> sforall is_ascii p = true /\ sforall (fun c => negb (Ascii.eqb c "/")) p = true.
Proof.
  induction p as [|c p IH]; [done|]. intros [Hc Hp]%andb_true_iff. destruct (IH Hp) as [H1 H2].
  pose proof (scheme_char_ascii c) as Ha. rewrite Hc in Ha. apply andb_true_iff in Ha as [Ha Hb].
  cbn [sforall]. by rewrite Ha, Hb, H1, H2.
Qed.

Lemma Contains_slash_free p : sforall (fun c => negb (Ascii.eqb c "/")) p = true -> Contains p "/" = false.
Proof.
  intros Hp. destruct (Contains p "/") eqn:E; [|done]. apply Contains_spec in E as (t & u & ->).
  rewrite !sforall_app in Hp. cbn in Hp. by rewrite !andb_false_r in Hp.
Qed.

(** A link on the page has no scheme, or one of three. *)
Lemma link_address_scheme `{Unicode} s :
  url_scheme (link_address s) ∈ [None; Some "http"; Some "https"; Some "mailto"].
Proof.
  unfold url_scheme, link_address. set (t := url_filter s).
  destruct (IndexFunc (Ascii.eqb ":") (url_normalize t)) as [i|] eqn:Ei; [|set_solver].
  destruct (_ && sforall scheme_char _) eqn:Ep; [|set_solver]. apply andb_true_iff in Ep as [_ Ep].
  destruct (normalize_scheme _ _ Ei Ep) as [Ei' Es]. rewrite <- Es in *.
  destruct (scheme_chars_ascii _ Ep) as [Ha Hs].
  assert (isSafeURL t = true) as Ht by (unfold t, url_filter; by destruct (isSafeURL s) eqn:E).
  unfold isSafeURL in Ht. rewrite Ei', Contains_slash_free in Ht by done.
  rewrite !EqualFold_ascii in Ht by done.
  change (smap lower_char "http") with "http" in Ht. change (smap lower_char "https") with "https" in Ht.
  change (smap lower_char "mailto") with "mailto" in Ht.
  apply orb_true_iff in Ht as [[Ht|Ht]%orb_true_iff|Ht]; apply String.eqb_eq in Ht as ->; set_solver.
Qed.

(** ** Templates *)

(** A field, the begin of a condition on a field, and its end. *)
Inductive action := Lit (text : string) | Field (name : string) | If (name : string) | End.

Definition words (s : string) : list string := List.filter (fun w => negb (String.eqb w "")) (SplitByte s " ").

Definition parse_action (s : string) : option action :=
  match words s with
  | [String "." name] => Some (Field name)
  | ["if"; String "." name] => Some (If name)
  | ["end"] => Some End
  | _ => None
  end.

(** The template's text, cut at the actions; each round takes one action. *)
Fixpoint parse_template (fuel : nat) (s : string) : option (list action) :=
  match Index s "{{", fuel with
  | None, _ => Some [Lit s]
  | Some i, S fuel =>
      let rest := sdrop (i + 2) s in
      j ← Index rest "}}"; a ← parse_action (stake j rest);
      acts ← parse_template fuel (sdrop (j + 2) rest);
      Some (Lit (stake i s) :: a :: acts)
  | Some _, O => None
  end.

Section Execute.
Context `{Unicode}.

(** What a field is: its text, or nothing when the data has no such key. *)
Context (field : string -> string) (holds : string -> bool).

(** [html/template] escapes a field for the place it stands in; the fields of
    the page stand in text and in addresses. *)
Definition escape_for (m : mode) (s : string) : string :=
  match m with InValue => html_escape (link_address s) | _ => html_escape s end.

(** [skip] counts the conditions that are open and do not hold. *)
Fixpoint execute (m : mode) (skip : nat) (acts : list action) : string :=
  match acts with
  | [] => ""
  | Lit text :: acts =>
      match skip with O => text +:+ execute (mode_after m text) 0 acts | _ => execute m skip acts end
  | Field name :: acts =>
      match skip with O => escape_for m (field name) +:+ execute m 0 acts | _ => execute m skip acts end
  | If name :: acts =>
      match skip with
      | O => if holds name then execute m 0 acts else execute m 1 acts
      | _ => execute m (S skip) acts
      end
  | End :: acts => execute m (pred skip) acts
  end.

(** *** What is read of an executed template *)

(** The data as it is read: as text, or as an address. *)
Definition read_as (m : mode) (s : string) : string :=
  match m with InValue => link_address s | _ => without_nul s end.

Fixpoint reading (m : mode) (skip : nat) (acts : list action) : list segment :=
  match acts with
  | [] => [(m, "")]
  | Lit text :: acts =>
      match skip with O => join (read m text) (reading (mode_after m text) 0 acts) | _ => reading m skip acts end
  | Field name :: acts =>
      match skip with O => join [(m, read_as m (field name))] (reading m 0 acts) | _ => reading m skip acts end
  | If name :: acts =>
      match skip with
      | O => if holds name then reading m 0 acts else reading m 1 acts
      | _ => reading m (S skip) acts
      end
  | End :: acts => reading m (pred skip) acts
  end.

(** Fields stand in no tag, and the template's own text has no references. *)
Fixpoint well_placed (m : mode) (skip : nat) (acts : list action) : bool :=
  match acts with
  | [] => true
  | Lit text :: acts =>
      no_reference text
      && match skip with O => well_placed (mode_after m text) 0 acts | _ => well_placed m skip acts end
  | Field name :: acts =>
      match skip with O => negb (bool_decide (m = InTag)) && well_placed m 0 acts | _ => well_placed m skip acts end
  | If name :: acts =>
      match skip with
      | O => if holds name then well_placed m 0 acts else well_placed m 1 acts
      | _ => well_placed m (S skip) acts
      end
  | End :: acts => well_placed m (pred skip) acts
  end.

End Execute.

(** The segments with their references resolved. *)
Definition decode (l : list segment) : list segment := map (fun sg => (sg.1, shown sg.2)) l.

Definition closed (s : string) : Prop := forall t, shown (s +:+ t) = shown s +:+ shown t.

Lemma decode_join a b : Forall (fun sg => closed sg.2) a -> decode (join a b) = join (decode a) (decode b).
Proof.
  induction a as [|[m x] a IH]; [done|]. intros [Hx Ha]%Forall_cons. destruct a as [|sg a].
  - destruct b as [|[m' y] b]; [done|]. cbn. specialize (Hx y). cbn in Hx. by rewrite Hx.
  - change (join ((m, x) :: sg :: a) b) with ((m, x) :: join (sg :: a) b).
    change (join (decode ((m, x) :: sg :: a)) (decode b))
      with ((m, shown x) :: join (decode (sg :: a)) (decode b)).
    rewrite <- IH by done. reflexivity.
Qed.

Lemma read_forall P m s : sforall P s = true -> Forall (fun sg => sforall P sg.2 = true) (read m s).
Proof.
  revert m. induction s as [|c s IH]; intros m; [by repeat constructor|].
  intros [Hc Hs]%andb_true_iff.
  assert (forall m', Forall (fun sg => sforall P sg.2 = true) (push c (read m' s))) as Hp.
  { intros m'. specialize (IH m' Hs). destruct (read m' s) as [|[m0 x] l]; [done|].
    apply Forall_cons in IH as [Hx Hl]. constructor; [|done]. cbn in *. by rewrite Hc. }
  destruct m; cbn [read]; repeat case_match; auto; constructor; auto; cbn; by rewrite ?Hc.
Qed.

Lemma shown_id s : no_reference s = true -> shown s = s /\ closed s.
Proof.
  intros Hs. assert (shown s = s) as E.
  { rewrite <- (sapp_nil_r s) at 1. rewrite shown_no_reference by done. by rewrite sapp_nil_r. }
  split; [done|]. intros t. by rewrite shown_no_reference, E.
Qed.

Lemma decode_plain l :
  Forall (fun sg => no_reference sg.2 = true) l -> decode l = l /\ Forall (fun sg => closed sg.2) l.
Proof.
  induction 1 as [|[m x] l Hx _ [IH1 IH2]]; [done|]. destruct (shown_id x Hx) as [E Hc].
  cbn. rewrite E. split; [by f_equal | by constructor].
Qed.

Lemma shown_html_escape_id s : shown (html_escape s) = without_nul s /\ closed (html_escape s).
Proof.
  assert (shown (html_escape s) = without_nul s) as E.
  { rewrite <- (sapp_nil_r (html_escape s)), shown_html_escape. apply sapp_nil_r. }
  split; [done|]. intros t. by rewrite shown_html_escape, E.
Qed.

Lemma shown_escape_for `{Unicode} m s : shown (escape_for m s) = read_as m s /\ closed (escape_for m s).
Proof.
  destruct m; try apply shown_html_escape_id. cbn [escape_for read_as].
  destruct (shown_html_escape_id (link_address s)) as [E Hc].
  by rewrite without_nul_id in E by apply url_normalize_no_nul.
Qed.

Lemma escape_for_inert `{Unicode} m s : sforall inert (escape_for m s) = true.
Proof. destruct m; apply html_escape_inert. Qed.

(** The page a browser reads is the template's markup with the data in its
    places: the data adds no markup, ends no value, and is shown as it is. *)
Lemma execute_read `{Unicode} field holds acts : forall m skip,
  well_placed holds m skip acts = true ->
  decode (read m (execute field holds m skip acts)) = reading field holds m skip acts.
Proof.
  induction acts as [|[text|name|name|] acts IH]; intros m skip; [done|..]; cbn [execute well_placed reading].
  - intros [Hr Hw]%andb_true_iff. destruct skip as [|skip]; [|by apply IH].
    destruct (decode_plain (read m text)) as [E Hc]; [by apply read_forall|].
    by rewrite read_app, decode_join, E, IH.
  - destruct skip as [|skip]; [|apply IH]. intros [Hm%negb_true_iff%bool_decide_eq_false Hw]%andb_true_iff.
    destruct (read_inert m (escape_for m (field name)) Hm (escape_for_inert _ _)) as [E1 E2].
    destruct (shown_escape_for m (field name)) as [E3 Hc].
    rewrite read_app, E1, E2, decode_join by (by constructor). cbn [decode map fst snd]. by rewrite E3, IH.
  - destruct skip as [|skip]; [|apply IH]. destruct (holds name); apply IH.
  - apply IH.
Qed.

(** *** The reading, with the data left open

    What is read of a template is computed once and for all; a chunk is a piece
    of the template or the name of a field. *)

Abbreviation chunk := (string + string)%type.

Fixpoint cjoin (a b : list (mode * list chunk)) : list (mode * list chunk) :=
  match a with
  | [] => b
  | [(m, x)] => match b with (_, y) :: b => (m, x ++ y) :: b | [] => a end
  | sg :: a => sg :: cjoin a b
  end.

Fixpoint chunks (holds : string -> bool) (m : mode) (skip : nat) (acts : list action) : list (mode * list chunk) :=
  match acts with
  | [] => [(m, [])]
  | Lit text :: acts =>
      match skip with
      | O => cjoin (map (fun sg => (sg.1, [inl sg.2])) (read m text)) (chunks holds (mode_after m text) 0 acts)
      | _ => chunks holds m skip acts
      end
  | Field name :: acts =>
      match skip with O => cjoin [(m, [inr name])] (chunks holds m 0 acts) | _ => chunks holds m skip acts end
  | If name :: acts =>
      match skip with
      | O => if holds name then chunks holds m 0 acts else chunks holds m 1 acts
      | _ => chunks holds m (S skip) acts
      end
  | End :: acts => chunks holds m (pred skip) acts
  end.

Section Filled.
Context `{Unicode} (field : string -> string).

Definition chunk_text (m : mode) (c : chunk) : string :=
  match c with inl text => text | inr name => read_as m (field name) end.

Definition nonempty_chunk (c : chunk) : bool := match c with inl text => negb (String.eqb text "") | inr _ => true end.

Fixpoint concat_chunks (m : mode) (cs : list chunk) : string :=
  match cs with
  | [] => ""
  | [c] => chunk_text m c
  | c :: cs => chunk_text m c +:+ concat_chunks m cs
  end.

Definition filled (l : list (mode * list chunk)) : list segment :=
  map (fun sg => (sg.1, concat_chunks sg.1 (List.filter nonempty_chunk sg.2))) l.

Lemma concat_chunks_cons m c cs : concat_chunks m (c :: cs) = chunk_text m c +:+ concat_chunks m cs.
Proof. destruct cs; [|done]. cbn. by rewrite sapp_nil_r. Qed.

Lemma concat_chunks_app m a b : concat_chunks m (a ++ b) = concat_chunks m a +:+ concat_chunks m b.
Proof.
  induction a as [|c a IH]; [done|]. rewrite <- app_comm_cons, !concat_chunks_cons, IH. by rewrite sapp_assoc.
Qed.

Lemma concat_nonempty m cs : concat_chunks m (List.filter nonempty_chunk cs) = concat_chunks m cs.
Proof.
  induction cs as [|c cs IH]; [done|]. rewrite concat_chunks_cons, <- IH. cbn [List.filter].
  destruct (nonempty_chunk c) eqn:E; [by rewrite concat_chunks_cons|].
  destruct c as [x|x]; [|done]. apply negb_false_iff, String.eqb_eq in E as ->. done.
Qed.

(** The modes agree where the two readings meet. *)
Definition meets (m : mode) (b : list (mode * list chunk)) : Prop :=
  match b with (m', _) :: _ => m' = m | [] => False end.

Lemma chunks_meets holds m skip acts : meets m (chunks holds m skip acts).
Proof.
  revert m skip. induction acts as [|[text|name|name|] acts IH]; intros m [|skip]; try done; cbn [chunks pred]; auto.
  - destruct (read_ne m text) as (x & l & E). rewrite E. cbn [map fst snd].
    specialize (IH (mode_after m text) 0%nat). destruct l; cbn [map cjoin]; [|done].
    by destruct (chunks _ _ _ _) as [|[m' y] b].
  - specialize (IH m 0%nat). cbn [cjoin]. by destruct (chunks _ _ _ _) as [|[m' y] b].
  - by destruct (holds name).
Qed.

Fixpoint last_mode (m : mode) (a : list (mode * list chunk)) : mode :=
  match a with [] => m | (m', _) :: a => last_mode m' a end.

Lemma filled_cjoin m a b : meets (last_mode m a) b -> a <> [] -> filled (cjoin a b) = join (filled a) (filled b).
Proof.
  revert m. induction a as [|[ma x] a IH]; intros m Hm Ha; [done|]. cbn [last_mode] in Hm.
  destruct a as [|sg a].
  - destruct b as [|[mb y] b]; [done|]. cbn in Hm. subst mb. cbn [cjoin filled map join fst snd].
    by rewrite !concat_nonempty, concat_chunks_app.
  - change (cjoin ((ma, x) :: sg :: a) b) with ((ma, x) :: cjoin (sg :: a) b).
    change (filled ((ma, x) :: cjoin (sg :: a) b)) with
      ((ma, concat_chunks ma (List.filter nonempty_chunk x)) :: filled (cjoin (sg :: a) b)).
    rewrite (IH ma) by done. reflexivity.
Qed.

Lemma filled_literals l : filled (map (fun sg => (sg.1, [inl sg.2])) l) = l.
Proof.
  induction l as [|[m x] l IH]; [done|]. cbn [map filled fst snd]. rewrite concat_nonempty. cbn. by f_equal.
Qed.

Lemma last_mode_read m m' text : last_mode m' (map (fun sg => (sg.1, [inl sg.2])) (read m text)) = mode_after m text.
Proof.
  revert m m'. induction text as [|c s IH]; intros m m'; [done|].
  assert (forall c m1 m2, last_mode m2 (map (fun sg => (sg.1, [inl sg.2])) (push c (read m1 s)))
            = last_mode m2 (map (fun sg => (sg.1, [inl sg.2])) (read m1 s))) as Hp.
  { intros c' m1 m2. by destruct (read_ne m1 s) as (x & l & ->). }
  destruct m; cbn [read mode_after]; repeat case_match; cbn [map last_mode fst snd]; by rewrite ?Hp, IH.
Qed.

(** The reading of a template is its chunks with the data filled in. *)
Lemma reading_filled holds acts : forall m skip,
  reading field holds m skip acts = filled (chunks holds m skip acts).
Proof.
  induction acts as [|[text|name|name|] acts IH]; intros m skip; [done|..]; cbn [reading chunks].
  - destruct skip as [|skip]; [|apply IH].
    rewrite (filled_cjoin m), filled_literals, IH; [done| |].
    + rewrite last_mode_read. apply chunks_meets.
    + by destruct (read_ne m text) as (x & l & ->).
  - destruct skip as [|skip]; [|apply IH]. rewrite (filled_cjoin m), IH; [done | apply chunks_meets | done].
  - destruct skip as [|skip]; [|apply IH]. destruct (holds name); apply IH.
  - apply IH.
Qed.
End Filled.

(** ** The parts of a page *)

Definition tags (l : list segment) : list string :=
  map snd (List.filter (fun sg => bool_decide (sg.1 = InTag)) l).
Definition attribute_values (l : list segment) : list string :=
  map snd (List.filter (fun sg => bool_decide (sg.1 = InValue)) l).

(** The texts between the tags that are not just white space. *)
Definition blank (s : string) : bool := sforall (fun c => byte_in c (bytes [32; 10]%nat)) s.
Definition text_runs (l : list segment) : list string :=
  map snd (List.filter (fun sg => bool_decide (sg.1 = InText)) l).
Definition not_blank (l : list string) : list string := List.filter (fun s => negb (blank s)) l.
Definition texts (l : list segment) : list string := not_blank (text_runs l).

Lemma not_blank_skip x l l' : blank x = true -> not_blank l = not_blank l' -> not_blank (x :: l) = not_blank l'.
Proof. intros Hx Hl. cbn. by rewrite Hx. Qed.

Lemma not_blank_cons x l l' : not_blank l = not_blank l' -> not_blank (x :: l) = not_blank (x :: l').
Proof. intros Hl. cbn. destruct (blank x); cbn; [done | by f_equal]. Qed.
