(* ===== verification/ErrorPages.v ===== *)
(** * Error pages: [src/errorPages/errorPage.go]

    A page is a redirect, a rendered HTML page for a browser, or problem
    details in JSON.  The built-in page is executed here; reading a template
    file and executing what it holds is the interface [PageTemplates]. *)

From Stdlib Require Import ZArith Lia Ascii String Bool List.
From S2P Require Import Prelude GoStrings GoUrl Json Http Utils Config HtmlTemplate.

(** The values of a [map[string]interface{}] of page data. *)
Inductive datum := DStr (s : string) | DInt (n : Z).

Abbreviation page_data := (gmap string datum).

Class PageTemplates := {
  os_ReadFile : string -> result string;
  html_Execute : string -> page_data -> result string
}.

Record ProblemDetails := { pd_Type : string; pd_Title : string; pd_Detail : string }.

Definition StatusFound : Z := 302.
Definition StatusUnauthorized : Z := 401.
Definition StatusForbidden : Z := 403.
Definition StatusBadRequest : Z := 400.
Definition StatusInternalServerError : Z := 500.

(** [data[key].(string)] and [data[key].(int)]. *)
Definition data_string (data : page_data) (key : string) : option string :=
  match data !! key with Some (DStr s) => Some s | _ => None end.
Definition data_int (data : page_data) (key : string) : option Z :=
  match data !! key with Some (DInt n) => Some n | _ => None end.

(** ** The built-in page *)

(** With a tilde for every quotation mark. *)
Definition htmlTemplate : string := smap (fun c => if Ascii.eqb c "~" then quote else c)
"<!DOCTYPE html>
<html>
<head>
  <title>{{ .statusName }}</title>
  <style>
    body {
      width: 100vw;
      height: 100vh;
      display: flex;
      justify-content: center;
      align-items: center;
      font-family: 'Gill Sans', 'Gill Sans MT', Calibri, 'Trebuchet MS', sans-serif
    }
    h1 {
      all: unset;
      text-align: center;
      font-size: 3em;
      font-weight: bold;
      margin-bottom: 0.5em;
    }
    h2 {
      all: unset;
      text-align: center;
      white-space: break-spaces;
    }
    .container {
      display: flex;
      flex-direction: column;
      justify-content: center;
      align-items: center;
    }
    .error-code {
      color: orange;
      font-size: 1.5em;
    }
    .button-container {
      margin-top: 3em;
      display: flex;
      flex-direction: row;
      align-items: center;
      gap: 2em;
    }
    .button-primary {
      all: unset;
      background-color: orange;
      color: white;
      cursor: pointer;
      padding: 1em;
      border-radius: 0.25em;
      min-width: 5em;
      text-align: center;
    }
    .button-secondary {
      all: unset;
      color: orange;
      cursor: pointer;
    }
    .footer {
      position: absolute;
      bottom: 2em;
      color: #aaa;
      font-weight: 100;
    }
    .footer a {
      all: unset;
      cursor: pointer;
    }
  </style>
</head>

<body>
  <div class=~container~>
    <span class=~error-code~>{{ .statusCode }}</span>
    <h1>{{ .statusName }}</h1>
    <h2>{{ .description }}</h2>

    <div class=~button-container~>
      {{ if .primaryButtonUrl }}
      <a href=~{{ .primaryButtonUrl }}~ class=~button-primary~>{{ .primaryButtonText }}</a>
      {{ end }}
      {{ if .secondaryButtonUrl }}
      <a href=~{{ .secondaryButtonUrl }}~ class=~button-secondary~>{{ .secondaryButtonText }}</a>
      {{ end }}
    </div>

    <div class=~footer~>
      <a href=~https://traefik-oidc-auth.sevensolutions.cc/~ target=~_blank~>Powered by traefik-oidc-auth</a>
    </div>
  </div>
</body>
</html>".

(** A field of the data as text, [fmt.Sprint] of it, and its truth; a key that
    is missing is empty and false. *)
Definition field_text (data : page_data) (name : string) : string :=
  match data !! name with Some (DStr s) => s | Some (DInt n) => Itoa n | None => "" end.
Definition field_holds (data : page_data) (name : string) : bool :=
  match data !! name with
  | Some (DStr s) => negb (String.eqb s "")
  | Some (DInt n) => negb (n =? 0)
  | None => false
  end.

(** [template.New.Parse] and [Execute] of the built-in text, which has
    twelve actions. *)
Definition execute_built_in `{Unicode} (data : page_data) : result string :=
  match parse_template 12 htmlTemplate with
  | Some acts => Ok (execute (field_text data) (field_holds data) InText 0 acts)
  | None => errorf "template: unexpected action"
  end.

Section Pages.
Context `{Unicode, UrlLib, JsonText, MediaTypes, PageTemplates}.

(** The text of the page's file, if it names one that can be read. *)
Definition templateData (page : ErrorPageConfig) : option string :=
  if negb (String.eqb (ep_FilePath page) "") then
    match os_ReadFile (ep_FilePath page) with Ok text => Some text | Err _ => None end
  else None.

Definition renderPage (page : ErrorPageConfig) (data : page_data) : result string :=
  match templateData page with
  | Some text => html_Execute text data
  | None => execute_built_in data
  end.

Definition writeProblemDetail (problem : ProblemDetails) (statusCode : Z) (rw : Response) : Response :=
  let body := json_print (JObj [("type", JStr (pd_Type problem)); ("title", JStr (pd_Title problem));
                                ("detail", JStr (pd_Detail problem))]) in
  WriteBody body
    (WriteHeader statusCode (rw_header (header_Set "Content-Type" "application/json+problem") rw)).

Definition internal (rw : Response) : Response :=
  http_Error "Internal Server Error" StatusInternalServerError rw.

Definition WriteError (page : ErrorPageConfig) (req : Request) (data : page_data) (rw : Response)
  : Response :=
  if negb (String.eqb (ep_RedirectTo page) "") then http_Redirect req (ep_RedirectTo page) StatusFound rw
  else if IsHtmlRequest req then
    match renderPage page data with
    | Err _ => internal rw
    | Ok html =>
        match data_int data "statusCode" with
        | None => internal rw
        | Some statusCode =>
            WriteBody html
              (WriteHeader statusCode (rw_header (header_Set "Content-Type" "text/html; charset=utf-8") rw))
        end
    end
  else
    match data_string data "statusType", data_string data "statusName",
          data_string data "description", data_int data "statusCode" with
    | Some statusType, Some statusName, Some description, Some statusCode =>
        writeProblemDetail {| pd_Type := statusType; pd_Title := statusName; pd_Detail := description |}
          statusCode rw
    | _, _, _, _ => internal rw
    end.

(** Writing a page sets no cookies, and always answers. *)
Lemma WriteError_cookies page req data rw : w_Cookies (WriteError page req data rw) = w_Cookies rw.
Proof.
  unfold WriteError, writeProblemDetail, internal, WriteBody. repeat case_match; simpl;
    by rewrite ?http_Redirect_cookies, ?http_Error_cookies, ?WriteHeader_cookies, ?rw_header_cookies.
Qed.

Lemma WriteError_committed page req data rw : committed (WriteError page req data rw) = true.
Proof.
  unfold WriteError, writeProblemDetail, internal, committed. repeat case_match; simplify_eq;
    try done; repeat match goal with H : w_Status _ = None |- _ => revert H end;
    by rewrite ?http_Redirect_status, ?http_Error_status, ?WriteBody_status.
Qed.

End Pages.

#[export] Hint Resolve WriteError_committed : toa.

(** ** What a browser reads of the built-in page *)

(** Between [<style>] and [</style>]. *)
Definition stylesheet : string :=
  match Index htmlTemplate "<style>", Index htmlTemplate "</style>" with
  | Some i, Some j => sdrop (i + 7) (stake j htmlTemplate)
  | _, _ => ""
  end.

Section BuiltIn.
Context `{Unicode}.
Implicit Types (data : page_data).

(** A button's text, and its values: the address and the class. *)
Definition button_texts data (kind : string) : list string :=
  if field_holds data (kind +:+ "ButtonUrl") then [without_nul (field_text data (kind +:+ "ButtonText"))] else [].
Definition button_values data (kind : string) : list string :=
  if field_holds data (kind +:+ "ButtonUrl")
  then [link_address (field_text data (kind +:+ "ButtonUrl")); "button-" +:+ kind] else [].

Definition same_buttons data data' : Prop :=
  forall kind, kind ∈ ["primary"; "secondary"] ->
    field_holds data (kind +:+ "ButtonUrl") = field_holds data' (kind +:+ "ButtonUrl").

Definition built_in_actions : list action := default [] (parse_template 12 htmlTemplate).

Lemma execute_built_in_Ok data :
  execute_built_in data = Ok (execute (field_text data) (field_holds data) InText 0 built_in_actions).
Proof. unfold execute_built_in, built_in_actions. by destruct (parse_template 12 htmlTemplate) eqn:E; [|vm_compute in E]. Qed.

Lemma built_in_placed (holds : string -> bool) : well_placed holds InText 0 built_in_actions = true.
Proof.
  assert (forall b1 b2, well_placed
    (fun n => if String.eqb n "primaryButtonUrl" then b1 else b2) InText 0 built_in_actions = true) as Hb.
  { intros [] []; vm_compute; reflexivity. }
  rewrite <- (Hb (holds "primaryButtonUrl") (holds "secondaryButtonUrl")).
  vm_compute. reflexivity.
Qed.

(** The chunks of the page, for either state of the buttons. *)
Definition button_holds (b1 b2 : bool) (name : string) : bool :=
  if String.eqb name "primaryButtonUrl" then b1 else b2.

Lemma built_in_chunks (holds : string -> bool) :
  chunks holds InText 0 built_in_actions
  = chunks (button_holds (holds "primaryButtonUrl") (holds "secondaryButtonUrl")) InText 0 built_in_actions.
Proof. vm_compute. reflexivity. Qed.

(** Replaces a closed term by its value. *)
Ltac evaluate t :=
  let v := eval vm_compute in t in
  let E := fresh "E" in assert (t = v) as E by (vm_compute; reflexivity); rewrite E; clear E.

(** Reads the page off its chunks, for each state of the buttons. *)
Ltac read_built_in data :=
  rewrite reading_filled, built_in_chunks; cbn [String.append];
  destruct (field_holds data "primaryButtonUrl"), (field_holds data "secondaryButtonUrl");
  match goal with |- context [chunks ?h ?m ?k ?l] => evaluate (chunks h m k l) end;
  lazy -[String.append without_nul link_address field_text field_holds not_blank].

Lemma built_in_values data :
  attribute_values (reading (field_text data) (field_holds data) InText 0 built_in_actions)
  = ["container"; "error-code"; "button-container"] ++ button_values data "primary"
    ++ button_values data "secondary"
    ++ ["footer"; "https://traefik-oidc-auth.sevensolutions.cc/"; "_blank"].
Proof. unfold button_values. by read_built_in data. Qed.

Lemma built_in_texts data :
  texts (reading (field_text data) (field_holds data) InText 0 built_in_actions)
  = not_blank
      ([without_nul (field_text data "statusName"); stylesheet; without_nul (field_text data "statusCode");
        without_nul (field_text data "statusName"); without_nul (field_text data "description")]
       ++ button_texts data "primary" ++ button_texts data "secondary" ++ ["Powered by traefik-oidc-auth"]).
Proof.
  unfold button_texts, texts. evaluate stylesheet. read_built_in data.
  all: repeat match goal with |- context [without_nul ?x] => generalize (without_nul x); intro end.
  all: repeat match goal with
  | |- not_blank (?x :: _) = _ =>
      first [is_var x; apply not_blank_cons | apply not_blank_skip; [vm_compute; reflexivity|] | apply not_blank_cons]
  end.
  all: reflexivity.
Qed.

Lemma built_in_tags data data' :
  same_buttons data data' ->
  tags (reading (field_text data) (field_holds data) InText 0 built_in_actions)
  = tags (reading (field_text data') (field_holds data') InText 0 built_in_actions).
Proof.
  intros Hb. pose proof (Hb "primary" ltac:(set_solver)) as E1. pose proof (Hb "secondary" ltac:(set_solver)) as E2.
  cbn [String.append] in E1, E2. rewrite !reading_filled, (built_in_chunks (field_holds data)), (built_in_chunks (field_holds data')), <- E1, <- E2.
  destruct (field_holds data "primaryButtonUrl"), (field_holds data "secondaryButtonUrl").
  all: match goal with |- context [chunks ?h ?m ?k ?l] => evaluate (chunks h m k l) end;
    lazy -[String.append without_nul link_address field_text]; reflexivity.
Qed.

Ltac known_scheme := match goal with |- url_scheme ?v ∈ _ => evaluate (url_scheme v); set_solver end.

Lemma button_schemes data kind :
  kind ∈ ["primary"; "secondary"] ->
  Forall (fun v => url_scheme v ∈ [None; Some "http"; Some "https"; Some "mailto"]) (button_values data kind).
Proof.
  intros Hk. unfold button_values. destruct (field_holds _ _); [|apply Forall_nil_2].
  apply Forall_cons_2; [apply link_address_scheme|]. apply Forall_cons_2; [|apply Forall_nil_2].
  repeat (apply elem_of_cons in Hk as [->|Hk]; [known_scheme|]). by apply elem_of_nil in Hk.
Qed.

(** C16: the built-in error page cannot be injected into.  Whatever the data,
    a browser that reads the page finds the tags that the same buttons would
    have with any other data; the attribute values that the template writes,
    and for each button whose address is not empty that address, filtered and
    percent-encoded, and its class; and between the tags the style sheet and
    the texts of the data as they are, but for NUL.  No link has a scheme other
    than [http], [https] and [mailto]. *)
Theorem built_in_page_read `{PageTemplates} page data html :
  templateData page = None -> renderPage page data = Ok html ->
  let seen := decode (read InText html) in
  (forall data' html', same_buttons data data' -> renderPage page data' = Ok html' ->
     tags (decode (read InText html')) = tags seen)
  /\ attribute_values seen
     = ["container"; "error-code"; "button-container"] ++ button_values data "primary"
       ++ button_values data "secondary" ++ ["footer"; "https://traefik-oidc-auth.sevensolutions.cc/"; "_blank"]
  /\ texts seen
     = not_blank
         ([without_nul (field_text data "statusName"); stylesheet; without_nul (field_text data "statusCode");
           without_nul (field_text data "statusName"); without_nul (field_text data "description")]
          ++ button_texts data "primary" ++ button_texts data "secondary" ++ ["Powered by traefik-oidc-auth"])
  /\ Forall (fun v => url_scheme v ∈ [None; Some "http"; Some "https"; Some "mailto"]) (attribute_values seen).
Proof.
  intros Ht. unfold renderPage. rewrite Ht, execute_built_in_Ok. intros <-%Ok_inj.
  rewrite execute_read by apply built_in_placed. cbv zeta. split_and!.
  - intros data' html' Hb. rewrite execute_built_in_Ok. intros <-%Ok_inj.
    rewrite execute_read by apply built_in_placed. symmetry. by apply built_in_tags.
  - apply built_in_values.
  - apply built_in_texts.
  - rewrite built_in_values, !Forall_app. split_and!; [|apply button_schemes; set_solver..|];
      repeat (apply Forall_cons_2; [known_scheme|]); apply Forall_nil_2.
Qed.
End BuiltIn.
