(* ===== verification/Routes.v ===== *)
(** * Requests and routes: [src/main.go], lines 87 to 363

    Discovery of the provider, the trusted proxies, the scheme and host that
    absolute URLs are built from, and the matching of configured routes. *)

From Stdlib Require Import ZArith Lia Ascii String Bool List.
From S2P Require Import Prelude GoStrings GoUrl Json Http Utils World Config Network Jwks Tokens.

(** ** Trusted proxies *)

(** [strings.LastIndex(s, "%")] and the cut before a zone. *)
Definition drop_zone (s : string) : string :=
  match LastIndexByte s "%" with
  | Some (S zone) => stake (S zone) s
  | _ => s
  end.

Definition peerIP (remoteAddr : string) : option IP :=
  if String.eqb remoteAddr "" then None
  else
    let remoteAddr := match SplitHostPort remoteAddr with Some (host, _) => host | None => remoteAddr end in
    let remoteAddr := TrimSuffix (TrimPrefix remoteAddr "[") "]" in
    ParseIP (drop_zone remoteAddr).

Definition requestFromTrustedProxy (cfg : Config) (req : Request) : bool :=
  if (length (TrustedProxyNets cfg) =? 0)%nat then false
  else match peerIP (r_RemoteAddr req) with
       | None => false
       | Some ip => existsb (fun network => net_Contains network ip) (TrustedProxyNets cfg)
       end.

Definition validForwardedProto (proto : string) : bool :=
  slice_contains ["http"; "https"; "ws"; "wss"] proto.

Definition lastForwardedValue (value : string) : string :=
  let value := TrimSpace value in
  match LastIndexByte value "," with
  | Some index => TrimSpace (sdrop (S index) value)
  | None => value
  end.

Definition own_scheme (req : Request) : string := if r_TLS req then "https" else "http".

Definition requestScheme (cfg : Config) (req : Request) : string :=
  if requestFromTrustedProxy cfg req then
    let proto := lastForwardedValue (req_header req "X-Forwarded-Proto") in
    if negb (String.eqb proto "") && validForwardedProto proto then proto else own_scheme req
  else own_scheme req.

Definition requestHost (cfg : Config) (req : Request) : string :=
  if requestFromTrustedProxy cfg req then
    let host := lastForwardedValue (req_header req "X-Forwarded-Host") in
    if negb (String.eqb host "") then host else r_Host req
  else r_Host req.

Definition fullHost (cfg : Config) (req : Request) : string :=
  requestScheme cfg req +:+ "://" +:+ requestHost cfg req.

Definition ensureAbsoluteUrl (cfg : Config) (req : Request) (rawUrl : string) : string :=
  if HasPrefix rawUrl "http://" || HasPrefix rawUrl "https://" then rawUrl
  else
    let rawUrl := if negb (HasPrefix rawUrl "/") then "/" +:+ rawUrl else rawUrl in
    fullHost cfg req +:+ rawUrl.

(** ** The callback URL

    [GetAbsoluteCallbackURL] returns the middleware's own URL when that is
    absolute, not a copy: [own_callback] tells whether it does. *)

Definition own_callback (t : Toa) : bool := UrlIsAbsolute (t_CallbackURL t).

Definition GetAbsoluteCallbackURL (t : Toa) (req : Request) : URL :=
  if own_callback t then t_CallbackURL t
  else {| u_Scheme := requestScheme (t_Config t) req; u_Host := requestHost (t_Config t) req;
          u_Path := u_Path (t_CallbackURL t); u_RawQuery := u_RawQuery (t_CallbackURL t) |}.

(** Assigning [RawQuery]. *)
Definition with_RawQuery (q : string) (u : URL) : URL :=
  {| u_Scheme := u_Scheme u; u_Host := u_Host u; u_Path := u_Path u; u_RawQuery := q |}.

Definition set_CallbackURL (u : URL) (t : Toa) : Toa := {|
  t_ProviderURL := t_ProviderURL t; t_ClientJwtPrivateKey := t_ClientJwtPrivateKey t;
  t_CallbackURL := u; t_Config := t_Config t; t_DiscoveryDocument := t_DiscoveryDocument t;
  t_Jwks := t_Jwks t; t_BypassAuthenticationRule := t_BypassAuthenticationRule t;
  t_RedirectUriWildcardsEnabled := t_RedirectUriWildcardsEnabled t; t_validIssuer := t_validIssuer t;
  t_validAudience := t_validAudience t; t_sessionWrites := t_sessionWrites t |}.

(** ** Routes *)

Definition pathMatchesRoute (requestPath route : string) : bool :=
  if String.eqb route "" then false
  else
    let trimmed := TrimSuffix route "/" in
    let trimmed := if String.eqb trimmed "" then "/" else trimmed in
    if String.eqb requestPath route || String.eqb requestPath trimmed then true
    else if String.eqb trimmed "/" then false
    else HasPrefix requestPath (trimmed +:+ "/").

Definition pathMatchesConfiguredRoute (req : Request) (route : string) : bool :=
  pathMatchesRoute (u_Path (r_URL req)) route.

Definition isCallbackRequest (t : Toa) (req : Request) : bool :=
  if negb (pathMatchesRoute (u_Path (r_URL req)) (u_Path (t_CallbackURL t))) then false
  else if own_callback t then
    if negb (String.eqb (requestScheme (t_Config t) req) (u_Scheme (t_CallbackURL t)))
       || negb (String.eqb (requestHost (t_Config t) req) (u_Host (t_CallbackURL t)))
    then false else true
  else true.

(** ** Discovery *)

Definition set_valid_values (issuer audience : string) (p : ProviderConfig) : ProviderConfig :=
  match p with
  | Build_ProviderConfig p0 p1 p2 p3 p4 p5 p6 p7 p8 p9 p10 p11 p12 _ p14 p15 _ p17 p18 p19 p20 p21 p22
      p23 p24 p25 p26 p27 =>
      Build_ProviderConfig p0 p1 p2 p3 p4 p5 p6 p7 p8 p9 p10 p11 p12 audience p14 p15 issuer p17 p18
        p19 p20 p21 p22 p23 p24 p25 p26 p27
  end.

(** The assignments of a successful discovery: the key set's URL, the issuer
    and audience, in the middleware and in the shared configuration, and the
    document last. *)
Definition publish (d : OidcDiscovery) (issuer audience : string) (p : ProviderConfig) (t : Toa) : Toa := {|
  t_ProviderURL := t_ProviderURL t; t_ClientJwtPrivateKey := t_ClientJwtPrivateKey t;
  t_CallbackURL := t_CallbackURL t;
  t_Config := set_Provider (Some (set_valid_values issuer audience p)) (t_Config t);
  t_DiscoveryDocument := Some d;
  t_Jwks := {| jh_Url := dd_JWKSURI d; jh_RsaKeys := jh_RsaKeys (t_Jwks t);
               jh_EcdsaKeys := jh_EcdsaKeys (t_Jwks t); jh_CacheDate := jh_CacheDate (t_Jwks t);
               jh_lastReloadError := jh_lastReloadError (t_Jwks t) |};
  t_BypassAuthenticationRule := t_BypassAuthenticationRule t;
  t_RedirectUriWildcardsEnabled := t_RedirectUriWildcardsEnabled t; t_validIssuer := issuer;
  t_validAudience := audience; t_sessionWrites := t_sessionWrites t |}.

(** [&oidc.JwksHandler{}] *)
Definition new_handler : JwksHandler := {|
  jh_Url := ""; jh_RsaKeys := []; jh_EcdsaKeys := []; jh_CacheDate := 0; jh_lastReloadError := 0 |}.

Section Discovery.
Context `{Unicode, JsonText, UrlLib, External}.

Definition EnsureOidcDiscovery : M Toa (result unit) :=
  doc ← gets t_DiscoveryDocument;
  match doc with
  | Some _ => lift (Ok tt)
  | None =>
      u ← gets t_ProviderURL;
      _ ← modify (set_Jwks new_handler);
      let! d := GetOidcDiscovery u in
      p ← provider;
      let validIssuer := if String.eqb (pv_ValidIssuer p) "" then dd_Issuer d else pv_ValidIssuer p in
      let validAudience := if String.eqb (pv_ValidAudience p) "" then pv_ClientId p else pv_ValidAudience p in
      _ ← modify (publish d validIssuer validAudience p);
      lift (Ok tt)
  end.
End Discovery.

Definition effectiveValidIssuer (t : Toa) : string :=
  if negb (String.eqb (t_validIssuer t) "") then t_validIssuer t
  else match Provider (t_Config t) with None => "" | Some p => pv_ValidIssuer p end.

(** An absolute URL is never empty. *)
Lemma ensureAbsoluteUrl_nonempty cfg req u : ensureAbsoluteUrl cfg req u <> "".
Proof.
  unfold ensureAbsoluteUrl, fullHost. destruct (HasPrefix u "http://" || HasPrefix u "https://") eqn:E.
  - intros ->. done.
  - intros Hs. apply (f_equal slen) in Hs. rewrite !slen_app in Hs. simpl in Hs. lia.
Qed.

(** ** Outcomes of discovery *)

(** After discovery: nothing has changed, or the document is published. *)
Definition discovered (t t' : Toa) : Prop :=
  t' = t \/ t_DiscoveryDocument t = None
    /\ exists d issuer audience p j, Provider (t_Config t) = Some p
         /\ t' = publish d issuer audience p (set_Jwks j t).

Section Outcomes.
Context `{Unicode, JsonText, UrlLib, External}.
Context (P : Prop).

#[local] Opaque provider.

Lemma GetOidcDiscovery_ok u e t : outcome P (GetOidcDiscovery u) e t (fun _ _ t' => t' = t).
Proof. unfold GetOidcDiscovery. wp; done. Qed.

#[local] Opaque GetOidcDiscovery.

Lemma EnsureOidcDiscovery_ok e t :
  (no_provider t -> P) ->
  outcome P EnsureOidcDiscovery e t (fun r _ t' =>
    match r with
    | Ok _ => discovered t t' /\ t_DiscoveryDocument t' <> None
    | Err _ => frame t t'
    end).
Proof.
  intros HP. unfold EnsureOidcDiscovery. m_steps. m_case; m_steps.
  { split; [by left | congruence]. }
  m_call GetOidcDiscovery_ok. intros [d|err] e1 t1 ->; [|apply frame_set_Jwks]. m_steps.
  apply provider_ok; [done|]. intros p Hp. m_steps. split; [|done].
  right. split; [done|]. by eexists d, _, _, p, new_handler.
Qed.
End Outcomes.

Lemma publish_settings d issuer audience p t :
  Provider (t_Config t) = Some p ->
  exists p', t_Config (publish d issuer audience p t) = set_Provider (Some p') (t_Config t)
    /\ pv_TokenValidation p' = pv_TokenValidation p.
Proof. intros _. eexists. split; [done|]. by destruct p. Qed.

(** ** Properties *)

(** A path matches a route exactly when it is the route, with or without
    a trailing slash, or lies below it: never by a bare prefix. *)
Theorem pathMatchesRoute_spec path route :
  let trimmed := if String.eqb (TrimSuffix route "/") "" then "/" else TrimSuffix route "/" in
  pathMatchesRoute path route = true
  <-> route <> "" /\ (path = route \/ path = trimmed
                      \/ trimmed <> "/" /\ exists below, path = trimmed +:+ "/" +:+ below).
Proof.
  cbv zeta. unfold pathMatchesRoute.
  set (trimmed := if String.eqb (TrimSuffix route "/") "" then "/" else TrimSuffix route "/").
  destruct (String.eqb_spec route "") as [|Hr]; [by split; [|intros [[] _]]|].
  destruct (String.eqb path route || String.eqb path trimmed) eqn:E.
  - split; [|done]. intros _. split; [done|]. apply orb_true_iff in E as [E|E];
      apply String.eqb_eq in E; [by left | by right; left].
  - boolprop. destruct (String.eqb_spec trimmed "/") as [Ht|Ht].
    + split; [done|]. by intros (_ & [|[|[]]]).
    + rewrite HasPrefix_spec. split.
      * intros (below & ->). split; [done|]. right. right. split; [done|].
        exists below. by rewrite sapp_assoc.
      * intros (_ & [|[|(_ & below & ->)]]); [done..|]. exists below. by rewrite sapp_assoc.
Qed.

(** The peer of the request is in a network the operator trusts. *)
Definition from_trusted (cfg : Config) (req : Request) : Prop :=
  exists ip network, peerIP (r_RemoteAddr req) = Some ip /\ network ∈ TrustedProxyNets cfg
                     /\ net_Contains network ip = true.

Lemma requestFromTrustedProxy_spec cfg req :
  requestFromTrustedProxy cfg req = true <-> from_trusted cfg req.
Proof.
  unfold requestFromTrustedProxy, from_trusted.
  destruct (Nat.eqb_spec (length (TrustedProxyNets cfg)) 0) as [Hl|Hl].
  { split; [done|]. intros (ip & n & _ & Hn & _). apply nil_length_inv in Hl. rewrite Hl in Hn.
    by apply elem_of_nil in Hn. }
  destruct (peerIP (r_RemoteAddr req)) as [ip|]; [|by split; [|intros (? & ? & ? & _)]].
  rewrite existsb_exists. setoid_rewrite <- list_elem_of_In. split.
  - intros (n & Hn & Hc). by exists ip, n.
  - intros (ip' & n & [= <-] & Hn & Hc). by exists n.
Qed.

(** C36: the host and the scheme that absolute URLs are built from are the
    request's own, or the rightmost forwarded value of a peer in a trusted
    network, and the scheme is always one of four. *)
Theorem request_origin_trusted cfg req :
  (requestHost cfg req = r_Host req
   \/ from_trusted cfg req
      /\ requestHost cfg req = lastForwardedValue (req_header req "X-Forwarded-Host")
      /\ requestHost cfg req <> "")
  /\ (requestScheme cfg req = own_scheme req
      \/ from_trusted cfg req
         /\ requestScheme cfg req = lastForwardedValue (req_header req "X-Forwarded-Proto"))
  /\ requestScheme cfg req ∈ ["http"; "https"; "ws"; "wss"].
Proof.
  assert (Hown : own_scheme req ∈ ["http"; "https"; "ws"; "wss"]).
  { unfold own_scheme. destruct (r_TLS req); apply slice_contains_spec; reflexivity. }
  unfold requestHost, requestScheme. rewrite <- requestFromTrustedProxy_spec.
  destruct requestFromTrustedProxy; [|by split_and!; try left].
  split.
  - destruct (String.eqb_spec (lastForwardedValue (req_header req "X-Forwarded-Host")) ""); simpl; auto.
  - destruct (negb _ && validForwardedProto _) eqn:E; [|by split; [left|]].
    boolprop. split; [by right|]. by apply slice_contains_spec.
Qed.

(** The rightmost entry, whatever is to its left. *)
Lemma lastForwardedValue_rightmost left own :
  TrimSpace (left +:+ "," +:+ own) = left +:+ "," +:+ own -> byte_in "," own = false ->
  lastForwardedValue (left +:+ "," +:+ own) = TrimSpace own.
Proof.
  change ("," +:+ own) with (String "," own). intros Ht Hn.
  unfold lastForwardedValue. rewrite Ht, LastIndexByte_app by done.
  replace (S (slen left)) with (slen (left +:+ ",")) by (rewrite slen_app; simpl; lia).
  replace (left +:+ String "," own) with ((left +:+ ",") +:+ own) by (by rewrite sapp_assoc).
  by rewrite sdrop_app.
Qed.
