(* ===== verification/KeyCache.v ===== *)
(** * Concurrent requests and the provider: [EnsureLoadedContext] of
    [src/oidc/jwks.go], [EnsureOidcDiscovery] of [src/main.go]

    Two values are shared by all requests and fetched on demand: the signing
    keys and the discovery document.  Each is fetched under a mutex, tested
    before and after taking it.  The functions are the processes of
    [Concurrent]; run alone they are the computations of [Jwks] and [Routes]. *)

From Stdlib Require Import ZArith Lia Ascii String Bool List.
From stdpp Require Import relations.
From S2P Require Import Prelude GoStrings GoUrl Json Http World Concurrent Config Jwks Tokens Routes.

(** ** The signing keys *)

(** The mutex is [reloadLock]; the sections of [Lock] are short. *)

Definition install (rsaKeys : list RsaKey) (ecdsaKeys : list EcdsaKey) (now : time) (h : JwksHandler)
  : JwksHandler := {|
  jh_Url := jh_Url h; jh_RsaKeys := rsaKeys; jh_EcdsaKeys := ecdsaKeys;
  jh_CacheDate := now; jh_lastReloadError := 0 |}.

Definition set_lastReloadError (now : time) (h : JwksHandler) : JwksHandler := {|
  jh_Url := jh_Url h; jh_RsaKeys := jh_RsaKeys h; jh_EcdsaKeys := jh_EcdsaKeys h;
  jh_CacheDate := jh_CacheDate h; jh_lastReloadError := now |}.

Section Keys.
Context `{Unicode, JsonText, UrlLib}.

(** From the answer to the keys. *)
Definition jwks_answer (resp : HttpResponse) : result (list RsaKey * list EcdsaKey) :=
  let? body := read_limited (S maxJwksBodySize) resp in
  if negb (p_Status resp =? StatusOK)
  then errorf ("JWKS request returned a bad status: " +:+ excerptForError body)
  else let? loaded := unmarshal_jwks body in extractKeys loaded.

(** [h.Url] is read without a lock; [k] is the rest of the caller. *)
Definition loadKeysContext {A} (k : result unit -> proc JwksHandler A) : proc JwksHandler A :=
  Atomic id (fun h =>
  match NewRequest "GET" (jh_Url h) [] "" with
  | Err err => k (Err err)
  | Ok req =>
      Call req (fun resp =>
      match (let? resp := resp in jwks_answer resp) with
      | Err err => k (Err err)
      | Ok (rsaKeys, ecdsaKeys) =>
          Now (fun now => Atomic (install rsaKeys ecdsaKeys now) (fun _ => k (Ok tt)))
      end)
  end).

Definition EnsureLoadedContext (forceReload : bool) : proc JwksHandler (result unit) :=
  Now (fun now => Atomic id (fun h =>
  if negb (needsReload h now forceReload) then Return (Ok tt)
  else
    Acquire (Now (fun now => Atomic id (fun h =>
    let hasKeys := hasKeys h in
    if negb (needsReload h now forceReload) then Release (Return (Ok tt))
    else
      loadKeysContext (fun err =>
      match err with
      | Ok _ => Release (Return (Ok tt))
      | Err e =>
          if hasKeys
          then Now (fun now => Atomic (set_lastReloadError now) (fun _ => Release (Return (Ok tt))))
          else Release (Return (Err e))
      end)))))).

(** By itself the process is the computation that the handlers run. *)
#[local] Opaque maxJwksBodySize read_limited needsReload.

Lemma EnsureLoadedContext_alone `{External} force e h :
  alone (EnsureLoadedContext force) e h = EnsureLoaded force e h.
Proof.
  unfold EnsureLoadedContext, EnsureLoaded, loadKeysContext, loadKeys, jwks_answer. run_alone.
  destruct (needsReload h (clock (e_ticks e)) force); run_alone; [|done].
  destruct (needsReload h (clock (S (e_ticks e))) force); run_alone; [|done].
  destruct (NewRequest "GET" (jh_Url h) [] "") as [req|err]; run_alone;
    [|by destruct (hasKeys h); run_alone].
  destruct (http_Do (e_calls e) req) as [resp|err]; run_alone; [|by destruct (hasKeys h); run_alone].
  destruct (read_limited (S maxJwksBodySize) resp) as [body|err]; run_alone;
    [|by destruct (hasKeys h); run_alone].
  destruct (p_Status resp =? StatusOK); run_alone; [|by destruct (hasKeys h); run_alone].
  destruct (unmarshal_jwks body) as [loaded|err]; run_alone; [|by destruct (hasKeys h); run_alone].
  destruct (extractKeys loaded) as [[rsa ec]|err]; run_alone; [done | by destruct (hasKeys h); run_alone].
Qed.

(** *** What the threads owe each other *)

(** Requests that found keys in the cache are a minute apart from the next. *)
Definition spaced (l : list (asked JwksHandler)) : Prop :=
  forall i j a b, (i < j)%nat -> l !! i = Some a -> l !! j = Some b ->
    hasKeys (a_state a) = true -> a_time a + reloadFailureBackoff <= a_time b.

(** A request that found keys has left its date on the handler. *)
Definition accounted (h : JwksHandler) (a : asked JwksHandler) : Prop :=
  0 < a_time a
  /\ (hasKeys (a_state a) = true -> hasKeys h = true
      /\ (a_time a <= jh_CacheDate h \/ a_time a <= jh_lastReloadError h)).

Definition keys_contract : contract JwksHandler (result unit) := {|
  G h h' := (hasKeys h = true -> hasKeys h' = true) /\ jh_Url h' = jh_Url h;
  Inv now h l := 0 < now /\ Forall (accounted h) l /\ Forall (fun a => a_time a <= now) l;
  LogOk := spaced;
  Post r h := r = Ok tt -> hasKeys h = true;
  Crashes := False
|}.

#[global] Instance keys_contract_laws : ContractLaws keys_contract.
Proof.
  split; cbn.
  - split; [done|]. intros h1 h2 h3 [] []. split; [auto | congruence].
  - intros now now' h l (? & ? & Hl) ?. split_and!; [lia | done|].
    eapply Forall_impl; [exact Hl|]. simpl. lia.
  - intros r h h' Hr [] ->. auto.
Qed.

Lemma hasKeys_install rsa ec now h : rsa <> [] \/ ec <> [] -> hasKeys (install rsa ec now h) = true.
Proof. by rewrite hasKeys_spec. Qed.

Lemma jwks_answer_keys resp rsa ec :
  (let? resp := resp in jwks_answer resp) = Ok (rsa, ec) -> rsa <> [] \/ ec <> [].
Proof.
  intros Hr. apply rbind_Ok_inv in Hr as (x & _ & Hx). apply rbind_Ok_inv in Hx as (body & _ & Hb).
  destruct (negb (p_Status x =? StatusOK)); [done|].
  apply rbind_Ok_inv in Hb as (loaded & _ & He). by eapply extractKeys_nonempty.
Qed.

End Keys.

Lemma spaced_snoc l a :
  spaced l ->
  Forall (fun b => hasKeys (a_state b) = true -> a_time b + reloadFailureBackoff <= a_time a) l ->
  spaced (l ++ [a]).
Proof.
  intros Hl Ha i j x y Hij Hx Hy Hk. apply lookup_snoc_Some in Hy as [[Hj Hy]|[-> <-]].
  - rewrite lookup_app_l in Hx by lia. eauto.
  - rewrite lookup_app_l in Hx by lia. by eapply (Forall_lookup_1 _ _ _ _ Ha Hx).
Qed.

#[local] Transparent needsReload.

(** Keys that are reloaded are five minutes old, and the last failure is a
    minute ago; keys that are not reloaded are there. *)
Lemma needsReload_true h now force :
  needsReload h now force = true -> hasKeys h = true ->
  jh_CacheDate h + 5 * Minute < now
  /\ (jh_lastReloadError h = 0 \/ jh_lastReloadError h + reloadFailureBackoff <= now).
Proof.
  unfold needsReload, Before, Add, IsZero, reloadFailureBackoff. intros Hn Hk. rewrite Hk in Hn.
  cbn [negb] in Hn. rewrite andb_true_r in Hn.
  match type of Hn with (if ?x then _ else _) = _ => destruct x eqn:Eb end; [done|].
  assert (jh_CacheDate h + 5 * Minute < now) as Hold.
  { unfold Hour, Minute, Second in *. destruct (force && _) eqn:E1 in Hn; [boolprop; lia|].
    destruct (jh_CacheDate h <? _) eqn:E2 in Hn; [boolprop; lia | done]. }
  split; [done|]. rewrite Hn in Eb. cbn [andb] in Eb. apply andb_false_iff in Eb as [Eb|Eb]; boolprop; [by left|].
  right. unfold Sub, sat64, Minute, Second, int64_min, int64_max in *. lia.
Qed.

Lemma needsReload_false h now force : needsReload h now force = false -> hasKeys h = true.
Proof.
  unfold needsReload. destruct (hasKeys h); [done|]. rewrite !andb_false_r. by repeat case_match.
Qed.

#[local] Opaque needsReload.

(** A reload that the cache allows comes a minute after every request it
    accounts for. *)
Lemma needsReload_spaced h now force l :
  needsReload h now force = true -> Forall (accounted h) l ->
  Forall (fun b => hasKeys (a_state b) = true -> a_time b + reloadFailureBackoff <= now) l.
Proof.
  intros Hn Hl. eapply Forall_impl; [exact Hl|]. intros a [Hpos Ha] Hk. destruct (Ha Hk) as [Hh Hd].
  destruct (needsReload_true _ _ _ Hn Hh) as [Hc He].
  unfold reloadFailureBackoff, Minute, Second in *. lia.
Qed.

(** *** The process keeps to the contract *)

(** A handler with keys that has just recorded a date accounts for all. *)
Lemma accounted_recorded now h l :
  hasKeys h = true -> jh_CacheDate h = now \/ jh_lastReloadError h = now ->
  Forall (fun a => 0 < a_time a) l -> Forall (fun a => a_time a <= now) l -> Forall (accounted h) l.
Proof.
  intros Hk Hd Hp Hl. rewrite Forall_forall in Hp, Hl. apply Forall_forall. intros a Ha.
  specialize (Hp a Ha). specialize (Hl a Ha). split; [done|]. intros _. split; [done|]. lia.
Qed.

Lemma accounted_positive h l : Forall (accounted h) l -> Forall (fun a => 0 < a_time a) l.
Proof. intros Hl. eapply Forall_impl; [exact Hl|]. by intros a []. Qed.

Lemma accounted_no_keys h l :
  hasKeys h = false -> Forall (accounted h) l ->
  Forall (fun a => hasKeys (a_state a) = false) l.
Proof.
  intros Hk Hl. eapply Forall_impl; [exact Hl|]. intros a [_ Ha].
  apply not_true_is_false. intros Ht. destruct (Ha Ht). congruence.
Qed.

Lemma accounted_vacuous h l :
  Forall (fun a => 0 < a_time a) l -> Forall (fun a => hasKeys (a_state a) = false) l ->
  Forall (accounted h) l.
Proof.
  intros Hp Hl. rewrite Forall_forall in Hp, Hl. apply Forall_forall. intros a Ha.
  split; [by apply Hp|]. rewrite Hl by done. done.
Qed.

(** After requests of the holder the invariant holds again once the handler
    has recorded a date, or if there are no keys. *)
Lemma keys_inv_after t now h h' l made :
  Inv keys_contract t h l -> t <= now ->
  Forall (fun a => 0 < a_time a <= now /\ a_state a = h) made ->
  (hasKeys h = true -> hasKeys h' = true) ->
  (hasKeys h' = true -> jh_CacheDate h' = now \/ jh_lastReloadError h' = now) ->
  Inv keys_contract now h' (l ++ made).
Proof.
  intros (Hpos & Hacc & Hle) Ht Hm Hkk Hd.
  assert (Forall (fun a => 0 < a_time a) (l ++ made)) as Hp.
  { apply Forall_app. split; [by eapply accounted_positive|].
    eapply Forall_impl; [exact Hm|]. simpl. lia. }
  assert (Forall (fun a => a_time a <= now) (l ++ made)) as Hn.
  { apply Forall_app. split; [eapply Forall_impl; [exact Hle|] | eapply Forall_impl; [exact Hm|]];
      simpl; lia. }
  split_and!; [lia| |done]. destruct (hasKeys h') eqn:Hk'; [by eapply accounted_recorded; eauto|].
  assert (hasKeys h = false) as Hk by (destruct (hasKeys h); naive_solver).
  apply accounted_vacuous; [done|]. apply Forall_app. split; [by eapply accounted_no_keys|].
  eapply Forall_impl; [exact Hm|]. by intros a [_ ->].
Qed.

Section Keeps.
Context `{Unicode, JsonText, UrlLib}.

Lemma released_keeps r now h l :
  Inv keys_contract now h l -> Post keys_contract r h ->
  keeps_to keys_contract true (Release (Return r)) now h l.
Proof.
  intros HI HP. cbn [keeps_to]. split; [done|]. held now1. split; [|done].
  by eapply Inv_later.
Qed.

(** The end of a reload that failed. *)
Lemma failed_keeps err t now h l made :
  Inv keys_contract t h l -> t <= now ->
  Forall (fun a => 0 < a_time a <= now /\ a_state a = h) made ->
  keeps_to keys_contract true
    (if hasKeys h
     then Now (fun now => Atomic (set_lastReloadError now) (fun _ => Release (Return (Ok tt))))
     else Release (Return (Err err))) now h (l ++ made).
Proof.
  intros HInv Ht Hm. destruct (hasKeys h) eqn:Hk.
  - cbn [keeps_to]. held now1. held now2. split; [by split|].
    apply released_keeps; [|by intros _]. eapply (Inv_later now1); [|done].
    eapply keys_inv_after; [exact HInv | lia | | done | by right].
    eapply Forall_impl; [exact Hm|]. simpl. intros a [? ?]. split; [lia | done].
  - apply released_keeps; [|done]. eapply keys_inv_after; eauto. congruence.
Qed.

(** The end of a reload that succeeded. *)
Lemma installed_keeps rsa ec t now h l made :
  Inv keys_contract t h l -> t <= now -> rsa <> [] \/ ec <> [] ->
  Forall (fun a => 0 < a_time a <= now /\ a_state a = h) made ->
  keeps_to keys_contract true
    (Now (fun now => Atomic (install rsa ec now) (fun _ => Release (Return (Ok tt))))) now h (l ++ made).
Proof.
  intros HInv Ht Hne Hm. cbn [keeps_to]. held now1. held now2.
  assert (hasKeys (install rsa ec now1 h) = true) as Hk by by apply hasKeys_install.
  split; [by split|]. apply released_keeps; [|by intros _]. eapply (Inv_later now1); [|done].
  eapply keys_inv_after; [exact HInv | lia | | done | by left].
  eapply Forall_impl; [exact Hm|]. simpl. intros a [? ?]. split; [lia | done].
Qed.

Lemma EnsureLoadedContext_keeps force now h l :
  keeps_to keys_contract false (EnsureLoadedContext force) now h l.
Proof.
  unfold EnsureLoadedContext, loadKeysContext. cbn [keeps_to].
  intros now1 h1 l1 _ now2 h2 l2 _. split; [done|].
  destruct (needsReload h2 now1 force) eqn:E1; cbn [negb keeps_to];
    [|split; [done | intros _; by eapply needsReload_false]].
  split; [done|]. intros now3 h3 l3 _ HInv Hlog. held now4. held now5. split; [by split|]. unfold id at 1.
  assert (Inv keys_contract now5 h3 l3) as HInv5 by (eapply Inv_later; [exact HInv | lia]).
  destruct (needsReload h3 now4 force) eqn:E2; cbn [negb].
  2: { apply released_keeps; [done | intros _; by eapply needsReload_false]. }
  cbn [keeps_to]. held now6. split; [by split|]. unfold id.
  assert (0 < now5 /\ Forall (accounted h3) l3) as [Hpos Hacc] by (by destruct HInv5 as (? & ? & ?)).
  destruct (NewRequest "GET" (jh_Url h3) [] "") as [req|err].
  2: { rewrite <- (app_nil_r l3). eapply failed_keeps; [exact HInv5 | lia | constructor]. }
  cbn [keeps_to]. split; [done|]. held now7. split.
  - cbn [a_time LogOk keys_contract]. apply spaced_snoc; [done|].
    eapply Forall_impl; [by eapply needsReload_spaced|]. simpl. intros a Ha Hka. specialize (Ha Hka). lia.
  - intros r now8 Hle8.
    set (made := [{| a_time := now7; a_request := req; a_state := h3 |}]).
    assert (Forall (fun a => 0 < a_time a <= now8 /\ a_state a = h3) made) as Hmade.
    { constructor; [|constructor]. simpl. split; [lia | done]. }
    destruct (let? resp := r in jwks_answer resp) as [[rsa ec]|err] eqn:Er.
    + eapply installed_keeps; [exact HInv5 | lia | by eapply jwks_answer_keys | done].
    + eapply failed_keeps; [exact HInv5 | lia | done].
Qed.

End Keeps.

(** *** Any number of requests at once *)

Section Loading.
Context `{Unicode, JsonText, UrlLib}.

(** One call for each flag, none begun, from an idle handler. *)
Definition loading (t : time) (h : JwksHandler) (forces : list bool)
  : threads JwksHandler (result unit) := fresh t h (map EnsureLoadedContext forces).

Lemma loading_well_behaved t h forces : 0 < t -> well_behaved keys_contract (loading t h forces).
Proof.
  intros Ht. apply fresh_well_behaved; [done | by intros i j a b _ ? |].
  apply Forall_map, Forall_true. intros force. apply EnsureLoadedContext_keeps.
Qed.

Lemma EnsureLoadedContext_over force : over_in (EnsureLoadedContext force) 11.
Proof.
  unfold EnsureLoadedContext, loadKeysContext. cbn [over_in]. intros now1 h1.
  destruct (negb (needsReload h1 now1 force)); cbn [over_in]; [done|]. intros now2 h2.
  destruct (negb (needsReload h2 now2 force)); cbn [over_in]; [done|]. intros h3.
  destruct (NewRequest _ _ _ _) as [req|err]; [|by destruct (hasKeys h2)].
  cbn [over_in]. intros r.
  destruct (let? resp := r in jwks_answer resp) as [[rsa ec]|err]; [done | by destruct (hasKeys h2)].
Qed.

(** C4: however the goroutines of concurrent requests are interleaved, and
    whatever the provider answers, loading the keys ends: a schedule of [n]
    calls takes at most eleven steps a call, no schedule gets stuck before
    every call has returned, and a call that returned without an error leaves
    keys behind. *)
Theorem loading_terminates t h forces :
  0 < t ->
  (forall k c, nsteps step k (loading t h forces) c -> (k <= 11 * length forces)%nat)
  /\ (forall c, rtc step (loading t h forces) c -> (forall c', ~ step c c') ->
        Forall (fun p => exists r, p = Return r) (c_procs c))
  /\ (forall c i, rtc step (loading t h forces) c -> c_procs c !! i = Some (Return (Ok tt)) ->
        hasKeys (c_state c) = true).
Proof.
  intros Ht. pose proof (loading_well_behaved t h forces Ht) as Hw.
  assert (Forall (fun p => over_in p 11) (c_procs (loading t h forces))) as Ho.
  { apply Forall_map, Forall_true. intros force. apply EnsureLoadedContext_over. }
  destruct (well_behaved_finishes _ _ _ Hw Ho) as [Hb Hf]. split_and!.
  - intros k c Hk. apply Hb in Hk. cbn in Hk. rewrite length_map in Hk. lia.
  - intros c Hc Hstuck. specialize (Hf c Hc Hstuck). apply Forall_lookup_2. intros i p Hi.
    eapply (well_behaved_returned keys_contract c); [exact (steps_sound _ _ _ Hc Hw) | exact (fun no => no) | done |].
    by eapply Forall_lookup_1 in Hf.
  - intros c i Hc Hi. apply (well_behaved_result keys_contract c i (Ok tt)); [|done..].
    exact (steps_sound _ _ _ Hc Hw).
Qed.

(** C5: concurrent requests cannot make the middleware flood the provider.  At
    any moment of any interleaving at most one request for keys is in flight;
    and once there are keys, requests are at least a minute apart, however many
    clients force a reload and whatever is answered. *)
Theorem reloads_are_spaced t h forces c :
  0 < t -> rtc step (loading t h forces) c ->
  one_request_at_a_time c /\ spaced (c_log c).
Proof.
  intros Ht Hc. pose proof (loading_well_behaved t h forces Ht) as Hw.
  apply (steps_sound _ _ _ Hc) in Hw. split; [by eapply well_behaved_one_request|].
  apply Hw.
Qed.

(** A call that fails has made a request. *)
Lemma EnsureLoadedContext_pays url u force :
  url_Parse url = Ok u ->
  pays (fun h => jh_Url h = url) (fun r => r <> Ok tt) (EnsureLoadedContext force) false.
Proof.
  intros Hu. unfold EnsureLoadedContext, loadKeysContext. cbn [pays]. intros now1 h1 E1. split; [done|].
  destruct (negb (needsReload h1 now1 force)); cbn [pays]; [done|]. intros now2 h2 E2. split; [done|].
  destruct (negb (needsReload h2 now2 force)); cbn [pays]; [done|]. intros h3 Hurl. split; [done|].
  unfold NewRequest. rewrite Hurl, Hu. cbn [rbind pays]. split; [done|]. intros r.
  destruct (let? resp := r in jwks_answer resp) as [[rsa ec]|err]; [by cbn|].
  destruct (hasKeys h2); by cbn.
Qed.

Definition call_failed (p : proc JwksHandler (result unit)) : bool :=
  match p with Return (Err _) => true | _ => false end.

Definition waits_for_mutex (p : proc JwksHandler (result unit)) : bool :=
  match p with Acquire _ => true | _ => false end.

(** Without keys a call waits for the mutex, and then asks; a provider that
    cannot be reached leaves the handler as it was. *)
Lemma ask_in_vain t h force u :
  hasKeys h = false -> url_Parse (jh_Url h) = Ok u ->
  let at_rest l ps := {| c_now := t; c_state := h; c_owner := None; c_log := l; c_procs := ps |} in
  exists k,
    (forall l ps1 ps2, exists l', length l' = (length l + 0)%nat
       /\ rtc step (at_rest l (ps1 ++ EnsureLoadedContext force :: ps2)) (at_rest l' (ps1 ++ Acquire k :: ps2)))
    /\ (forall l ps1 ps2, exists l', length l' = (length l + 1)%nat
       /\ rtc step (at_rest l (ps1 ++ Acquire k :: ps2)) (at_rest l' (ps1 ++ Return (Err ErrPanic) :: ps2))).
Proof.
  intros Hk Hu.
  assert (needsReload h t force = true) as Hn.
  { destruct (needsReload h t force) eqn:E; [done|]. apply needsReload_false in E. congruence. }
  unfold EnsureLoadedContext, loadKeysContext. eexists. split.
  - intros l ps1 ps2. exists l. split; [lia|]. go t. go t. rewrite Hn. cbn [negb]. reflexivity.
  - intros l ps1 ps2. exists (l ++ [{| a_time := t; a_request := jwks_request h; a_state := h |}]).
    split; [by rewrite length_app|].
    go t. go t. go t. rewrite Hn. cbn [negb]. go t. unfold NewRequest. rewrite Hu. cbn [rbind]. go t.
    eapply rtc_l; [eapply (step_at t); [lia | apply (move_Pending _ _ _ _ (Err ErrPanic))]|].
    cbn [rbind]. rewrite Hk. by eapply rtc_once, (step_at t); [lia | constructor].
Qed.

Lemma failures_are_paid t h forces u c :
  0 < t -> url_Parse (jh_Url h) = Ok u -> rtc step (loading t h forces) c ->
  (length (List.filter call_failed (c_procs c)) <= length (c_log c) <= length forces)%nat
  /\ (hasKeys (c_state c) = false ->
      Forall (fun p => finished p = true -> call_failed p = true) (c_procs c)
      /\ (all_finished c -> length (c_log c) = length forces)).
Proof.
  intros Ht Hu Hc.
  assert (Hlen : length (c_procs c) = length forces).
  { erewrite <- (steps_threads _ _ Hc). cbn. by rewrite length_map. }
  assert (Hb : (length (List.filter call_failed (c_procs c)) <= length (c_log c) <= length (c_procs c))%nat).
  { apply (settled_bounds (fun h' => jh_Url h' = jh_Url h) (fun r => r <> Ok tt)).
    - intros [[|err]| | | | | | | |]; try done. intros _. by exists (Err err).
    - eapply steps_settled; [exact Hc|]. apply fresh_settled; [done|]. apply Forall_map, Forall_true.
      intros force. by eapply EnsureLoadedContext_pays. }
  rewrite Hlen in Hb. split; [done|]. intros Hk.
  assert (Hw : well_behaved keys_contract c) by exact (steps_sound _ _ _ Hc (loading_well_behaved t h forces Ht)).
  assert (Hf : Forall (fun p => finished p = true -> call_failed p = true) (c_procs c)).
  { apply Forall_lookup_2. intros i p Hi Hp.
    destruct (well_behaved_returned keys_contract c i p) as [[[]|err] ->]; [done | by intros [] | done..| |done].
    pose proof (well_behaved_result keys_contract c i (Ok tt) Hw Hi eq_refl). cbn in *. congruence. }
  split; [done|]. intros Hall. enough (length (List.filter call_failed (c_procs c)) = length (c_procs c)) by lia.
  revert Hf Hall. unfold all_finished. clear. induction (c_procs c) as [|p ps IH]; [done|].
  intros [Hp Hf]%Forall_cons [Hq Hall]%Forall_cons. simpl. rewrite (Hp Hq). simpl. by rewrite IH.
Qed.

(** C37: a reload is shared by concurrent calls only when it succeeds.  In every
    interleaving of [n] calls, whatever the provider answers, a call that has
    failed has made a request of its own, and no call makes two; so as long as
    there are no keys, a call returns only with an error after its own request,
    and when all have returned the provider was asked [n] times.  This happens
    to calls that are under way together: there is a run in which all of them
    wait for the mutex before the first request is made. *)
Theorem every_call_asks_in_vain t h forces u :
  0 < t -> hasKeys h = false -> url_Parse (jh_Url h) = Ok u ->
  (forall c, rtc step (loading t h forces) c ->
     (length (List.filter call_failed (c_procs c)) <= length (c_log c) <= length forces)%nat
     /\ (hasKeys (c_state c) = false ->
         Forall (fun p => finished p = true -> call_failed p = true) (c_procs c)
         /\ (all_finished c -> length (c_log c) = length forces)))
  /\ exists c1 c2, rtc step (loading t h forces) c1
       /\ c_log c1 = [] /\ Forall (fun p => waits_for_mutex p = true) (c_procs c1)
       /\ rtc step c1 c2
       /\ length (c_log c2) = length forces /\ Forall (fun p => call_failed p = true) (c_procs c2).
Proof.
  intros Ht Hk Hu. split; [intros c; by apply (failures_are_paid t h forces u)|].
  assert (Hks : exists ps, length ps = length forces /\ Forall (fun p => waits_for_mutex p = true) ps
    /\ Forall2 (fun p q => forall l ps1 ps2, exists l', length l' = (length l + 0)%nat
         /\ rtc step {| c_now := t; c_state := h; c_owner := None; c_log := l; c_procs := ps1 ++ p :: ps2 |}
              {| c_now := t; c_state := h; c_owner := None; c_log := l'; c_procs := ps1 ++ q :: ps2 |})
         (map EnsureLoadedContext forces) ps
    /\ Forall2 (fun p q => forall l ps1 ps2, exists l', length l' = (length l + 1)%nat
         /\ rtc step {| c_now := t; c_state := h; c_owner := None; c_log := l; c_procs := ps1 ++ p :: ps2 |}
              {| c_now := t; c_state := h; c_owner := None; c_log := l'; c_procs := ps1 ++ q :: ps2 |})
         ps (replicate (length forces) (Return (Err ErrPanic)))).
  { induction forces as [|f forces (ps & Hl & Hw & Hin & Hout)]; [by exists []|].
    destruct (ask_in_vain t h f u Hk Hu) as (k & K1 & K2). exists (Acquire k :: ps).
    split_and!; [simpl; lia | by constructor..]. }
  destruct Hks as (ps & Hl & Hw & Hin & Hout).
  destruct (in_turn _ _ _ _ _ Hin [] []) as (l1 & L1 & S1). simpl in L1.
  assert (l1 = []) as -> by (by apply nil_length_inv).
  destruct (in_turn _ _ _ _ _ Hout [] []) as (l2 & L2 & S2).
  eexists _, _. split_and!; [exact S1 | done | done | exact S2 | cbn in *; lia |].
  apply Forall_replicate. done.
Qed.
End Loading.

(** ** The discovery document *)

(** The mutex is the write side of [toa.Lock], held while the provider is
    asked; readers of the document wait for it. *)

Section Discovery.
Context `{Unicode, JsonText, UrlLib}.

Definition well_known (providerUrl : URL) : URL :=
  {| u_Scheme := u_Scheme providerUrl; u_Host := u_Host providerUrl;
     u_Path := path_Join (u_Path providerUrl) ".well-known/openid-configuration";
     u_RawQuery := u_RawQuery providerUrl |}.

Definition discovery_answer (r : result HttpResponse) : result OidcDiscovery :=
  match r with
  | Err _ => errorf "HTTP GET error"
  | Ok resp =>
      if 300 <=? p_Status resp then errorf "HTTP error - Status code"
      else match (let? j := json_decode (stake maxOidcResponseBody (p_Body resp)) in
                  dec_struct discovery_fields j empty_discovery) with
           | Ok document => Ok document
           | Err _ => errorf "failed to decode OIDC discovery document"
           end
  end.

Definition fetch_discovery {A} (providerUrl : URL) (k : result OidcDiscovery -> proc Toa A) : proc Toa A :=
  match NewRequest "GET" (url_String (well_known providerUrl)) [] "" with
  | Err _ => k (errorf "HTTP GET error")
  | Ok req => Call req (fun r => k (discovery_answer r))
  end.

Definition discover_document : proc Toa (result unit) :=
  Guarded id (fun t =>
  match t_DiscoveryDocument t with
  | Some _ => Return (Ok tt)
  | None =>
      Acquire (Atomic id (fun t =>
      match t_DiscoveryDocument t with
      | Some _ => Release (Return (Ok tt))
      | None =>
          Atomic (set_Jwks new_handler) (fun t =>
          fetch_discovery (t_ProviderURL t) (fun d =>
          match d with
          | Err err => Release (Return (Err err))
          | Ok d =>
              Atomic id (fun t =>
              match Provider (t_Config t) with
              | None => Release Crash
              | Some p =>
                  let validIssuer := if String.eqb (pv_ValidIssuer p) "" then dd_Issuer d else pv_ValidIssuer p in
                  let validAudience :=
                    if String.eqb (pv_ValidAudience p) "" then pv_ClientId p else pv_ValidAudience p in
                  Atomic (publish d validIssuer validAudience p) (fun _ => Release (Return (Ok tt)))
              end)
          end))
      end))
  end).

#[local] Opaque maxOidcResponseBody discovery_fields dec_struct NewRequest.

(** By itself the process is the computation that the handlers run. *)
Lemma discover_document_alone `{External} e t :
  alone discover_document e t = EnsureOidcDiscovery e t.
Proof.
  unfold discover_document, EnsureOidcDiscovery, fetch_discovery, GetOidcDiscovery, well_known, provider.
  run_alone. unfold gets. destruct (t_DiscoveryDocument t) eqn:Ed; run_alone; [done|].
  rewrite Ed. run_alone.
  destruct (NewRequest _ _ _ _) as [req|err]; run_alone; [|done].
  destruct (http_Do (e_calls e) req) as [resp|err]; run_alone; [|done].
  destruct (300 <=? p_Status resp); run_alone; [done|].
  destruct (json_decode _) as [j|err]; run_alone; [|done].
  destruct (dec_struct discovery_fields j empty_discovery) as [d|err]; run_alone; [|done].
  destruct (Provider (t_Config t)) as [p|]; run_alone; done.
Qed.

(** Requests are made while there is no document; once there is one, nothing
    changes any more. *)
Definition discovery_contract : contract Toa (result unit) := {|
  G t t' := t_DiscoveryDocument t <> None -> t' = t;
  Inv now t l := Provider (t_Config t) <> None;
  LogOk := Forall (fun a => t_DiscoveryDocument (a_state a) = None);
  Post r t := r = Ok tt -> t_DiscoveryDocument t <> None;
  Crashes := False
|}.

#[global] Instance discovery_contract_laws : ContractLaws discovery_contract.
Proof.
  split; cbn; [|done|].
  - split; [done|]. intros t1 t2 t3 E1 E2 Hd. rewrite E2, E1; [done..|]. by rewrite E1.
  - intros r t t' Hr HG Hok. rewrite HG; auto.
Qed.

#[local] Transparent NewRequest.

Lemma discovery_released r now t l :
  Provider (t_Config t) <> None -> (r = Ok tt -> t_DiscoveryDocument t <> None) ->
  keeps_to discovery_contract true (Release (Return r)) now t l.
Proof. intros Hp Hr. cbn [keeps_to]. split; [done|]. held now1. by split. Qed.

Lemma discover_document_keeps now t l : keeps_to discovery_contract false discover_document now t l.
Proof.
  unfold discover_document. cbn [keeps_to]. split; [done|]. intros now1 t1 l1 _ _. split; [done|].
  unfold id at 1. destruct (t_DiscoveryDocument t1) as [d|] eqn:E1; cbn [keeps_to];
    [split; [done|]; cbn; congruence|].
  split; [done|]. intros now2 t2 l2 _ Hp Hlog. held now3. split; [by intros _|]. unfold id.
  destruct (t_DiscoveryDocument t2) as [d|] eqn:E2; [apply discovery_released; [done | congruence]|].
  cbn [keeps_to]. held now4. split; [by cbn; rewrite E2|].
  unfold fetch_discovery. destruct (NewRequest _ _ _ _) as [req|err]; [|by apply discovery_released].
  cbn [keeps_to]. split; [done|]. held now5. split; [by apply Forall_app; split; [|by constructor]|].
  intros r now6 Hle6. destruct (discovery_answer r) as [d|err]; [|by apply discovery_released].
  cbn [keeps_to]. held now7. split; [by intros _|].
  destruct (Provider (t_Config (set_Jwks new_handler t2))) as [p|] eqn:Ep; [|by destruct Hp].
  cbn [keeps_to]. held now8. split; [cbn; by rewrite E2|].
  apply discovery_released; cbn; [by destruct (t_Config t2) | done].
Qed.

Lemma discover_document_over : over_in discover_document 9.
Proof.
  unfold discover_document, fetch_discovery. cbn [over_in]. intros t1.
  destruct (t_DiscoveryDocument t1); cbn [over_in]; [done|]. intros t2.
  destruct (t_DiscoveryDocument t2); cbn [over_in]; [done|]. intros t3.
  destruct (NewRequest _ _ _ _) as [req|err]; cbn [over_in]; [|done]. intros r.
  destruct (discovery_answer r); cbn [over_in]; [|done]. intros t4.
  by destruct (Provider (t_Config t4)).
Qed.

(** [n] requests that arrive before the first discovery. *)
Definition discovering (now : time) (t : Toa) (n : nat) : threads Toa (result unit) :=
  fresh now t (replicate n discover_document).

(** C12: the document is published once.  However concurrent requests are
    interleaved, at most one of them asks the provider at a time, and only
    while there is no document; from the moment a document is visible neither
    it nor anything it was published with changes; a request that goes on
    without an error sees one; and every schedule is over after nine steps a
    request. *)
Theorem discovery_published_once now t n c :
  Provider (t_Config t) <> None -> rtc step (discovering now t n) c ->
  one_request_at_a_time c
  /\ Forall (fun a => t_DiscoveryDocument (a_state a) = None) (c_log c)
  /\ (forall c', rtc step c c' -> t_DiscoveryDocument (c_state c) <> None -> c_state c' = c_state c)
  /\ (forall i, c_procs c !! i = Some (Return (Ok tt)) -> t_DiscoveryDocument (c_state c) <> None)
  /\ (forall k c', nsteps step k (discovering now t n) c' -> (k <= 9 * n)%nat).
Proof.
  intros Hp Hc.
  assert (well_behaved discovery_contract (discovering now t n)) as Hw0.
  { apply fresh_well_behaved; [done | constructor |]. apply Forall_replicate, discover_document_keeps. }
  pose proof (steps_sound _ _ _ Hc Hw0) as Hw. split_and!.
  - by eapply well_behaved_one_request.
  - apply Hw.
  - intros c' Hc' Hd. exact (steps_evolve _ _ _ Hc' Hw Hd).
  - intros i Hi. by apply (well_behaved_result discovery_contract c i (Ok tt)).
  - intros k c' Hk. apply (well_behaved_finishes _ _ 9 Hw0) in Hk; [|by apply Forall_replicate, discover_document_over].
    cbn in Hk. rewrite length_replicate in Hk. lia.
Qed.

End Discovery.
