(* ===== verification/Server.v ===== *)
(** * Answering and forwarding: [src/main.go], lines 487 to 817, 1258 to 1372

    What the handlers of the middleware share: the state they run on, the
    error pages, the stripping of what a client may not say to the backend, the
    headers taken from a session, and the tracker of written tickets. *)

From Stdlib Require Import ZArith Lia Ascii String Bool List.
From S2P Require Import Prelude GoStrings GoUrl Json Http Utils World Config Authorization ErrorPages.
From S2P Require Import SessionStorage Cookies Tokens Session Routes.

(** ** The state of a request

    The middleware, the response so far, and the requests handed to the next
    handler, each with the response as it was then.  What the next handler
    writes is its own business. *)

Record St := { s_toa : Toa; s_rw : Response; s_next : list (Request * Response) }.

Definition set_toa (t : Toa) (s : St) : St := {| s_toa := t; s_rw := s_rw s; s_next := s_next s |}.
Definition set_rw (w : Response) (s : St) : St := {| s_toa := s_toa s; s_rw := w; s_next := s_next s |}.

Definition on_toa {A} (m : M Toa A) : M St A := zoom s_toa set_toa m.

(** Writing to the response. *)
Definition write (f : Response -> Response) : M St unit := modify (fun s => set_rw (f (s_rw s)) s).

(** [toa.next.ServeHTTP(rw, req)] *)
Definition next_ServeHTTP (req : Request) : M St unit :=
  modify (fun s => {| s_toa := s_toa s; s_rw := s_rw s; s_next := s_next s ++ [(req, s_rw s)] |}).

Definition config : M St Config := gets (fun s => t_Config (s_toa s)).

(** A dereferenced pointer. *)
Definition deref {A} (o : option A) : M St A := match o with Some a => mret a | None => panic end.

(** ** Sanitising *)

Definition clientIdentityHeaders : list string := [
  "X-Forwarded-User"; "X-Forwarded-Groups"; "X-Forwarded-Email"; "X-Auth-Request-User";
  "X-Auth-Request-Email"; "X-Auth-Request-Groups"; "X-Auth-Request-Preferred-Username";
  "Remote-User"; "Remote-Groups"; "X-Auth-Request-Access-Token"; "X-Auth-Request-Token";
  "X-Forwarded-Access-Token" ].

Definition sanitizeForUpstream (cfg : Config) (req : Request) : Request :=
  let keepCookies := List.filter (fun c => negb (HasPrefix c.1 (CookieNamePrefix cfg))) (r_Cookies req) in
  let req := with_cookies keepCookies req in
  with_header (fun h => fold_left (fun h header => header_Del header h) clientIdentityHeaders h) req.

Definition forwardToUpstream (req : Request) : M St unit :=
  c ← config;
  next_ServeHTTP (sanitizeForUpstream c req).

(** ** The tracker of written tickets *)

Definition maxTrackedSessions : Z := 20000.

Definition lastWrite (t : sessionWriteTracker) (sessionId : string) : option time := sw_last t !! sessionId.

Definition mark_at (now : time) (sessionId : string) (t : sessionWriteTracker) : sessionWriteTracker :=
  let t := if maxTrackedSessions <=? sw_count t then {| sw_last := ∅; sw_count := 0 |} else t in
  {| sw_last := <[sessionId := now]> (sw_last t); sw_count := sw_count t + 1 |}.

Definition set_sessionWrites (w : sessionWriteTracker) (t : Toa) : Toa := {|
  t_ProviderURL := t_ProviderURL t; t_ClientJwtPrivateKey := t_ClientJwtPrivateKey t;
  t_CallbackURL := t_CallbackURL t; t_Config := t_Config t;
  t_DiscoveryDocument := t_DiscoveryDocument t; t_Jwks := t_Jwks t;
  t_BypassAuthenticationRule := t_BypassAuthenticationRule t;
  t_RedirectUriWildcardsEnabled := t_RedirectUriWildcardsEnabled t; t_validIssuer := t_validIssuer t;
  t_validAudience := t_validAudience t; t_sessionWrites := w |}.

(** No ticket of its own: a request's own token, or no identity. *)
Definition pseudo_session (sessionId : string) : bool :=
  String.eqb sessionId "" || external_session sessionId.

(** The seconds between two writes of one session. *)
Definition refresh_interval (idle : Z) : Z :=
  let interval := Z.quot idle 4 in
  let interval := if 60 <? interval then 60 else interval in
  if interval <=? 0 then 1 else interval.

Definition sessionLifetimeStampDue (cfg : Config) (w : sessionWriteTracker) (sessionId : string) : bool :=
  if MaxSessionLifetimeSeconds cfg <=? 0 then false
  else if pseudo_session sessionId then false
  else is_none (lastWrite w sessionId).

Section Due.
Context `{External}.

Definition mark (sessionId : string) : M Toa unit :=
  now ← time_Now;
  modify (fun t => set_sessionWrites (mark_at now sessionId (t_sessionWrites t)) t).

Definition sessionIdleRefreshDue (sessionId : string) : M Toa bool :=
  if pseudo_session sessionId then mret false
  else
    c ← gets t_Config;
    let idle := SessionIdleTimeoutSeconds c in
    if (idle <=? 0) || String.eqb sessionId "" then mret false
    else
      w ← gets t_sessionWrites;
      match lastWrite w sessionId with
      | None => mret true
      | Some last =>
          now ← time_Now;
          mret (seconds (refresh_interval idle) <=? Since now last)
      end.

Definition sessionStoreDue (sessionId : string) (updatedSession : bool) : M Toa bool :=
  if updatedSession then mret true
  else
    idle ← sessionIdleRefreshDue sessionId;
    if idle : bool then mret true
    else
      c ← gets t_Config;
      w ← gets t_sessionWrites;
      mret (sessionLifetimeStampDue c w sessionId).
End Due.

(** ** Headers for the backend *)

(** What a header template is rendered with. *)
Record eval_context := {
  ev_claims : claims;
  ev_accessToken : string;
  ev_idToken : string;
  ev_refreshToken : string
}.

(** [text/template] with the functions of [headerTemplateFuncs]: parsing, and
    the output of an execution with the error that may end it. *)
Class HeaderTemplates := {
  tpl_Parse : string -> result unit;
  tpl_Execute : string -> eval_context -> string * option error
}.

Definition string_item (j : json) : string := match j with JStr s => s | _ => "" end.
Definition stringy (j : json) : bool := match j with JStr _ | JNull => true | _ => false end.

(** [json.Unmarshal] into a nil [[]string]: an element of another kind is an
    error, and leaves an empty string in its place. *)
Definition unmarshal_strings `{JsonText} (s : string) : list string * option error :=
  match json_parse s with
  | Err e => ([], Some e)
  | Ok (JArr l) => (map string_item l, if forallb stringy l then None else Some (ErrText "json: cannot unmarshal"))
  | Ok JNull => ([], None)
  | Ok _ => ([], Some (ErrText "json: cannot unmarshal"))
  end.

Section Attach.
Context `{JsonText, HeaderTemplates}.

(** The compiled template of a header, or its source parsed now. *)
Definition header_template (header : HeaderConfig) (source : string) : result string :=
  match h_Template header with
  | Some tpl => Ok tpl
  | None => let? _ := tpl_Parse source in Ok source
  end.

Definition set_error (name : string) (e : option error) (h : header) : header :=
  match e with Some e => header_Set name (error_text e) h | None => h end.

Definition attach_values (name : string) (values : list string) (h : header) : header :=
  match values with
  | [] => header_Del name h
  | v :: rest => fold_left (fun h v => header_Add name v h) rest (header_Set name v h)
  end.

Definition attach_one (ev : eval_context) (header : HeaderConfig) (h : Http.header)
  : result Http.header :=
  let name := h_Name header in
  if negb (String.eqb (h_Value header) "") then
    let? tpl := header_template header (h_Value header) in
    match tpl_Execute tpl ev with
    | (renderedValue, None) => Ok (header_Set name renderedValue h)
    | (_, Some err) => Ok (header_Set name (error_text err) h)
    end
  else if negb (String.eqb (h_Values header) "") then
    let? tpl := header_template header (h_Values header) in
    let '(renderedValue, err) := tpl_Execute tpl ev in
    let h := set_error name err h in
    let '(values, err) := unmarshal_strings renderedValue in
    Ok (attach_values name values (set_error name err h))
  else Ok (header_Set name "" h).

(** The two skips at the head of the loop. *)
Definition header_skipped (isPublicRoute isAuthorized : bool) (header : HeaderConfig) : bool :=
  let w := h_IncludeWhen header in
  (isPublicRoute && negb (String.eqb w "Always") && negb (String.eqb w "Public"))
  || (negb isAuthorized && negb (String.eqb w "Always") && negb (String.eqb w "Forward")).

Fixpoint attach_loop (ev : eval_context) (isPublicRoute isAuthorized : bool) (headers : list HeaderConfig)
  (h : header) : result header :=
  match headers with
  | [] => Ok h
  | hd :: rest =>
      if header_skipped isPublicRoute isAuthorized hd
      then attach_loop ev isPublicRoute isAuthorized rest h
      else
        let? h := attach_one ev hd h in
        attach_loop ev isPublicRoute isAuthorized rest h
  end.

Definition attachHeaders (cfg : Config) (req : Request) (session : SessionState) (c : claims)
  (isPublicRoute isAuthorized : bool) : result Request :=
  let ev := {| ev_claims := c; ev_accessToken := ss_AccessToken session;
               ev_idToken := ss_IdToken session; ev_refreshToken := ss_RefreshToken session |} in
  let? h := attach_loop ev isPublicRoute isAuthorized (Headers cfg) (r_Header req) in
  Ok (with_header (fun _ => h) req).
End Attach.

(** Attaching headers touches the configured names only. *)
Section AttachLemmas.
Context `{JsonText, HeaderTemplates}.

Lemma attach_values_other name vs h k :
  k <> CanonicalMIMEHeaderKey name -> attach_values name vs h !! k = h !! k.
Proof.
  intros Hk. destruct vs as [|v vs]; simpl; [by apply lookup_delete_ne|].
  assert (Hset : header_Set name v h !! k = h !! k) by (by apply lookup_insert_ne).
  revert Hset. generalize (header_Set name v h). induction vs as [|w vs IH]; intros h' Hh; simpl; [done|].
  apply IH. unfold header_Add. by rewrite lookup_insert_ne.
Qed.

Lemma set_error_other name e h k : k <> CanonicalMIMEHeaderKey name -> set_error name e h !! k = h !! k.
Proof. intros Hk. destruct e; simpl; [|done]. by apply lookup_insert_ne. Qed.

Lemma attach_one_other ev hd h h' k :
  k <> CanonicalMIMEHeaderKey (h_Name hd) -> attach_one ev hd h = Ok h' -> h' !! k = h !! k.
Proof.
  intros Hk. unfold attach_one. destruct (negb (String.eqb (h_Value hd) "")).
  - intros (tpl & _ & Hr)%rbind_Ok_inv. destruct tpl_Execute as [v [err|]]; injection Hr as <-;
      by apply lookup_insert_ne.
  - destruct (negb (String.eqb (h_Values hd) "")).
    + intros (tpl & _ & Hr)%rbind_Ok_inv. destruct tpl_Execute as [v err], unmarshal_strings as [vs err'].
      injection Hr as <-. by rewrite attach_values_other, !set_error_other.
    + intros [= <-]. by apply lookup_insert_ne.
Qed.

Lemma attach_loop_other ev pub auth hs h h' k :
  Forall (fun hd => k <> CanonicalMIMEHeaderKey (h_Name hd)) hs ->
  attach_loop ev pub auth hs h = Ok h' -> h' !! k = h !! k.
Proof.
  intros Hk. revert h. induction Hk as [|hd hs Hhd _ IH]; intros h; simpl; [by intros [= <-]|].
  destruct header_skipped; [apply IH|]. intros (h1 & H1 & H2)%rbind_Ok_inv.
  rewrite (IH _ H2). by eapply attach_one_other.
Qed.
End AttachLemmas.

(** Sanitising removes the identity headers and the internal cookies. *)
Lemma delete_headers_lookup hs h k :
  k ∈ hs -> fold_left (fun h name => header_Del name h) hs h !! CanonicalMIMEHeaderKey k = None.
Proof.
  assert (Hkeep : forall hs (h : header), h !! CanonicalMIMEHeaderKey k = None ->
    fold_left (fun h name => header_Del name h) hs h !! CanonicalMIMEHeaderKey k = None).
  { clear. induction hs as [|n hs IH]; intros h Hh; simpl; [done|]. apply IH.
    unfold header_Del. by rewrite lookup_delete_None; right. }
  revert h. induction hs as [|n hs IH]; intros h Hin; [by apply elem_of_nil in Hin|].
  simpl. apply elem_of_cons in Hin as [->|Hin]; [|by apply IH].
  apply Hkeep. apply lookup_delete_eq.
Qed.

Lemma sanitize_headers cfg req k :
  k ∈ clientIdentityHeaders ->
  r_Header (sanitizeForUpstream cfg req) !! CanonicalMIMEHeaderKey k = None.
Proof. apply delete_headers_lookup. Qed.

Lemma sanitize_cookies cfg req c :
  c ∈ r_Cookies (sanitizeForUpstream cfg req) ->
  c ∈ r_Cookies req /\ HasPrefix c.1 (CookieNamePrefix cfg) = false.
Proof.
  simpl. rewrite list_elem_of_In, filter_In, <- list_elem_of_In, negb_true_iff. done.
Qed.

(** ** Error answers *)

Section Answers.
Context `{Unicode, UrlLib, JsonText, MediaTypes, PageTemplates}.

Definition internalError (publicMessage : string) : M St unit :=
  write (http_Error publicMessage StatusInternalServerError).

Definition error_data (statusType : string) (statusCode : Z) (statusName description : string) : page_data :=
  <["statusType" := DStr statusType]> (<["statusCode" := DInt statusCode]>
    (<["statusName" := DStr statusName]> {["description" := DStr description]})).

Definition with_button (which text url : string) (data : page_data) : page_data :=
  <[which +:+ "ButtonText" := DStr text]> (<[which +:+ "ButtonUrl" := DStr url]> data).

Definition writeSuccessfulLogout (req : Request) : M St unit :=
  c ← config;
  _ ← write (rw_header (header_Set "Cache-Control" "no-cache, no-store, must-revalidate"));
  let data := error_data "about:blank" 200 "Logged out" "You have been logged out successfully." in
  let data := if negb (String.eqb (LoginUri c) "")
              then with_button "primary" "Log back in" (ensureAbsoluteUrl c req (LoginUri c)) data
              else data in
  write (WriteError empty_error_page req data).

Definition writeUnauthenticatedError (req : Request) : M St unit :=
  c ← config;
  let data := error_data "https://tools.ietf.org/html/rfc9110#section-15.5.2" StatusUnauthorized
    "Unauthorized" "You're not authorized to access this resource. Please log in to continue." in
  let data := if negb (String.eqb (LoginUri c) "")
              then with_button "primary" "Login" (ensureAbsoluteUrl c req (LoginUri c)) data
              else data in
  pages ← deref (ErrorPages c);
  page ← deref (ep_Unauthenticated pages);
  write (WriteError page req data).

Definition newline : string := String "010" "".

Definition writeUnauthorizedError (req : Request) : M St unit :=
  c ← config;
  let data := error_data "https://tools.ietf.org/html/rfc9110#section-15.5.4" StatusForbidden "Forbidden"
    ("It seems like your account is not allowed to access this resource." +:+ newline +:+
     "Try to log in using a different account or log out by using one of the options below.") in
  let data := if negb (String.eqb (LoginUri c) "")
              then with_button "primary" "Login with a different account"
                     (ensureAbsoluteUrl c req (LoginUri c) +:+ "?prompt=login") data
              else data in
  let data := with_button "secondary" "Logout" (ensureAbsoluteUrl c req (LogoutUri c)) data in
  pages ← deref (ErrorPages c);
  page ← deref (ep_Unauthorized pages);
  write (WriteError page req data).
End Answers.

(** ** Outcomes *)

(** What the handlers leave alone: all of the middleware but the key cache and
    the callback URL, which a double redirect assigns to. *)
Definition undisturbed (t t' : Toa) : Prop := exists j u, t' = set_CallbackURL u (set_Jwks j t).

(** A handler that only answers: nothing is forwarded. *)
Definition quiet (s s' : St) : Prop := s_next s' = s_next s /\ undisturbed (s_toa s) (s_toa s').

Lemma undisturbed_refl t : undisturbed t t.
Proof. exists (t_Jwks t), (t_CallbackURL t). by destruct t. Qed.

Lemma undisturbed_trans t1 t2 t3 : undisturbed t1 t2 -> undisturbed t2 t3 -> undisturbed t1 t3.
Proof. intros (j1 & u1 & ->) (j2 & u2 & ->). by exists j2, u2. Qed.

Lemma frame_undisturbed t t' : frame t t' -> undisturbed t t'.
Proof. intros F. exists (t_Jwks t'), (t_CallbackURL t). rewrite F. by destruct t. Qed.

Lemma undisturbed_callback u t : undisturbed t (set_CallbackURL u t).
Proof. exists (t_Jwks t), u. by destruct t. Qed.

Lemma undisturbed_Config t t' : undisturbed t t' -> t_Config t' = t_Config t.
Proof. by intros (j & u & ->). Qed.

Lemma undisturbed_doc t t' : undisturbed t t' -> t_DiscoveryDocument t' = t_DiscoveryDocument t.
Proof. by intros (j & u & ->). Qed.

Lemma undisturbed_writes t t' : undisturbed t t' -> t_sessionWrites t' = t_sessionWrites t.
Proof. by intros (j & u & ->). Qed.

Lemma quiet_refl s : quiet s s.
Proof. split; [done | apply undisturbed_refl]. Qed.

Lemma quiet_trans s1 s2 s3 : quiet s1 s2 -> quiet s2 s3 -> quiet s1 s3.
Proof. intros [E1 U1] [E2 U2]. split; [congruence | by eapply undisturbed_trans]. Qed.

Lemma quiet_rw w s : quiet s (set_rw w s).
Proof. split; [done | apply undisturbed_refl]. Qed.

Lemma quiet_then_rw w s s1 : quiet s s1 -> quiet s (set_rw w s1).
Proof. intros Q. by eapply quiet_trans, quiet_rw. Qed.

Lemma quiet_toa t s : undisturbed (s_toa s) t -> quiet s (set_toa t s).
Proof. by split. Qed.

Lemma quiet_Config s s' : quiet s s' -> t_Config (s_toa s') = t_Config (s_toa s).
Proof. intros [_ U]. by apply undisturbed_Config. Qed.

(** A handler that answers: nothing is forwarded, and the response is
    written. *)
Definition answers (s s' : St) : Prop := quiet s s' /\ committed (s_rw s') = true.

Lemma answers_rw w s s1 : quiet s s1 -> committed w = true -> answers s (set_rw w s1).
Proof. split; [|done]. by apply quiet_then_rw. Qed.

Lemma answers_after s1 s2 s3 : quiet s1 s2 -> answers s2 s3 -> answers s1 s3.
Proof. intros Q [Q' C]. split; [by eapply quiet_trans | done]. Qed.

#[export] Hint Resolve answers_rw : toa.
#[export] Hint Resolve undisturbed_refl undisturbed_callback frame_undisturbed quiet_refl quiet_then_rw quiet_toa : toa.

(** A handler that sets no session cookie, under the configuration [cfg]. *)
Definition keeps_tickets `{External} (cfg : Config) (e : Env) (s : St) (e' : Env) (s' : St) : Prop :=
  t_Config (s_toa s) = cfg ->
  elapsed e e' /\ undisturbed (s_toa s) (s_toa s')
  /\ session_cookies cfg (s_rw s') = session_cookies cfg (s_rw s).

#[export] Instance keeps_tickets_passage `{External} cfg : Passage (keeps_tickets cfg).
Proof.
  split; unfold keeps_tickets.
  - intros e s _. split_and!; [done | apply undisturbed_refl | done].
  - intros e1 s1 e2 s2 e3 s3 H1 H2 Hc. destruct (H1 Hc) as (E1 & U1 & C1).
    destruct H2 as (E2 & U2 & C2); [by rewrite (undisturbed_Config _ _ U1)|].
    split_and!; [by etrans | by eapply undisturbed_trans | congruence].
  - intros e s _. split_and!; [apply elapsed_tick | apply undisturbed_refl | done].
  - intros e s _. split_and!; [apply elapsed_draw | apply undisturbed_refl | done].
  - intros q e s _. split_and!; [apply elapsed_called | apply undisturbed_refl | done].
Qed.

Lemma keeps_config `{External} {A} cfg (k : Config -> M St A) :
  respects (keeps_tickets cfg) (k cfg) -> respects (keeps_tickets cfg) (mbind k config).
Proof.
  intros Hk e s. specialize (Hk e s). unfold outcome, mbind, M_bind, config, gets in *.
  destruct (k (t_Config (s_toa s)) e s) as [[[a e'] s']|] eqn:E; [|done]. intros <-. rewrite E in Hk. by apply Hk.
Qed.

Lemma keeps_write `{External} cfg f :
  (forall w, session_cookies cfg (f w) = session_cookies cfg w) -> respects (keeps_tickets cfg) (write f).
Proof.
  intros Hf. apply respects_modify. intros e s _. split_and!; [done | apply undisturbed_refl | apply Hf].
Qed.

Lemma keeps_deref `{External} {A} cfg (o : option A) : respects (keeps_tickets cfg) (deref o).
Proof. destruct o; go_respects. Qed.

Lemma keeps_on_toa `{Unicode, JsonText, UrlLib, External} {A} cfg (m : M Toa A) :
  respects advances m -> respects (keeps_tickets cfg) (on_toa m).
Proof.
  intros Hm. eapply respects_zoom; [exact Hm|]. intros e s e' t' Ha _.
  split_and!; [by eapply advances_elapsed | by eapply frame_undisturbed, advances_frame | done].
Qed.

#[export] Hint Resolve http_Error_sessions http_Redirect_sessions rw_header_sessions setLoginCsrfCookie_sessions
  clearLoginCsrfCookie_sessions clearLegacy_sessions : toa.

(** Goes through a handler. *)
Ltac go_keeps :=
  unfold lift, internalError;
  repeat (intros; cbv beta zeta;
    lazymatch goal with
    | |- respects _ (mbind _ config) => apply keeps_config
    | |- respects _ (deref _) => apply keeps_deref
    | |- respects _ (on_toa _) => first [solve [eauto with respects] | apply keeps_on_toa]
    | |- respects _ (write _) => apply keeps_write
    | |- session_cookies _ _ = _ => solve [auto with toa]
    | |- _ => respects_step
    end).

(** The pointers the handlers dereference are set. *)
Definition complete (c : Config) : bool :=
  negb (is_none (Provider c)) && negb (is_none (SessionCookie c)) && negb (is_none (Authorization c))
  && match ErrorPages c with
     | Some pages => negb (is_none (ep_Unauthenticated pages)) && negb (is_none (ep_Unauthorized pages))
     | None => false
     end.

Definition ready (t : Toa) : bool := complete (t_Config t) && negb (is_none (t_DiscoveryDocument t)).

Lemma undisturbed_ready t t' : undisturbed t t' -> ready t' = ready t.
Proof. by intros (j & u & ->). Qed.

Lemma quiet_ready s s' (P : Prop) : quiet s s' -> (ready (s_toa s) = false -> P) -> ready (s_toa s') = false -> P.
Proof. intros [_ U] HP. by rewrite (undisturbed_ready _ _ U). Qed.

Lemma incomplete_provider c : Provider c = None -> complete c = false.
Proof. unfold complete. by intros ->. Qed.
Lemma incomplete_cookie c : SessionCookie c = None -> complete c = false.
Proof. unfold complete. intros ->. by rewrite andb_false_r. Qed.
Lemma incomplete_authorization c : Authorization c = None -> complete c = false.
Proof. unfold complete. intros ->. by rewrite andb_false_r. Qed.
Lemma incomplete_pages c : ErrorPages c = None -> complete c = false.
Proof. unfold complete. intros ->. by rewrite andb_false_r. Qed.
Lemma incomplete_unauthenticated c p :
  ErrorPages c = Some p -> ep_Unauthenticated p = None -> complete c = false.
Proof. unfold complete. intros -> ->. by rewrite andb_false_r. Qed.
Lemma incomplete_unauthorized c p :
  ErrorPages c = Some p -> ep_Unauthorized p = None -> complete c = false.
Proof. unfold complete. intros -> ->. by rewrite !andb_false_r. Qed.

Lemma not_ready t : complete (t_Config t) = false -> ready t = false.
Proof. unfold ready. by intros ->. Qed.
Lemma no_document t : t_DiscoveryDocument t = None -> ready t = false.
Proof. unfold ready. intros ->. apply andb_false_r. Qed.

#[export] Hint Resolve no_document incomplete_provider incomplete_cookie incomplete_authorization incomplete_pages
  incomplete_unauthenticated incomplete_unauthorized not_ready : toa.

(** The error pages keep them. *)
Section Pages.
Context `{External, Unicode, UrlLib, JsonText, MediaTypes, PageTemplates}.

Lemma WriteError_sessions cfg page req data w :
  session_cookies cfg (WriteError page req data w) = session_cookies cfg w.
Proof. unfold session_cookies. by rewrite WriteError_cookies. Qed.
#[local] Hint Resolve WriteError_sessions : toa.

Lemma writeUnauthorizedError_keeps cfg req : respects (keeps_tickets cfg) (writeUnauthorizedError req).
Proof. unfold writeUnauthorizedError. go_keeps. Qed.
End Pages.
#[export] Hint Resolve writeUnauthorizedError_keeps : respects.

Section Outcomes.
Context (P : Prop).
Implicit Types (e : Env) (s : St).

Lemma deref_ok {A} (o : option A) e s Q :
  (o = None -> P) -> (forall a, o = Some a -> Q a e s) -> outcome P (deref o) e s Q.
Proof. intros HP HQ. destruct o; simpl; m_step; auto. Qed.

(** Running a computation on the middleware: its provider configuration is
    there, and it leaves all but the keys alone. *)
Lemma on_toa_ok {A} (m : M Toa A) (R : A -> Env -> Toa -> Prop) e s :
  outcome P m e (s_toa s) R -> outcome P (on_toa m) e s (fun a e' s' => R a e' (s_toa s') /\ exists t', s' = set_toa t' s).
Proof.
  intros Hm. unfold on_toa. apply outcome_zoom. eapply outcome_weaken; [exact Hm|]. simpl. eauto.
Qed.

Context `{Unicode, UrlLib, JsonText, MediaTypes, PageTemplates}.

Lemma writeSuccessfulLogout_ok req e s :
  outcome P (writeSuccessfulLogout req) e s (fun _ _ s' => answers s s').
Proof. unfold writeSuccessfulLogout, config, write. m_steps. auto with toa. Qed.

Lemma writeUnauthenticatedError_ok req e s :
  (ready (s_toa s) = false -> P) ->
  outcome P (writeUnauthenticatedError req) e s (fun _ _ s' => answers s s').
Proof.
  intros HP. unfold writeUnauthenticatedError, config, write. m_steps. apply deref_ok; [eauto with toa|].
  intros pages Hp. m_steps. apply deref_ok; [eauto with toa|]. intros page _. m_steps. auto with toa.
Qed.

Lemma writeUnauthorizedError_ok req e s :
  (ready (s_toa s) = false -> P) ->
  outcome P (writeUnauthorizedError req) e s (fun _ _ s' => answers s s').
Proof.
  intros HP. unfold writeUnauthorizedError, config, write. m_steps. apply deref_ok; [eauto with toa|].
  intros pages Hp. m_steps. apply deref_ok; [eauto with toa|]. intros page _. m_steps. auto with toa.
Qed.
End Outcomes.

(** ** Properties *)

Lemma refresh_interval_bounds idle :
  0 < idle -> 1 <= refresh_interval idle <= 60 /\ (refresh_interval idle = 1 \/ 4 * refresh_interval idle <= idle).
Proof.
  intros Hi. unfold refresh_interval. rewrite Z.quot_div_nonneg by lia.
  pose proof (Z.div_mod idle 4 ltac:(lia)). pose proof (Z.mod_pos_bound idle 4 ltac:(lia)).
  destruct (Z.ltb_spec 60 (idle / 4)); simpl; [lia|]. destruct (Z.leb_spec (idle / 4) 0); lia.
Qed.

(** A ticket that is not rewritten is recent.  When the decision is not to
    store a session that has a ticket of its own, then nothing about it was
    renewed; with an idle bound, this process wrote its ticket less than a
    refresh interval ago, which is at most a minute and at most a quarter of
    the bound, or one second; and with a lifetime bound it has written it at
    some time, so the creation time is sealed. *)
Theorem not_stored_is_recent `{External} id upd e t :
  runs (sessionStoreDue id upd) e t (fun due _ t' =>
    t' = t /\
    (due = false -> pseudo_session id = false ->
     let idle := SessionIdleTimeoutSeconds (t_Config t) in
     upd = false
     /\ (0 < idle -> exists last, sw_last (t_sessionWrites t) !! id = Some last
          /\ clock (e_ticks e) - last < refresh_interval idle * Second
          /\ 1 <= refresh_interval idle <= 60
          /\ (refresh_interval idle = 1 \/ 4 * refresh_interval idle <= idle))
     /\ (0 < MaxSessionLifetimeSeconds (t_Config t) -> sw_last (t_sessionWrites t) !! id <> None))).
Proof.
  unfold sessionStoreDue, sessionIdleRefreshDue, sessionLifetimeStampDue, lastWrite.
  destruct (pseudo_session id) eqn:Ep.
  { wp; by split. }
  assert (Ee : String.eqb id "" = false) by (by apply orb_false_iff in Ep as [Ee _]).
  assert (Hstamp : (if MaxSessionLifetimeSeconds (t_Config t) <=? 0 then false
                    else is_none (sw_last (t_sessionWrites t) !! id)) = false ->
                   0 < MaxSessionLifetimeSeconds (t_Config t) -> sw_last (t_sessionWrites t) !! id <> None).
  { destruct (Z.leb_spec (MaxSessionLifetimeSeconds (t_Config t)) 0); [lia|].
    by destruct (sw_last (t_sessionWrites t) !! id). }
  wp; try (by split); (split; [done|]); intros Hd _; (split; [done|]).
  - split; [|by apply Hstamp]. rewrite Ee, orb_false_r in E0. apply Z.leb_le in E0. lia.
  - split; [|done]. intros Hi. exists t0. split; [done|].
    destruct (refresh_interval_bounds _ Hi) as [Hb Hq]. split; [|done].
    match goal with H : (_ <=? _) = false |- _ => apply Z.leb_gt in H; rename H into Hs end.
    rewrite seconds_no_overflow in Hs by (unfold seconds_ok; lia).
    unfold Since, Sub, sat64, int64_min, int64_max, Second in *. lia.
Qed.
