(* ===== verification/TicketRecord.v ===== *)
(** * The record of written tickets under concurrent requests: [src/main.go],
    lines 546 to 672, and its uses

    Requests of one session may run at the same time.  Each looks into the
    record whether a ticket has to be written again, writes one, and notes it.
    The methods of the record are sections of its mutex, but the look and the
    note are two sections, and between them other requests do the same.

    The notes ever made are kept beside the record, as the history that the
    theorems speak of; nothing reads it. *)

From Stdlib Require Import ZArith Lia Ascii String Bool List.
From stdpp Require Import relations.
From S2P Require Import Prelude GoStrings GoUrl Http World Concurrent Config SessionStorage Tokens Server.

(** ** The record and its history *)

(** A note: the session, the instant its ticket was sealed with, and the
    instant that was recorded. *)
Record note := { n_id : string; n_sealed : time; n_marked : time }.

Record desk := { d_tracker : sessionWriteTracker; d_notes : list note }.

Definition no_writes : sessionWriteTracker := {| sw_last := ∅; sw_count := 0 |}.

Definition mark_note (t : sessionWriteTracker) (n : note) : sessionWriteTracker :=
  mark_at (n_marked n) (n_id n) t.

(** The record after the notes, made one after the other. *)
Definition replay (ns : list note) : sessionWriteTracker := fold_left mark_note ns no_writes.

Definition put (n : note) (d : desk) : desk :=
  {| d_tracker := mark_note (d_tracker d) n; d_notes := d_notes d ++ [n] |}.

Definition empty_desk : desk := {| d_tracker := no_writes; d_notes := [] |}.

Lemma replay_snoc ns n : replay (ns ++ [n]) = mark_note (replay ns) n.
Proof. unfold replay. by rewrite fold_left_app. Qed.

(** *** What the record holds *)

Lemma mark_note_lookup t n id :
  sw_last (mark_note t n) !! id =
    if String.eqb id (n_id n) then Some (n_marked n)
    else if maxTrackedSessions <=? sw_count t then None else sw_last t !! id.
Proof.
  unfold mark_note, mark_at. destruct (String.eqb_spec id (n_id n)) as [->|Hne].
  - apply lookup_insert_eq.
  - cbn [sw_last]. rewrite lookup_insert_ne by done. by destruct (_ <=? _).
Qed.

Lemma mark_note_count t n :
  sw_count (mark_note t n) = if maxTrackedSessions <=? sw_count t then 1 else sw_count t + 1.
Proof. unfold mark_note, mark_at. by destruct (_ <=? _). Qed.

(** An entry of the record is a note of the history. *)
Lemma replay_noted ns id t :
  sw_last (replay ns) !! id = Some t -> exists n, n ∈ ns /\ n_id n = id /\ n_marked n = t.
Proof.
  induction ns as [|n ns IH] using rev_ind; [done|].
  rewrite replay_snoc, mark_note_lookup. destruct (String.eqb_spec id (n_id n)) as [->|].
  - intros [= <-]. exists n. split; [|done]. apply elem_of_app. right. by apply list_elem_of_singleton.
  - destruct (_ <=? _); [done|]. intros (m & Hm & ?)%IH. exists m. split; [|done]. apply elem_of_app. by left.
Qed.

(** The record counts notes, not sessions, and never passes its bound. *)
Lemma replay_bounded ns :
  Z.of_nat (size (sw_last (replay ns))) <= sw_count (replay ns)
  /\ 0 <= sw_count (replay ns) <= maxTrackedSessions
  /\ (ns <> [] -> 1 <= sw_count (replay ns)).
Proof.
  unfold maxTrackedSessions. induction ns as [|n ns (IH1 & IH2 & _)] using rev_ind.
  { change (replay []) with no_writes. cbn [sw_last sw_count no_writes]. rewrite map_size_empty.
    split_and!; [lia..|done]. }
  rewrite replay_snoc, mark_note_count. unfold maxTrackedSessions.
  assert (Z.of_nat (size (sw_last (mark_note (replay ns) n)))
          <= if 20000 <=? sw_count (replay ns) then 1 else sw_count (replay ns) + 1) as Hs.
  { unfold mark_note, mark_at, maxTrackedSessions. destruct (_ <=? _); cbn [sw_last].
    - rewrite insert_empty, map_size_singleton. lia.
    - rewrite map_size_insert. destruct (_ !! n_id n); cbn; lia. }
  destruct (Z.leb_spec 20000 (sw_count (replay ns))); split_and!; try done; lia.
Qed.

(** ** The requests as processes *)

(** A request with a session: its identity, whether the session was renewed,
    and whether its ticket can be sealed. *)
Record ticket_request := { tr_id : string; tr_updated : bool; tr_seals : bool }.

(** What becomes of the ticket.  [Kept] comes with the instant at which the
    decision read the clock, if it did. *)
Inductive verdict := Kept (read : option time) | Issued | Refused.

Definition lastWrite_p {A} (sessionId : string) (k : option time -> proc desk A) : proc desk A :=
  Guarded id (fun d => k (lastWrite (d_tracker d) sessionId)).

Definition mark_p {A} (sessionId : string) (sealed : time) (k : proc desk A) : proc desk A :=
  Acquire (Now (fun now =>
    Atomic (put {| n_id := sessionId; n_sealed := sealed; n_marked := now |}) (fun _ => Release k))).

Definition sessionIdleRefreshDue_p {A} (cfg : Config) (sessionId : string)
  (k : bool -> option time -> proc desk A) : proc desk A :=
  if pseudo_session sessionId then k false None
  else
    let idle := SessionIdleTimeoutSeconds cfg in
    if (idle <=? 0) || String.eqb sessionId "" then k false None
    else
      lastWrite_p sessionId (fun last =>
      match last with
      | None => k true None
      | Some last => Now (fun now => k (seconds (refresh_interval idle) <=? Since now last) (Some now))
      end).

Definition sessionLifetimeStampDue_p {A} (cfg : Config) (sessionId : string) (k : bool -> proc desk A)
  : proc desk A :=
  if MaxSessionLifetimeSeconds cfg <=? 0 then k false
  else if pseudo_session sessionId then k false
  else lastWrite_p sessionId (fun last => k (is_none last)).

Definition sessionStoreDue_p {A} (cfg : Config) (sessionId : string) (updatedSession : bool)
  (k : bool -> option time -> proc desk A) : proc desk A :=
  if updatedSession then k true None
  else
    sessionIdleRefreshDue_p cfg sessionId (fun idle read =>
    if idle then k true read
    else sessionLifetimeStampDue_p cfg sessionId (fun stamp => k stamp read)).

(** What follows the decision.  The instant that [StoreSession] seals into the
    ticket is read before the note is made. *)
Definition after_decision (r : ticket_request) (due : bool) (read : option time)
  : proc desk (ticket_request * verdict) :=
  if due then
    Now (fun sealed =>
      if tr_seals r then mark_p (tr_id r) sealed (Return (r, Issued)) else Return (r, Refused))
  else Return (r, Kept read).

(** The end of a request with a session. *)
Definition serve_ticket (cfg : Config) (r : ticket_request) : proc desk (ticket_request * verdict) :=
  sessionStoreDue_p cfg (tr_id r) (tr_updated r) (after_decision r).

(** *** By themselves they are the computations of [Server] *)

Section Alone.
Context `{External}.

Definition pair_up {A B} (x : option (A * Env * Toa)) (f : A -> B) (d : desk) : option (B * Env * desk) :=
  match x with
  | Some (a, e, t) =>
      Some (f a, e, {| d_tracker := t_sessionWrites t; d_notes := d_notes d |})
  | None => None
  end.

(** The decision, with whatever follows it. *)
Lemma sessionStoreDue_alone cfg sessionId updated e t d :
  t_Config t = cfg -> d_tracker d = t_sessionWrites t ->
  (fun x => (x.1.1.1, x.1.2, x.2)) <$> alone (sessionStoreDue_p cfg sessionId updated (fun due read => Return (due, read))) e d
  = pair_up (sessionStoreDue sessionId updated e t) id d.
Proof.
  intros <- Hd. destruct d as [w ns]. cbn in Hd. subst w.
  unfold sessionStoreDue_p, sessionStoreDue, sessionIdleRefreshDue_p, sessionIdleRefreshDue,
    sessionLifetimeStampDue_p, sessionLifetimeStampDue, lastWrite_p.
  destruct updated; [done|]. destruct (pseudo_session sessionId); run_alone.
  all: unfold gets; cbn.
  all: repeat (case_match; run_alone; cbn; try done).
Qed.

Lemma mark_alone sessionId sealed e t d :
  d_tracker d = t_sessionWrites t ->
  (fun x => (x.1.1, x.1.2, d_tracker x.2)) <$> alone (mark_p sessionId sealed (Return tt)) e d
  = (fun x => (x.1.1, x.1.2, t_sessionWrites x.2)) <$> mark sessionId e t.
Proof. intros Hd. destruct d as [w ns]. cbn in Hd. subst w. reflexivity. Qed.
End Alone.

(** ** What the requests owe each other *)

(** The record is the replay of the notes, and every note was made after its
    ticket was sealed. *)
Definition sound (d : desk) : Prop :=
  d_tracker d = replay (d_notes d) /\ Forall (fun n => n_sealed n <= n_marked n) (d_notes d).

(** A kept ticket is not older than the bounds allow for: something in the
    notes [ns] speaks for it. *)
Definition vouched (cfg : Config) (r : ticket_request) (read : option time) (ns : list note) : Prop :=
  tr_updated r = false /\
  (pseudo_session (tr_id r) = false ->
     (0 < SessionIdleTimeoutSeconds cfg ->
        exists n now, n ∈ ns /\ n_id n = tr_id r /\ n_sealed n <= n_marked n /\ read = Some now
          /\ now - n_marked n < refresh_interval (SessionIdleTimeoutSeconds cfg) * Second)
     /\ (0 < MaxSessionLifetimeSeconds cfg -> exists n, n ∈ ns /\ n_id n = tr_id r)).

(** A ticket is written again for a reason: the session was renewed, or at some
    point of the history the record did not hold the session, or held a note
    that was a refresh interval old. *)
Definition due_at (cfg : Config) (r : ticket_request) (ns : list note) : Prop :=
  tr_updated r = true
  \/ pseudo_session (tr_id r) = false
     /\ (sw_last (replay ns) !! tr_id r = None
         \/ exists last now, sw_last (replay ns) !! tr_id r = Some last
              /\ refresh_interval (SessionIdleTimeoutSeconds cfg) * Second <= now - last).

Definition due (cfg : Config) (r : ticket_request) (ns : list note) : Prop :=
  exists ns1 ns2, ns = ns1 ++ ns2 /\ due_at cfg r ns1.

Definition justified (cfg : Config) (a : ticket_request * verdict) (ns : list note) : Prop :=
  match a with
  | (r, Kept read) => vouched cfg r read ns
  | (r, Issued) => due cfg r ns /\ exists n, n ∈ ns /\ n_id n = tr_id r
  | (r, Refused) => due cfg r ns
  end.

Definition record_contract (cfg : Config) : contract desk (ticket_request * verdict) := {|
  G d d' := (exists ns, d_notes d' = d_notes d ++ ns) /\ (sound d -> sound d');
  Inv now d l := sound d;
  LogOk l := l = [];
  Post a d := justified cfg a (d_notes d);
  Crashes := False
|}.

Lemma vouched_app cfg r read ns ns' : vouched cfg r read ns -> vouched cfg r read (ns ++ ns').
Proof.
  intros [Hu Hv]. split; [done|]. intros Hp. destruct (Hv Hp) as [Hi Hm]. split.
  - intros Hpos. destruct (Hi Hpos) as (n & now & Hn & ?). exists n, now. split; [|done]. apply elem_of_app. by left.
  - intros Hpos. destruct (Hm Hpos) as (n & Hn & ?). exists n. split; [|done]. apply elem_of_app. by left.
Qed.

Lemma due_app cfg r ns ns' : due cfg r ns -> due cfg r (ns ++ ns').
Proof. intros (ns1 & ns2 & -> & Hd). exists ns1, (ns2 ++ ns'). by rewrite app_assoc. Qed.

Lemma justified_app cfg a ns ns' : justified cfg a ns -> justified cfg a (ns ++ ns').
Proof.
  destruct a as [r []]; cbn [justified]; [apply vouched_app | | apply due_app].
  intros [Hd (n & Hn & ?)]. split; [by apply due_app|]. exists n. split; [|done]. apply elem_of_app. by left.
Qed.

#[global] Instance record_contract_laws cfg : ContractLaws (record_contract cfg).
Proof.
  split; cbn; [|done|].
  - split.
    + intros d. split; [exists []; by rewrite app_nil_r | done].
    + intros d1 d2 d3 [[ns1 E1] H1] [[ns2 E2] H2]. split; [|auto].
      exists (ns1 ++ ns2). by rewrite E2, E1, app_assoc.
  - intros a d d' Ha [[ns ->] _]. by apply justified_app.
Qed.

(** *** The processes keep to the contract *)

Lemma put_sound now sealed sessionId d :
  sealed <= now -> sound d -> sound (put {| n_id := sessionId; n_sealed := sealed; n_marked := now |} d).
Proof.
  intros Hle [E Hf]. split; cbn [put d_tracker d_notes].
  - by rewrite replay_snoc, E.
  - apply Forall_app. split; [done|]. by constructor.
Qed.

Lemma mark_p_keeps cfg r sealed now d l :
  sealed <= now -> due cfg r (d_notes d) ->
  keeps_to (record_contract cfg) false (mark_p (tr_id r) sealed (Return (r, Issued))) now d l.
Proof.
  intros Hs Hd. unfold mark_p. cbn [keeps_to]. split; [done|].
  intros now1 d1 l1 [Ht [[ns E] _]] HI _. held now2. held now3.
  assert (due cfg r (d_notes d1)) as Hd1 by (rewrite E; by apply due_app).
  split.
  { split; [eexists; reflexivity | apply put_sound; lia]. }
  split; [done|]. held now4. split; [apply put_sound; [lia | exact HI]|]. split; [done|].
  cbn [justified Post record_contract put d_notes]. split; [by apply due_app|].
  eexists. split; [apply elem_of_app; right; by apply list_elem_of_singleton | done].
Qed.

(** Whoever decides to store does so, and whoever does not is vouched for. *)
Definition decided (cfg : Config) (r : ticket_request) (b : bool) (read : option time) (ns : list note) : Prop :=
  if b then due cfg r ns else vouched cfg r read ns.

Lemma after_decision_keeps cfg r b read now d l :
  decided cfg r b read (d_notes d) ->
  keeps_to (record_contract cfg) false (after_decision r b read) now d l.
Proof.
  intros Hd. destruct b; cbn [after_decision decided keeps_to] in *; [|by split].
  intros now1 d1 l1 [Ht [[ns E] _]].
  assert (due cfg r (d_notes d1)) as Hd1 by (rewrite E; by apply due_app).
  destruct (tr_seals r); [by apply mark_p_keeps | by split].
Qed.

(** A note that the record holds speaks for the session. *)
Lemma recorded_note d sessionId last :
  sound d -> lastWrite (d_tracker d) sessionId = Some last ->
  exists n, n ∈ d_notes d /\ n_id n = sessionId /\ n_marked n = last /\ n_sealed n <= n_marked n.
Proof.
  intros [E Hf] Hl. unfold lastWrite in Hl. rewrite E in Hl.
  apply replay_noted in Hl as (n & Hn & Hid & Hm). exists n. split_and!; try done.
  rewrite Forall_forall in Hf. by apply Hf.
Qed.

Lemma due_now cfg r d : sound d -> due_at cfg r (d_notes d) -> due cfg r (d_notes d).
Proof. intros _ Hd. exists (d_notes d), []. by rewrite app_nil_r. Qed.

(** The half of the decision about the lifetime, after the half about idling. *)
Lemma stamp_keeps cfg r read now d l :
  tr_updated r = false ->
  (pseudo_session (tr_id r) = false -> 0 < SessionIdleTimeoutSeconds cfg ->
     exists n now, n ∈ d_notes d /\ n_id n = tr_id r /\ n_sealed n <= n_marked n /\ read = Some now
       /\ now - n_marked n < refresh_interval (SessionIdleTimeoutSeconds cfg) * Second) ->
  keeps_to (record_contract cfg) false
    (sessionLifetimeStampDue_p cfg (tr_id r) (fun stamp => after_decision r stamp read)) now d l.
Proof.
  intros Hu Hi. unfold sessionLifetimeStampDue_p, lastWrite_p.
  destruct (Z.leb_spec (MaxSessionLifetimeSeconds cfg) 0) as [Hm|Hm].
  { apply after_decision_keeps. split; [done|]. intros Hp. split; [auto | lia]. }
  destruct (pseudo_session (tr_id r)) eqn:Ep.
  { apply after_decision_keeps. split; [done|]. by rewrite Ep. }
  cbn [keeps_to]. split; [done|]. intros now1 d1 l1 [Ht [[ns E] _]] HI. split; [done|].
  apply after_decision_keeps. unfold id. destruct (lastWrite (d_tracker d1) (tr_id r)) as [last|] eqn:El; cbn [is_none decided].
  - split; [done|]. intros _. split.
    + intros Hpos. destruct (Hi eq_refl Hpos) as (n & t & Hn & ?). exists n, t. split; [|done].
      rewrite E. apply elem_of_app. by left.
    + intros _. destruct (recorded_note _ _ _ HI El) as (n & Hn & Hid & _). by exists n.
  - apply due_now; [done|]. right. split; [done|]. left. destruct HI as [ER _]. unfold lastWrite in El. by rewrite <- ER.
Qed.

Lemma serve_ticket_keeps cfg r now d l :
  keeps_to (record_contract cfg) false (serve_ticket cfg r) now d l.
Proof.
  unfold serve_ticket, sessionStoreDue_p. destruct (tr_updated r) eqn:Eu.
  { apply after_decision_keeps. exists [], (d_notes d). split; [done|]. by left. }
  unfold sessionIdleRefreshDue_p, lastWrite_p.
  destruct (pseudo_session (tr_id r)) eqn:Ep; [by apply stamp_keeps; rewrite ?Ep|].
  destruct ((SessionIdleTimeoutSeconds cfg <=? 0) || String.eqb (tr_id r) "") eqn:Ei.
  { apply stamp_keeps; [done|]. intros _ Hpos. apply orb_false_iff in Ep as [Ep _]. rewrite Ep, orb_false_r in Ei.
    apply Z.leb_le in Ei. lia. }
  cbn [keeps_to]. split; [done|]. intros now1 d1 l1 _ HI. split; [done|]. unfold id.
  destruct (lastWrite (d_tracker d1) (tr_id r)) as [last|] eqn:El.
  - cbn [keeps_to]. intros now2 d2 l2 [Ht [[ns E] Hs]].
    apply orb_false_iff in Ei as [Ei _]. apply Z.leb_gt in Ei.
    destruct (refresh_interval_bounds _ Ei) as [Hb _].
    destruct (_ <=? Since now2 last) eqn:Ed.
    + apply after_decision_keeps. exists (d_notes d1), ns. split; [done|]. right. split; [done|]. right.
      exists last, now2. destruct HI as [ER _]. unfold lastWrite in El. rewrite <- ER. split; [done|].
      apply Z.leb_le in Ed. rewrite seconds_no_overflow in Ed by (unfold seconds_ok; lia).
      unfold Since, Sub, sat64, int64_min, int64_max, Second in *. lia.
    + apply stamp_keeps; [done|]. intros _ _. destruct (recorded_note _ _ _ HI El) as (n & Hn & Hid & Hm & Hse).
      exists n, now2. split_and!; try done; [rewrite E; apply elem_of_app; by left|].
      apply Z.leb_gt in Ed. rewrite seconds_no_overflow in Ed by (unfold seconds_ok; lia). subst last.
      unfold Since, Sub, sat64, int64_min, int64_max, Second in *. lia.
  - apply after_decision_keeps. apply due_now; [done|]. right. split; [done|]. left. destruct HI as [ER _].
    unfold lastWrite in El. by rewrite <- ER.
Qed.

(** ** Any number of requests at once *)

(** One process for each request, none begun, and nothing written yet. *)
Definition serving (cfg : Config) (t : time) (rs : list ticket_request)
  : threads desk (ticket_request * verdict) := fresh t empty_desk (map (serve_ticket cfg) rs).

Lemma empty_desk_sound : sound empty_desk.
Proof. by split. Qed.

Lemma serving_well_behaved cfg t rs : well_behaved (record_contract cfg) (serving cfg t rs).
Proof.
  apply fresh_well_behaved; [exact empty_desk_sound | done |].
  apply Forall_map, Forall_true. intros r. apply serve_ticket_keeps.
Qed.

Lemma serve_ticket_over cfg r : over_in (serve_ticket cfg r) 8.
Proof.
  assert (forall b read, over_in (after_decision r b read) 5) as Ha.
  { intros b read. destruct b; cbn [after_decision over_in]; [|done]. intros now.
    unfold mark_p. by case_match; cbn [over_in]. }
  assert (forall b read n, (5 <= n)%nat -> over_in (after_decision r b read) n) as Ha'.
  { intros b read n Hn. apply (over_in_mono _ 5); auto. }
  assert (forall read n, (6 <= n)%nat ->
    over_in (sessionLifetimeStampDue_p cfg (tr_id r) (fun stamp => after_decision r stamp read)) n) as Hs.
  { intros read n Hn. unfold sessionLifetimeStampDue_p, lastWrite_p.
    destruct (_ <=? 0); [apply Ha'; lia|]. destruct (pseudo_session _); [apply Ha'; lia|].
    destruct n as [|n]; [lia|]. cbn [over_in]. intros s. apply Ha'. lia. }
  unfold serve_ticket, sessionStoreDue_p, sessionIdleRefreshDue_p, lastWrite_p.
  destruct (tr_updated r); [apply Ha'; lia|]. destruct (pseudo_session _); [apply Hs; lia|].
  destruct (_ || _); [apply Hs; lia|]. cbn [over_in]. intros d.
  destruct (lastWrite _ _); [|apply Ha'; lia]. cbn [over_in]. intros now.
  destruct (_ <=? Since _ _); [apply Ha'; lia | apply Hs; lia].
Qed.

(** C13: the record under concurrency.  In every interleaving of the requests of
    any sessions the record is, at every moment, what the notes made so far
    leave when they are made one after the other; it holds no more sessions
    than it counts and never counts past its bound; every note is made after
    its ticket was sealed; and every schedule ends, after eight steps a request
    at most, with every request answered. *)
Theorem record_is_replayed cfg t rs c :
  rtc step (serving cfg t rs) c ->
  d_tracker (c_state c) = replay (d_notes (c_state c))
  /\ Z.of_nat (size (sw_last (d_tracker (c_state c)))) <= sw_count (d_tracker (c_state c)) <= maxTrackedSessions
  /\ Forall (fun n => n_sealed n <= n_marked n) (d_notes (c_state c))
  /\ (forall k c', nsteps step k (serving cfg t rs) c' -> (k <= 8 * length rs)%nat)
  /\ ((forall c', ~ step c c') -> Forall (fun p => exists a, p = Return a) (c_procs c)).
Proof.
  intros Hc. pose proof (serving_well_behaved cfg t rs) as Hw0.
  pose proof (steps_sound _ _ _ Hc Hw0) as Hw.
  destruct (steps_evolve _ _ _ Hc Hw0) as [_ Hs]. destruct (Hs empty_desk_sound) as [E Hf].
  assert (Forall (fun p => over_in p 8) (c_procs (serving cfg t rs))) as Ho.
  { apply Forall_map, Forall_true. intros r. apply serve_ticket_over. }
  destruct (well_behaved_finishes _ _ 8 Hw0 Ho) as [Hb Hfin].
  destruct (replay_bounded (d_notes (c_state c))) as (Hsize & Hcount & _). split_and!; try done.
  - rewrite E. lia.
  - rewrite E. lia.
  - intros k c' Hk. apply Hb in Hk. cbn in Hk. rewrite length_map in Hk. lia.
  - intros Hstuck. specialize (Hfin c Hc Hstuck). apply Forall_lookup_2. intros i p Hi.
    eapply (well_behaved_returned (record_contract cfg) c); [done | exact (fun no => no) | done|].
    by eapply Forall_lookup_1 in Hfin.
Qed.

(** C14: a session cannot go stale behind concurrent requests.  In every
    interleaving, a request that does not write its session's ticket was not
    renewed, and, where the session has a ticket of its own: with an idle
    bound, this process has sealed a ticket for the session and noted it less
    than a refresh interval before the request looked at the clock; with a
    lifetime bound, it has sealed a ticket for it.  A request that does write
    one had a reason to, and has left a note. *)
Theorem kept_tickets_are_vouched cfg t rs c i r v :
  rtc step (serving cfg t rs) c -> c_procs c !! i = Some (Return (r, v)) ->
  justified cfg (r, v) (d_notes (c_state c)).
Proof.
  intros Hc Hi. apply (well_behaved_result (record_contract cfg) c i (r, v)); [|done].
  exact (steps_sound _ _ _ Hc (serving_well_behaved cfg t rs)).
Qed.

(** *** The look and the note are two steps *)

Definition first_request (sessionId : string) : ticket_request :=
  {| tr_id := sessionId; tr_updated := false; tr_seals := true |}.

(** A session that the record does not hold is due. *)
Lemma unknown_session_due cfg sessionId t l ps1 ps2 :
  pseudo_session sessionId = false ->
  0 < SessionIdleTimeoutSeconds cfg \/ 0 < MaxSessionLifetimeSeconds cfg ->
  exists read,
  rtc step
    {| c_now := t; c_state := empty_desk; c_owner := None; c_log := l;
       c_procs := ps1 ++ serve_ticket cfg (first_request sessionId) :: ps2 |}
    {| c_now := t; c_state := empty_desk; c_owner := None; c_log := l;
       c_procs := ps1 ++ after_decision (first_request sessionId) true read :: ps2 |}.
Proof.
  intros Hp Hb. unfold serve_ticket, sessionStoreDue_p, sessionIdleRefreshDue_p, sessionLifetimeStampDue_p, lastWrite_p.
  cbn [tr_id tr_updated first_request]. rewrite Hp. exists None.
  assert (String.eqb sessionId "" = false) as He by (by apply orb_false_iff in Hp as [He _]). rewrite He, orb_false_r.
  destruct (Z.leb_spec (SessionIdleTimeoutSeconds cfg) 0).
  - destruct (Z.leb_spec (MaxSessionLifetimeSeconds cfg) 0); [lia|]. go t. reflexivity.
  - go t. reflexivity.
Qed.

(** What is due is written, and noted. *)
Lemma due_is_written r read d t l ps1 ps2 :
  tr_seals r = true ->
  rtc step
    {| c_now := t; c_state := d; c_owner := None; c_log := l;
       c_procs := ps1 ++ after_decision r true read :: ps2 |}
    {| c_now := t; c_state := put {| n_id := tr_id r; n_sealed := t; n_marked := t |} d; c_owner := None; c_log := l;
       c_procs := ps1 ++ Return (r, Issued) :: ps2 |}.
Proof.
  intros Hs. unfold after_decision, mark_p. go t. rewrite Hs. go t. go t. go t. go t. reflexivity.
Qed.

(** Every one of them looks before any of them notes. *)
Lemma all_decide cfg sessionId t :
  pseudo_session sessionId = false ->
  0 < SessionIdleTimeoutSeconds cfg \/ 0 < MaxSessionLifetimeSeconds cfg ->
  forall n ps1, exists ps,
  rtc step
    {| c_now := t; c_state := empty_desk; c_owner := None; c_log := [];
       c_procs := ps1 ++ replicate n (serve_ticket cfg (first_request sessionId)) |}
    {| c_now := t; c_state := empty_desk; c_owner := None; c_log := []; c_procs := ps1 ++ ps |}
  /\ Forall2 (fun p _ => exists read, p = after_decision (first_request sessionId) true read)
       ps (replicate n ()).
Proof.
  intros Hp Hb. induction n as [|n IH]; intros ps1; [exists []; by split; [|constructor]|].
  destruct (unknown_session_due cfg sessionId t [] ps1
              (replicate n (serve_ticket cfg (first_request sessionId))) Hp Hb) as [read Hr].
  destruct (IH (ps1 ++ [after_decision (first_request sessionId) true read])) as (ps & Hps & Hd).
  exists (after_decision (first_request sessionId) true read :: ps). split; [|by constructor; eauto].
  etrans; [exact Hr|]. by rewrite <- !app_assoc in Hps.
Qed.

Lemma all_write sessionId t : forall ps d ps1 {n},
  Forall2 (fun p _ => exists read, p = after_decision (first_request sessionId) true read)
    ps (replicate n ()) ->
  exists d',
  rtc step
    {| c_now := t; c_state := d; c_owner := None; c_log := []; c_procs := ps1 ++ ps |}
    {| c_now := t; c_state := d'; c_owner := None; c_log := [];
       c_procs := ps1 ++ replicate (length ps) (Return (first_request sessionId, Issued)) |}
  /\ length (d_notes d') = (length (d_notes d) + length ps)%nat
  /\ (Forall (fun m => n_id m = sessionId) (d_notes d) -> Forall (fun m => n_id m = sessionId) (d_notes d')).
Proof.
  induction ps as [|p ps IH]; intros d ps1 n Hd.
  { exists d. split_and!; [done | simpl; lia | done]. }
  destruct n as [|n]; [by inversion Hd|]. apply Forall2_cons in Hd as [[read ->] Hd].
  set (d1 := put {| n_id := sessionId; n_sealed := t; n_marked := t |} d).
  destruct (IH d1 (ps1 ++ [Return (first_request sessionId, Issued)]) n Hd) as (d' & Hs & Hl & Hf).
  exists d'. split_and!.
  - etrans; [by apply (due_is_written (first_request sessionId))|]. by rewrite <- !app_assoc in Hs.
  - rewrite Hl. unfold d1, put. cbn [d_notes]. rewrite length_app. simpl. lia.
  - intros Hids. apply Hf. unfold d1, put. cbn [d_notes]. apply Forall_app. split; [done|]. by constructor.
Qed.

(** C40: the first requests of a session all write its ticket.  The comment on the
    lifetime stamp says that it fires at most once per session and process;
    but for every [n] there is an interleaving of [n] requests of one session
    that this process has not written for, in which none sees the note of
    another and all [n] write a ticket, although the session was not renewed. *)
Theorem first_requests_all_write cfg sessionId t n :
  pseudo_session sessionId = false ->
  0 < SessionIdleTimeoutSeconds cfg \/ 0 < MaxSessionLifetimeSeconds cfg ->
  exists c, rtc step (serving cfg t (replicate n (first_request sessionId))) c
    /\ c_procs c = replicate n (Return (first_request sessionId, Issued))
    /\ length (d_notes (c_state c)) = n
    /\ Forall (fun m => n_id m = sessionId) (d_notes (c_state c)).
Proof.
  intros Hp Hb. set (r := first_request sessionId). unfold serving, fresh. rewrite fmap_replicate.
  destruct (all_decide cfg sessionId t Hp Hb n []) as (ps & Hps & Hd).
  destruct (all_write sessionId t ps empty_desk [] Hd) as (d & Hw & Hlen & Hid).
  exists {| c_now := t; c_state := d; c_owner := None; c_log := [];
            c_procs := replicate (length ps) (Return (r, Issued)) |}.
  pose proof (Forall2_length _ _ _ Hd) as Hl. rewrite length_replicate in Hl.
  cbn [c_procs c_state]. rewrite Hl in *. split_and!; [by etrans; [exact Hps | exact Hw] | done | exact Hlen |].
  by apply Hid.
Qed.
