(* ===== verification/TemplateFuncs.v ===== *)
(** * The functions of header templates: [headerTemplateFuncs] of [src/main.go]

    [withPrefix], [withSuffix] and [mapToJsonArray], on the values a template
    passes them: claims, and the lists of strings they return themselves.  What
    [attachHeaders] makes of a rendered array is decided by the JSON text of
    [JsonSyntax]. *)

From Stdlib Require Import ZArith Lia Ascii String Bool List.
From S2P Require Import Prelude GoStrings Json JsonSyntax Http Config Authorization Server.

(** ** [template.JSEscape] of [text/template] *)

(** [unicode.IsPrint] *)
Class Printable := { IsPrint : Z -> bool }.

(** The rune at the head of a text; an invalid byte is U+FFFD. *)
Definition first_rune (s : string) : Z :=
  let byte i := match String.get i s with Some c => code c | None => 0 end in
  match rune_size s with
  | 1%nat => byte 0%nat
  | 2%nat => (byte 0%nat - 192) * 64 + (byte 1%nat - 128)
  | 3%nat => (byte 0%nat - 224) * 4096 + (byte 1%nat - 128) * 64 + (byte 2%nat - 128)
  | 4%nat => (byte 0%nat - 240) * 262144 + (byte 1%nat - 128) * 4096
             + (byte 2%nat - 128) * 64 + (byte 3%nat - 128)
  | _ => 65533
  end.

Definition HEX_digit (z : Z) : ascii := if z <? 10 then chr (48 + z) else chr (55 + z).

Fixpoint HEX_digits (n : nat) (r : Z) (acc : string) : string :=
  match n with
  | O => acc
  | S n => HEX_digits n (r / 16) (String (HEX_digit (r mod 16)) acc)
  end.

(** [fmt.Fprintf(w, "\\u%04X", r)]: four digits, or as many as it takes. *)
Definition u_escape (r : Z) : string :=
  "\u" +:+ HEX_digits (if r <? 65536 then 4 else if r <? 1048576 then 5 else 6) r "".

Definition jsIsSpecial (c : ascii) : bool :=
  is_char 92 c || is_char 39 c || is_char 34 c || is_char 60 c || is_char 62 c || is_char 38 c
  || is_char 61 c || (code c <? 32).

Definition js_char (c : ascii) : string :=
  if is_char 92 c then "\\"
  else if is_char 39 c then "\'"
  else if is_char 34 c then String (chr 92) (String quote_char "")
  else if jsIsSpecial c
  then "\u00" +:+ String (HEX_digit (code c / 16)) (String (HEX_digit (code c mod 16)) "")
  else String c "".

Section Escape.
Context `{Printable}.

(** [left] bytes remain of a rune that is written as it is, or was replaced. *)
Fixpoint JSEscape (keep : bool) (left : nat) (s : string) : string :=
  match s with
  | EmptyString => ""
  | String c s' =>
      match left with
      | S k => if keep then String c (JSEscape keep k s') else JSEscape keep k s'
      | O =>
          if code c <? 128 then js_char c +:+ JSEscape true 0 s'
          else if IsPrint (first_rune s) then String c (JSEscape true (pred (rune_size s)) s')
          else u_escape (first_rune s) +:+ JSEscape false (pred (rune_size s)) s'
      end
  end.
End Escape.

(** ** Values of a template *)

(** A claim, or a [[]string]. *)
Inductive tvalue := VClaim (j : json) | VStrings (l : list string).

Section Funcs.
Context `{FloatText, Printable}.

(** [fmt.Sprint] of the elements, when [reflect] sees an array or a slice. *)
Definition elements_text (v : tvalue) : option (list string) :=
  match v with
  | VClaim (JArr l) => Some (map sprint l)
  | VStrings l => Some l
  | VClaim _ => None
  end.

(** [fmt.Sprint(valueOf)] of another value; [nil] has no [reflect.Value]. *)
Definition value_text (v : tvalue) : string :=
  match v with
  | VClaim JNull => "<invalid reflect.Value>"
  | VClaim j => sprint j
  | VStrings l => "[" +:+ Join l " " +:+ "]"
  end.

(** [format] is given the value and the affix, in this order. *)
Definition withSuffixPrefix (suffixPrefix : string) (values : tvalue) (format : string -> string -> string)
  : tvalue :=
  match elements_text values with
  | Some l => VStrings (map (fun x => format x suffixPrefix) l)
  | None => VClaim (JStr (format (value_text values) suffixPrefix))
  end.

Definition withPrefix (prefix : string) (values : tvalue) : tvalue :=
  withSuffixPrefix prefix values (fun v p => p +:+ v).

Definition withSuffix (suffix : string) (values : tvalue) : tvalue :=
  withSuffixPrefix suffix values (fun v s => v +:+ s).

Definition js_quoted (s : string) : string :=
  String quote_char (JSEscape true 0 s +:+ String quote_char "").

(** The loop over the elements, from the index [i]. *)
Fixpoint array_loop (i : nat) (l : list string) : string :=
  match l with
  | [] => ""
  | x :: rest => (if (0 <? i)%nat then "," else "") +:+ js_quoted x +:+ array_loop (S i) rest
  end.

Definition mapToJsonArray (values : tvalue) : string :=
  "[" +:+ match elements_text values with
          | Some l => array_loop 0 l
          | None => js_quoted (value_text values)
          end +:+ "]".

(** A list of one element is written like the element alone. *)
Lemma mapToJsonArray_texts v :
  mapToJsonArray v = "[" +:+ array_loop 0 (default [value_text v] (elements_text v)) +:+ "]".
Proof. unfold mapToJsonArray. destruct (elements_text v) as [l|]; cbn; by rewrite ?sapp_nil_r. Qed.

(** ** Reading the array back *)

Definition apostrophe : ascii := chr 39.

Lemma ascii_code c : is_ascii c = true -> code c <? 128 = true.
Proof. by destruct c as [[] [] [] [] [] [] [] []]. Qed.

Lemma js_char_scan c t :
  code c <? 128 = true -> c <> apostrophe ->
  scan_string (js_char c +:+ t) = push (String c "") (scan_string t).
Proof.
  intros Hc Hne. unfold js_char.
  destruct c as [[] [] [] [] [] [] [] []]; try discriminate Hc; try reflexivity; try (by destruct Hne);
    lazymatch goal with
    | |- context [is_char 92 ?x] =>
        exact (scan_unicode "0" "0" (HEX_digit (code x / 16)) (HEX_digit (code x mod 16)) (code x) t
                 eq_refl eq_refl)
    end.
Qed.
Lemma scan_js s rest :
  sforall is_ascii s = true -> byte_in apostrophe s = false ->
  scan_string (JSEscape true 0 s +:+ String quote_char rest) = Ok (s, rest).
Proof.
  induction s as [|c s IH]; [done|]. cbn [sforall byte_in JSEscape].
  intros [Hc Hs]%andb_true_iff [Ha Hn]%orb_false_iff. apply ascii_code in Hc. rewrite Hc, sapp_assoc.
  rewrite js_char_scan; [by rewrite IH | done |]. by apply Ascii.eqb_neq in Ha.
Qed.

Definition bad_escape : error := ErrText "invalid character in string escape code".

Lemma scan_js_apostrophe s rest :
  sforall is_ascii s = true -> byte_in apostrophe s = true ->
  scan_string (JSEscape true 0 s +:+ rest) = Err bad_escape.
Proof.
  induction s as [|c s IH]; [done|]. cbn [sforall byte_in JSEscape].
  intros [Hc Hs]%andb_true_iff Hin. apply ascii_code in Hc. rewrite Hc, sapp_assoc.
  destruct (Ascii.eqb_spec c apostrophe) as [->|Hne]; [done|].
  apply orb_true_iff in Hin as [Hin%Ascii.eqb_eq|Hin]; [done|].
  rewrite js_char_scan by done. by rewrite IH.
Qed.

Lemma js_quoted_reads s :
  sforall is_ascii s = true -> byte_in apostrophe s = false -> reads (js_quoted s) (JStr s).
Proof.
  intros Hs Ha rest [|fuel] Hr Hf; [lia|]. unfold js_quoted. cbn [String.append value]. rewrite sapp_assoc.
  cbn [String.append]. known_bytes. rewrite scan_js by done. cbn [rbind].
  by rewrite coerce_valid by by apply valid_utf8_ascii.
Qed.

Lemma js_quoted_refused s :
  sforall is_ascii s = true -> byte_in apostrophe s = true -> refused (js_quoted s) bad_escape.
Proof.
  intros Hs Ha rest fuel. unfold js_quoted. cbn [String.append value]. rewrite sapp_assoc. known_bytes.
  by rewrite scan_js_apostrophe.
Qed.

Lemma array_loop_Join i l :
  array_loop i l = (match l with [] => "" | _ => if (0 <? i)%nat then "," else "" end)
                   +:+ Join (map js_quoted l) ",".
Proof.
  revert i. induction l as [|x l IH]; intros i; [done|]. cbn [array_loop map]. rewrite IH.
  destruct l; cbn [map Join]; destruct (0 <? i)%nat; cbn; by rewrite ?sapp_nil_r.
Qed.

Lemma js_quoted_opens x l rest : opens (Join (map js_quoted (x :: l)) "," +:+ rest).
Proof. cbn [map]. apply Join_opens. by eexists _, _. Qed.

(** The first text with an apostrophe, if there is one. *)
Lemma split_apostrophe (l : list string) :
  Forall (fun s => byte_in apostrophe s = false) l
  \/ exists good bad more, l = good ++ bad :: more
       /\ Forall (fun s => byte_in apostrophe s = false) good /\ byte_in apostrophe bad = true.
Proof.
  induction l as [|x l [IH|(good & bad & more & -> & Hg & Hb)]]; [by left| |].
  - destruct (byte_in apostrophe x) eqn:Hx; [right; by exists [], x, l | left; by constructor].
  - right. destruct (byte_in apostrophe x) eqn:Hx; [by exists [], x, (good ++ bad :: more)|].
    exists (x :: good), bad, more. split_and!; [done | by constructor | done].
Qed.

Abbreviation joined l := (Join (map js_quoted l) ",").

Lemma good_array_reads l rest fuel :
  l <> [] -> Forall (fun s => sforall is_ascii s = true) l ->
  Forall (fun s => byte_in apostrophe s = false) l -> (2 * slen (joined l) + 1 < fuel)%nat ->
  elements fuel (joined l +:+ "]" +:+ rest) = Ok (map JStr l, rest).
Proof.
  intros Hne Ha Hn Hf.
  pose proof (elements_read_back (map (fun s => (js_quoted s, JStr s)) l) rest fuel) as He.
  rewrite !map_map in He. apply He; [by destruct l | | done].
  apply Forall_map. rewrite Forall_forall in Ha, Hn. apply Forall_forall. intros s Hs.
  apply js_quoted_reads; auto.
Qed.

Lemma bad_array_refused good bad more rest fuel :
  Forall (fun s => sforall is_ascii s = true) (good ++ bad :: more) ->
  Forall (fun s => byte_in apostrophe s = false) good -> byte_in apostrophe bad = true ->
  (2 * slen (joined (good ++ bad :: more)) + 1 < fuel)%nat ->
  elements fuel (joined (good ++ bad :: more) +:+ rest) = Err bad_escape.
Proof.
  intros [Ha [Hb _]%Forall_cons]%Forall_app Hn Hbad Hf. rewrite map_app in *. cbn [map] in *.
  pose proof (elements_refused (map (fun s => (js_quoted s, JStr s)) good) (js_quoted bad) bad_escape
                (map js_quoted more) rest fuel) as He.
  rewrite !map_map in He. apply He; [| by apply js_quoted_refused | done].
  apply Forall_map. rewrite Forall_forall in Ha, Hn. apply Forall_forall. intros s Hs.
  apply js_quoted_reads; auto.
Qed.

Lemma string_items l : map string_item (map JStr l) = l.
Proof. rewrite map_map. apply map_id. Qed.

Lemma all_stringy l : forallb stringy (map JStr l) = true.
Proof. by induction l. Qed.

Lemma array_unmarshalled v :
  let texts := default [value_text v] (elements_text v) in
  Forall (fun s => sforall is_ascii s = true) texts ->
  @unmarshal_strings go_json (mapToJsonArray v)
  = if existsb (byte_in apostrophe) texts then ([], Some bad_escape) else (texts, None).
Proof.
  intros texts Hascii. rewrite mapToJsonArray_texts. fold texts. clearbody texts. rewrite array_loop_Join.
  assert (match texts with [] => "" | _ => if (0 <? 0)%nat then "," else "" end = "") as ->
    by by destruct texts.
  unfold unmarshal_strings. cbn [json_parse go_json]. unfold json_text_parse, first_value.
  destruct (decide (texts = [])) as [->|Hne]; [done|].
  rewrite sapp_assoc, !slen_app, Nat.add_1_r. change (slen "[") with 1%nat. change (slen "]") with 1%nat.
  change ("" +:+ joined texts +:+ "]") with (joined texts +:+ "]").
  rewrite value_array by (destruct texts; [done | apply js_quoted_opens]).
  destruct (split_apostrophe texts) as [Hgood|(good & bad & more & Et & Hgood & Hbad)].
  - replace (existsb (byte_in apostrophe) texts) with false.
    2: { symmetry. apply not_true_iff_false. intros (s & Hs & Ha)%existsb_exists.
         rewrite Forall_forall in Hgood. rewrite (Hgood s) in Ha; [done | by apply list_elem_of_In]. }
    rewrite <- (sapp_nil_r "]"), good_array_reads by (done || lia). cbn [rbind skip_space].
    cbn -[forallb]. by rewrite string_items, all_stringy.
  - replace (existsb (byte_in apostrophe) texts) with true.
    2: { symmetry. apply existsb_exists. exists bad. split; [|done]. rewrite Et. apply in_app_iff. right. by left. }
    rewrite Et in *. by rewrite bad_array_refused by (done || lia).
Qed.

(** C31: the array that [mapToJsonArray] writes is read back by [json.Unmarshal]
    as the texts it was given, in order, when they are ASCII and have no
    apostrophe.  A text with an apostrophe, wherever it is in the list, makes
    the whole array unreadable: it is escaped as in JavaScript, which JSON does
    not have; and a header whose values are such an array is taken off the
    request. *)
Theorem mapToJsonArray_unmarshal `{HeaderTemplates} v ev hd tpl h :
  let texts := default [value_text v] (elements_text v) in
  Forall (fun s => sforall is_ascii s = true) texts ->
  h_Value hd = "" -> h_Values hd <> "" -> header_template hd (h_Values hd) = Ok tpl ->
  tpl_Execute tpl ev = (mapToJsonArray v, None) ->
  if existsb (byte_in apostrophe) texts
  then @unmarshal_strings go_json (mapToJsonArray v) = ([], Some bad_escape)
       /\ exists h', @attach_one go_json _ ev hd h = Ok h' /\ h' !! CanonicalMIMEHeaderKey (h_Name hd) = None
  else @unmarshal_strings go_json (mapToJsonArray v) = (texts, None)
       /\ @attach_one go_json _ ev hd h = Ok (attach_values (h_Name hd) texts h).
Proof.
  intros texts Ha Hv Hvs Ht Hx. pose proof (array_unmarshalled v Ha) as Hu. fold texts in Hu.
  assert (@attach_one go_json _ ev hd h
          = let '(values, err) := @unmarshal_strings go_json (mapToJsonArray v) in
            Ok (attach_values (h_Name hd) values (set_error (h_Name hd) err h))) as Hone.
  { unfold attach_one. apply String.eqb_neq in Hvs. rewrite Hv, Hvs, Ht. cbn [negb String.eqb rbind].
    rewrite Hx. by destruct (unmarshal_strings _). }
  rewrite Hone, Hu. destruct (existsb (byte_in apostrophe) texts); [|done]. split; [done|].
  eexists. split; [done|]. cbn. unfold header_Del. by rewrite lookup_delete_eq.
Qed.
End Funcs.
