(* ===== verification/Login.v ===== *)
(** * Starting a login: [src/main.go], lines 1305 to 1561

    The target of a login, the authorisation request with its state, CSRF
    cookie, nonce and PKCE challenge, and the detour over the callback host
    when the callback URL is on another one. *)

From Stdlib Require Import ZArith Lia Ascii String Bool List.
From S2P Require Import Prelude GoStrings Base64 GoUrl Json Http Utils World RedirectUri Config ErrorPages.
From S2P Require Import OidcState Cookies Tokens Routes Server.

(** [sha256.New().Sum] of a string. *)
Class Sha256 := { sha256_Sum : string -> string }.

Definition reservedAuthorizationParams : list string := [
  "response_type"; "client_id"; "redirect_uri"; "state"; "scope"; "resource"; "code_challenge";
  "code_challenge_method"; "nonce" ].

Definition isOverridableParam (cfg : Config) (key : string) : bool :=
  existsb (fun allowed => String.eqb allowed key) (AuthorizationParamsOverridable cfg).

(** One configured parameter. *)
Definition apply_param (cfg : Config) (req : Request) (key value : string) (v : values) : values :=
  if slice_contains reservedAuthorizationParams key then v
  else
    let override := req_query req key in
    let value := if negb (String.eqb override "") && isOverridableParam cfg key then override else value in
    values_Set v key value.

(** The order in which Go visits the map does not matter: the keys differ. *)
Definition applyAuthorizationParamOverrides (cfg : Config) (req : Request) (urlValues : values) : values :=
  let urlValues := map_fold (apply_param cfg req) urlValues (AuthorizationParams cfg) in
  if isOverridableParam cfg "prompt" then
    let prompt := req_query req "prompt" in
    if negb (String.eqb prompt "") then values_Set urlValues "prompt" prompt else urlValues
  else urlValues.

(** The parameters of a double redirect: only the overrides. *)
Definition override_param (cfg : Config) (req : Request) (key value : string) (v : values) : values :=
  if slice_contains reservedAuthorizationParams key then v
  else if negb (isOverridableParam cfg key) then v
  else
    let override := req_query req key in
    if negb (String.eqb override "") then values_Add v key override else v.

Definition set_challenge_params (add : values -> string -> string -> values) (cfg : Config)
  (isChallenge : bool) (v : values) : values :=
  fold_left (fun v kv => add v kv.1 kv.2) (authParamsForChallenge cfg isChallenge) v.

Definition double_redirect_params (cfg : Config) (req : Request) (isChallenge : bool) (stateBase64 : string)
  : values :=
  let urlValues := map_fold (override_param cfg req) {["state" := [stateBase64]]} (AuthorizationParams cfg) in
  let urlValues :=
    if isOverridableParam cfg "prompt" then
      let prompt := req_query req "prompt" in
      if negb (String.eqb prompt "") then values_Add urlValues "prompt" prompt else urlValues
    else urlValues in
  set_challenge_params values_Add cfg isChallenge urlValues.

(** [&oidc.OidcState{Action: ..., RedirectUrl: ...}] *)
Definition new_state (action redirectUrl : string) (isChallenge : bool) : OidcState :=
  set_IsChallenge isChallenge (set_RedirectUrl redirectUrl (set_Action action zero_state)).

Section Login.
Context `{Unicode, JsonText, TimeText, UrlLib, External, Aead, Sha256, AuthorityRegexp}.

Definition callback_url (req : Request) : M St string :=
  t ← gets s_toa; mret (url_String (GetAbsoluteCallbackURL t req)).

(** [oidc.SealState]: its clock reading and its nonce. *)
Definition seal_state (state : OidcState) : M St (result string) :=
  c ← config;
  now ← time_Now;
  rnd ← rand_Read NonceSize;
  mret (SealState now rnd (Some state) (Secret c)).

Definition unavailable : M St unit := internalError "Authentication is temporarily unavailable".

(** The PKCE part of [redirectToProvider]: the challenge parameters, and the
    state with the encrypted verifier. *)
Definition add_pkce (req : Request) (urlValues : values) (state : OidcState)
  : M St (result (values * OidcState)) :=
  c ← config;
  let! codeVerifier := on_toa (randomBytesInHex 32) in
  let codeChallenge := EncodeToString RawURLEncoding (sha256_Sum codeVerifier) in
  let urlValues := values_Set urlValues "code_challenge_method" "S256" in
  let urlValues := values_Set urlValues "code_challenge" codeChallenge in
  rnd ← rand_Read NonceSize;
  let! encryptedCodeVerifier := lift (Encrypt rnd codeVerifier (Secret c)) in
  let state := set_CodeVerifierEnc encryptedCodeVerifier state in
  now ← time_Now;
  t ← gets s_toa;
  _ ← write (fun rw => clearLegacyCodeVerifierCookies c now rw req (Some (t_CallbackURL t)));
  lift (Ok (urlValues, state)).

(** The parameters that are there before the configured ones. *)
Definition base_params (cfg : Config) (clientId callbackUrl : string) : values :=
  <["response_type" := ["code"]]> (<["scope" := [Join (Scopes cfg) " "]]>
    (<["client_id" := [clientId]]> (<["redirect_uri" := [callbackUrl]]>
      {["resource" := RequestedResources cfg]}))).

Definition redirectToProvider (req : Request) (redirectUrl : string) (isChallenge : bool) : M St unit :=
  c ← config;
  p ← on_toa provider;
  callbackUrl ← callback_url req;
  let state := new_state "Login" redirectUrl isChallenge in
  csrf ← on_toa (randomBytesInHex 16);
  match csrf with
  | Err _ => unavailable
  | Ok csrf =>
      let state := set_Csrf csrf state in
      t ← gets s_toa;
      _ ← write (fun rw => setLoginCsrfCookie c rw (Some (t_CallbackURL t)) csrf);
      nonce ← on_toa (randomBytesInHex 16);
      match nonce with
      | Err _ => unavailable
      | Ok nonce =>
          let state := set_Nonce nonce state in
          doc ← deref (t_DiscoveryDocument t);
          match url_Parse (dd_AuthorizationEndpoint doc) with
          | Err _ => unavailable
          | Ok authorizationEndpointUrl =>
              let urlValues := base_params c (pv_ClientId p) callbackUrl in
              let urlValues := applyAuthorizationParamOverrides c req urlValues in
              let urlValues := set_challenge_params values_Set c isChallenge urlValues in
              let urlValues := values_Set urlValues "nonce" nonce in
              r ← (if pv_UsePkceBool p then add_pkce req urlValues state
                   else lift (Ok (urlValues, state)));
              match r with
              | Err _ => unavailable
              | Ok (urlValues, state) =>
                  sealed ← seal_state state;
                  match sealed with
                  | Err _ => unavailable
                  | Ok stateBase64 =>
                      let urlValues := values_Set urlValues "state" stateBase64 in
                      let u := with_RawQuery (values_Encode urlValues) authorizationEndpointUrl in
                      write (http_Redirect req (url_String u) StatusFound)
                  end
              end
          end
      end
  end.

(** The URL that is assigned to is the middleware's own when that is absolute. *)
Definition doubleRedirectToProvider (req : Request) (redirectUrl : string) (isChallenge : bool)
  : M St unit :=
  c ← config;
  t ← gets s_toa;
  let callbackUrl := GetAbsoluteCallbackURL t req in
  let state := new_state "RedirectThenLogin" redirectUrl isChallenge in
  sealed ← seal_state state;
  match sealed with
  | Err _ => unavailable
  | Ok stateBase64 =>
      let urlValues := double_redirect_params c req isChallenge stateBase64 in
      let callbackUrl := with_RawQuery (values_Encode urlValues) callbackUrl in
      _ ← (if own_callback t then on_toa (modify (set_CallbackURL callbackUrl)) else mret tt);
      write (http_Redirect req (url_String callbackUrl) StatusFound)
  end.

Definition needsDoubleRedirect (t : Toa) (p : ProviderConfig) (req : Request) : bool :=
  if pv_UsePkceBool p then
    let host := fullHost (t_Config t) req in
    let callbackUrl := url_String (GetAbsoluteCallbackURL t req) in
    negb (HasPrefix callbackUrl host)
  else false.

(** Where a login leads, when nothing overrides it. *)
Definition login_target (cfg : Config) (req : Request) (wildcards : bool) : result string :=
  let? redirectUriFromQuery :=
    ValidateRedirectUri (req_query req "redirect_uri") (ValidPostLoginRedirectUris cfg) wildcards in
  let isLoginRequest := pathMatchesConfiguredRoute req (LoginUri cfg) in
  if isLoginRequest && negb (String.eqb redirectUriFromQuery "") then Ok redirectUriFromQuery
  else if negb (String.eqb (PostLoginRedirectUri cfg) "")
  then Ok (ensureAbsoluteUrl cfg req (PostLoginRedirectUri cfg))
  else
    let host := fullHost cfg req in
    if isLoginRequest then Ok host else Ok (host +:+ url_RequestURI (r_URL req)).

Definition handleLogin (req : Request) (isChallenge : bool) (redirectUrlOverride : string) : M St unit :=
  t ← gets s_toa;
  match (if negb (String.eqb redirectUrlOverride "") then Ok redirectUrlOverride
         else login_target (t_Config t) req (t_RedirectUriWildcardsEnabled t)) with
  | Err _ => write (http_Error "Invalid redirect" StatusBadRequest)
  | Ok redirectUrl =>
      p ← on_toa provider;
      if needsDoubleRedirect t p req
      then doubleRedirectToProvider req redirectUrl isChallenge
      else redirectToProvider req redirectUrl isChallenge
  end.
End Login.

(** ** Outcomes *)

(** Starting a login sets no session cookie. *)
Section Keeps.
Context `{Unicode, JsonText, TimeText, UrlLib, External, Aead, Sha256, AuthorityRegexp}.
Context (cfg : Config).

Lemma randomBytesInHex_advances n : respects advances (randomBytesInHex n).
Proof. unfold randomBytesInHex. go_respects. Qed.
#[local] Hint Resolve randomBytesInHex_advances : respects.

Lemma seal_state_keeps st : respects (keeps_tickets cfg) (seal_state st).
Proof. unfold seal_state. go_keeps. Qed.

Lemma callback_url_keeps req : respects (keeps_tickets cfg) (callback_url req).
Proof. unfold callback_url. go_keeps. Qed.
#[local] Hint Resolve seal_state_keeps callback_url_keeps : respects.
#[local] Opaque seal_state callback_url.

Lemma add_pkce_keeps req v st : respects (keeps_tickets cfg) (add_pkce req v st).
Proof. unfold add_pkce. go_keeps. Qed.
#[local] Hint Resolve add_pkce_keeps : respects.
#[local] Opaque add_pkce.

Lemma redirectToProvider_keeps req u ch : respects (keeps_tickets cfg) (redirectToProvider req u ch).
Proof. unfold redirectToProvider, unavailable. go_keeps. Qed.

Lemma set_callback_keeps u : respects (keeps_tickets cfg) (on_toa (modify (set_CallbackURL u))).
Proof.
  intros e s. unfold on_toa. apply outcome_zoom, outcome_modify. intros _. split_and!; [done | apply undisturbed_callback | done].
Qed.
#[local] Hint Resolve set_callback_keeps : respects.

Lemma doubleRedirectToProvider_keeps req u ch :
  respects (keeps_tickets cfg) (doubleRedirectToProvider req u ch).
Proof. unfold doubleRedirectToProvider, unavailable. go_keeps. Qed.
#[local] Hint Resolve redirectToProvider_keeps doubleRedirectToProvider_keeps : respects.
#[local] Opaque redirectToProvider doubleRedirectToProvider.

Lemma handleLogin_keeps req ch over : respects (keeps_tickets cfg) (handleLogin req ch over).
Proof. unfold handleLogin. go_keeps. Qed.
End Keeps.
#[export] Hint Resolve seal_state_keeps callback_url_keeps redirectToProvider_keeps handleLogin_keeps : respects.

Section Outcomes.
Context `{Unicode, JsonText, TimeText, UrlLib, External, Aead, Sha256, AuthorityRegexp}.
Context (P : Prop).
Implicit Types (e : Env) (s : St).

#[local] Opaque provider.

Lemma seal_state_ok st e s : outcome P (seal_state st) e s (fun _ _ s' => s' = s).
Proof. unfold seal_state, config. by m_steps. Qed.

Lemma st_provider_ok e s Q :
  (ready (s_toa s) = false -> P) ->
  (forall p, Provider (t_Config (s_toa s)) = Some p -> Q p e s) ->
  outcome P (on_toa provider) e s Q.
Proof.
  intros HP HQ. unfold on_toa. m_step. apply provider_ok.
  - intros Hn. auto with toa.
  - intros p Hp. destruct s. auto.
Qed.

Lemma randomBytesInHex_ok n e s :
  outcome P (on_toa (randomBytesInHex n)) e s (fun _ _ s' => s' = s).
Proof. unfold on_toa, randomBytesInHex. m_step. wp; by destruct s. Qed.

#[local] Opaque seal_state on_toa.

Lemma add_pkce_ok req v st e s : outcome P (add_pkce req v st) e s (fun _ _ s' => quiet s s').
Proof.
  unfold add_pkce, config, write. m_steps. m_call randomBytesInHex_ok.
  intros [verifier|err] e1 s1 ->; cbv beta iota; [|m_step; auto with toa].
  m_steps. m_case; m_steps; auto with toa.
Qed.

#[local] Opaque add_pkce.

Lemma redirectToProvider_ok req u ch e s :
  (ready (s_toa s) = false -> P) ->
  outcome P (redirectToProvider req u ch) e s (fun _ _ s' => answers s s').
Proof.
  intros HP. unfold redirectToProvider, config, callback_url, unavailable, internalError, write. m_steps.
  apply st_provider_ok; [done|]. intros p Hp. m_steps.
  m_call randomBytesInHex_ok. intros [csrf|err] e1 s1 ->; m_steps; [|auto with toa].
  m_call randomBytesInHex_ok. intros [nonce|err] e2 s2 ->; m_steps; [|auto with toa].
  set (s2 := set_rw _ s). assert (Q2 : quiet s s2) by (unfold s2; auto with toa).
  apply deref_ok; [auto with toa|]. intros doc _. m_case; m_steps; [|auto with toa].
  eapply (outcome_weaken _ _ _ _ (fun _ _ s' => quiet s s')).
  { m_case; [|m_steps; auto with toa]. m_call add_pkce_ok. intros r e3 s3 Q3. by eapply quiet_trans. }
  intros [[v st]|err] e3 s3 Q3; m_steps; [|auto with toa].
  m_call seal_state_ok. intros [sealed|err] e4 s4 ->; m_steps; auto with toa.
Qed.

Lemma doubleRedirectToProvider_ok req u ch e s :
  outcome P (doubleRedirectToProvider req u ch) e s (fun _ _ s' => answers s s').
Proof.
  unfold doubleRedirectToProvider, config, unavailable, internalError, write. m_steps.
  m_call seal_state_ok. intros [sealed|err] e1 s1 ->; m_steps; [|auto with toa].
  m_case; m_steps; auto with toa.
Qed.

#[local] Opaque redirectToProvider doubleRedirectToProvider.

Lemma handleLogin_ok req ch over e s :
  (ready (s_toa s) = false -> P) ->
  outcome P (handleLogin req ch over) e s (fun _ _ s' => answers s s').
Proof.
  intros HP. unfold handleLogin, write. m_steps. m_case; m_steps; [|auto with toa].
  apply st_provider_ok; [done|]. intros p _. m_case;
    [m_call doubleRedirectToProvider_ok | m_call redirectToProvider_ok]; auto.
Qed.
End Outcomes.

(** ** Properties *)

(** What one configured parameter ends up as. *)
Definition param_value (cfg : Config) (req : Request) (key value : string) : string :=
  let override := req_query req key in
  if negb (String.eqb override "") && isOverridableParam cfg key then override else value.

Lemma apply_params_lookup cfg req m v k :
  map_fold (apply_param cfg req) v m !! k
  = if slice_contains reservedAuthorizationParams k then v !! k
    else match m !! k with Some value => Some [param_value cfg req k value] | None => v !! k end.
Proof.
  revert k. apply (map_fold_weak_ind (fun r m => forall k, r !! k
    = if slice_contains reservedAuthorizationParams k then v !! k
      else match m !! k with Some value => Some [param_value cfg req k value] | None => v !! k end)).
  { intros k. rewrite lookup_empty. by destruct slice_contains. }
  intros key value m' r Hfresh IH k. unfold apply_param, param_value.
  destruct (decide (k = key)) as [->|Hne].
  - rewrite lookup_insert_eq. destruct (slice_contains _ key) eqn:Er.
    + by rewrite IH, Er.
    + unfold values_Set. by rewrite lookup_insert_eq.
  - rewrite lookup_insert_ne by done. rewrite <- IH.
    destruct (slice_contains _ key); [done|]. unfold values_Set. by rewrite lookup_insert_ne by done.
Qed.

(** C27: the parameters of the authorisation request.  A protocol parameter
    keeps its value whatever the configuration and the request say; a
    configured parameter has its configured value, or the request's when it is
    listed as overridable; and the request adds nothing but a [prompt] that is
    listed. *)
Theorem authorization_params_spec cfg req v k :
  applyAuthorizationParamOverrides cfg req v !! k
  = if slice_contains reservedAuthorizationParams k then v !! k
    else if String.eqb k "prompt" && isOverridableParam cfg "prompt"
            && negb (String.eqb (req_query req "prompt") "")
    then Some [req_query req "prompt"]
    else match AuthorizationParams cfg !! k with
         | Some value => Some [param_value cfg req k value]
         | None => v !! k
         end.
Proof.
  unfold applyAuthorizationParamOverrides.
  destruct (String.eqb_spec k "prompt") as [->|Hne]; cbn [andb].
  - destruct (isOverridableParam cfg "prompt") eqn:Eo; simpl; [|by rewrite apply_params_lookup].
    destruct (String.eqb (req_query req "prompt") "") eqn:Eq; simpl; [by rewrite apply_params_lookup|].
    unfold values_Set. by rewrite lookup_insert_eq.
  - rewrite <- apply_params_lookup. destruct (isOverridableParam cfg "prompt"); [|done].
    destruct (String.eqb (req_query req "prompt") ""); simpl; [done|]. unfold values_Set. by rewrite lookup_insert_ne by done.
Qed.

Lemma override_params_state cfg req m v :
  map_fold (override_param cfg req) v m !! "state" = v !! "state".
Proof.
  apply (map_fold_weak_ind (fun r _ => r !! "state" = v !! "state")); [done|].
  intros key value m' r _ IH. unfold override_param.
  destruct (slice_contains reservedAuthorizationParams key) eqn:Er; [done|].
  destruct isOverridableParam; [|done]. destruct String.eqb; [done|]. simpl. unfold values_Add.
  rewrite lookup_insert_ne; [done|]. by intros ->.
Qed.

Lemma double_redirect_state cfg req ch sealed :
  double_redirect_params cfg req ch sealed !! "state" = Some [sealed].
Proof.
  unfold double_redirect_params. set (v := map_fold _ _ _).
  assert (Hv : v !! "state" = Some [sealed]).
  { unfold v. rewrite override_params_state. by rewrite lookup_singleton_eq. }
  match goal with |- set_challenge_params _ _ _ ?w !! _ = _ => assert (Hw : w !! "state" = Some [sealed]) end.
  { destruct isOverridableParam; [|done]. destruct String.eqb; [done|]. simpl. unfold values_Add.
    by rewrite lookup_insert_ne. }
  unfold set_challenge_params, authParamsForChallenge.
  destruct (Provider cfg); [|exact Hw]. destruct (negb ch); [exact Hw|].
  destruct (_ <=? 0); [exact Hw|]. cbn [fold_left fst snd]. unfold values_Add at 1.
  by rewrite lookup_insert_ne by done.
Qed.

Section DoubleRedirect.
Context `{Unicode, JsonText, TimeText, UrlLib, External, Aead, Sha256, AuthorityRegexp}.

(** A detour writes to the shared callback URL.  When the configured
    callback URL is absolute and a login takes the detour over its host, then
    from then on the callback URL of every request, and so the [redirect_uri]
    of every login, carries the sealed state of that one login. *)
Theorem double_redirect_pollutes req u ch e s :
  own_callback (s_toa s) = true ->
  runs (doubleRedirectToProvider req u ch) e s (fun _ _ s' =>
    (s_toa s' = s_toa s /\ w_Status (s_rw s') = Some (default StatusInternalServerError (w_Status (s_rw s))))
    \/ exists sealed v,
         SealState (clock (e_ticks e)) (random (e_draws e) NonceSize)
           (Some (new_state "RedirectThenLogin" u ch)) (Secret (t_Config (s_toa s))) = Ok sealed
         /\ v !! "state" = Some [sealed]
         /\ forall req', GetAbsoluteCallbackURL (s_toa s') req'
                         = with_RawQuery (values_Encode v) (t_CallbackURL (s_toa s))).
Proof.
  intros Ho. unfold doubleRedirectToProvider, seal_state, config, unavailable, internalError, write.
  m_steps. destruct SealState as [sealed|err] eqn:Es; m_steps.
  2:{ left. split; [done|]. apply http_Error_status. }
  rewrite Ho. unfold on_toa. m_steps. right.
  exists sealed, (double_redirect_params (t_Config (s_toa s)) req ch sealed).
  split; [done|]. split; [apply double_redirect_state|]. intros req'.
  unfold GetAbsoluteCallbackURL at 1, own_callback, UrlIsAbsolute. simpl.
  unfold GetAbsoluteCallbackURL. rewrite Ho. unfold own_callback, UrlIsAbsolute in Ho. by rewrite Ho.
Qed.
End DoubleRedirect.
