(* ===== verification/CallbackUrl.v ===== *)
(** * The shared callback URL under concurrent requests:
    [doubleRedirectToProvider] of [src/main.go]

    A login may take a detour over the host of the callback URL.  When the
    configured callback URL is absolute, the code assigns the query of the
    detour to the middleware's own URL and then prints that URL, without a
    lock.  The assignment and the printing are two steps, with other requests
    between them.  An assignment is one step here; Go promises less of an
    unsynchronised one. *)

From Stdlib Require Import ZArith Lia Ascii String Bool List.
From stdpp Require Import relations.
From S2P Require Import Prelude GoStrings GoUrl Json Http Utils World Concurrent Config SessionStorage OidcState Tokens.
From S2P Require Import RedirectUri ErrorPages Routes Server Login.

(** ** The detour as a process

    [SealState] shares nothing with other requests; its outcome is given. *)

Record detour := { dt_req : Request; dt_challenge : bool; dt_sealed : result string }.

Definition detour_query (cfg : Config) (d : detour) (stateBase64 : string) : string :=
  values_Encode (double_redirect_params cfg (dt_req d) (dt_challenge d) stateBase64).

Definition assign_query (q : string) (t : Toa) : Toa :=
  set_CallbackURL (with_RawQuery q (t_CallbackURL t)) t.

(** The address that the browser is sent to, or an error. *)
Definition take_detour `{UrlLib} (d : detour) : proc Toa (detour * result string) :=
  Atomic id (fun t =>
  match dt_sealed d with
  | Err err => Return (d, Err err)
  | Ok stateBase64 =>
      let q := detour_query (t_Config t) d stateBase64 in
      if own_callback t
      then Atomic (assign_query q) (fun _ => Atomic id (fun t => Return (d, Ok (url_String (t_CallbackURL t)))))
      else Return (d, Ok (url_String (with_RawQuery q (GetAbsoluteCallbackURL t (dt_req d)))))
  end).

Lemma own_callback_assigned q t : own_callback (assign_query q t) = own_callback t.
Proof. done. Qed.

Lemma assign_query_twice q q' t : assign_query q' (assign_query q t) = assign_query q' t.
Proof. done. Qed.

Section CallbackUrl.
Context `{Unicode, JsonText, TimeText, UrlLib, External, Aead, Sha256, AuthorityRegexp}.

Lemma seal_state_pure st e s r e' s' : seal_state st e s = Some (r, e', s') -> s' = s.
Proof. unfold seal_state, config, gets, time_Now, rand_Read, mbind, mret, M_bind, M_ret. by intros [= _ _ <-]. Qed.

(** By itself it is the handler of [Login]: what the handler seals given, the
    process ends in the same middleware and with the address of the answer. *)
Lemma take_detour_alone req u ch e s :
  match seal_state (new_state "RedirectThenLogin" u ch) e s with
  | Some (Ok sealed, e', s') =>
      match alone (take_detour {| dt_req := req; dt_challenge := ch; dt_sealed := Ok sealed |}) e' (s_toa s') with
      | Some ((_, Ok location), e2, t2) =>
          doubleRedirectToProvider req u ch e s
          = Some (tt, e2, set_rw (http_Redirect req location StatusFound (s_rw s')) (set_toa t2 s'))
      | _ => False
      end
  | Some (Err _, e', s') => doubleRedirectToProvider req u ch e s = unavailable e' s'
  | None => doubleRedirectToProvider req u ch e s = None
  end.
Proof.
  unfold doubleRedirectToProvider, config, gets, mbind, M_bind.
  destruct (seal_state _ e s) as [[[[sealed|err] e'] s']|] eqn:Es; [|done..].
  apply seal_state_pure in Es as ->.
  unfold take_detour, write, on_toa, own_callback.
  destruct (UrlIsAbsolute (t_CallbackURL (s_toa s))) eqn:Ho; run_alone; unfold GetAbsoluteCallbackURL, own_callback;
    rewrite Ho; by destruct s.
Qed.

(** ** Whose query it is *)

(** The queries that the detours assign. *)
Definition queries (cfg : Config) (ds : list detour) : list string :=
  omap (fun d => match dt_sealed d with Ok sealed => Some (detour_query cfg d sealed) | Err _ => None end) ds.

(** Nothing is assigned to a relative callback URL. *)
Definition assignable (t : Toa) (ds : list detour) : list string :=
  if own_callback t then queries (t_Config t) ds else [].

(** Every thread leaves the middleware as it is, or with the query of one of
    the detours. *)
Definition reassigned (qs : list string) (t t' : Toa) : Prop :=
  t' = t \/ exists q, q ∈ qs /\ t' = assign_query q t.

#[export] Instance reassigned_preorder qs : PreOrder (reassigned qs).
Proof.
  split; [by left|]. intros t1 t2 t3 [->|(q & Hq & ->)] [->|(q' & Hq' & ->)]; unfold reassigned; eauto.
Qed.

(** The answer of a detour that was sealed: its own, or under an absolute
    callback URL that with the query of one of them. *)
Definition answered (t0 : Toa) (qs : list string) (a : detour * result string) : Prop :=
  match dt_sealed a.1, a.2 with
  | Err _, Err _ => True
  | Ok sealed, Ok location =>
      if own_callback t0
      then exists q, q ∈ qs /\ location = url_String (with_RawQuery q (t_CallbackURL t0))
      else location = url_String (with_RawQuery (detour_query (t_Config t0) a.1 sealed)
                                    (GetAbsoluteCallbackURL t0 (dt_req a.1)))
  | _, _ => False
  end.

(** A middleware whose callback URL is that of [t0] but for its query. *)
Definition like (t0 t : Toa) : Prop := exists q, t = assign_query q t0.

Lemma reassigned_like qs t0 t : reassigned qs t0 t -> like t0 t.
Proof.
  intros [->|(q & _ & ->)]; [|by exists q]. exists (u_RawQuery (t_CallbackURL t0)).
  destruct t0 as [? ? [] ? ? ? ? ? ? ? ?]. done.
Qed.

Lemma with_RawQuery_twice q q' u : with_RawQuery q (with_RawQuery q' u) = with_RawQuery q u.
Proof. done. Qed.

Lemma like_callback t0 t req : like t0 t -> own_callback t0 = false ->
  forall q, with_RawQuery q (GetAbsoluteCallbackURL t req) = with_RawQuery q (GetAbsoluteCallbackURL t0 req).
Proof.
  intros [q0 ->] Ho q. unfold GetAbsoluteCallbackURL. rewrite own_callback_assigned, Ho. done.
Qed.

Lemma take_detour_abides t0 ds d :
  d ∈ ds -> abides (reassigned (assignable t0 ds)) (answered t0 (assignable t0 ds)) (take_detour d) t0.
Proof.
  intros Hd. unfold take_detour. cbn [abides]. intros t Ht. split; [reflexivity|].
  destruct (dt_sealed d) as [sealed|err] eqn:Es; [|unfold abides, answered; cbn [fst snd]; by rewrite Es].
  unfold assignable in *.
  assert (detour_query (t_Config t0) d sealed ∈ queries (t_Config t0) ds) as Hq.
  { apply list_elem_of_omap. exists d. by rewrite Es. }
  destruct (reassigned_like _ _ _ Ht) as [q0 ->]. change (t_Config (assign_query q0 t0)) with (t_Config t0).
  rewrite own_callback_assigned. destruct (own_callback t0) eqn:Ho; cbn [abides].
  - intros t1 Ht1. split; [right; by eexists|]. intros t2 Ht2. split; [reflexivity|].
    unfold answered. cbn [fst snd]. rewrite Es, Ho.
    assert (like t0 t1) as [q1 ->].
    { destruct Ht1 as [->|(q & _ & ->)]; [by exists q0|]. by exists q. }
    destruct Ht2 as [->|(q & Hq2 & ->)]; eauto.
  - unfold answered. cbn [fst snd]. rewrite Es, Ho. f_equal. apply like_callback; [by exists q0 | done].
Qed.

(** One process for each detour, none begun. *)
Definition detouring (now : time) (t : Toa) (ds : list detour) : threads Toa (detour * result string) :=
  fresh now t (map take_detour ds).

(** C38: what concurrent detours can do to the callback URL.  In every
    interleaving the middleware keeps everything but the query of its callback
    URL, which is the configured one or that of one of the detours; under a
    relative callback URL nothing changes and every browser is sent on with its
    own sealed state; under an absolute one it is sent to the callback URL with
    the query of one of the detours. *)
Theorem detours_only_assign_queries now t ds c :
  rtc step (detouring now t ds) c ->
  (c_state c = t \/ exists q, q ∈ queries (t_Config t) ds /\ c_state c = assign_query q t)
  /\ (own_callback t = false -> c_state c = t)
  /\ (forall i a, c_procs c !! i = Some (Return a) -> answered t (queries (t_Config t) ds) a).
Proof.
  intros Hc.
  destruct (steps_abide (reassigned (assignable t ds)) (answered t (assignable t ds)) _ _ Hc) as [Hs Hp].
  { apply Forall_map, Forall_forall. intros d Hd. by apply take_detour_abides. }
  cbn [c_state detouring fresh] in Hs.
  assert (forall i a, c_procs c !! i = Some (Return a) -> answered t (assignable t ds) a) as Ha.
  { intros i a Hi. exact (Forall_lookup_1 _ _ _ _ Hp Hi). }
  unfold reassigned, assignable in Hs, Ha. destruct (own_callback t) eqn:Ho; split_and!; try done.
  - destruct Hs as [->|(q & Hq & _)]; [by left|]. by apply elem_of_nil in Hq.
  - intros _. destruct Hs as [->|(q & Hq & _)]; [done|]. by apply elem_of_nil in Hq.
  - intros i a Hi. specialize (Ha i a Hi). unfold answered in *. by rewrite Ho in *.
Qed.

(** *** The last to assign decides for all *)

(** What is left of a detour when only the printing is. *)
Definition printing (d : detour) : proc Toa (detour * result string) :=
  Atomic id (fun t => Return (d, Ok (url_String (t_CallbackURL t)))).
Definition printed (t : Toa) (d : detour) : proc Toa (detour * result string) :=
  Return (d, Ok (url_String (t_CallbackURL t))).

(** Detours that were sealed. *)
Definition sealed_as (d : detour) (sealed : string) : Prop := dt_sealed d = Ok sealed.

(** Up to the assignment. *)
Lemma detour_assigns d sealed now t l ps1 ps2 :
  own_callback t = true -> sealed_as d sealed ->
  rtc step
    {| c_now := now; c_state := t; c_owner := None; c_log := l; c_procs := ps1 ++ take_detour d :: ps2 |}
    {| c_now := now; c_state := assign_query (detour_query (t_Config t) d sealed) t; c_owner := None; c_log := l;
       c_procs := ps1 ++ printing d :: ps2 |}.
Proof. intros Ho Hs. unfold take_detour. go now. rewrite Hs, Ho. go now. reflexivity. Qed.

(** All of them assign, and then all of them print. *)
Lemma all_assign now l : forall ds sealed t ps1,
  own_callback t = true -> Forall2 sealed_as ds sealed ->
  rtc step
    {| c_now := now; c_state := t; c_owner := None; c_log := l; c_procs := ps1 ++ map take_detour ds |}
    {| c_now := now;
       c_state := fold_left (fun t x => assign_query (detour_query (t_Config t) x.1 x.2) t) (zip ds sealed) t;
       c_owner := None; c_log := l;
       c_procs := ps1 ++ map printing ds |}.
Proof.
  induction ds as [|d ds IH]; intros sealed t ps1 Ho Hd; [done|].
  destruct sealed as [|x sealed]; [by inversion Hd|]. apply Forall2_cons in Hd as [Hx Hd].
  cbn [map zip zip_with fold_left fst snd].
  etrans; [by apply detour_assigns|].
  rewrite !(cons_middle _ ps1), !(app_assoc ps1). by apply IH.
Qed.

Lemma all_print now l t : forall ds ps1,
  rtc step
    {| c_now := now; c_state := t; c_owner := None; c_log := l;
       c_procs := ps1 ++ map printing ds |}
    {| c_now := now; c_state := t; c_owner := None; c_log := l;
       c_procs := ps1 ++ map (printed t) ds |}.
Proof.
  induction ds as [|d ds IH]; intros ps1; [done|]. cbn [map]. go now.
  rewrite !(cons_middle _ ps1), !(app_assoc ps1). by apply IH.
Qed.

(** C39: a browser can be sent on with the sealed state of another.  Under an
    absolute callback URL there is, for any detours in progress, an
    interleaving in which every browser is sent to the callback URL with the
    state that was sealed for the last of them, and so, once it has logged in,
    to the page that the last of them asked for. *)
Theorem detours_share_a_state now t ds sealed d x :
  own_callback t = true -> Forall2 sealed_as (ds ++ [d]) (sealed ++ [x]) ->
  exists c, rtc step (detouring now t (ds ++ [d])) c
    /\ c_procs c = map (fun d' => Return (d', Ok (url_String
                           (with_RawQuery (detour_query (t_Config t) d x) (t_CallbackURL t))))) (ds ++ [d])
    /\ double_redirect_params (t_Config t) (dt_req d) (dt_challenge d) x !! "state" = Some [x].
Proof.
  intros Ho Hd.
  pose proof (all_assign now [] (ds ++ [d]) (sealed ++ [x]) t [] Ho Hd) as Hall.
  assert (length ds = length sealed) as Hlen.
  { apply Forall2_length in Hd. rewrite !length_app in Hd. simpl in Hd. lia. }
  rewrite (zip_with_app pair ds [d] sealed [x] Hlen), fold_left_app in Hall. cbn [zip_with fold_left fst snd] in Hall.
  set (t1 := fold_left _ (zip ds sealed) t) in Hall.
  assert (like t t1) as [q E].
  { unfold t1. clear. generalize (zip ds sealed). intros xs.
    assert (forall t', like t t' ->
      like t (fold_left (fun t x => assign_query (detour_query (t_Config t) x.1 x.2) t) xs t')) as Hg.
    { induction xs as [|y xs IH]; intros t' Ht'; [done|]. cbn [fold_left]. apply IH.
      destruct Ht' as [q ->]. by eexists. }
    apply Hg. by eapply (reassigned_like []); left. }
  eexists. split; [|split; [|apply double_redirect_state]].
  - unfold detouring, fresh. etrans; [exact Hall|]. cbn [app]. apply (all_print now [] _ (ds ++ [d]) []).
  - cbn [c_procs app]. by rewrite E.
Qed.
End CallbackUrl.
