(* ===== verification/Logout.v ===== *)
(** * Logging out: [handleLogout] and [handleFrontchannelLogout] of [src/main.go] *)

From Stdlib Require Import ZArith Lia Ascii String Bool List.
From S2P Require Import Prelude GoStrings GoUrl Json Http Utils World RedirectUri Config Authorization ErrorPages.
From S2P Require Import OidcState SessionStorage Cookies Tokens Routes Server Login.

(** Lengths first, then contents in constant time. *)
Definition secureStringEqual (a b : string) : bool :=
  if negb (slen a =? slen b)%nat then false else ConstantTimeCompare a b.

Section Logout.
Context `{Unicode, JsonText, TimeText, UrlLib, External, Jwt, Aead, AuthorityRegexp, SecretPattern}.
Context `{MediaTypes, PageTemplates}.

(** Clearing the session cookie; the error of the count is ignored. *)
Definition clear_session_cookie (req : Request) : M St unit :=
  c ← config;
  now ← time_Now;
  rw ← gets s_rw;
  match clearChunkedCookie c now rw req (getSessionCookieName c) with
  | Ok (rw, _) => modify (set_rw rw)
  | Err _ => panic
  end.

Definition logout_unavailable : M St unit := internalError "Logout is temporarily unavailable".

(** The [redirect_uri] of the query, or its other spelling. *)
Definition post_logout_uri (req : Request) : string :=
  let uri := req_query req "redirect_uri" in
  if String.eqb uri "" then req_query req "post_logout_redirect_uri" else uri.

Definition logout_target (cfg : Config) (req : Request) (wildcards : bool) : result string :=
  let redirectUri := ensureAbsoluteUrl cfg req (PostLogoutRedirectUri cfg) in
  let redirectUriFromQuery := post_logout_uri req in
  if negb (String.eqb redirectUriFromQuery "") then
    let? redirectUriFromQuery :=
      ValidateRedirectUri redirectUriFromQuery (ValidPostLogoutRedirectUris cfg) wildcards in
    if negb (String.eqb redirectUriFromQuery "")
    then Ok (ensureAbsoluteUrl cfg req redirectUriFromQuery) else Ok redirectUri
  else Ok redirectUri.

Definition handleLogout (req : Request) (session : SessionState) : M St unit :=
  c ← config;
  t ← gets s_toa;
  doc ← deref (t_DiscoveryDocument t);
  match url_Parse (dd_EndSessionEndpoint doc) with
  | Err _ => logout_unavailable
  | Ok endSessionURL =>
      _ ← on_toa (revokeToken (ss_RefreshToken session));
      callbackUri ← callback_url req;
      match logout_target c req (t_RedirectUriWildcardsEnabled t) with
      | Err _ => write (http_Error "Invalid redirect" StatusBadRequest)
      | Ok redirectUri =>
          sealed ← seal_state (new_state "Logout" redirectUri false);
          match sealed with
          | Err _ => logout_unavailable
          | Ok base64State =>
              p ← on_toa provider;
              let query : values :=
                <["client_id" := [pv_ClientId p]]> (<["post_logout_redirect_uri" := [callbackUri]]>
                  (<["state" := [base64State]]> {["id_token_hint" := [ss_IdToken session]]})) in
              write (http_Redirect req (url_String (with_RawQuery (values_Encode query) endSessionURL))
                       StatusFound)
          end
      end
  end.

(** The checks of a front-channel notification: [None], or the message of the
    refusal. *)
Definition frontchannel_refusal (t : Toa) (p : ProviderConfig) (req : Request) (sess : SessionState)
  (c : claims) : option string :=
  let iss := req_query req "iss" in
  let sid := req_query req "sid" in
  let idTokenHint := req_query req "id_token_hint" in
  let mismatch (claim : string) (value : string) :=
    match string_claim c claim with Some v => negb (secureStringEqual value v) | None => true end in
  if String.eqb iss "" then Some "iss is missing"
  else if mismatch "iss" iss then Some "iss does not match"
  else if pv_ValidateIssuerBool p && negb (String.eqb (effectiveValidIssuer t) "")
          && negb (secureStringEqual iss (effectiveValidIssuer t))
  then Some "iss does not match"
  else if String.eqb sid "" && String.eqb idTokenHint "" then Some "sid or id_token_hint is required"
  else if negb (String.eqb sid "") then
    if mismatch "sid" sid then Some "sid does not match" else None
  else if negb (secureStringEqual idTokenHint (ss_IdToken sess)) || String.eqb (ss_IdToken sess) ""
  then Some "id_token_hint does not match"
  else None.

Definition handleFrontchannelLogout (req : Request) (sess : SessionState) (c : claims) : M St unit :=
  t ← gets s_toa;
  p ← on_toa provider;
  match frontchannel_refusal t p req sess c with
  | Some message => write (http_Error message StatusBadRequest)
  | None =>
      _ ← on_toa (revokeToken (ss_RefreshToken sess));
      _ ← clear_session_cookie req;
      writeSuccessfulLogout req
  end.
End Logout.

(** ** Outcomes *)

Section Outcomes.
Context `{Unicode, JsonText, TimeText, UrlLib, External, Jwt, Aead, AuthorityRegexp, SecretPattern}.
Context `{MediaTypes, PageTemplates}.
Context (P : Prop).
Implicit Types (e : Env) (s : St).

#[local] Opaque provider revokeToken seal_state writeSuccessfulLogout.

Lemma clear_session_cookie_ok req e s :
  (ready (s_toa s) = false -> P) ->
  outcome P (clear_session_cookie req) e s (fun _ _ s' =>
    exists w, s' = set_rw w s /\ committed w = committed (s_rw s)
              /\ only_expires (t_Config (s_toa s)) (s_rw s) w).
Proof.
  intros HP. unfold clear_session_cookie, config. m_steps.
  destruct clearChunkedCookie as [[w err]|err] eqn:Ec; m_steps.
  - pose proof (clearChunkedCookie_sessions _ _ _ _ _ _ _ Ec). apply clearChunkedCookie_committed in Ec. eauto.
  - apply clearChunkedCookie_panic in Ec. auto with toa.
Qed.

Lemma st_revokeToken_ok tok e s :
  (ready (s_toa s) = false -> P) ->
  outcome P (on_toa (revokeToken tok)) e s (fun _ _ s' => s' = s).
Proof.
  intros HP. unfold on_toa. m_step. m_call revokeToken_ok; [auto with toa|]. intros r e' t' ->.
  by destruct s.
Qed.

#[local] Opaque on_toa clear_session_cookie.

Lemma handleLogout_ok req sess e s :
  (ready (s_toa s) = false -> P) ->
  outcome P (handleLogout req sess) e s (fun _ _ s' => answers s s').
Proof.
  intros HP. unfold handleLogout, config, logout_unavailable, internalError, callback_url, write. m_steps.
  apply deref_ok; [auto with toa|]. intros doc _. m_case; m_steps; [|auto with toa].
  m_call st_revokeToken_ok; [done|]. intros r e1 s1 ->. m_steps.
  m_case; m_steps; [|auto with toa].
  m_call seal_state_ok. intros [sealed|err] e2 s2 ->; m_steps; [|auto with toa].
  apply st_provider_ok; [done|]. intros p _. m_steps. auto with toa.
Qed.

Lemma handleFrontchannelLogout_ok req sess c e s :
  (ready (s_toa s) = false -> P) ->
  outcome P (handleFrontchannelLogout req sess c) e s (fun _ _ s' => answers s s').
Proof.
  intros HP. unfold handleFrontchannelLogout, write. m_steps.
  apply st_provider_ok; [done|]. intros p _. m_case; m_steps; [auto with toa|].
  m_call st_revokeToken_ok; [done|]. intros r e1 s1 ->. m_steps.
  m_call clear_session_cookie_ok; [done|]. intros [] e2 s2 (w & -> & _).
  m_call writeSuccessfulLogout_ok. intros [] e3 s3 Q. eapply answers_after; [|exact Q]. auto with toa.
Qed.
End Outcomes.

(** ** Properties *)

Lemma secureStringEqual_spec a b : secureStringEqual a b = true <-> a = b.
Proof.
  unfold secureStringEqual, ConstantTimeCompare. destruct (Nat.eqb_spec (slen a) (slen b)); simpl.
  - by rewrite String.eqb_eq.
  - split; [done | by intros ->].
Qed.

(** One refusal of a chain. *)
Lemma refuse_iff (b : bool) (m : string) (rest : option string) :
  (if b then Some m else rest) = None <-> b = false /\ rest = None.
Proof. destruct b; split; [done | by intros [] | done | by intros []]. Qed.

(** C26: a front-channel notification ends the session exactly when it is for
    this session: its issuer is the one of the session's claims and, when
    issuers are validated, the expected one, and it names either the session's
    [sid], or, without a [sid], the session's own non-empty ID token. *)
Theorem frontchannel_accepts_iff t p req sess c :
  let iss := req_query req "iss" in
  let sid := req_query req "sid" in
  frontchannel_refusal t p req sess c = None
  <-> iss <> "" /\ c !! "iss" = Some (JStr iss)
      /\ (pv_ValidateIssuerBool p = true -> effectiveValidIssuer t <> "" -> iss = effectiveValidIssuer t)
      /\ (if String.eqb sid "" then ss_IdToken sess <> "" /\ req_query req "id_token_hint" = ss_IdToken sess
          else c !! "sid" = Some (JStr sid)).
Proof.
  cbv zeta. unfold frontchannel_refusal.
  assert (Hmis : forall claim v,
    match string_claim c claim with Some w => negb (secureStringEqual v w) | None => true end = false
    <-> c !! claim = Some (JStr v)).
  { intros claim v. rewrite <- string_claim_Some. destruct string_claim as [w|]; [|done].
    rewrite negb_false_iff, secureStringEqual_spec. split; congruence. }
  rewrite !refuse_iff, Hmis, String.eqb_neq. clear Hmis.
  apply and_iff_compat_l, and_iff_compat_l.
  assert (Hiss : pv_ValidateIssuerBool p && negb (String.eqb (effectiveValidIssuer t) "")
                 && negb (secureStringEqual (req_query req "iss") (effectiveValidIssuer t)) = false
                 <-> (pv_ValidateIssuerBool p = true -> effectiveValidIssuer t <> "" ->
                      req_query req "iss" = effectiveValidIssuer t)).
  { rewrite <- (secureStringEqual_spec (req_query req "iss")). destruct pv_ValidateIssuerBool; [|by split].
    destruct (String.eqb_spec (effectiveValidIssuer t) ""); simpl; [by split|].
    rewrite negb_false_iff. tauto. }
  rewrite Hiss. apply and_iff_compat_l.
  destruct (String.eqb_spec (req_query req "sid") "") as [|Hsid]; cbn [andb negb].
  - rewrite refuse_iff, orb_false_iff, negb_false_iff, secureStringEqual_spec, !String.eqb_neq.
    split; [tauto|]. intros [Hid ->]. tauto.
  - rewrite refuse_iff. rewrite <- string_claim_Some. destruct string_claim as [w|].
    + rewrite negb_false_iff, secureStringEqual_spec. split; [by intros (_ & -> & _) | by intros [= ->]].
    + split; [by intros (_ & [=] & _) | done].
Qed.
