(* ===== verification/Callback.v ===== *)
(** * The callback: [handleCallback] and its helpers of [src/main.go]

    The answer of the provider: the sealed state is opened and bound to the
    browser by its CSRF cookie, the code is exchanged, the token validated, and
    the session established. *)

From Stdlib Require Import ZArith Lia Ascii String Bool List.
From S2P Require Import Prelude GoStrings Base64 GoUrl Json Http Utils World RedirectUri Config Authorization ErrorPages.
From S2P Require Import OidcState SessionStorage Jwks Cookies Tokens Session Routes Server Login Logout.

(** [uuid.New().String()], from sixteen random bytes. *)
Class Uuid := { uuid_String : string -> string }.

Section Callback.
Context `{Unicode, JsonText, TimeText, UrlLib, External, Jwt, Aead, AuthorityRegexp, SecretPattern}.
Context `{MediaTypes, PageTemplates, Sha256, FloatText, JsonPath, FloatInt, SessionStore, Uuid}.

Definition GenerateSessionId : M St string :=
  rnd ← rand_Read 16;
  match rnd with Ok bytes => mret (uuid_String bytes) | Err _ => panic end.

(** ** A session that is not authorised *)

Definition handleUnauthorized (req : Request) (session : SessionState) (redirectUrlOverride : string)
  : M St unit :=
  c ← config;
  let behavior := UnauthorizedBehavior c in
  if String.eqb behavior "Challenge" then
    if negb (ss_ChallengeAttempted session) && IsHtmlRequest req
    then handleLogin req true redirectUrlOverride
    else writeUnauthorizedError req
  else if String.eqb behavior "Unauthorized" then writeUnauthorizedError req
  else if String.eqb behavior "Forward" then
    if negb (String.eqb redirectUrlOverride "")
    then write (http_Redirect req redirectUrlOverride StatusFound)
    else forwardToUpstream req
  else writeUnauthorizedError req.

(** ** The token of a callback *)

(** [None] when the error answer is written. *)
Definition callback_userinfo (p : ProviderConfig) (token : OidcTokenResponse) (c : claims)
  : M St (option claims) :=
  if pv_UseClaimsFromUserInfoBool p then
    match string_claim c "sub" with
    | None =>
        _ ← write (http_Error "Failed to fetch UserInfo" StatusInternalServerError); mret None
    | Some subClaim =>
        r ← on_toa (getUserInfo (tr_AccessToken token) subClaim);
        match r with
        | Err _ =>
            _ ← write (http_Error "Failed to fetch UserInfo" StatusInternalServerError); mret None
        | Ok userInfoClaims => mret (Some (mergeClaims c userInfoClaims))
        end
    end
  else mret (Some c).

Definition token_not_valid : M St (option claims) :=
  _ ← write (http_Error "Returned token is not valid" StatusUnauthorized); mret None.

Definition callback_token (p : ProviderConfig) (token : OidcTokenResponse) : option string :=
  if String.eqb (pv_TokenValidation p) "AccessToken" then Some (tr_AccessToken token)
  else if String.eqb (pv_TokenValidation p) "IdToken" then Some (tr_IdToken token)
  else if String.eqb (pv_TokenValidation p) "Introspection" then Some (tr_AccessToken token)
  else None.

Definition validateCallbackToken (token : OidcTokenResponse) (state : OidcState) : M St (option claims) :=
  p ← on_toa provider;
  match callback_token p token with
  | None =>
      _ ← write (http_Error "Authentication is temporarily unavailable" StatusInternalServerError);
      mret None
  | Some usedToken =>
      v ← on_toa (if String.eqb (pv_TokenValidation p) "Introspection" then introspectToken usedToken
                  else validateTokenLocally usedToken (st_Nonce state));
      let '(active, c, err) := v in
      if negb (is_none err) || negb active then token_not_valid
      else callback_userinfo p token c
  end.

(** ** The new session *)

Definition new_session (id : string) (now : time) (token : OidcTokenResponse) (authorized challenged : bool)
  : SessionState :=
  set_flags authorized challenged
    (set_expiry now (tr_ExpiresIn token)
       (set_tokens (tr_AccessToken token) (tr_IdToken token) (tr_RefreshToken token)
          (set_Id id zero_session))).

(** Storing on the response of the request. *)
Definition store_and_attach (sess : SessionState) : M St (SessionState * option error) :=
  rw ← gets s_rw;
  r ← on_toa (storeSessionAndAttachCookie sess rw);
  let '(sess, rw, err) := r in
  _ ← modify (set_rw rw);
  mret (sess, err).

Definition establishSession (token : OidcTokenResponse) (c : claims) (state : OidcState)
  : M St (option SessionState) :=
  cfg ← config;
  authorization ← deref (Authorization cfg);
  let authorized := isAuthorized authorization c in
  id ← GenerateSessionId;
  now ← time_Now;
  r ← store_and_attach (new_session id now token authorized (st_IsChallenge state));
  let '(sess, err) := r in
  match err with
  | Some _ => mret None
  | None => _ ← on_toa (mark (ss_Id sess)); mret (Some sess)
  end.

(** ** The handler *)

(** Where the user goes after a login. *)
Definition post_login_target (cfg : Config) (req : Request) (wildcards : bool) (redirectUrl : string)
  : result string :=
  if negb (String.eqb redirectUrl "") then
    let? redirectUrl :=
      if (0 <? length (ValidPostLoginRedirectUris cfg))%nat
      then ValidateRedirectUri redirectUrl (ValidPostLoginRedirectUris cfg) wildcards
      else Ok redirectUrl in
    Ok (ensureAbsoluteUrl cfg req redirectUrl)
  else Ok (ensureAbsoluteUrl cfg req (PostLoginRedirectUri cfg)).

(** After the session is established. *)
Definition finish_login (req : Request) (state : OidcState) (sess : SessionState) : M St unit :=
  cfg ← config;
  p ← on_toa provider;
  now ← time_Now;
  t ← gets s_toa;
  _ ← (if pv_UsePkceBool p
       then write (fun rw => clearLegacyCodeVerifierCookies cfg now rw req (Some (t_CallbackURL t)))
       else mret tt);
  match post_login_target cfg req (t_RedirectUriWildcardsEnabled t) (st_RedirectUrl state) with
  | Err _ => write (http_Error "Invalid redirect" StatusBadRequest)
  | Ok redirectUrl =>
      if negb (ss_IsAuthorized sess) then handleUnauthorized req sess redirectUrl
      else write (http_Redirect req redirectUrl StatusFound)
  end.

Definition clear_csrf (csrf : string) : M St unit :=
  cfg ← config;
  now ← time_Now;
  t ← gets s_toa;
  write (fun rw => clearLoginCsrfCookie cfg now rw (Some (t_CallbackURL t)) csrf).

Definition callback_login (req : Request) (state : OidcState) : M St unit :=
  cfg ← config;
  match validateLoginCsrf cfg req (st_Csrf state) with
  | Err _ =>
      _ ← clear_csrf (st_Csrf state);
      write (http_Error "Invalid login state" StatusForbidden)
  | Ok _ =>
      _ ← clear_csrf (st_Csrf state);
      let authCode := req_query req "code" in
      if String.eqb authCode "" then write (http_Error "Code is missing" StatusBadRequest)
      else
        redirectUrl ← callback_url req;
        token ← on_toa (exchangeAuthCode redirectUrl authCode (st_CodeVerifierEnc state));
        match token with
        | Err _ => write (http_Error "Failed to exchange auth code" StatusInternalServerError)
        | Ok token =>
            c ← validateCallbackToken token state;
            match c with
            | None => mret tt
            | Some c =>
                now ← time_Now;
                if st_IsChallenge state && negb (authTimeIsFresh cfg c now)
                then writeUnauthorizedError req
                else
                  sess ← establishSession token c state;
                  match sess with
                  | None => mret tt
                  | Some sess => finish_login req state sess
                  end
            end
        end
  end.

Definition handleCallback (req : Request) : M St unit :=
  cfg ← config;
  let base64State := req_query req "state" in
  if String.eqb base64State "" then write (http_Error "State is missing" StatusBadRequest)
  else
    now ← time_Now;
    match UnsealState now base64State (Secret cfg) with
    | Err ErrStateExpired =>
        write (http_Error "Your login request expired. Please start again." StatusUnauthorized)
    | Err _ => write (http_Error "State is invalid" StatusBadRequest)
    | Ok state =>
        let redirectUrl := st_RedirectUrl state in
        if String.eqb (st_Action state) "Login" then callback_login req state
        else if String.eqb (st_Action state) "Logout" then
          _ ← clear_session_cookie req;
          write (http_Redirect req redirectUrl StatusFound)
        else if String.eqb (st_Action state) "RedirectThenLogin" then
          redirectToProvider req redirectUrl (st_IsChallenge state)
        else write (http_Redirect req redirectUrl StatusFound)
    end.
End Callback.

(** ** Outcomes *)

(** Claims [c0] of a validated token, and what userinfo made of them. *)
Definition enriched (p : ProviderConfig) (c0 c : claims) : Prop :=
  (pv_UseClaimsFromUserInfoBool p = false -> c = c0)
  /\ forall k, k ∈ "sub" :: protectedClaims -> c !! k = c0 !! k.

Section Outcomes.
Context `{Unicode, JsonText, TimeText, UrlLib, External, Jwt, Aead, AuthorityRegexp, SecretPattern}.
Context `{MediaTypes, PageTemplates, Sha256, FloatText, JsonPath, FloatInt, SessionStore, Uuid}.
Context `{!SessionStoreLaws}.

(** *** What a session rests on *)

(** The token of a callback was accepted between two moments with claims [c]:
    the provider said that it is active, or it was verified with a key of the
    cache and has the nonce of the state. *)
Definition callback_accepted (token : OidcTokenResponse) (state : OidcState) (c : claims)
    (e : Env) (t : Toa) (e' : Env) (t' : Toa) : Prop :=
  exists p used c0, Provider (t_Config t) = Some p /\ callback_token p token = Some used /\ enriched p c0 c
    /\ if String.eqb (pv_TokenValidation p) "Introspection" then introspected t p used true c0 e e'
       else verified p used c0 e t e' t'
            /\ (st_Nonce state <> "" -> pv_ValidateNonceBool p = true ->
                c0 !! "nonce" = Some (JStr (st_Nonce state))).

(** What a login with the opened [state] has passed between two moments: the
    browser has the CSRF cookie of the state, the provider granted the token for
    the code of the request, the token was accepted, and after a step-up the
    authentication was found fresh. *)
Definition login_ok (req : Request) (state : OidcState) (token : OidcTokenResponse) (c : claims)
    (e : Env) (t : Toa) (e' : Env) (t' : Toa) : Prop :=
  st_Csrf state <> ""
  /\ req_Cookie req (getLoginCsrfCookieName (t_Config t) (st_Csrf state)) = Ok (st_Csrf state)
  /\ req_query req "code" <> ""
  /\ granted t (url_String (GetAbsoluteCallbackURL t req)) (req_query req "code") (st_CodeVerifierEnc state)
       token e e'
  /\ callback_accepted token state c e t e' t'
  /\ (st_IsChallenge state = true ->
      exists now, reading e e' now /\ authTimeIsFresh (t_Config t) c now = true).

(** The session that is made of the token from the moment [e1] on: with a fresh
    identifier, the expiry of the token, and the verdict of the authorisation on
    the claims; it is stored, its ticket is all that the response sets as
    session cookies, and the writing of it is noted. *)
Definition session_issued (s : St) (state : OidcState) (token : OidcTokenResponse) (c : claims)
    (e1 e' : Env) (s' : St) : Prop :=
  exists authorization bytes sess ticket,
    Authorization (t_Config (s_toa s)) = Some authorization
    /\ random (e_draws e1) 16 = Ok bytes
    /\ store_StoreSession (clock (S (e_ticks e1))) (random (S (e_draws e1)) NonceSize) (t_Config (s_toa s))
         (new_session (uuid_String bytes) (clock (e_ticks e1)) token (isAuthorized authorization c)
            (st_IsChallenge state)) = (sess, Ok ticket)
    /\ (committed (s_rw s) = false ->
        session_cookies (t_Config (s_toa s)) (s_rw s')
        = session_cookies (t_Config (s_toa s)) (s_rw s) ++ ticket_cookies (t_Config (s_toa s)) ticket)
    /\ undisturbed (set_sessionWrites (mark_at (clock (S (S (e_ticks e1)))) (uuid_String bytes)
                                         (t_sessionWrites (s_toa s))) (s_toa s)) (s_toa s')
    /\ elapsed (tick (tick (tick e1))) e'.

(** A callback that issues nothing. *)
Definition issues_nothing (s s' : St) : Prop :=
  undisturbed (s_toa s) (s_toa s') /\ only_expires (t_Config (s_toa s)) (s_rw s) (s_rw s').

(** A callback is answered and not forwarded; it issues nothing, or what [L]
    describes. *)
Definition answers_login (L : Prop) (s s' : St) : Prop :=
  s_next s' = s_next s /\ committed (s_rw s') = true /\ (issues_nothing s s' \/ L).

(** A session for a login with the opened [state]. *)
Definition login_issues (req : Request) (state : OidcState) (e : Env) (s : St) (e' : Env) (s' : St) : Prop :=
  exists token c e1 t1, login_ok req state token c e (s_toa s) e1 t1
    /\ session_issued s state token c e1 e' s'.

(** The steps before: the keys may be reloaded, and no session cookie is set. *)
Definition proceeds (e : Env) (s : St) (e' : Env) (s' : St) : Prop :=
  s_next s' = s_next s /\ committed (s_rw s') = committed (s_rw s)
  /\ advances e (s_toa s) e' (s_toa s')
  /\ session_cookies (t_Config (s_toa s)) (s_rw s') = session_cookies (t_Config (s_toa s)) (s_rw s).

Lemma proceeds_trans e1 s1 e2 s2 e3 s3 : proceeds e1 s1 e2 s2 -> proceeds e2 s2 e3 s3 -> proceeds e1 s1 e3 s3.
Proof.
  intros (N1 & C1 & A1 & S1) (N2 & C2 & A2 & S2). rewrite (advances_Config _ _ _ _ A1) in S2.
  split_and!; [congruence | congruence | by eapply passage_trans | congruence].
Qed.

Lemma proceeds_undisturbed e s e' s' : proceeds e s e' s' -> undisturbed (s_toa s) (s_toa s').
Proof. intros (_ & _ & A & _). by eapply frame_undisturbed, advances_frame. Qed.

Lemma proceeds_Config e s e' s' : proceeds e s e' s' -> t_Config (s_toa s') = t_Config (s_toa s).
Proof. intros Hp. by eapply undisturbed_Config, proceeds_undisturbed. Qed.

Lemma proceeds_tick e s : proceeds e s (tick e) s.
Proof. split_and!; [done..| apply passage_tick | done]. Qed.

(** Acceptance and issuing, seen from before and after. *)
Lemma callback_accepted_widen token state c e t e1 t1 e2 t2 e' t' :
  advances e t e1 t1 -> callback_accepted token state c e1 t1 e2 t2 -> advances e2 t2 e' t' ->
  callback_accepted token state c e t e' t'.
Proof.
  intros A1 (p & used & c0 & Hp & Hu & He & Ha) A2. exists p, used, c0.
  rewrite <- (advances_Config _ _ _ _ A1). split_and!; [done..|].
  destruct (String.eqb (pv_TokenValidation p) "Introspection").
  - eapply introspected_widen; [by eapply advances_frame | by eapply advances_elapsed | done
      | by eapply advances_elapsed].
  - destruct Ha as [Hv Hn]. split; [by eapply verified_widen | done].
Qed.

Lemma login_ok_widen req state token c e t e1 e' t' :
  elapsed e e1 -> advances e t e1 t -> login_ok req state token c e1 t e' t' -> login_ok req state token c e t e' t'.
Proof.
  intros E A (Hs & Hcsrf & Hcode & Hg & Ha & Hf). split_and!; [done..| | |].
  - eapply granted_widen; [exact E | exact Hg | done].
  - eapply callback_accepted_widen; [exact A | exact Ha | apply passage_refl].
  - intros (now & Hr & Hn)%Hf. exists now. split; [by eapply reading_widen | done].
Qed.

Lemma session_issued_after s s1 state token c e0 e1 e' s' :
  proceeds e0 s e1 s1 -> session_issued s1 state token c e1 e' s' -> session_issued s state token c e1 e' s'.
Proof.
  intros Hp (az & bytes & sess & ticket & Haz & Hb & Hs & Hc & U & E). pose proof (proceeds_Config _ _ _ _ Hp) as Ec.
  destruct (proceeds_undisturbed _ _ _ _ Hp) as (j & u & Et). destruct Hp as (_ & C & _ & Sc).
  exists az, bytes, sess, ticket. rewrite Ec in *. split_and!; try done.
  - intros Ho. rewrite Hc by congruence. by rewrite Sc.
  - eapply undisturbed_trans; [|exact U]. rewrite Et. by exists j, u.
Qed.

Lemma session_issued_then s state token c e1 e2 s2 e3 s3 :
  session_issued s state token c e1 e2 s2 -> keeps_tickets (t_Config (s_toa s)) e2 s2 e3 s3 ->
  session_issued s state token c e1 e3 s3.
Proof.
  intros (az & bytes & sess & ticket & Haz & Hb & Hs & Hc & U & E) K.
  destruct K as (E' & U' & S'); [apply (undisturbed_Config _ _ U)|].
  exists az, bytes, sess, ticket. split_and!; try done.
  - intros Ho. by rewrite S', Hc.
  - by eapply undisturbed_trans.
  - by etrans.
Qed.

(** *** What sets no session cookie *)

Section Keeps.
Context (cfg : Config).
#[local] Opaque handleLogin redirectToProvider writeUnauthorizedError getUserInfo introspectToken
  validateTokenLocally exchangeAuthCode provider clearLegacyCodeVerifierCookies clearLoginCsrfCookie.

Lemma forward_keeps req : respects (keeps_tickets cfg) (forwardToUpstream req).
Proof.
  unfold forwardToUpstream. go_keeps. apply respects_modify. intros e s _.
  split_and!; [done | apply undisturbed_refl | done].
Qed.
#[local] Hint Resolve forward_keeps : respects.
#[local] Opaque forwardToUpstream.

Lemma handleUnauthorized_keeps req sess over : respects (keeps_tickets cfg) (handleUnauthorized req sess over).
Proof. unfold handleUnauthorized. go_keeps. Qed.
#[local] Hint Resolve handleUnauthorized_keeps : respects.
#[local] Opaque handleUnauthorized.

Lemma finish_login_keeps req state sess : respects (keeps_tickets cfg) (finish_login req state sess).
Proof. unfold finish_login. go_keeps. Qed.

Lemma validateCallbackToken_keeps token state :
  respects (keeps_tickets cfg) (validateCallbackToken token state).
Proof. unfold validateCallbackToken, token_not_valid, callback_userinfo. go_keeps. Qed.
End Keeps.

(** Random bytes can be had. *)
Definition entropy : Prop := forall n k, exists s, random n k = Ok s.

Context (P : Prop).
Implicit Types (e : Env) (s : St).

#[local] Opaque provider validateTokenLocally introspectToken getUserInfo exchangeAuthCode.
#[local] Opaque handleLogin redirectToProvider writeUnauthorizedError storeSessionAndAttachCookie.

Lemma handleUnauthorized_ok req sess over e s :
  (ready (s_toa s) = false -> P) ->
  over <> "" \/ UnauthorizedBehavior (t_Config (s_toa s)) <> "Forward" ->
  outcome P (handleUnauthorized req sess over) e s (fun _ _ s' => answers s s').
Proof.
  intros HP Hover. unfold handleUnauthorized, config, write. m_steps.
  m_case; [m_case; [by apply handleLogin_ok | by apply writeUnauthorizedError_ok] |].
  m_case; [by apply writeUnauthorizedError_ok|]. m_case; [|by apply writeUnauthorizedError_ok].
  m_case; m_steps; [auto with toa|]. boolprop. by destruct Hover.
Qed.

(** *** The token *)

Lemma proceeds_toa e s e' t' : advances e (s_toa s) e' t' -> proceeds e s e' (set_toa t' s).
Proof. intros Ha. by split_and!. Qed.

Lemma callback_userinfo_ok p token c e s :
  (ready (s_toa s) = false -> P) ->
  outcome P (callback_userinfo p token c) e s (fun r e' s' =>
    match r with Some c' => proceeds e s e' s' /\ enriched p c c' | None => answers s s' end).
Proof.
  intros HP. unfold callback_userinfo, write. m_case.
  - m_case; m_steps; [|auto with toa]. unfold on_toa. m_steps.
    m_call (outcome_respects advances); [apply getUserInfo_advances | apply getUserInfo_ok; auto with toa |].
    intros [u|err] e1 t1 [[F Hu] A]; m_steps.
    + split; [by apply proceeds_toa|]. split; [congruence|]. apply string_claim_Some in E0. eapply getUserInfo_merge; eauto.
    + apply answers_rw; auto with toa.
  - m_steps. split; [|by split]. split_and!; [done..| apply passage_refl | done].
Qed.

#[local] Opaque callback_userinfo.

(** What the validation of the token says. *)
Lemma callback_checked_ok p used state e t :
  Provider (t_Config t) = Some p ->
  outcome P (if String.eqb (pv_TokenValidation p) "Introspection" then introspectToken used
             else validateTokenLocally used (st_Nonce state)) e t (fun v e' t' => advances e t e' t' /\
    match v with
    | (true, c0, None) =>
        if String.eqb (pv_TokenValidation p) "Introspection" then introspected t p used true c0 e e'
        else verified p used c0 e t e' t'
             /\ (st_Nonce state <> "" -> pv_ValidateNonceBool p = true ->
                 c0 !! "nonce" = Some (JStr (st_Nonce state)))
    | _ => True
    end).
Proof.
  intros Hp. assert (Hn : no_provider t -> P) by (unfold no_provider; by rewrite Hp).
  destruct (String.eqb (pv_TokenValidation p) "Introspection").
  - m_call (outcome_respects advances); [apply introspectToken_advances | by apply introspectToken_ok |].
    intros [[[] c] [err|]] e1 t1 [[_ Hv] A]; (split; [done|]); try done.
    destruct Hv as (p' & Hp' & Hv). rewrite Hp in Hp'. injection Hp' as <-. by apply told_introspected.
  - m_call (outcome_respects advances); [apply validateTokenLocally_advances | by apply validateTokenLocally_ok |].
    intros [[[] c] [err|]] e1 t1 [[_ Hv] A]; (split; [done|]); try done.
    destruct Hv as (_ & p' & now & Hp' & _ & Hv). rewrite Hp in Hp'. by injection Hp' as <-.
Qed.

Lemma validateCallbackToken_ok token state e s :
  (ready (s_toa s) = false -> P) ->
  outcome P (validateCallbackToken token state) e s (fun r e' s' =>
    match r with
    | Some c => proceeds e s e' s' /\ callback_accepted token state c e (s_toa s) e' (s_toa s')
    | None => answers s s'
    end).
Proof.
  intros HP. unfold validateCallbackToken, token_not_valid, write. m_step.
  apply st_provider_ok; [done|]. intros p Hp. destruct (callback_token p token) as [used|] eqn:Eu;
    [|m_steps; auto with toa].
  m_step. unfold on_toa at 1. m_step. m_call callback_checked_ok; [done|].
  intros [[active c0] err] e1 t1 [A Hok]. cbv beta iota.
  assert (Pr := proceeds_toa _ s _ _ A). assert (Q : undisturbed (s_toa s) t1) by (by eapply frame_undisturbed, A).
  m_case; m_steps; [apply answers_rw; auto with toa|].
  boolprop. destruct active, err; try done.
  m_call callback_userinfo_ok.
  { intros Hr. apply HP. by rewrite <- (undisturbed_ready _ _ Q). }
  intros [c|] e2 s2; [intros [Q2 He] | intros A2].
  - split; [by eapply proceeds_trans|]. destruct Q2 as (_ & _ & A2 & _).
    eapply callback_accepted_widen; [apply passage_refl | | exact A2]. by exists p, used, c0.
  - eapply answers_after; [|exact A2]. auto with toa.
Qed.

#[local] Opaque validateCallbackToken.

(** *** The session *)

(** Storing a session on the response: its ticket is attached, or the request is
    answered. *)
Lemma store_and_attach_ok sess e s :
  (ready (s_toa s) = false -> P) ->
  outcome P (store_and_attach sess) e s (fun '(sess', err) e' s' => quiet s s' /\ s_toa s' = s_toa s
    /\ e' = draw (tick e)
    /\ match err with
       | Some _ => committed (s_rw s') = true
                   /\ session_cookies (t_Config (s_toa s)) (s_rw s') = session_cookies (t_Config (s_toa s)) (s_rw s)
       | None => committed (s_rw s') = committed (s_rw s) /\ ss_Id sess' = ss_Id sess
           /\ exists ticket,
                store_StoreSession (clock (e_ticks e)) (random (e_draws e) NonceSize) (t_Config (s_toa s)) sess
                = (sess', Ok ticket)
                /\ (committed (s_rw s) = false ->
                    session_cookies (t_Config (s_toa s)) (s_rw s')
                    = session_cookies (t_Config (s_toa s)) (s_rw s) ++ ticket_cookies (t_Config (s_toa s)) ticket)
       end).
Proof.
  intros HP. unfold store_and_attach, on_toa. m_steps.
  m_call (storeSessionAndAttachCookie_ok P); [auto with toa|].
  intros [[sess' rw] err] e1 t1 (-> & -> & Hrw). m_steps.
  split; [auto with toa|]. split; [done|]. split; [done|].
  destruct err as [err|]; simpl.
  - subst rw. by rewrite http_Error_committed, http_Error_sessions.
  - destruct Hrw as (ticket & Hst & Hset). split; [by eapply setChunkedCookies_committed|]. split.
    + pose proof (store_stamps (clock (e_ticks e)) (random (e_draws e) NonceSize) (t_Config (s_toa s)) sess) as Hs.
      rewrite Hst in Hs. cbn in Hs. by subst sess'.
    + exists ticket. split; [done|]. intros Ho. by apply setChunkedCookies_sessions.
Qed.

Lemma mark_ok id e s :
  outcome P (on_toa (mark id)) e s (fun _ e' s' => e' = tick e /\ s' = set_toa
    (set_sessionWrites (mark_at (clock (e_ticks e)) id (t_sessionWrites (s_toa s))) (s_toa s)) s).
Proof. unfold on_toa, mark. by m_steps. Qed.
#[local] Opaque on_toa store_and_attach.

Lemma GenerateSessionId_ok e s :
  (~ entropy -> P) ->
  outcome P GenerateSessionId e s (fun id e' s' => s' = s /\ e' = draw e
    /\ exists bytes, random (e_draws e) 16 = Ok bytes /\ id = uuid_String bytes).
Proof.
  intros Hrnd. unfold GenerateSessionId. m_steps. m_case; m_step; [by eauto|].
  apply Hrnd. intros He. destruct (He (e_draws e) 16%nat). congruence.
Qed.

Lemma establishSession_ok token c state e s :
  (ready (s_toa s) = false -> P) -> (~ entropy -> P) ->
  outcome P (establishSession token c state) e s (fun r e' s' =>
    s_next s' = s_next s /\
    match r with
    | None => issues_nothing s s' /\ committed (s_rw s') = true
    | Some sess => session_issued s state token c e e' s'
    end).
Proof.
  intros HP Hrnd. unfold establishSession, config. m_steps.
  apply deref_ok; [auto with toa|]. intros authorization Haz. m_step.
  m_call GenerateSessionId_ok; [done|]. intros id e1 s1 (-> & -> & bytes & Hb & ->). m_steps.
  m_call store_and_attach_ok; [done|]. intros [sess [err|]] e2 s2 (Q & Ht & -> & Hr).
  - m_step. split; [apply Q|]. destruct Hr as [C Hs]. split; [|done].
    split; [by rewrite Ht; apply undisturbed_refl | by apply no_cookie_expires].
  - destruct Hr as (_ & Hid & ticket & Hst & Hs). m_step. m_call mark_ok. intros [] e3 s3 [-> ->]. m_step.
    split; [apply Q|]. exists authorization, bytes, sess, ticket. split_and!; try done.
    rewrite Hid. simpl. rewrite Ht. apply undisturbed_refl.
Qed.

#[local] Opaque establishSession GenerateSessionId handleUnauthorized.

Lemma post_login_target_nonempty cfg req w u v : post_login_target cfg req w u = Ok v -> v <> "".
Proof.
  unfold post_login_target. destruct String.eqb; simpl.
  - intros [= <-]. apply ensureAbsoluteUrl_nonempty.
  - intros (u' & _ & [= <-])%rbind_Ok_inv. apply ensureAbsoluteUrl_nonempty.
Qed.

(** The redirect to the target of the login never forwards the callback. *)
Lemma finish_login_ok req state sess e s :
  (ready (s_toa s) = false -> P) ->
  outcome P (finish_login req state sess) e s (fun _ _ s' => answers s s').
Proof.
  intros HP. unfold finish_login, config, write. m_steps. apply st_provider_ok; [done|]. intros p _.
  m_steps.
  eapply (outcome_weaken _ _ _ _ (fun _ _ s' => quiet s s')). { m_case; m_steps; auto with toa. }
  intros [] e1 s1 Q. m_case; m_steps; [|auto with toa].
  apply post_login_target_nonempty in E. m_case; m_steps; [|auto with toa].
  m_call handleUnauthorized_ok; [by eapply quiet_ready | by left |].
  intros [] e2 s2 A. by eapply answers_after.
Qed.

Lemma clear_csrf_ok csrf e s :
  outcome P (clear_csrf csrf) e s (fun _ e' s' => proceeds e s e' s' /\ s_toa s' = s_toa s).
Proof.
  unfold clear_csrf, config, write. m_steps. split; [|done]. split_and!.
  - done.
  - unfold clearLoginCsrfCookie. simpl. destruct String.eqb; [done | apply SetCookie_committed].
  - apply passage_tick.
  - apply clearLoginCsrfCookie_sessions.
Qed.

Lemma st_exchange_ok u code v e s :
  (ready (s_toa s) = false -> P) ->
  outcome P (on_toa (exchangeAuthCode u code v)) e s (fun r e' s' => proceeds e s e' s' /\ s_toa s' = s_toa s
    /\ forall token, r = Ok token -> granted (s_toa s) u code v token e e').
Proof.
  intros HP. Transparent on_toa. unfold on_toa. m_step.
  m_call (outcome_respects advances); [apply exchangeAuthCode_advances | apply exchangeAuthCode_ok; auto with toa|].
  intros r e1 t1 [[-> Hr] A]. by split; [apply proceeds_toa|].
Qed.

#[local] Opaque on_toa finish_login clear_csrf.

(** *** The handler *)

Lemma answers_nothing (L : Prop) e s e1 s1 e2 s2 :
  proceeds e s e1 s1 -> answers s1 s2 -> keeps_tickets (t_Config (s_toa s)) e1 s1 e2 s2 -> answers_login L s s2.
Proof.
  intros Pr [[N U] C] K. destruct K as (_ & _ & S2); [by eapply proceeds_Config|].
  split_and!; [by rewrite N; apply Pr | done |]. left. split.
  - eapply undisturbed_trans; [by eapply proceeds_undisturbed | exact U].
  - apply no_cookie_expires. rewrite S2. apply Pr.
Qed.

Lemma answers_write (L : Prop) e s e1 s1 msg code :
  proceeds e s e1 s1 -> answers_login L s (set_rw (http_Error msg code (s_rw s1)) s1).
Proof.
  intros Pr. split_and!; [apply Pr | apply http_Error_committed |]. left. split.
  - exact (proceeds_undisturbed _ _ _ _ Pr).
  - apply no_cookie_expires. cbn [set_rw s_rw]. rewrite http_Error_sessions. apply Pr.
Qed.

Lemma callback_login_ok req state e s :
  (ready (s_toa s) = false -> P) -> (~ entropy -> P) ->
  outcome P (callback_login req state) e s (fun _ e' s' =>
    answers_login (login_issues req state e s e' s') s s').
Proof.
  intros HP Hrnd. unfold callback_login, config, callback_url, write. m_steps.
  m_case; m_step; (m_call clear_csrf_ok; intros [] e1 s1 [P1 T1]); [|m_steps; by eapply answers_write].
  assert (HP1 : ready (s_toa s1) = false -> P) by (by rewrite T1). cbv beta zeta.
  m_case; m_steps; [by eapply answers_write|].
  m_call st_exchange_ok; [done|]. intros [token|err] e2 s2 (P2 & T2 & Hx); m_steps;
    [|eapply answers_write, proceeds_trans; done]. specialize (Hx _ eq_refl).
  assert (P12 := proceeds_trans _ _ _ _ _ _ P1 P2). rewrite <- T2 in HP1.
  m_call (outcome_respects (keeps_tickets (t_Config (s_toa s)))); [apply validateCallbackToken_keeps
    | by apply validateCallbackToken_ok |]. intros [c|] e3 s3 [Hv K3]; m_steps; [|by eapply answers_nothing].
  destruct Hv as [P3 Hc]. assert (P13 := proceeds_trans _ _ _ _ _ _ P12 P3).
  assert (HP3 : ready (s_toa s3) = false -> P) by (by rewrite (undisturbed_ready _ _ (proceeds_undisturbed _ _ _ _ P3))).
  assert (P4 := proceeds_trans _ _ _ _ _ _ P13 (proceeds_tick _ _)).
  m_steps. m_case.
  { m_call (outcome_respects (keeps_tickets (t_Config (s_toa s)))); [apply writeUnauthorizedError_keeps
      | by apply writeUnauthorizedError_ok |]. intros [] e4 s4 [A4 K4]. by eapply answers_nothing. }
  m_step. m_call establishSession_ok; [done..|]. intros [sess|] e4 s4 [N4 I]; m_steps.
  2:{ destruct I as [[U4 S4] C4]. split_and!; [rewrite N4; apply P4 | done |]. left. split.
      - eapply undisturbed_trans; [by eapply proceeds_undisturbed | exact U4].
      - destruct S4 as (l & S4 & Hl). exists l. rewrite (proceeds_Config _ _ _ _ P4) in S4.
        by rewrite S4, (proj2 (proj2 (proj2 P4))). }
  apply (session_issued_after _ _ _ _ _ _ _ _ _ P4) in I. pose proof I as (? & ? & ? & ? & _ & _ & _ & _ & U4 & _).
  m_call (outcome_respects (keeps_tickets (t_Config (s_toa s)))); [apply finish_login_keeps | apply finish_login_ok |].
  { rewrite (undisturbed_ready _ _ U4). exact HP. }
  intros [] e5 s5 [[[N5 _] C5] K5]. split_and!; [rewrite N5, N4; apply P4 | done |]. right.
  exists token, c, (tick e3), (s_toa s3). split; [|by eapply session_issued_then].
  destruct a. apply validateLoginCsrf_ok in E as [Hs Hcookie]. apply String.eqb_neq in E0.
  assert (A3 : advances e2 (s_toa s2) (tick e3) (s_toa s3)) by (eapply passage_trans; [apply P3 | apply passage_tick]).
  split_and!; [done..| | |].
  - rewrite <- T1. eapply granted_widen; [|exact Hx | by eapply advances_elapsed]. by eapply advances_elapsed, P1.
  - eapply callback_accepted_widen; [apply P12 | exact Hc | apply passage_tick].
  - intros Hch. rewrite Hch in E1. exists (clock (e_ticks e3)). split.
    + eapply reading_widen; [|by apply (reading_now e3) | done]. by eapply advances_elapsed, P13.
    + by destruct (authTimeIsFresh _ c _).
Qed.

#[local] Opaque callback_login clear_session_cookie.

(** A session for a callback: its state opens when the request begins, to a
    login. *)
Definition callback_issues (req : Request) (e : Env) (s : St) (e' : Env) (s' : St) : Prop :=
  exists state,
    UnsealState (clock (e_ticks e)) (req_query req "state") (Secret (t_Config (s_toa s))) = Ok state
    /\ st_Action state = "Login" /\ login_issues req state e s e' s'.

Lemma handleCallback_ok req e s :
  (ready (s_toa s) = false -> P) -> (~ entropy -> P) ->
  outcome P (handleCallback req) e s (fun _ e' s' =>
    answers_login (callback_issues req e s e' s') s s').
Proof.
  intros HP Hrnd. unfold handleCallback, config, write. m_steps.
  assert (P0 : proceeds e s e s) by (split_and!; [done..| apply passage_refl | done]).
  assert (P1 := proceeds_tick e s).
  assert (Hredirect : forall L u code, answers_login L s (set_rw (http_Redirect req u code (s_rw s)) s)).
  { intros L u code. split_and!; [done | apply http_Redirect_committed |]. left.
    split; [apply undisturbed_refl | apply no_cookie_expires, http_Redirect_sessions]. }
  m_case; m_steps; [by eapply answers_write|].
  destruct UnsealState as [state|err] eqn:Eu.
  2:{ destruct err; m_steps; by eapply answers_write. }
  m_case.
  { m_call callback_login_ok; [done..|]. intros [] e1 s1 (N & C & L). split_and!; [done..|].
    destruct L as [L|(token & c & e2 & t2 & L & I)]; [by left | right].
    exists state. boolprop. split_and!; [done..|]. exists token, c, e2, t2. split; [|done].
    eapply login_ok_widen; [apply elapsed_tick | apply passage_tick | done]. }
  m_case.
  { m_steps. m_call clear_session_cookie_ok; [done|]. intros [] e1 s1 (w & -> & C & X). m_steps.
    split_and!; [done | apply http_Redirect_committed |]. left. split; [apply undisturbed_refl|].
    destruct X as (l & X & Hl). exists l. cbn [set_rw s_rw]. by rewrite http_Redirect_sessions. }
  m_case; [|m_steps; apply Hredirect].
  m_call (outcome_respects (keeps_tickets (t_Config (s_toa s)))); [apply redirectToProvider_keeps
    | by apply redirectToProvider_ok |]. intros [] e1 s1 [A K]. by eapply answers_nothing.
Qed.
End Outcomes.

(** ** Properties *)

Section Properties.
Context `{Unicode, JsonText, TimeText, UrlLib, External, Jwt, Aead, AuthorityRegexp, SecretPattern}.
Context `{MediaTypes, PageTemplates, Sha256, FloatText, JsonPath, FloatInt, SessionStore, Uuid}.
Context `{!SessionStoreLaws}.

(** C6: a callback issues a session only to the browser that started the login
    and only for a token that was accepted.  Every callback is answered and
    none is forwarded.  Either no session is issued: the tracker of issued
    sessions stays, and of the session cookies the response says only which
    ones to forget.  Or, at the instant at which the request begins, the state
    parameter opens, within its lifetime, to a sealed login state; the browser
    sent the CSRF cookie of that state, with its value; in the course of the
    request the token endpoint granted a token for the code of the request,
    asked with the callback URL of the request and the verifier of the state;
    after the start of the request that token was found active, or verified
    with the nonce of the state and with a key that the cache then held; and
    after a step-up challenge the authentication was fresh at a reading of the
    clock in the request.  Then the one session that is stored is made of that
    token, with a fresh random identifier and the verdict of the authorisation
    on its claims; the session cookies that a response still open gets are those
    of its ticket and no others; and its writing is noted. *)
Theorem handleCallback_sound req e s :
  ready (s_toa s) = true -> entropy ->
  runs (handleCallback req) e s (fun _ e' s' =>
    s_next s' = s_next s /\ committed (s_rw s') = true
    /\ (issues_nothing s s'
        \/ exists state token c e1 t1,
             UnsealState (clock (e_ticks e)) (req_query req "state") (Secret (t_Config (s_toa s))) = Ok state
             /\ st_Action state = "Login"
             /\ login_ok req state token c e (s_toa s) e1 t1
             /\ session_issued s state token c e1 e' s')).
Proof.
  intros Hr Hrnd. eapply outcome_mono; [apply (handleCallback_ok False) | done |]; [by rewrite Hr | done |].
  intros [] e' s' (N & C & [L|(state & Hu & Ha & token & c & e1 & t1 & L)]); split_and!; try done; [by left | right].
  by exists state, token, c, e1, t1.
Qed.
End Properties.

Lemma fullHost_app_nonempty cfg req s : fullHost cfg req +:+ s <> "".
Proof.
  unfold fullHost. intros Hs. apply (f_equal slen) in Hs. rewrite !slen_app in Hs. simpl in Hs. lia.
Qed.

(** The allowlist of login redirects also rules over the targets that the
    middleware chose itself.  A login started by an ordinary request, without a
    redirect of its own, leads back to the URL of that request; when there is
    an allowlist without that URL, the callback refuses it, after the session
    has been issued. *)
Theorem own_target_refused `{Unicode, UrlLib, AuthorityRegexp} cfg req cb :
  ValidPostLoginRedirectUris cfg <> [] -> PostLoginRedirectUri cfg = "" ->
  pathMatchesConfiguredRoute req (LoginUri cfg) = false -> req_query req "redirect_uri" = "" ->
  fullHost cfg req +:+ url_RequestURI (r_URL req) ∉ ValidPostLoginRedirectUris cfg ->
  login_target cfg req false = Ok (fullHost cfg req +:+ url_RequestURI (r_URL req))
  /\ is_Ok (post_login_target cfg cb false (fullHost cfg req +:+ url_RequestURI (r_URL req))) = false.
Proof.
  intros Hl Hpost Hroute Hq Hnot. split.
  - unfold login_target. by rewrite Hq, Hroute, Hpost.
  - unfold post_login_target, ValidateRedirectUri.
    set (u := fullHost cfg req +:+ url_RequestURI (r_URL req)) in *.
    assert (Hu : String.eqb u "" = false) by (apply String.eqb_neq, fullHost_app_nonempty).
    rewrite Hu. destruct (ValidPostLoginRedirectUris cfg) as [|x l] eqn:El; [done|].
    assert (Hex : existsb (fun v => String.eqb u v) (x :: l) = false).
    { destruct existsb eqn:Ex; [|done]. apply exact_entry in Ex. done. }
    cbn [negb length Nat.ltb Nat.leb]. by rewrite Hex.
Qed.
