(* ===== verification/Middleware.v ===== *)
(** * The middleware: [ServeHTTP] of [src/main.go]

    The dispatch of a request, and what is proved of it. *)

From Stdlib Require Import ZArith Lia Ascii String Bool List.
From S2P Require Import Prelude GoStrings Base64 GoUrl Json Http Utils World Samples RedirectUri Config Authorization ErrorPages.
From S2P Require Import OidcState SessionStorage Jwks Cookies Tokens Session Routes Server Login Logout Callback.

Section Middleware.
Context `{Unicode, JsonText, TimeText, UrlLib, External, Jwt, Aead, AuthorityRegexp, SecretPattern}.
Context `{MediaTypes, PageTemplates, HeaderTemplates, Sha256, FloatText, JsonPath, FloatInt, SessionStore, Uuid}.

Definition has_ticket (cfg : Config) (req : Request) : bool :=
  match readChunkedCookie req (getSessionCookieName cfg) with
  | Ok ticket => negb (String.eqb ticket "")
  | Err _ => false
  end.

Definition hasSessionMaterial (cfg : Config) (req : Request) : bool :=
  if has_ticket cfg req then true
  else if match AuthorizationHeader cfg with
          | Some name => negb (String.eqb name "") && negb (String.eqb (req_header req name) "")
          | None => false
          end then true
  else match AuthorizationCookie cfg with
       | Some name =>
           negb (String.eqb name "")
           && match req_Cookie req name with Ok v => negb (String.eqb v "") | Err _ => false end
       | None => false
       end.

Definition handleUnauthenticated (req : Request) : M St unit :=
  c ← config;
  let behavior := UnauthenticatedBehavior c in
  if String.eqb behavior "Challenge" then handleLogin req false ""
  else if String.eqb behavior "Unauthorized" then writeUnauthenticatedError req
  else if String.eqb behavior "Forward" then forwardToUpstream req
  else if String.eqb behavior "Auto" then
    if IsHtmlRequest req then handleLogin req false "" else writeUnauthenticatedError req
  else writeUnauthenticatedError req.

(** The session with its authorisation evaluated again, where that is due. *)
Definition reauthorized (authorization : AuthorizationConfig) (sess : SessionState) (c : claims)
  : SessionState :=
  if external_session (ss_Id sess) || az_CheckOnEveryRequest authorization
  then set_flags (isAuthorized authorization c) (ss_ChallengeAttempted sess) sess
  else sess.

Definition reauthorize (sess : SessionState) (c : claims) : M St SessionState :=
  cfg ← config;
  authorization ← deref (Authorization cfg);
  mret (reauthorized authorization sess c).

(** The last part of an authenticated request: store when due, and forward. *)
Definition store_and_forward (req : Request) (sess : SessionState) (updateSession : bool) : M St unit :=
  due ← on_toa (sessionStoreDue (ss_Id sess) updateSession);
  if due : bool then
    r ← store_and_attach sess;
    let '(sess, err) := r in
    match err with
    | Some _ => mret tt
    | None => _ ← on_toa (mark (ss_Id sess)); next_ServeHTTP req
    end
  else next_ServeHTTP req.

(** A request with a session. *)
Definition serve_session (req : Request) (isPublic : bool) (sess : SessionState) (updateSession : bool)
  (c : claims) : M St unit :=
  cfg ← config;
  if pathMatchesConfiguredRoute req (LogoutUri cfg) then handleLogout req sess
  else if pathMatchesConfiguredRoute req (FrontChannelLogoutUri cfg)
  then handleFrontchannelLogout req sess c
  else
    sess ← reauthorize sess c;
    if negb (ss_IsAuthorized sess) && negb (String.eqb (UnauthorizedBehavior cfg) "Forward")
    then handleUnauthorized req sess ""
    else
      match attachHeaders cfg (sanitizeForUpstream cfg req) sess c isPublic (ss_IsAuthorized sess) with
      | Err _ => unavailable
      | Ok req => store_and_forward req sess updateSession
      end.

(** A request without one. The error is formatted for the log, whether or not
    that is written: a nil error is dereferenced. *)
Definition serve_anonymous (req : Request) (isPublic : bool) (err : option error) : M St unit :=
  cfg ← config;
  if isPublic then forwardToUpstream req
  else if pathMatchesConfiguredRoute req (FrontChannelLogoutUri cfg) then writeSuccessfulLogout req
  else
    _ ← deref err;
    _ ← clear_session_cookie req;
    handleUnauthenticated req.

Definition bypassed (t : Toa) (req : Request) : bool :=
  match t_BypassAuthenticationRule t with Some rule => rule req | None => false end.

Definition ServeHTTP (req : Request) : M St unit :=
  t ← gets s_toa;
  let isPublic := bypassed t req in
  if isCallbackRequest t req then
    r ← on_toa EnsureOidcDiscovery;
    match r with
    | Err _ => unavailable
    | Ok _ => handleCallback req
    end
  else if isPublic && negb (hasSessionMaterial (t_Config t) req) then forwardToUpstream req
  else
    r ← on_toa EnsureOidcDiscovery;
    match r with
    | Err _ => unavailable
    | Ok _ =>
        cfg ← config;
        if pathMatchesConfiguredRoute req (LoginUri cfg) then handleLogin req false ""
        else
          r ← on_toa (getSessionForRequest req);
          let '(sess, updateSession, c, err) := r in
          match err, sess with
          | None, Some sess => serve_session req isPublic sess updateSession c
          | _, _ => serve_anonymous req isPublic err
          end
    end.
End Middleware.

(** ** Outcomes *)

Lemma discovered_complete t t' : discovered t t' -> complete (t_Config t') = complete (t_Config t).
Proof.
  intros [->|(_ & d & iss & aud & p & j & Hp & ->)]; [done|]. simpl in *. destruct (t_Config t); simpl in *.
  unfold complete. simpl. by rewrite Hp.
Qed.

Lemma discovered_introspecting t t' :
  discovered t t' -> introspecting (t_Config t') -> introspecting (t_Config t).
Proof.
  intros [->|(_ & d & iss & aud & p & j & Hp & ->)]; [done|]. intros (q & Hq & Hv). exists p. split; [done|].
  simpl in *. destruct (t_Config t). simpl in *. injection Hq as <-. by destruct p.
Qed.

(** What a request may change in the middleware: the key cache, the tracker
    of tickets and the callback URL; and, when there is no discovery document
    yet, the document and the settings that it completes: the issuer and the
    audience, in the middleware and in the provider's configuration. *)
Definition completes (c c' : Config) : Prop :=
  exists p issuer audience, Provider c = Some p
    /\ c' = set_Provider (Some (set_valid_values issuer audience p)) c.

Definition evolves (t t' : Toa) : Prop :=
  t_ProviderURL t' = t_ProviderURL t /\ t_ClientJwtPrivateKey t' = t_ClientJwtPrivateKey t
  /\ t_BypassAuthenticationRule t' = t_BypassAuthenticationRule t
  /\ t_RedirectUriWildcardsEnabled t' = t_RedirectUriWildcardsEnabled t
  /\ (t_DiscoveryDocument t' = t_DiscoveryDocument t /\ t_Config t' = t_Config t
       \/ t_DiscoveryDocument t = None /\ t_DiscoveryDocument t' <> None
          /\ completes (t_Config t) (t_Config t')).

Lemma evolves_refl t : evolves t t.
Proof. split_and!; [done..|]. by left. Qed.

#[export] Instance evolves_trans : Transitive evolves.
Proof.
  intros t1 t2 t3 (E1 & E2 & E3 & E4 & H1) (F1 & F2 & F3 & F4 & H2).
  split_and!; [congruence..|].
  destruct H1 as [[D1 C1]|(N1 & S1 & C1)], H2 as [[D2 C2]|(N2 & S2 & C2)].
  - left. split; congruence.
  - right. by rewrite D1 in N2; rewrite C1 in C2.
  - right. by rewrite D2, C2.
  - congruence.
Qed.

Lemma discovered_evolves t t' : discovered t t' -> evolves t t'.
Proof.
  intros [->|(Hn & d & iss & aud & p & j & Hp & ->)]; [apply evolves_refl|].
  split_and!; [done..|]. right. split; [done|]. split; [done|]. by exists p, iss, aud.
Qed.

Lemma undisturbed_evolves t t' : undisturbed t t' -> evolves t t'.
Proof. intros (j & u & ->). split_and!; [done..|]. by left. Qed.

Lemma written_evolves w t t' : undisturbed (set_sessionWrites w t) t' -> evolves t t'.
Proof. intros (j & u & ->). split_and!; [done..|]. by left. Qed.

(** After the discovery, the configuration stays. *)
Definition keeps (t t' : Toa) : Prop := t_Config t' = t_Config t /\ evolves t t'.

Lemma keeps_undisturbed t t' : undisturbed t t' -> keeps t t'.
Proof. intros U. split; [by apply undisturbed_Config | by apply undisturbed_evolves]. Qed.

Lemma keeps_written w t t' : undisturbed (set_sessionWrites w t) t' -> keeps t t'.
Proof. intros U. split; [apply (undisturbed_Config _ _ U) | by eapply written_evolves]. Qed.

Lemma keeps_trans t1 t2 t3 : keeps t1 t2 -> keeps t2 t3 -> keeps t1 t3.
Proof. intros [C1 E1] [C2 E2]. split; [congruence | by etransitivity]. Qed.

#[local] Hint Resolve keeps_undisturbed undisturbed_refl : toa.

Section Outcomes.
Context `{Unicode, JsonText, TimeText, UrlLib, External, Jwt, Aead, AuthorityRegexp, SecretPattern}.
Context `{MediaTypes, PageTemplates, HeaderTemplates, Sha256, FloatText, JsonPath, FloatInt, SessionStore, Uuid}.
Context `{!SessionStoreLaws}.

(** Why a request may be forwarded, and as what. *)
Definition anonymous_forward (cfg : Config) (isPublic : bool) (req req' : Request) : Prop :=
  (isPublic = true \/ UnauthenticatedBehavior cfg = "Forward") /\ req' = sanitizeForUpstream cfg req.

(** The session is given to the request right after the discovery, between two
    moments of its handling. *)
Definition session_forward (cfg : Config) (isPublic : bool) (req : Request) (e : Env) (t : Toa) (e' : Env)
    (req' : Request) : Prop :=
  exists authorization sess upd cl e1 t1 e2 t2 sess',
    EnsureOidcDiscovery e t = Some (Ok tt, e1, t1) /\ t_Config t1 = cfg
    /\ gives_session req sess upd cl e1 t1 e2 t2 /\ elapsed e2 e'
    /\ Authorization cfg = Some authorization
    /\ sess' = reauthorized authorization sess cl
    /\ (ss_IsAuthorized sess' = true \/ UnauthorizedBehavior cfg = "Forward")
    /\ attachHeaders cfg (sanitizeForUpstream cfg req) sess' cl isPublic (ss_IsAuthorized sess') = Ok req'.

(** What a request comes to: an answer, or one request forwarded, on a
    response that is still open if it was. *)
Definition served (A : Request -> Prop) (s s' : St) : Prop :=
  (s_next s' = s_next s /\ committed (s_rw s') = true)
  \/ exists req' rw', s_next s' = s_next s ++ [(req', rw')] /\ committed rw' = committed (s_rw s) /\ A req'.

Lemma served_answers A s s' : answers s s' -> served A s s'.
Proof. intros [[E _] C]. by left. Qed.

Lemma served_after (A : Request -> Prop) s1 s2 s3 :
  s_next s2 = s_next s1 -> committed (s_rw s2) = committed (s_rw s1) -> served A s2 s3 -> served A s1 s3.
Proof.
  intros E C [[E' C']|(req' & rw' & E' & C' & HA)]; [left | right].
  - split; [congruence | done].
  - exists req', rw'. split_and!; congruence.
Qed.

Context (P : Prop).
Implicit Types (e : Env) (s : St).

#[local] Opaque handleLogin handleLogout handleFrontchannelLogout handleUnauthorized handleCallback.
#[local] Opaque writeUnauthenticatedError writeSuccessfulLogout EnsureOidcDiscovery getSessionForRequest.
#[local] Opaque clear_session_cookie store_and_attach on_toa.

Lemma handleUnauthenticated_ok req isPublic e s :
  (ready (s_toa s) = false -> P) ->
  outcome P (handleUnauthenticated req) e s (fun _ _ s' =>
    keeps (s_toa s) (s_toa s')
    /\ served (anonymous_forward (t_Config (s_toa s)) isPublic req) s s').
Proof.
  intros HP.
  assert (Hans : forall m, outcome P m e s (fun (_ : unit) _ s' => answers s s') ->
    outcome P m e s (fun _ _ s' => keeps (s_toa s) (s_toa s')
      /\ served (anonymous_forward (t_Config (s_toa s)) isPublic req) s s')).
  { intros m Hm. eapply outcome_weaken; [exact Hm|]. intros [] e1 s1 A.
    split; [apply keeps_undisturbed, A | by apply served_answers]. }
  unfold handleUnauthenticated, config, forwardToUpstream, next_ServeHTTP. m_steps.
  m_case; [by apply Hans, handleLogin_ok|]. m_case; [by apply Hans, writeUnauthenticatedError_ok|].
  m_case.
  { unfold config. m_steps. split; [auto with toa|]. right. eexists _, _. split; [done|]. split; [done|].
    boolprop. split; [by right | done]. }
  m_case; [m_case|]; first [by apply Hans, handleLogin_ok | by apply Hans, writeUnauthenticatedError_ok].
Qed.
Lemma sessionStoreDue_ok id upd e t :
  outcome P (sessionStoreDue id upd) e t (fun _ _ t' => t' = t).
Proof. unfold sessionStoreDue, sessionIdleRefreshDue. wp; done. Qed.

Lemma sessionStoreDue_passing id upd : respects passing (sessionStoreDue id upd).
Proof. unfold sessionStoreDue, sessionIdleRefreshDue. go_respects. Qed.

#[local] Opaque sessionStoreDue.

(** Serving keeps the configuration, and forwards only what [A] allows. *)
Definition serves (A : Request -> Prop) (s s' : St) : Prop :=
  keeps (s_toa s) (s_toa s') /\ served A s s'.

Lemma serves_answers A s s' : answers s s' -> serves A s s'.
Proof. intros Ha. split; [apply keeps_undisturbed, Ha | by apply served_answers]. Qed.

Lemma serves_mono (A B : Request -> Prop) s s' : (forall r, A r -> B r) -> serves A s s' -> serves B s s'.
Proof.
  intros HAB [E [Ha|(r & w & E' & C & HA)]]; (split; [done|]); [by left|]. right. exists r, w. auto.
Qed.

Lemma store_and_forward_ok req sess upd e s :
  (ready (s_toa s) = false -> P) ->
  outcome P (store_and_forward req sess upd) e s (fun _ e' s' =>
    serves (fun req' => req' = req /\ elapsed e e') s s').
Proof.
  intros HP. unfold store_and_forward, next_ServeHTTP. m_step.
  m_call on_toa_ok; [apply (outcome_respects passing); [apply sessionStoreDue_passing | apply sessionStoreDue_ok]|].
  intros due e1 s1 ([Ht E1] & t' & ->). simpl in Ht. subst t'. unfold passing in E1.
  assert (set_toa (s_toa s) s = s) as -> by (by destruct s). m_case.
  - m_step. m_call store_and_attach_ok; [done|]. intros [sess' [err|]] e2 s2 (Q & Ht & -> & C).
    + m_step. apply serves_answers. split; [done | apply C].
    + m_step. m_call mark_ok. intros [] e3 s3 [-> ->]. m_steps. split.
      { simpl. rewrite Ht. apply (keeps_written _ _ _ (undisturbed_refl _)). }
      right. exists req, (s_rw s2). simpl. split; [by rewrite (proj1 Q)|]. split; [apply C|]. split; [done|].
      destruct E1. split; simpl; [lia | done].
  - m_steps. split; [auto with toa|]. right. by exists req, (s_rw s).
Qed.

#[local] Opaque store_and_forward.

Lemma serve_session_ok req isPublic sess upd cl e0 t0 e1 t1 t2 e s :
  (ready (s_toa s) = false -> P) ->
  EnsureOidcDiscovery e0 t0 = Some (Ok tt, e1, t1) -> t_Config t1 = t_Config (s_toa s) ->
  gives_session req sess upd cl e1 t1 e t2 ->
  outcome P (serve_session req isPublic sess upd cl) e s (fun _ e' s' =>
    serves (session_forward (t_Config (s_toa s)) isPublic req e0 t0 e') s s').
Proof.
  intros HP Hdisc Hcfg Hg. unfold serve_session, reauthorize, config, unavailable, internalError, write. m_steps.
  m_case. { m_call handleLogout_ok; [done|]. intros [] e3 s3 A. by apply serves_answers. }
  m_case. { m_call handleFrontchannelLogout_ok; [done|]. intros [] e3 s3 A. by apply serves_answers. }
  m_steps. apply deref_ok; [auto with toa|]. intros authorization Ha. m_steps. m_case.
  { boolprop. m_call handleUnauthorized_ok; [done | by right |]. intros [] e3 s3 A. by apply serves_answers. }
  m_case; m_steps; [|apply serves_answers; auto with toa].
  m_call store_and_forward_ok; [done|]. intros [] e3 s3. apply serves_mono. intros r [-> Ee].
  exists authorization, sess, upd, cl, e1, t1, e, t2, (reauthorized authorization sess cl).
  split_and!; try done. apply andb_false_iff in E1 as [E1|E1]; boolprop; [by left | by right].
Qed.

Lemma serve_anonymous_ok req isPublic err e s :
  (ready (s_toa s) = false -> P) -> (err = None -> P) ->
  outcome P (serve_anonymous req isPublic err) e s (fun _ _ s' =>
    serves (anonymous_forward (t_Config (s_toa s)) isPublic req) s s').
Proof.
  intros HP Herr. unfold serve_anonymous, forwardToUpstream, next_ServeHTTP, config. m_steps. m_case.
  { unfold config. m_steps. split; [auto with toa|]. right. eexists _, _. split; [done|]. split; [done|].
    split; [by left | done]. }
  m_case. { m_call writeSuccessfulLogout_ok. intros [] e1 s1 A. by apply serves_answers. }
  m_steps. apply deref_ok; [done|]. intros err' _. m_step.
  m_call clear_session_cookie_ok; [done|]. intros [] e1 s1 (w & -> & Hw & _).
  m_call handleUnauthenticated_ok; [done|]. intros [] e2 s2 [E2 S2]. split; [done|].
  by eapply served_after, S2.
Qed.
(** The two reasons together. *)
Definition may_forward (cfg : Config) (isPublic : bool) (req : Request) (e : Env) (t : Toa) (e' : Env)
    (req' : Request) : Prop :=
  anonymous_forward cfg isPublic req req' \/ session_forward cfg isPublic req e t e' req'.

(** The session store answers neither a session nor an error. *)
Definition store_gap : Prop :=
  exists now c ticket, store_TryGetSession now c ticket = Ok None.

Lemma st_discovery_ok e s :
  (complete (t_Config (s_toa s)) = false -> P) ->
  outcome P (on_toa EnsureOidcDiscovery) e s (fun r e' s' =>
    s_next s' = s_next s /\ s_rw s' = s_rw s /\
    match r with
    | Ok _ => EnsureOidcDiscovery e (s_toa s) = Some (Ok tt, e', s_toa s')
              /\ discovered (s_toa s) (s_toa s') /\ (ready (s_toa s') = false -> P)
    | Err _ => evolves (s_toa s) (s_toa s')
    end).
Proof.
  intros HP. m_call on_toa_ok; [apply outcome_run, EnsureOidcDiscovery_ok; intros Hn; auto with toa|].
  intros [[]|err] e1 s1 ((Hr & Hrun) & t' & ->); (split; [done|]); (split; [done|]);
    [|by apply undisturbed_evolves, frame_undisturbed].
  destruct Hr as [Hd Hdoc]. split; [done|]. split; [done|]. simpl in *. unfold ready. rewrite (discovered_complete _ _ Hd).
  destruct (t_DiscoveryDocument t'); [|done]. by rewrite andb_true_r.
Qed.

#[local] Opaque serve_session serve_anonymous.

Lemma ServeHTTP_ok req e s :
  (complete (t_Config (s_toa s)) = false -> P) -> (~ entropy -> P) -> (store_gap -> P) ->
  (introspecting (t_Config (s_toa s)) -> P) ->
  outcome P (ServeHTTP req) e s (fun _ e' s' =>
    evolves (s_toa s) (s_toa s')
    /\ served (may_forward (t_Config (s_toa s')) (bypassed (s_toa s) req) req e (s_toa s) e') s s').
Proof.
  intros HP Hrnd Hgap Hint. unfold ServeHTTP, config, forwardToUpstream, next_ServeHTTP, unavailable,
    internalError, write. m_steps.
  set (pub := bypassed (s_toa s) req). m_case.
  - m_step. m_call st_discovery_ok; [done|]. intros [u|err] e1 s1 (En & Er & Hd); m_steps.
    2:{ split; [done|]. left. split; [done | apply http_Error_committed]. }
    destruct Hd as (_ & Hd%discovered_evolves & HP1).
    m_call handleCallback_ok; [done..|]. intros [] e2 s2 (E' & C & L).
    split; [|left; by rewrite E']. etransitivity; [exact Hd|]. destruct L as [[U _]|L].
    + by apply undisturbed_evolves.
    + destruct L as (? & _ & _ & ? & ? & ? & ? & _ & ? & ? & ? & ? & _ & _ & _ & _ & U & _).
      by eapply written_evolves.
  - m_case.
    { unfold config. m_steps. split; [apply evolves_refl|]. right. eexists _, _.
      split; [done|]. split; [done|]. left. apply andb_true_iff in E0 as [Hpub _]. split; [by left | done]. }
    m_step. m_call st_discovery_ok; [done|]. intros [u|err] e1 s1 (En & Er & Hd); m_steps.
    2:{ split; [done|]. left. split; [done | apply http_Error_committed]. }
    destruct Hd as (Hrun & Hd & HP1). assert (Hev := discovered_evolves _ _ Hd).
    assert (Hs : forall A e' s2, serves A s1 s2 ->
              (forall r, A r -> may_forward (t_Config (s_toa s1)) pub req e (s_toa s) e' r) ->
              evolves (s_toa s) (s_toa s2)
              /\ served (may_forward (t_Config (s_toa s2)) pub req e (s_toa s) e') s s2).
    { intros A e' s2 Hs HA. apply (serves_mono _ _ _ _ HA) in Hs as [[Ec Ev] Hs]. rewrite Ec.
      split; [by etransitivity|]. eapply served_after, Hs; [done | by rewrite Er]. }
    m_case.
    { m_call handleLogin_ok; [done|]. intros [] e2 s2 A. apply (Hs (fun _ => False)); [|done].
      by apply serves_answers. }
    m_step. m_call on_toa_ok; [apply getSessionForRequest_ok; auto with toa|].
    intros [[[so upd] cl] err] e2 s2 ((F & Hr) & t' & ->). simpl in F. cbv beta iota.
    assert (Q : quiet s1 (set_toa t' s1)) by auto with toa.
    assert (HP2 := quiet_ready _ _ P Q HP1).
    assert (Hs2 : forall A e' s3, serves A (set_toa t' s1) s3 ->
              (forall r, A r -> may_forward (t_Config (s_toa s1)) pub req e (s_toa s) e' r) ->
              evolves (s_toa s) (s_toa s3)
              /\ served (may_forward (t_Config (s_toa s3)) pub req e (s_toa s) e') s s3).
    { intros A e' s3 [Ec S3] HA. apply (Hs A); [|done]. split; [|done].
      eapply keeps_trans, Ec. apply keeps_undisturbed, Q. }
    assert (Ecfg := quiet_Config _ _ Q). destruct so as [sess|]; [destruct Hr as [-> Hg]|].
    + eapply outcome_weaken; [eapply serve_session_ok; [done | exact Hrun | by rewrite Ecfg | exact Hg] |].
      intros [] e3 s3 S3. apply (Hs2 _ _ _ S3). intros r Hf. right. by rewrite <- Ecfg.
    + assert (Herr : err = None -> P).
      { intros ->. destruct Hr as [Hi|(ticket & now & Ht)].
        - apply Hint. by eapply discovered_introspecting.
        - apply Hgap. by repeat eexists. }
      destruct err as [err|]; (m_call serve_anonymous_ok; [done..|]);
        intros [] e3 s3 S3; apply (Hs2 _ _ _ S3); intros r Hf; left; by rewrite <- Ecfg.
Qed.
End Outcomes.

(** ** Properties *)

Section Properties.
Context `{Unicode, JsonText, TimeText, UrlLib, External, Jwt, Aead, AuthorityRegexp, SecretPattern}.
Context `{MediaTypes, PageTemplates, HeaderTemplates, Sha256, FloatText, JsonPath, FloatInt, SessionStore, Uuid}.
Context `{!SessionStoreLaws}.

(** C1: what reaches the backend.  A request is either answered or forwarded
    once, never both: it is forwarded on a response that is still open, so a
    session that could not be stored is never served.  It is forwarded for one
    of two reasons: as the sanitised request itself, when the bypass rule
    matches it or the configuration forwards the unauthenticated; or with a
    session that was given to it in the course of the request, right after the
    discovery succeeded, after the authorisation is evaluated where it is due,
    when that succeeds or the configuration forwards the unauthorised, and then
    with the headers attached from that session. *)
Theorem ServeHTTP_forwards req e s :
  s_next s = [] -> committed (s_rw s) = false ->
  ends (ServeHTTP req) e s (fun _ e' s' =>
    (s_next s' = [] /\ committed (s_rw s') = true)
    \/ exists req' rw', s_next s' = [(req', rw')] /\ committed rw' = false
         /\ (anonymous_forward (t_Config (s_toa s')) (bypassed (s_toa s) req) req req'
             \/ session_forward (t_Config (s_toa s')) (bypassed (s_toa s) req) req e (s_toa s) e' req')).
Proof.
  intros Hn Hc. eapply outcome_weaken; [by apply (ServeHTTP_ok True)|].
  intros [] e' s' [_ [[E C]|(req' & rw' & E & C & A)]]; [left | right].
  - by rewrite E, Hn.
  - exists req', rw'. rewrite E, Hn, C, Hc. done.
Qed.

(** C9: what a client cannot say to the backend.  A forwarded request carries
    none of the middleware's cookies, and no identity header of the client's: a
    header of the list that the configuration does not set is absent, and on
    the paths without a session every one is. *)
Theorem ServeHTTP_clean req e s :
  s_next s = [] ->
  ends (ServeHTTP req) e s (fun _ _ s' => forall req' rw', (req', rw') ∈ s_next s' ->
    (forall c, c ∈ r_Cookies req' ->
       c ∈ r_Cookies req /\ HasPrefix c.1 (CookieNamePrefix (t_Config (s_toa s'))) = false)
    /\ forall name, name ∈ clientIdentityHeaders ->
         (anonymous_forward (t_Config (s_toa s')) (bypassed (s_toa s) req) req req'
          \/ Forall (fun hd => CanonicalMIMEHeaderKey name <> CanonicalMIMEHeaderKey (h_Name hd))
                    (Headers (t_Config (s_toa s')))) ->
         r_Header req' !! CanonicalMIMEHeaderKey name = None).
Proof.
  intros Hn. eapply outcome_weaken; [by apply (ServeHTTP_ok True)|].
  intros [] e' s' [_ [[E C]|(req1 & rw1 & E & C & A)]] req' rw' Hin; rewrite E, Hn in Hin.
  { by apply elem_of_nil in Hin. }
  apply list_elem_of_singleton in Hin. injection Hin as -> ->.
  destruct A as [[Hw ->]|(az & sess & upd & cl & e1 & t1 & e2 & t2 & sess' & _ & _ & _ & _ & _ & _ & _ & Ha)].
  - split; [apply sanitize_cookies|]. intros name Hname _. by apply sanitize_headers.
  - unfold attachHeaders in Ha. apply rbind_Ok_inv in Ha as (h & Hh & [= <-]).
    split; [apply sanitize_cookies|]. intros name Hname Hwhy. cbn [with_header r_Header].
    destruct Hwhy as [[_ Heq]|Hnot].
    + apply (f_equal r_Header) in Heq. cbn [with_header r_Header] in Heq. rewrite Heq.
      by apply sanitize_headers.
    + rewrite (attach_loop_other _ _ _ _ _ _ _ Hnot Hh). by apply sanitize_headers.
Qed.

(** Every request is handled.  With the pointers of a configuration that
    [New] accepts, randomness, and a store that gives a session or an error,
    the middleware never panics, unless tokens are validated by introspection:
    it answers the request or forwards it. *)
Theorem ServeHTTP_total req e s :
  s_next s = [] -> complete (t_Config (s_toa s)) = true -> entropy -> ~ store_gap ->
  ~ introspecting (t_Config (s_toa s)) ->
  runs (ServeHTTP req) e s (fun _ _ s' =>
    (s_next s' = [] /\ committed (s_rw s') = true)
    \/ exists forwarded, s_next s' = [forwarded]).
Proof.
  intros Hn Hc Hrnd Hgap Hi. eapply outcome_weaken.
  { apply (ServeHTTP_ok False); [by rewrite Hc | done..]. }
  intros [] e' s' [_ [[E C]|(req' & rw' & E & C & A)]]; rewrite E, Hn; [by left | right; by eexists].
Qed.
End Properties.

(** The cookie storage gives a session or an error. *)
Lemma cookie_store_no_gap `{Unicode, JsonText, TimeText, Aead} : ~ store_gap.
Proof.
  intros (now & c & ticket & Hs). cbn in Hs. apply rbind_Ok_inv in Hs as (st & _ & Hs). discriminate.
Qed.

(** A session that is neither found nor refused ends in a panic.  When the
    lookup for an ordinary request gives no session and no error, the request
    is not answered: its nil error is dereferenced for the log. *)
Theorem no_session_no_error_panics
  `{Unicode, JsonText, TimeText, UrlLib, External, Jwt, Aead, AuthorityRegexp, SecretPattern}
  `{MediaTypes, PageTemplates, HeaderTemplates, Sha256, FloatText, JsonPath, FloatInt, SessionStore, Uuid}
  req e s upd cl e' t' :
  isCallbackRequest (s_toa s) req = false -> bypassed (s_toa s) req = false ->
  t_DiscoveryDocument (s_toa s) <> None ->
  pathMatchesConfiguredRoute req (LoginUri (t_Config (s_toa s))) = false ->
  pathMatchesConfiguredRoute req (FrontChannelLogoutUri (t_Config (s_toa s))) = false ->
  getSessionForRequest req e (s_toa s) = Some ((None, upd, cl, None), e', t') ->
  ServeHTTP req e s = None.
Proof.
  intros Hcb Hpub Hdoc Hlogin Hfront Hg.
  assert (F : t_Config t' = t_Config (s_toa s)).
  { pose proof (getSessionForRequest_ok True req e (s_toa s) (fun _ => I)) as Ho.
    unfold outcome in Ho. rewrite Hg in Ho. by apply frame_Config, Ho. }
  assert (Hdisc : on_toa EnsureOidcDiscovery e s = Some (Ok tt, e, s)).
  { unfold on_toa, zoom, EnsureOidcDiscovery, mbind, M_bind, gets.
    destruct (t_DiscoveryDocument (s_toa s)); [|done]. unfold lift, mret, M_ret. by destruct s. }
  unfold ServeHTTP, mbind, M_bind, gets. rewrite Hcb, Hpub. cbn [andb]. rewrite Hdisc.
  unfold config, gets. rewrite Hlogin. unfold on_toa at 1, zoom. rewrite Hg.
  unfold serve_anonymous, mbind, M_bind, config, gets. simpl. by rewrite F, Hfront.
Qed.
