(* ===== verification/Setup.v ===== *)
(** * Building a middleware: [New] of [src/config.go]

    The configuration as it is expanded, checked and turned into a middleware.
    The code assigns to the configuration it is given; here the result holds
    the configuration as [New] leaves it.  After an error both programs drop
    the configuration, and so does the model.  What [New] builds for the HTTP
    client (certificates, timeouts) is outside: requests go to [External]. *)

From Stdlib Require Import ZArith Lia Ascii String Bool List SpecFloat.
From S2P Require Import Prelude GoStrings Base64 GoUrl Json Http Utils World Config Authorization Predicate Rules ErrorPages.
From S2P Require Import Network Jwks Cookies Tokens Session Routes Server Login.

(** [jwt.ParseRSAPrivateKeyFromPEM] *)
Class PemKeys := { ParseRSAPrivateKeyFromPEM : string -> result string }.

(** [hex.EncodeToString] *)
Definition hex_lower (n : nat) : ascii :=
  match String.get n "0123456789abcdef" with Some c => c | None => "0"%char end.

Fixpoint hex_EncodeToString (s : string) : string :=
  match s with
  | EmptyString => ""
  | String c s' =>
      String (hex_lower (nat_of_ascii c / 16)) (String (hex_lower (nat_of_ascii c mod 16)) (hex_EncodeToString s'))
  end.

(** The [http.Client] for the provider: whether it verifies certificates, what
    is appended to the system's pool, and the bound on a whole request.  The
    requests themselves go to [External]. *)
Record HttpClient := {
  hc_InsecureSkipVerify : bool;
  hc_CABundle : option string;
  hc_Timeout : duration
}.

(** What [New] returns: a middleware and its client, or, for the test data of the plugin
    catalog, one without configuration and logger, which panics when it is
    used. *)
Inductive handler :=
| Catalog
| Middleware (t : Toa) (httpClient : HttpClient).

Section Setup.
Context `{Os, MapOrder, UrlLib, PemKeys, Unicode, Regexp, GoParser, HeaderTemplates, Sha256}.

Local Abbreviation expand := ExpandEnvironmentVariableString.
Local Abbreviation expand_bool := ExpandEnvironmentVariableBoolean.

Definition expand_LogLevel (c : Config) : Config :=
  match c with
  | Build_Config level f1 f2 f3 f4 f5 f6 f7 f8 f9 f10 f11 f12 f13 f14 f15 f16 f17 f18 f19 f20 f21 f22
      f23 f24 f25 f26 f27 f28 f29 =>
      Build_Config (expand level) f1 f2 f3 f4 f5 f6 f7 f8 f9 f10 f11 f12 f13 f14 f15 f16 f17 f18 f19 f20
        f21 f22 f23 f24 f25 f26 f27 f28 f29
  end.

(** The expansions of the provider's settings, and the client's key. *)
Definition expand_provider (p : ProviderConfig) : result (ProviderConfig * option string) :=
  let? usePkce := expand_bool (pv_UsePkce p) (pv_UsePkceBool p) in
  let? useClaims := expand_bool (pv_UseClaimsFromUserInfo p) (pv_UseClaimsFromUserInfoBool p) in
  let? validateIssuer := expand_bool (pv_ValidateIssuer p) (pv_ValidateIssuerBool p) in
  let? validateAudience := expand_bool (pv_ValidateAudience p) (pv_ValidateAudienceBool p) in
  let? validateNonce := expand_bool (pv_ValidateNonce p) (pv_ValidateNonceBool p) in
  let? insecure := expand_bool (pv_InsecureSkipVerify p) (pv_InsecureSkipVerifyBool p) in
  let keyId := expand (pv_ClientJwtPrivateKeyId p) in
  let key := expand (pv_ClientJwtPrivateKey p) in
  let? clientKey :=
    (if negb (String.eqb key "") && negb (String.eqb keyId "")
     then let? k := ParseRSAPrivateKeyFromPEM key in Ok (Some k)
     else Ok None) in
  let revoke := expand (pv_RevokeTokensOnLogout p) in
  let? revokeBool := expand_bool revoke (pv_RevokeTokensOnLogoutBool p) in
  Ok ({|
    pv_Url := expand (pv_Url p);
    pv_InsecureSkipVerify := pv_InsecureSkipVerify p; pv_InsecureSkipVerifyBool := insecure;
    pv_CABundle := expand (pv_CABundle p); pv_CABundleFile := expand (pv_CABundleFile p);
    pv_ClientId := expand (pv_ClientId p); pv_ClientSecret := expand (pv_ClientSecret p);
    pv_ClientJwtPrivateKey := key; pv_ClientJwtPrivateKeyId := keyId;
    pv_UsePkce := pv_UsePkce p; pv_UsePkceBool := usePkce;
    pv_ValidateAudience := pv_ValidateAudience p; pv_ValidateAudienceBool := validateAudience;
    pv_ValidAudience := expand (pv_ValidAudience p);
    pv_ValidateIssuer := pv_ValidateIssuer p; pv_ValidateIssuerBool := validateIssuer;
    pv_ValidIssuer := expand (pv_ValidIssuer p);
    pv_TokenValidation := expand (pv_TokenValidation p);
    pv_TokenRenewalThreshold := pv_TokenRenewalThreshold p;
    pv_UseClaimsFromUserInfo := pv_UseClaimsFromUserInfo p; pv_UseClaimsFromUserInfoBool := useClaims;
    pv_ValidateNonce := pv_ValidateNonce p; pv_ValidateNonceBool := validateNonce;
    pv_TokenClockSkewSeconds :=
      if pv_TokenClockSkewSeconds p <? 0 then 60 else pv_TokenClockSkewSeconds p;
    pv_RevokeTokensOnLogout := revoke; pv_RevokeTokensOnLogoutBool := revokeBool;
    pv_MaxAuthAgeSeconds := pv_MaxAuthAgeSeconds p;
    pv_OidcTimeoutSeconds := if pv_OidcTimeoutSeconds p <=? 0 then 30 else pv_OidcTimeoutSeconds p
  |}, clientKey).

(** The loop over [TrustedProxies]: an entry that expands to nothing is
    skipped, one that does not parse ends the construction. *)
Fixpoint expand_proxies (proxies : list string) (nets : list IPNet) : result (list IPNet) :=
  match proxies with
  | [] => Ok nets
  | proxy :: rest =>
      let proxy := expand proxy in
      if String.eqb proxy "" then expand_proxies rest nets
      else
        let? network := ParseCIDR proxy in
        expand_proxies rest (nets ++ [network])
  end.

Definition expand_page (page : ErrorPageConfig) : ErrorPageConfig :=
  {| ep_FilePath := expand (ep_FilePath page); ep_RedirectTo := expand (ep_RedirectTo page) |}.

(** Nil pages are dereferenced. *)
Definition expand_pages (pages : option ErrorPagesConfig) : result ErrorPagesConfig :=
  match pages with
  | Some {| ep_Unauthenticated := Some a; ep_Unauthorized := Some z |} =>
      Ok {| ep_Unauthenticated := Some (expand_page a); ep_Unauthorized := Some (expand_page z) |}
  | _ => Err ErrPanic
  end.

(** ** Checks *)

(** The bounds that may not be negative; a map, visited in its own order. *)
Definition session_bounds (c : Config) (p : ProviderConfig) : gmap string Z :=
  {["max_session_lifetime_seconds" := MaxSessionLifetimeSeconds c;
    "session_idle_timeout_seconds" := SessionIdleTimeoutSeconds c;
    "provider.max_auth_age_seconds" := pv_MaxAuthAgeSeconds p]}.

Definition check_bounds (c : Config) (p : ProviderConfig) : result unit :=
  match list_find (fun b => b.2 < 0) (map_range (session_bounds c p)) with
  | Some (_, (name, _)) => errorf ("invalid " +:+ name)
  | None => Ok tt
  end.

Definition check_reserved (c : Config) : result unit :=
  match list_find (fun kv => slice_contains reservedAuthorizationParams kv.1)
          (map_range (AuthorizationParams c)) with
  | Some (_, (key, _)) => errorf ("reserved authorizationParams key " +:+ key)
  | None => Ok tt
  end.

Definition float_0_5 : spec_float := S754_finite false 4503599627370496 (-53).
Definition float_1 : spec_float := S754_finite false 4503599627370496 (-52).

Definition check_threshold (t : spec_float) : result unit :=
  if SFltb t float_0_5 || SFltb float_1 t then errorf "invalid TokenRenewalThreshold" else Ok tt.

Definition check_secret (secret : string) : result unit :=
  if String.eqb secret DefaultSecret then errorf "default secret is not allowed"
  else if negb (slen secret =? 32)%nat then errorf "invalid secret"
  else Ok tt.

Definition check_choice (what : string) (choices : list string) (value : string) : result unit :=
  if slice_contains choices value then Ok tt else errorf ("invalid " +:+ what).

Definition derived_prefix (clientId : string) : string :=
  "TraefikOidcAuth." +:+ hex_EncodeToString (stake 4 (sha256_Sum clientId)).

(** The bytes of the configured bundle, read and decoded. *)
Definition load_ca_bundle (p : ProviderConfig) : result (option string) :=
  if negb (String.eqb (pv_CABundle p) "") then
    if HasPrefix (pv_CABundle p) "base64:"
    then let? caBundleData := DecodeString StdEncoding (TrimPrefix (pv_CABundle p) "base64:") in
         Ok (Some caBundleData)
    else Ok (Some (pv_CABundle p))
  else if negb (String.eqb (pv_CABundleFile p) "")
  then let? caBundleData := Utils.os_ReadFile (pv_CABundleFile p) in Ok (Some caBundleData)
  else Ok None.

Definition new_http_client (p : ProviderConfig) (caBundleData : option string) : HttpClient := {|
  hc_InsecureSkipVerify := pv_InsecureSkipVerifyBool p;
  hc_CABundle := caBundleData;
  hc_Timeout := seconds (pv_OidcTimeoutSeconds p)
|}.

Definition compile_header (hd : HeaderConfig) : result HeaderConfig :=
  let compiled source :=
    let? _ := tpl_Parse source in
    Ok {| h_Name := h_Name hd; h_Value := h_Value hd; h_Values := h_Values hd;
          h_IncludeWhen := h_IncludeWhen hd; h_Template := Some source |} in
  if negb (String.eqb (h_Value hd) "") && negb (String.eqb (h_Values hd) "") then errorf "invalid Header"
  else if negb (String.eqb (h_Value hd) "") then compiled (h_Value hd)
  else if negb (String.eqb (h_Values hd) "") then compiled (h_Values hd)
  else Ok hd.

Definition bypass_rule (rule : string) : result (option condition) :=
  if negb (String.eqb rule "") then let? ca := ParseRequestCondition rule in Ok (Some ca) else Ok None.

Definition os_Getenv (name : string) : string := default "" (os_LookupEnv name).

(** ** The constructor *)

Definition default_scopes : list string := ["openid"; "profile"; "email"].

(** The configuration of the middleware: the given one, with what [New]
    assigned to it. *)
Definition configured (c : Config) (p : ProviderConfig) (pages : ErrorPagesConfig) (nets : list IPNet)
  (headers : list HeaderConfig) : Config :=
  let behaviors :=
    migrateAuthBehaviors (expand (UnauthenticatedBehavior c), expand (UnauthorizedBehavior c)) in
  {| LogLevel := LogLevel c;
     Secret := expand (Secret c);
     Provider := Some p;
     Scopes := if (length (Scopes c) =? 0)%nat then default_scopes else Scopes c;
     CallbackUri := expand (CallbackUri c);
     LoginUri := expand (LoginUri c);
     PostLoginRedirectUri := expand (PostLoginRedirectUri c);
     ValidPostLoginRedirectUris := ValidPostLoginRedirectUris c;
     LogoutUri := expand (LogoutUri c);
     PostLogoutRedirectUri := expand (PostLogoutRedirectUri c);
     ValidPostLogoutRedirectUris := ValidPostLogoutRedirectUris c;
     FrontChannelLogoutUri := expand (FrontChannelLogoutUri c);
     SessionStorageType := SessionStorageType c;
     CookieNamePrefix :=
       let prefix := expand (CookieNamePrefix c) in
       if String.eqb prefix "" then derived_prefix (pv_ClientId p) else prefix;
     SessionCookie := SessionCookie c;
     AuthorizationHeader := AuthorizationHeader c;
     AuthorizationCookie := AuthorizationCookie c;
     UnauthenticatedBehavior := behaviors.1;
     UnauthorizedBehavior := behaviors.2;
     Authorization := Authorization c;
     Headers := headers;
     BypassAuthenticationRule := expand (BypassAuthenticationRule c);
     ErrorPages := Some pages;
     RequestedResources := RequestedResources c;
     AuthorizationParams := AuthorizationParams c;
     AuthorizationParamsOverridable := AuthorizationParamsOverridable c;
     TrustedProxies := TrustedProxies c;
     TrustedProxyNets := nets;
     MaxSessionLifetimeSeconds := MaxSessionLifetimeSeconds c;
     SessionIdleTimeoutSeconds := SessionIdleTimeoutSeconds c |}.

Definition check_bundles (p : ProviderConfig) : result unit :=
  if negb (String.eqb (pv_CABundle p) "") && negb (String.eqb (pv_CABundleFile p) "")
  then errorf "you can only use an inline CABundle OR CABundleFile, not both" else Ok tt.

Definition check_sameSite (sc : option SessionCookieConfig) : result unit :=
  match sc with
  | None => Err ErrPanic
  | Some sc =>
      match (parseCookieSameSiteChecked (sc_SameSite sc)).2 with Some err => Err err | None => Ok tt end
  end.

(** The checks between the parsing of the URLs and the loading of the
    certificates. *)
Definition check_settings (c : Config) (p : ProviderConfig) : result unit :=
  let? _ := check_threshold (pv_TokenRenewalThreshold p) in
  let? _ := check_choice "provider.verification_token" ["AccessToken"; "IdToken"; "Introspection"]
              (pv_TokenValidation p) in
  let? _ := check_choice "session_storage_type" [""; SessionStorageTypeCookie] (SessionStorageType c) in
  let? _ := check_bounds c p in
  let? _ := check_sameSite (SessionCookie c) in
  check_reserved c.

Definition New (cfg : Config) : result (Config * handler) :=
  let cfg := expand_LogLevel cfg in
  match Provider cfg with
  | None => errorf "missing provider configuration"
  | Some p =>
      if String.eqb (pv_Url p) "https://..." then Ok (cfg, Catalog)
      else
        let? (p, clientAssertionPrivateKey) := expand_provider p in
        let? nets := expand_proxies (TrustedProxies cfg) (TrustedProxyNets cfg) in
        let? pages := expand_pages (ErrorPages cfg) in
        let? _ := check_secret (expand (Secret cfg)) in
        let? _ := check_bundles p in
        let? parsedURL := ParseUrl (pv_Url p) in
        let? parsedCallbackURL := url_Parse (expand (CallbackUri cfg)) in
        let? _ := check_settings cfg p in
        let? conditionalAuth := bypass_rule (expand (BypassAuthenticationRule cfg)) in
        let? caBundleData := load_ca_bundle p in
        let? headers := map_result compile_header (Headers cfg) in
        let? wildcards := expand_bool (os_Getenv "TOA_ENABLE_REDIRECT_URI_WILDCARDS") false in
        let cfg := configured cfg p pages nets headers in
        Ok (cfg, Middleware {|
          t_ProviderURL := parsedURL;
          t_ClientJwtPrivateKey := clientAssertionPrivateKey;
          t_CallbackURL := parsedCallbackURL;
          t_Config := cfg;
          t_DiscoveryDocument := None;
          t_Jwks := new_handler;
          t_BypassAuthenticationRule := conditionalAuth;
          t_RedirectUriWildcardsEnabled := wildcards;
          t_validIssuer := "";
          t_validAudience := "";
          t_sessionWrites := {| sw_last := ∅; sw_count := 0 |} |} (new_http_client p caBundleData))
  end.

(** [warnDisabledRedirectWildcards]: the entries a warning is logged for. *)
Definition warnDisabledRedirectWildcards (uris : list string) : list string :=
  List.filter (fun uri => Contains uri "*") uris.
End Setup.

(** ** What a configuration is, once it is accepted *)

Record valid_provider (p : ProviderConfig) : Prop := {
  vp_validation : pv_TokenValidation p ∈ ["AccessToken"; "IdToken"; "Introspection"];
  vp_threshold : SFltb (pv_TokenRenewalThreshold p) float_0_5 = false
                 /\ SFltb float_1 (pv_TokenRenewalThreshold p) = false;
  vp_skew : 0 <= pv_TokenClockSkewSeconds p;
  vp_auth_age : 0 <= pv_MaxAuthAgeSeconds p;
  vp_timeout : 0 < pv_OidcTimeoutSeconds p;
  vp_bundle : pv_CABundle p = "" \/ pv_CABundleFile p = ""
}.

(** A header is rendered from one of its sources, and the template is
    compiled. *)
Definition valid_header (hd : HeaderConfig) : Prop :=
  (h_Value hd = "" \/ h_Values hd = "")
  /\ (h_Value hd <> "" -> h_Template hd = Some (h_Value hd))
  /\ (h_Values hd <> "" -> h_Template hd = Some (h_Values hd)).

Record valid_config (c : Config) : Prop := {
  vc_provider : exists p, Provider c = Some p /\ valid_provider p;
  vc_secret : Secret c <> DefaultSecret /\ slen (Secret c) = 32%nat;
  vc_prefix : CookieNamePrefix c <> "";
  vc_scopes : Scopes c <> [];
  vc_storage : SessionStorageType c ∈ [""; SessionStorageTypeCookie];
  vc_bounds : 0 <= MaxSessionLifetimeSeconds c /\ 0 <= SessionIdleTimeoutSeconds c;
  vc_cookie : exists sc, SessionCookie c = Some sc
                /\ sc_SameSite sc ∈ ["none"; "lax"; "strict"; ""; "default"];
  vc_behaviors : UnauthenticatedBehavior c <> "" /\ UnauthorizedBehavior c <> "";
  vc_pages : exists a z, ErrorPages c = Some {| ep_Unauthenticated := Some a; ep_Unauthorized := Some z |};
  vc_params : forall key, key ∈ reservedAuthorizationParams -> AuthorizationParams c !! key = None;
  vc_headers : Forall valid_header (Headers c)
}.

Section Contract.
Context `{Os, MapOrder, UrlLib, PemKeys, Unicode, Regexp, GoParser, HeaderTemplates, Sha256}.
Context `{!MapOrderLaws}.

Lemma map_result_Forall {A B} (f : A -> result B) (Q : B -> Prop) l l' :
  (forall x y, f x = Ok y -> Q y) -> map_result f l = Ok l' -> Forall Q l'.
Proof.
  intros Hf. revert l'. induction l as [|x l IH]; simpl; intros l'; [intros [= <-]; constructor|].
  intros (y & Hy & (ys & Hys & [= <-])%rbind_Ok_inv)%rbind_Ok_inv. constructor; eauto.
Qed.

(** A search over a map that finds nothing. *)
Lemma find_none {A} (Q : string * A -> Prop) `{forall kv, Decision (Q kv)} (m : gmap string A) k x :
  list_find Q (map_range m) = None -> m !! k = Some x -> ~ Q (k, x).
Proof.
  intros Hn Hk. apply list_find_None in Hn. rewrite Forall_forall in Hn.
  by apply Hn, map_range_elem.
Qed.

Lemma check_bounds_Ok c p u :
  check_bounds c p = Ok u ->
  0 <= MaxSessionLifetimeSeconds c /\ 0 <= SessionIdleTimeoutSeconds c /\ 0 <= pv_MaxAuthAgeSeconds p.
Proof.
  unfold check_bounds. destruct list_find as [[i [name v]]|] eqn:E; [done|]. intros _.
  assert (Hb : forall k v, session_bounds c p !! k = Some v -> 0 <= v).
  { intros k v Hk. pose proof (find_none _ _ _ _ E Hk). simpl in *. lia. }
  split_and!; [apply (Hb "max_session_lifetime_seconds") | apply (Hb "session_idle_timeout_seconds")
              | apply (Hb "provider.max_auth_age_seconds")]; reflexivity.
Qed.

Lemma check_reserved_Ok c u key :
  check_reserved c = Ok u -> key ∈ reservedAuthorizationParams -> AuthorizationParams c !! key = None.
Proof.
  unfold check_reserved. destruct list_find as [[i [name v]]|] eqn:E; [done|]. intros _ Hr.
  destruct (AuthorizationParams c !! key) as [v|] eqn:Ek; [|done].
  destruct (find_none _ _ _ _ E Ek). apply slice_contains_spec in Hr. cbn [fst]. by rewrite Hr.
Qed.

Lemma compile_header_Ok hd hd' : compile_header hd = Ok hd' -> valid_header hd'.
Proof.
  unfold compile_header, valid_header.
  destruct (String.eqb_spec (h_Value hd) "") as [E|E], (String.eqb_spec (h_Values hd) "") as [E'|E'];
    simpl; [intros [= <-] | intros (u & _ & [= <-])%rbind_Ok_inv.. | done]; simpl; rewrite ?E, ?E';
    split_and!; auto; done.
Qed.

Lemma check_sameSite_Ok sc u :
  check_sameSite sc = Ok u -> exists s, sc = Some s /\ sc_SameSite s ∈ ["none"; "lax"; "strict"; ""; "default"].
Proof.
  destruct sc as [s|]; [|done]. simpl. intros E. exists s. split; [done|]. apply slice_contains_spec.
  revert E. unfold parseCookieSameSiteChecked, slice_contains. simpl.
  by destruct (String.eqb _ "none"), (String.eqb _ "lax"), (String.eqb _ "strict"), (String.eqb _ ""),
    (String.eqb _ "default").
Qed.

Lemma expand_provider_Ok p p' key :
  expand_provider p = Ok (p', key) ->
  0 <= pv_TokenClockSkewSeconds p' /\ 0 < pv_OidcTimeoutSeconds p'
  /\ pv_TokenRenewalThreshold p' = pv_TokenRenewalThreshold p
  /\ pv_MaxAuthAgeSeconds p' = pv_MaxAuthAgeSeconds p.
Proof.
  unfold expand_provider. intros Hp.
  do 8 apply rbind_Ok_inv in Hp as (? & _ & Hp). injection Hp as <- <-. simpl.
  split; [|split; [|done]].
  - destruct (Z.ltb_spec (pv_TokenClockSkewSeconds p) 0); lia.
  - destruct (Z.leb_spec (pv_OidcTimeoutSeconds p) 0); lia.
Qed.

Lemma check_choice_Ok what choices v u : check_choice what choices v = Ok u -> v ∈ choices.
Proof. unfold check_choice. destruct slice_contains eqn:E; [|done]. intros _. by apply slice_contains_spec. Qed.

Lemma check_settings_Ok c p u :
  check_settings c p = Ok u ->
  (SFltb (pv_TokenRenewalThreshold p) float_0_5 = false /\ SFltb float_1 (pv_TokenRenewalThreshold p) = false)
  /\ pv_TokenValidation p ∈ ["AccessToken"; "IdToken"; "Introspection"]
  /\ SessionStorageType c ∈ [""; SessionStorageTypeCookie]
  /\ (0 <= MaxSessionLifetimeSeconds c /\ 0 <= SessionIdleTimeoutSeconds c /\ 0 <= pv_MaxAuthAgeSeconds p)
  /\ (exists s, SessionCookie c = Some s /\ sc_SameSite s ∈ ["none"; "lax"; "strict"; ""; "default"])
  /\ (forall key, key ∈ reservedAuthorizationParams -> AuthorizationParams c !! key = None).
Proof.
  unfold check_settings.
  intros (t & Ht & (v & Hv & (st & Hst & (b & Hb & (cs & Hcs & Hr)%rbind_Ok_inv)%rbind_Ok_inv)
    %rbind_Ok_inv)%rbind_Ok_inv)%rbind_Ok_inv.
  split_and!.
  1,2: unfold check_threshold in Ht; by destruct (SFltb (_ p) _), (SFltb float_1 _).
  1,2: by eapply check_choice_Ok.
  1-3: by apply (check_bounds_Ok _ _ _ Hb).
  - by eapply check_sameSite_Ok.
  - intros key. by eapply check_reserved_Ok.
Qed.

Lemma check_secret_Ok s u : check_secret s = Ok u -> s <> DefaultSecret /\ slen s = 32%nat.
Proof.
  unfold check_secret. destruct (String.eqb_spec s DefaultSecret); [done|].
  by destruct (Nat.eqb_spec (slen s) 32).
Qed.

Lemma check_bundles_Ok p u : check_bundles p = Ok u -> pv_CABundle p = "" \/ pv_CABundleFile p = "".
Proof.
  unfold check_bundles. destruct (String.eqb_spec (pv_CABundle p) ""); [by left|].
  destruct (String.eqb_spec (pv_CABundleFile p) ""); [by right | done].
Qed.

Lemma expand_pages_Ok ps ps' :
  expand_pages ps = Ok ps' ->
  exists a z, ps' = {| ep_Unauthenticated := Some a; ep_Unauthorized := Some z |}.
Proof. destruct ps as [[[a|] [z|]]|]; try done. simpl. intros [= <-]. eauto. Qed.

Lemma migrate_expanded a z : (migrateAuthBehaviors (a, z)).1 <> "" /\ (migrateAuthBehaviors (a, z)).2 <> "".
Proof. apply migrate_set. Qed.

Lemma derived_prefix_nonempty id : derived_prefix id <> "".
Proof. done. Qed.

(** The client of a configuration: it verifies certificates unless it is told
    not to, trusts what the bundle says beside the system's pool, and bounds
    every request, unless the number of seconds overflows. *)
Definition configured_client (c : Config) (client : HttpClient) : Prop :=
  exists p, Provider c = Some p
    /\ hc_InsecureSkipVerify client = pv_InsecureSkipVerifyBool p
    /\ (pv_CABundle p = "" -> pv_CABundleFile p = "" -> hc_CABundle client = None)
    /\ (pv_CABundle p <> "" -> HasPrefix (pv_CABundle p) "base64:" = false ->
         hc_CABundle client = Some (pv_CABundle p))
    /\ (seconds_ok (pv_OidcTimeoutSeconds p) -> 0 < pv_OidcTimeoutSeconds p ->
         hc_Timeout client = pv_OidcTimeoutSeconds p * Second).

Lemma load_ca_bundle_Ok p ca :
  load_ca_bundle p = Ok ca ->
  (pv_CABundle p = "" -> pv_CABundleFile p = "" -> ca = None)
  /\ (pv_CABundle p <> "" -> HasPrefix (pv_CABundle p) "base64:" = false -> ca = Some (pv_CABundle p)).
Proof.
  unfold load_ca_bundle. destruct (String.eqb_spec (pv_CABundle p) "") as [->|Hne]; cbn [negb].
  - intros Hl. split; [|done]. intros _ Hf. rewrite Hf in Hl. by injection Hl.
  - intros Hl. split; [done|]. intros _ Hp. rewrite Hp in Hl. by injection Hl.
Qed.

Lemma new_http_client_configured c p ca pages nets headers :
  load_ca_bundle p = Ok ca -> configured_client (configured c p pages nets headers) (new_http_client p ca).
Proof.
  intros [Hn Hb]%load_ca_bundle_Ok. exists p. split_and!; try done.
  intros Hs _. by apply seconds_no_overflow.
Qed.

(** A bound that overflows is negative, and a client with a negative bound
    waits for ever. *)
Example timeout_overflows : seconds 9223372037 < 0.
Proof. reflexivity. Qed.

(** What a middleware is built from. *)
Lemma New_inv cfg cfg' t client :
  New cfg = Ok (cfg', Middleware t client) ->
  exists p0 p key nets pages headers caBundleData,
    let c := expand_LogLevel cfg in
    Provider cfg = Some p0 /\ expand_provider p0 = Ok (p, key)
    /\ expand_proxies (TrustedProxies c) (TrustedProxyNets c) = Ok nets
    /\ expand_pages (ErrorPages c) = Ok pages
    /\ check_secret (ExpandEnvironmentVariableString (Secret c)) = Ok tt
    /\ check_bundles p = Ok tt /\ check_settings c p = Ok tt
    /\ map_result compile_header (Headers c) = Ok headers
    /\ load_ca_bundle p = Ok caBundleData /\ client = new_http_client p caBundleData
    /\ cfg' = configured c p pages nets headers /\ t_Config t = cfg'
    /\ t_DiscoveryDocument t = None.
Proof.
  unfold New. assert (Provider (expand_LogLevel cfg) = Provider cfg) as -> by (by destruct cfg).
  destruct (Provider cfg) as [p0|]; [|done]. destruct String.eqb; [done|].
  intros ([p key] & Hp & (nets & Hn & (pages & Hg & ([] & Hs & ([] & Hb & (url & _ & (cb & _ & ([] & Hc &
    (rule & _ & (ca & Hca & (hs & Hh & (w & _ & [= <- <- <-])%rbind_Ok_inv)%rbind_Ok_inv)%rbind_Ok_inv)
    %rbind_Ok_inv)%rbind_Ok_inv)%rbind_Ok_inv)%rbind_Ok_inv)%rbind_Ok_inv)%rbind_Ok_inv)%rbind_Ok_inv)
    %rbind_Ok_inv)%rbind_Ok_inv.
  by eexists p0, p, key, nets, pages, hs, ca.
Qed.

Lemma New_gives_valid cfg cfg' t client :
  New cfg = Ok (cfg', Middleware t client) ->
  t_Config t = cfg' /\ valid_config cfg' /\ t_DiscoveryDocument t = None
  /\ Authorization cfg' = Authorization cfg /\ configured_client cfg' client.
Proof.
  intros (p0 & p & key & nets & pages & hs & ca & Hp0 & Hp & Hn & Hg & Hs & Hb & Hc & Hh & Hca & -> & -> & Ht & Hd)%New_inv.
  split; [done|]. split; [|split; [done | split; [by destruct cfg | by eapply new_http_client_configured]]].
  apply expand_provider_Ok in Hp as (Hskew & Htime & Hthr & Hage).
  apply check_settings_Ok in Hc as (Hthr' & Hval & Hst & (Hb1 & Hb2 & Hb3) & Hcookie & Hres).
  constructor; simpl; [|by eapply check_secret_Ok| | |done|done|done|apply migrate_expanded| |done|].
  - exists p. split; [done|]. constructor; try done. by eapply check_bundles_Ok.
  - destruct String.eqb eqn:E; [apply derived_prefix_nonempty | by apply String.eqb_neq].
  - destruct (Scopes (expand_LogLevel cfg)); done.
  - apply expand_pages_Ok in Hg as (a & z & ->). by exists a, z.
  - eapply map_result_Forall, Hh. apply compile_header_Ok.
Qed.

(** C10: what [New] accepts.  The middleware it builds holds the configuration
    it leaves, and that is a valid one: the sealing secret is 32 bytes and not
    the published default, the bounds are not negative, the validation, the
    storage and the SameSite attribute are among the known ones, the cookie
    prefix and both behaviours are set, no protocol parameter is configured,
    every header has one source and its template is compiled, and the pointers
    that the handlers dereference are there, if the authorisation is.  Its
    client verifies certificates unless it is configured not to. *)
Theorem New_valid cfg cfg' t client :
  New cfg = Ok (cfg', Middleware t client) ->
  t_Config t = cfg' /\ valid_config cfg' /\ t_DiscoveryDocument t = None
  /\ Authorization cfg' = Authorization cfg /\ configured_client cfg' client.
Proof. apply New_gives_valid. Qed.
End Contract.
