(* ===== verification/Lifecycle.v ===== *)
(** * The life of a middleware

    A middleware is built once and then serves requests, one after the other.
    What a sequence of requests keeps, and that every one of them is handled:
    the composition of [Setup] and [Middleware]. *)

From Stdlib Require Import ZArith Lia Ascii String Bool List.
From S2P Require Import Prelude GoStrings Base64 GoUrl Json Http Utils World RedirectUri Config Authorization ErrorPages.
From S2P Require Import Predicate Rules OidcState SessionStorage Jwks Cookies Tokens Session Routes Server Login Logout Callback Middleware Setup.

(** A valid configuration with its claim rules is one the handlers can run
    on, and stays one when the discovery completes it. *)
Lemma valid_complete c : valid_config c -> Authorization c <> None -> complete c = true.
Proof.
  intros V Ha. destruct (vc_provider c V) as (p & Hp & _), (vc_cookie c V) as (s & Hs & _),
    (vc_pages c V) as (a & z & Hz). unfold complete. rewrite Hp, Hs, Hz. by destruct (Authorization c).
Qed.

Lemma valid_provider_completed issuer audience p :
  valid_provider p -> valid_provider (set_valid_values issuer audience p).
Proof. intros [? ? ? ? ? ?]. by destruct p; constructor. Qed.

Lemma completes_provider c c' :
  completes c c' -> exists p issuer audience, Provider c = Some p
    /\ Provider c' = Some (set_valid_values issuer audience p).
Proof. intros (p & iss & aud & Hp & ->). exists p, iss, aud. by destruct c. Qed.

Lemma completes_Authorization c c' : completes c c' -> Authorization c' = Authorization c.
Proof. intros (p & iss & aud & _ & ->). by destruct c. Qed.

Lemma valid_completed c c' : completes c c' -> valid_config c -> valid_config c'.
Proof.
  intros Hc V. destruct (vc_provider c V) as (p & Hp & Vp).
  destruct Hc as (q & iss & aud & Hq & ->). assert (q = p) as -> by congruence. clear Hq.
  destruct V as [_ ? ? ? ? ? ? ? ? ? ?]. destruct c; constructor; simpl in *; try done.
  eexists. split; [done | by apply valid_provider_completed].
Qed.

Section Lifecycle.
Context `{Unicode, JsonText, TimeText, UrlLib, External, Jwt, Aead, AuthorityRegexp, SecretPattern}.
Context `{MediaTypes, PageTemplates, HeaderTemplates, Sha256, FloatText, JsonPath, FloatInt, SessionStore, Uuid}.
Context `{Os, MapOrder, PemKeys, Regexp, GoParser}.
Context `{!SessionStoreLaws, !MapOrderLaws}.

(** A request meets the middleware as the requests before it left it. *)
Definition incoming (t : Toa) : St := {| s_toa := t; s_rw := empty_response; s_next := [] |}.

Inductive request_step (t : Toa) : Toa -> Prop :=
| handled req e e' s' : ServeHTTP req e (incoming t) = Some (tt, e', s') -> request_step t (s_toa s').

Lemma request_evolves t t' : request_step t t' -> evolves t t'.
Proof.
  intros [req e e' s' Hs].
  pose proof (ServeHTTP_ok True req e (incoming t) (fun _ => I) (fun _ => I) (fun _ => I) (fun _ => I)) as Ho.
  unfold outcome in Ho. rewrite Hs in Ho. apply Ho.
Qed.

Lemma requests_evolve t t' : rtc request_step t t' -> evolves t t'.
Proof. induction 1 as [t|t1 t2 t3 Hs _ IH]; [apply evolves_refl|]. by etransitivity; [apply request_evolves|]. Qed.

Lemma evolves_Config t t' : evolves t t' -> t_Config t' = t_Config t \/ completes (t_Config t) (t_Config t').
Proof. intros (_ & _ & _ & _ & [[_ C]|(_ & _ & C)]); auto. Qed.

Lemma evolves_valid t t' : evolves t t' -> valid_config (t_Config t) -> valid_config (t_Config t').
Proof. intros [->|C]%evolves_Config V; [done | by eapply valid_completed]. Qed.

Lemma evolves_Authorization t t' :
  evolves t t' -> Authorization (t_Config t') = Authorization (t_Config t).
Proof. intros [->|C]%evolves_Config; [done | by apply completes_Authorization]. Qed.

Lemma evolves_introspecting t t' :
  evolves t t' -> introspecting (t_Config t') -> introspecting (t_Config t).
Proof.
  intros [->|(p & iss & aud & Hp & Hp')%completes_provider]%evolves_Config; [done|].
  intros (q & Hq & Hv). exists p. split; [done|]. rewrite Hp' in Hq. injection Hq as <-. by destruct p.
Qed.

(** C7: what the requests keep.  From its construction on, the middleware's
    configuration is valid; the provider's address, the client's key, the
    bypass rule and the wildcard switch are those of [New]; and once the
    provider is discovered, the document and the whole configuration never
    change again, before that only by the issuer and the audience that the
    discovery fills in. *)
Theorem requests_invariant cfg cfg' t0 client t1 t2 :
  New cfg = Ok (cfg', Middleware t0 client) ->
  rtc request_step t0 t1 -> rtc request_step t1 t2 ->
  valid_config (t_Config t2)
  /\ t_ProviderURL t2 = t_ProviderURL t0 /\ t_ClientJwtPrivateKey t2 = t_ClientJwtPrivateKey t0
  /\ t_BypassAuthenticationRule t2 = t_BypassAuthenticationRule t0
  /\ t_RedirectUriWildcardsEnabled t2 = t_RedirectUriWildcardsEnabled t0
  /\ (t_Config t2 = cfg' \/ completes cfg' (t_Config t2))
  /\ (t_DiscoveryDocument t1 <> None ->
      t_DiscoveryDocument t2 = t_DiscoveryDocument t1 /\ t_Config t2 = t_Config t1).
Proof.
  intros (<- & V & _)%New_gives_valid R01%requests_evolve R12%requests_evolve.
  assert (R02 : evolves t0 t2) by (by etransitivity).
  split; [by eapply evolves_valid|].
  pose proof (evolves_Config _ _ R02). destruct R02 as (E1 & E2 & E3 & E4 & _).
  split_and!; [done..|].
  destruct R12 as (_ & _ & _ & _ & [[D C]|(N & _ & _)]); [done|]. by intros [].
Qed.

(** C3: every request is served.  A middleware that [New] builds, from a
    configuration with its claim rules, never panics: given randomness and a
    store that gives a session or an error, after any sequence of requests the
    next one is answered, or forwarded once.  Introspection is excluded: there
    a request can panic. *)
Theorem requests_served cfg cfg' t0 client t req e :
  New cfg = Ok (cfg', Middleware t0 client) -> Authorization cfg <> None -> ~ introspecting cfg' ->
  entropy -> ~ store_gap -> rtc request_step t0 t ->
  runs (ServeHTTP req) e (incoming t) (fun _ _ s' =>
    request_step t (s_toa s')
    /\ ((s_next s' = [] /\ committed (s_rw s') = true) \/ exists forwarded, s_next s' = [forwarded])).
Proof.
  intros (<- & V & _ & Ha & _)%New_gives_valid Hz Hi Hrnd Hgap Hr%requests_evolve.
  eapply outcome_weaken.
  { apply outcome_run, (ServeHTTP_ok False); [|done|done|].
    - simpl. rewrite valid_complete; [done | by eapply evolves_valid |].
      by rewrite (evolves_Authorization _ _ Hr), Ha.
    - intros Hi'. apply Hi. by eapply evolves_introspecting. }
  intros [] e' s' [[_ Hs] Hrun]. split; [by econstructor|].
  destruct Hs as [[E C]|(req' & rw' & E & C & A)]; rewrite E; [by left | right; by eexists].
Qed.
End Lifecycle.
