(* ===== verification/Hosts.v ===== *)
(** * Hosts of clients: [cmd/extauth-server/router.go], [config_multi.go]

    The server chooses a client by the host of a request: an exact host first,
    then the longest wildcard.  The routing table is a Go map; the code ranges
    over it, so the order of its entries is the parameter [MapOrder]. *)

From Stdlib Require Import ZArith Lia Ascii String Bool List.
From S2P Require Import Prelude GoStrings Config Network.

Section Hosts.
Context `{Unicode, MapOrder}.

Definition normalizeHost (host : string) : string :=
  let host := TrimSpace (ToLower host) in
  let host := match SplitHostPort host with Some (h, _) => h | None => host end in
  TrimSuffix host ".".

Definition validateHostPattern (n : string) : result unit :=
  if negb (Contains n "*") then Ok tt
  else if String.eqb n "*" then errorf "host matches nothing"
  else if negb (HasPrefix n "*.") then errorf "invalid wildcard host: only the whole leftmost label"
  else
    let suffix := sdrop 1 n in
    if negb (Contains (sdrop 1 suffix) ".") then errorf "invalid wildcard host: at least two labels"
    else Ok tt.

(** One entry of the loop: a longer wildcard replaces the best so far, and so
    does one of the same length. *)
Definition wildcard_covers (pattern host : string) : bool :=
  HasPrefix pattern "*."
  && (let suffix := sdrop 1 pattern in
      HasSuffix host suffix && negb (slen host <=? slen suffix)%nat).

Definition wildcard_step {A} (host : string) (best : string * option A) (entry : string * A)
  : string * option A :=
  let '(pattern, h) := entry in
  if negb (wildcard_covers pattern host) then best
  else if (slen best.1 <=? slen pattern)%nat then (pattern, Some h) else best.

Definition lookupHost {A} (m : gmap string A) (host : string) : option A :=
  let host := normalizeHost host in
  match m !! host with
  | Some h => Some h
  | None =>
      let best := fold_left (wildcard_step host) (map_range m) ("", None) in
      if String.eqb best.1 "" then None else best.2
  end.
End Hosts.

(** ** Wildcards *)

Lemma wildcard_covers_spec pattern host :
  wildcard_covers pattern host = true
  <-> exists suffix label, pattern = "*." +:+ suffix /\ label <> "" /\ host = label +:+ "." +:+ suffix.
Proof.
  unfold wildcard_covers. rewrite !andb_true_iff, HasPrefix_spec, HasSuffix_spec, negb_true_iff, Nat.leb_gt.
  split.
  - intros ((suffix & ->) & (label & ->) & Hl). exists suffix, label. cbn in *. split; [done|].
    split; [|done]. intros ->. simpl in Hl. lia.
  - intros (suffix & label & -> & Hl & ->). split; [by exists suffix|]. cbn.
    split; [by exists label|]. rewrite slen_app. cbn.
    destruct label as [|c label]; [done|]. cbn. lia.
Qed.

(** Two wildcards of one length that cover a host are the same. *)
Lemma wildcard_unique p q host :
  wildcard_covers p host = true -> wildcard_covers q host = true -> slen p = slen q -> p = q.
Proof.
  intros (s & l & -> & _ & E)%wildcard_covers_spec (s' & l' & -> & _ & E')%wildcard_covers_spec Hlen.
  rewrite E in E'. rewrite !slen_app in Hlen. cbn in Hlen.
  assert (Hl : slen (l +:+ "." +:+ s) = slen (l' +:+ "." +:+ s')) by (by rewrite E').
  rewrite !slen_app in Hl. cbn in Hl. apply sapp_inj_len in E' as [_ [= ->]]; [done | lia].
Qed.

(** What the loop has found among the entries visited. *)
Definition best_of {A} (host : string) (l : list (string * A)) (best : string * option A) : Prop :=
  match best with
  | (p, Some h) => (p, h) ∈ l /\ wildcard_covers p host = true
      /\ forall q x, (q, x) ∈ l -> wildcard_covers q host = true -> (slen q <= slen p)%nat
  | (p, None) => p = "" /\ forall q x, (q, x) ∈ l -> wildcard_covers q host = false
  end.

Lemma wildcard_loop {A} host (l done : list (string * A)) best :
  best_of host done best -> best_of host (done ++ l) (fold_left (wildcard_step host) l best).
Proof.
  revert done best. induction l as [|[q y] l IH]; intros seen best Hb; [by rewrite app_nil_r|].
  cbn [fold_left]. replace (seen ++ (q, y) :: l) with ((seen ++ [(q, y)]) ++ l) by (by rewrite <- app_assoc).
  apply IH. unfold wildcard_step. destruct (wildcard_covers q host) eqn:Eq; cbn [negb].
  - destruct best as [p [h|]]; cbn [fst].
    + destruct Hb as (Hp & Hc & Hmax). destruct (Nat.leb_spec (slen p) (slen q)) as [Hle|Hlt]; simpl.
      * split; [set_solver|]. split; [done|]. intros r x [Hr|[= -> ->]%list_elem_of_singleton]%elem_of_app Hrc;
          [|done]. specialize (Hmax r x Hr Hrc). lia.
      * split; [set_solver|]. split; [done|]. intros r x [Hr|[= -> ->]%list_elem_of_singleton]%elem_of_app Hrc;
          [by eapply Hmax | lia].
    + destruct Hb as [-> Hfound]. simpl. split; [set_solver|]. split; [done|].
      intros r x [Hr|[= -> ->]%list_elem_of_singleton]%elem_of_app Hrc; [|done].
      by rewrite (Hfound r x Hr) in Hrc.
  - assert (Hnew : forall r x, (r, x) ∈ seen ++ [(q, y)] -> wildcard_covers r host = true -> (r, x) ∈ seen).
    { intros r x [Hr|[= -> ->]%list_elem_of_singleton]%elem_of_app Hrc; [done | congruence]. }
    destruct best as [p [h|]]; simpl.
    + destruct Hb as (Hp & Hc & Hmax). split; [set_solver|]. split; [done|]. intros r x Hr Hrc. eauto.
    + destruct Hb as [-> Hfound]. split; [done|].
      intros r x Hr. destruct (wildcard_covers r host) eqn:Er; [|done].
      rewrite <- (Hfound r x); eauto.
Qed.

Lemma wildcard_start {A} (l : list (string * A)) host :
  best_of host l (fold_left (wildcard_step host) l ("", None)).
Proof. apply (wildcard_loop host l []). split; [done|]. by intros q x ?%elem_of_nil. Qed.

(** ** The lookup *)

(** The reference: the entry of the host itself, or that of the longest
    wildcard that covers it. *)
Definition routes_to {A} (m : gmap string A) (host : string) (h : A) : Prop :=
  m !! host = Some h
  \/ m !! host = None
     /\ exists p, m !! p = Some h /\ wildcard_covers p host = true
          /\ forall q, is_Some (m !! q) -> wildcard_covers q host = true -> q <> p -> (slen q < slen p)%nat.

Section Lookup.
Context `{Unicode, MapOrderLaws}.

Lemma lookupHost_routes {A} (m : gmap string A) host :
  match lookupHost m host with
  | Some h => routes_to m (normalizeHost host) h
  | None => forall h, ~ routes_to m (normalizeHost host) h
  end.
Proof.
  unfold lookupHost, routes_to. set (n := normalizeHost host).
  destruct (m !! n) as [h|] eqn:En; [by left|].
  assert (Hb : best_of n (map_range m) (fold_left (wildcard_step n) (map_range m) ("", None))).
  { apply wildcard_start. }
  destruct fold_left as [p [h|]]; cbn [fst snd].
  - destruct Hb as (Hp%map_range_elem & Hc & Hmax). destruct (String.eqb_spec p "") as [->|Hne].
    { vm_compute in Hc. discriminate. }
    right. split; [done|]. exists p. split; [done|]. split; [done|]. intros q [x Hx] Hq Hpq.
    assert (slen q <= slen p)%nat by (eapply Hmax; [by apply map_range_elem | done]).
    assert (slen q <> slen p) by (intros E; by eapply Hpq, wildcard_unique). lia.
  - destruct Hb as [-> Hn]. simpl. intros h [|(_ & p & Hp & Hc & _)]; [done|].
    by rewrite (Hn p h (proj2 (map_range_elem m p h) Hp)) in Hc.
Qed.

Lemma routes_to_unique {A} (m : gmap string A) n h h' : routes_to m n h -> routes_to m n h' -> h = h'.
Proof.
  intros [E|(E & p & Hp & Hc & Hm)] [E'|(E' & q & Hq & Hc' & Hm')]; try congruence.
  destruct (decide (p = q)) as [->|Hpq]; [congruence|].
  pose proof (Hm q ltac:(by eexists) Hc' ltac:(done)). pose proof (Hm' p ltac:(by eexists) Hc Hpq). lia.
Qed.

Lemma lookupHost_Some {A} (m : gmap string A) host h :
  lookupHost m host = Some h <-> routes_to m (normalizeHost host) h.
Proof.
  pose proof (lookupHost_routes m host) as Hl. split.
  - intros E. by rewrite E in Hl.
  - intros Hr. destruct (lookupHost m host) as [h'|]; [|by destruct (Hl h)].
    f_equal. by eapply routes_to_unique.
Qed.

(** C17: which client serves a host.  Whatever order the table is visited in,
    the lookup gives the entry of the normalised host, or else that of the
    longest wildcard that covers it, which is longer than every other one that
    does; and nothing exactly when there is neither. *)
Theorem lookupHost_spec {A} (m : gmap string A) host :
  (forall h, lookupHost m host = Some h <-> routes_to m (normalizeHost host) h)
  /\ (lookupHost m host = None <->
      m !! normalizeHost host = None
      /\ forall p, is_Some (m !! p) -> wildcard_covers p (normalizeHost host) = false).
Proof.
  split; [intros h; apply lookupHost_Some|]. pose proof (lookupHost_routes m host) as Hl. split.
  - intros E. rewrite E in Hl. destruct (m !! normalizeHost host) as [h|] eqn:En; [by destruct (Hl h); left|].
    split; [done|]. unfold lookupHost in E. rewrite En in E.
    assert (Hb := wildcard_start (map_range m) (normalizeHost host)).
    destruct fold_left as [p [h|]].
    + destruct Hb as (_ & Hc & _). cbn [fst snd] in E.
      destruct (String.eqb_spec p "") as [->|]; [vm_compute in Hc; discriminate | done].
    + destruct Hb as (_ & Hn). intros q [x Hx]. by eapply Hn, map_range_elem.
  - intros [En Hn]. destruct (lookupHost m host) as [h|]; [|done].
    destruct Hl as [E|(_ & p & Hp & Hc & _)]; [congruence|]. by rewrite Hn in Hc; [|eexists].
Qed.
End Lookup.

(** ** What is accepted as a pattern *)

Lemma Contains_dot s : Contains s "." = true -> exists a b, s = a +:+ "." +:+ b.
Proof. intros (a & b & ->)%Contains_spec. by exists a, b. Qed.

(** No accepted wildcard catches a whole top-level domain: a host that an
    accepted pattern covers has a label of its own below two others. *)
Theorem validateHostPattern_narrow n host :
  validateHostPattern n = Ok tt -> wildcard_covers n host = true ->
  exists label a b, label <> "" /\ host = label +:+ "." +:+ a +:+ "." +:+ b /\ n = "*." +:+ a +:+ "." +:+ b.
Proof.
  intros Hv (suffix & label & -> & Hl & ->)%wildcard_covers_spec.
  unfold validateHostPattern in Hv. cbn [String.append Contains] in Hv.
  destruct (negb (Contains _ _)) eqn:E.
  { exfalso. apply negb_true_iff in E. rewrite Contains_byte_in in E. discriminate E. }
  destruct (String.eqb _ _) eqn:E1; [discriminate|]. destruct (negb (HasPrefix _ _)) eqn:E2; [discriminate|].
  cbn [sdrop] in Hv. destruct (Contains suffix ".") eqn:E3; [|discriminate].
  apply Contains_dot in E3 as (a & b & ->). by exists label, a, b.
Qed.

(** A pattern with a further star is accepted, and covers only hosts that have
    the star too, which no client asks for. *)
Lemma inner_star_dead s host :
  wildcard_covers ("*." +:+ s) host = true -> byte_in "*" s = true -> byte_in "*" host = true.
Proof.
  intros (suffix & label & E & _ & ->)%wildcard_covers_spec Hs. injection E as ->.
  by rewrite byte_in_app; cbn; rewrite Hs, !orb_true_r.
Qed.

Example inner_star_accepted : validateHostPattern "*.*.com" = Ok tt.
Proof. vm_compute. reflexivity. Qed.
