(* ===== verification/MultiConfig.v ===== *)
(** * Several clients in one process: [cmd/extauth-server/config_multi.go], [reload.go]

    The file of clients, what is refused in it, and the routing table built
    from it.  Handlers are shared by the hosts of a client and keep their state
    while they serve, so the table holds references into a list of handlers. *)

From Stdlib Require Import ZArith Lia Ascii String Bool List.
From S2P Require Import Prelude GoStrings Utils Config Predicate Network Hosts.

Record clientEntry := {
  cl_ID : string;
  cl_Hosts : list string;
  cl_Config : Config
}.

(** [yaml.v3]: the list of nodes under [clients], and the two decodings of a
    node; the second one writes over a configuration. *)
Class Yaml := {
  yaml_node : Type;
  yaml_clients : string -> result (list yaml_node);
  yaml_meta : yaml_node -> result (string * list string);
  yaml_config : yaml_node -> Config -> result Config
}.

Definition rejectNilSubStructs (cfg : Config) : result unit :=
  if is_none (Provider cfg) then errorf "provider must not be null"
  else if is_none (SessionCookie cfg) then errorf "sessionCookie must not be null"
  else if is_none (AuthorizationHeader cfg) then errorf "authorizationHeader must not be null"
  else if is_none (AuthorizationCookie cfg) then errorf "authorizationCookie must not be null"
  else if is_none (Authorization cfg) then errorf "authorization must not be null"
  else match ErrorPages cfg with
       | None => errorf "errorPages must not be null"
       | Some pages =>
           if is_none (ep_Unauthenticated pages) then errorf "errorPages.unauthenticated must not be null"
           else if is_none (ep_Unauthorized pages) then errorf "errorPages.unauthorized must not be null"
           else Ok tt
       end.

(** ** Validation *)

(** The maps of [validateMultiConfig], from a value to the client that has
    it. *)
Record taken := {
  tk_ids : gmap string string;
  tk_hosts : gmap string string;
  tk_prefixes : gmap string string;
  tk_secrets : gmap string string
}.

Definition none_taken : taken := {| tk_ids := ∅; tk_hosts := ∅; tk_prefixes := ∅; tk_secrets := ∅ |}.

Section Validate.
Context `{Unicode}.

(** The loop over the hosts of a client. *)
Fixpoint validate_hosts (id : string) (seen : gset string) (hosts : gmap string string) (l : list string)
  : result (gmap string string) :=
  match l with
  | [] => Ok hosts
  | h :: l =>
      let n := normalizeHost h in
      if String.eqb n "" then errorf "empty host"
      else
        let? _ := validateHostPattern n in
        if bool_decide (n ∈ seen) then validate_hosts id seen hosts l
        else match hosts !! n with
             | Some _ => errorf "duplicate host"
             | None => validate_hosts id ({[n]} ∪ seen) (<[n := id]> hosts) l
             end
  end.

Definition validate_client (t : taken) (c : clientEntry) : result taken :=
  let id := cl_ID c in
  let prefix := CookieNamePrefix (cl_Config c) in
  let secret := Secret (cl_Config c) in
  if is_some (tk_ids t !! id) then errorf "duplicate id"
  else if is_some (tk_prefixes t !! prefix) then errorf "duplicate cookieNamePrefix"
  else if is_some (tk_secrets t !! secret) then errorf "duplicate secret"
  else
    let? hosts := validate_hosts id ∅ (tk_hosts t) (cl_Hosts c) in
    Ok {| tk_ids := <[id := id]> (tk_ids t); tk_hosts := hosts;
          tk_prefixes := <[prefix := id]> (tk_prefixes t);
          tk_secrets := <[secret := id]> (tk_secrets t) |}.

Fixpoint validate_clients (t : taken) (l : list clientEntry) : result taken :=
  match l with
  | [] => Ok t
  | c :: l => let? t := validate_client t c in validate_clients t l
  end.

Definition validateMultiConfig (clients : list clientEntry) : result unit :=
  let? _ := validate_clients none_taken clients in Ok tt.

(** ** Parsing *)

Context `{Yaml, Os}.

Definition parse_client (node : yaml_node) : result clientEntry :=
  let? (id, hosts) := yaml_meta node in
  if String.eqb id "" then errorf "id is required"
  else if (length hosts =? 0)%nat then errorf "hosts must be non-empty"
  else
    let? cfg := yaml_config node CreateConfig in
    let? _ := rejectNilSubStructs cfg in
    Ok {| cl_ID := id; cl_Hosts := hosts; cl_Config := cfg |}.

Definition parseMultiConfig (data : string) : result (list clientEntry) :=
  let? nodes := yaml_clients data in
  if (length nodes =? 0)%nat then errorf "clients: must contain at least one client"
  else
    let? clients := map_result parse_client nodes in
    let? _ := validateMultiConfig clients in
    Ok clients.

Definition parseMultiConfigFile (path : string) : result (list clientEntry) :=
  let? data := os_ReadFile path in parseMultiConfig data.
End Validate.

(** ** The routing table *)

Section Build.
Context `{Unicode} {A : Type} (factory : Config -> string -> result (Config * A)).

(** The table under construction, and the handlers it refers to. *)
Fixpoint build_clients (out : gmap string nat) (secrets : gmap string string) (handlers : list A)
  (l : list clientEntry) : result (gmap string nat * list A) :=
  match l with
  | [] => Ok (out, handlers)
  | c :: l =>
      let? (cfg, h) := factory (cl_Config c) ("extauth-server/" +:+ cl_ID c) in
      if is_some (secrets !! Secret cfg) then errorf "duplicate secret after expand"
      else
        let out := fold_left (fun out host => <[normalizeHost host := length handlers]> out) (cl_Hosts c) out in
        build_clients out (<[Secret cfg := cl_ID c]> secrets) (handlers ++ [h]) l
  end.

Definition buildHostMap (handlers : list A) (clients : list clientEntry)
  : result (gmap string nat * list A) :=
  build_clients ∅ ∅ handlers clients.
End Build.

(** ** Isolation of the clients *)

Section Isolation.
Context `{Unicode}.

Definition host_names (c : clientEntry) : list string := map normalizeHost (cl_Hosts c).

(** What one client needs so that it can be added to others. *)
Record fits (others : list clientEntry) (c : clientEntry) : Prop := {
  fit_id : cl_ID c ∉ map cl_ID others;
  fit_prefix : CookieNamePrefix (cl_Config c) ∉ map (fun c => CookieNamePrefix (cl_Config c)) others;
  fit_secret : Secret (cl_Config c) ∉ map (fun c => Secret (cl_Config c)) others;
  fit_valid : forall n, n ∈ host_names c -> n <> "" /\ validateHostPattern n = Ok tt;
  fit_hosts : forall c' n, c' ∈ others -> n ∈ host_names c' -> n ∉ host_names c
}.

(** The clients share no identifier, no cookie prefix, no secret and no host,
    and every host is one a client can have. *)
Record isolated (clients : list clientEntry) : Prop := {
  iso_ids : NoDup (map cl_ID clients);
  iso_prefixes : NoDup (map (fun c => CookieNamePrefix (cl_Config c)) clients);
  iso_secrets : NoDup (map (fun c => Secret (cl_Config c)) clients);
  iso_valid : forall c n, c ∈ clients -> n ∈ host_names c -> n <> "" /\ validateHostPattern n = Ok tt;
  iso_hosts : forall i j c c' n, clients !! i = Some c -> clients !! j = Some c' ->
    n ∈ host_names c -> n ∈ host_names c' -> i = j
}.

Lemma NoDup_snoc {B} (l : list B) x : NoDup (l ++ [x]) <-> NoDup l /\ x ∉ l.
Proof.
  rewrite NoDup_app. split.
  - intros (Hl & Hx & _). split; [done|]. intros Hin. by apply (Hx x Hin), list_elem_of_singleton.
  - intros [Hl Hx]. split; [done|]. split; [|apply NoDup_singleton].
    intros y Hy ->%list_elem_of_singleton. done.
Qed.

Lemma isolated_snoc clients c : isolated (clients ++ [c]) <-> isolated clients /\ fits clients c.
Proof.
  split.
  - intros [Hi Hp Hs Hv Hh]. rewrite !map_app in *. simpl in *. rewrite !NoDup_snoc in *.
    split; constructor; try tauto.
    + intros c' n Hc. apply Hv. set_solver.
    + intros i j c1 c2 n H1 H2. apply Hh; by apply lookup_app_l_Some.
    + intros n. apply Hv. set_solver.
    + intros c' n [i Hc]%list_elem_of_lookup Hn Hn'.
      assert (E : i = length clients).
      { eapply Hh; [by apply lookup_app_l_Some | | exact Hn | exact Hn'].
        by rewrite lookup_app_r, Nat.sub_diag. }
      apply lookup_lt_Some in Hc. lia.
  - intros [[Hi Hp Hs Hv Hh] [Fi Fp Fs Fv Fh]]. constructor; rewrite ?map_app; simpl; rewrite ?NoDup_snoc; auto.
    + intros c' n [Hc| ->%list_elem_of_singleton]%elem_of_app; eauto.
    + intros i j c1 c2 n [[_ H1]|[-> <-]]%lookup_snoc_Some [[_ H2]|[-> <-]]%lookup_snoc_Some H3 H4; [eauto| | |done].
      * by destruct (Fh c1 n (list_elem_of_lookup_2 _ _ _ H1)).
      * by destruct (Fh c2 n (list_elem_of_lookup_2 _ _ _ H2)).
Qed.

Lemma isolated_app_l clients l : isolated (clients ++ l) -> isolated clients.
Proof.
  revert clients. induction l as [|c l IH]; intros clients Hl; [by rewrite app_nil_r in Hl|].
  apply (isolated_snoc clients c), IH. by rewrite <- app_assoc.
Qed.

Lemma isolated_nil : isolated [].
Proof. constructor; try apply NoDup_nil_2; intros; set_solver. Qed.

(** ** Validation decides it *)

(** A host the client may list: it can be a host, and is free or its own. *)
Definition host_free (seen : gset string) (hosts : gmap string string) (n : string) : Prop :=
  n <> "" /\ validateHostPattern n = Ok tt /\ (n ∈ seen \/ hosts !! n = None).

Lemma host_free_insert id seen hosts n h :
  hosts !! n = None -> host_free ({[n]} ∪ seen) (<[n := id]> hosts) h
  <-> h = n /\ n <> "" /\ validateHostPattern n = Ok tt \/ h <> n /\ host_free seen hosts h.
Proof.
  intros Hn. unfold host_free. destruct (decide (h = n)) as [->|Hne].
  - rewrite lookup_insert_eq. set_solver.
  - rewrite lookup_insert_ne by done. set_solver.
Qed.

Lemma validate_hosts_spec id l : forall seen hosts,
  (forall n, n ∈ seen -> is_Some (hosts !! n)) ->
  match validate_hosts id seen hosts l with
  | Ok hosts' =>
      Forall (host_free seen hosts) (map normalizeHost l)
      /\ forall n, is_Some (hosts' !! n) <-> is_Some (hosts !! n) \/ n ∈ map normalizeHost l
  | Err _ => ~ Forall (host_free seen hosts) (map normalizeHost l)
  end.
Proof.
  induction l as [|h l IH]; intros seen hosts Hseen; cbn [validate_hosts map].
  { split; [constructor|]. intros n. set_solver. }
  set (n := normalizeHost h).
  destruct (String.eqb_spec n "") as [E|Hne]; [by intros [[? _] _]%Forall_cons|].
  destruct (validateHostPattern n) as [[]|err] eqn:Ev; cbn [rbind].
  2:{ intros [(_ & Hv & _) _]%Forall_cons. congruence. }
  case_bool_decide as Hin.
  - specialize (IH seen hosts Hseen). destruct validate_hosts as [hosts'|]; [|by intros [_ ?]%Forall_cons].
    destruct IH as [Hl Hd]. split; [constructor; [by split_and!; [..|left] | done]|].
    intros k. rewrite Hd, elem_of_cons. split; [tauto|]. intros [?|[->|?]]; auto.
  - destruct (hosts !! n) as [prev|] eqn:Eh; [intros [(_ & _ & [|]) _]%Forall_cons; congruence|].
    assert (Hseen' : forall k, k ∈ {[n]} ∪ seen -> is_Some (<[n := id]> hosts !! k)).
    { intros k Hk. rewrite lookup_insert. case_decide; [by eexists|]. apply Hseen. set_solver. }
    specialize (IH _ _ Hseen').
    assert (Hfree : Forall (host_free ({[n]} ∪ seen) (<[n := id]> hosts)) (map normalizeHost l)
                    <-> Forall (host_free seen hosts) (map normalizeHost l)).
    { rewrite !Forall_forall. setoid_rewrite host_free_insert; [|done]. split; intros Hl k Hk.
      - destruct (Hl k Hk) as [(-> & _)|[_ ?]]; [|done]. by split_and!; [..|right].
      - destruct (decide (k = n)); [left | right]; auto. }
    destruct validate_hosts as [hosts'|]; [|by intros [_ ?%Hfree]%Forall_cons].
    destruct IH as [Hl Hd]. split; [constructor; [by split_and!; [..|right] | by apply Hfree]|].
    intros k. rewrite Hd, elem_of_cons, lookup_insert. case_decide; [|naive_solver].
    subst k. naive_solver eauto.
Qed.

(** The maps hold what the clients so far have. *)
Record holds (t : taken) (clients : list clientEntry) : Prop := {
  hold_ids : forall x, is_Some (tk_ids t !! x) <-> x ∈ map cl_ID clients;
  hold_prefixes : forall x, is_Some (tk_prefixes t !! x) <-> x ∈ map (fun c => CookieNamePrefix (cl_Config c)) clients;
  hold_secrets : forall x, is_Some (tk_secrets t !! x) <-> x ∈ map (fun c => Secret (cl_Config c)) clients;
  hold_hosts : forall n, is_Some (tk_hosts t !! n) <-> exists c, c ∈ clients /\ n ∈ host_names c
}.

Lemma is_some_true {B} (o : option B) : is_some o = true <-> is_Some o.
Proof. unfold is_some. destruct o; simpl; unfold is_Some; naive_solver. Qed.

Lemma insert_holds (m : gmap string string) {B} (f : B -> string) l x v :
  (forall y, is_Some (m !! y) <-> y ∈ map f l) ->
  forall y, is_Some (<[f x := v]> m !! y) <-> y ∈ map f (l ++ [x]).
Proof.
  intros Hm y. rewrite map_app, elem_of_app, <- Hm, lookup_insert. simpl. rewrite list_elem_of_singleton.
  case_decide; [subst; split; [auto | by eexists]|]. naive_solver.
Qed.

Lemma validate_client_spec t clients c :
  holds t clients ->
  match validate_client t c with
  | Ok t' => fits clients c /\ holds t' (clients ++ [c])
  | Err _ => ~ fits clients c
  end.
Proof.
  intros [Hi Hp Hs Hh]. unfold validate_client.
  destruct (is_some (tk_ids t !! cl_ID c)) eqn:Ei; [intros []; by apply is_some_true, Hi in Ei|].
  destruct (is_some (tk_prefixes t !! _)) eqn:Ep; [intros []; by apply is_some_true, Hp in Ep|].
  destruct (is_some (tk_secrets t !! _)) eqn:Es; [intros []; by apply is_some_true, Hs in Es|].
  pose proof (validate_hosts_spec (cl_ID c) (cl_Hosts c) ∅ (tk_hosts t)) as Hv.
  destruct validate_hosts as [hosts'|]; cbn [rbind].
  - destruct Hv as [Hl Hd]; [set_solver|]. rewrite Forall_forall in Hl. split; constructor; simpl.
    1-3: rewrite <- ?Hi, <- ?Hp, <- ?Hs, <- is_some_true; congruence.
    + intros n Hn. destruct (Hl n Hn) as (? & ? & _). done.
    + intros c' n Hc' Hn' Hn. destruct (Hl n Hn) as (_ & _ & [|Hnone]); [set_solver|].
      assert (is_Some (tk_hosts t !! n)) as [] by (apply Hh; eauto). congruence.
    + by apply insert_holds.
    + by apply (insert_holds _ (fun c => CookieNamePrefix (cl_Config c))).
    + by apply (insert_holds _ (fun c => Secret (cl_Config c))).
    + intros n. rewrite Hd, Hh. setoid_rewrite elem_of_app. setoid_rewrite list_elem_of_singleton.
      split; [intros [(c' & Hc' & Hn)|Hn] | intros (c' & [Hc'| ->] & Hn)]; eauto.
  - intros [_ _ _ Fv Fh]. apply Hv; [set_solver|]. apply Forall_forall. intros n Hn.
    destruct (Fv n Hn). split_and!; [done..|]. right. apply eq_None_not_Some. rewrite Hh.
    intros (c' & Hc' & Hn'). by eapply Fh.
Qed.

Lemma validate_clients_spec l : forall t clients,
  holds t clients -> isolated clients ->
  is_Ok (validate_clients t l) = true <-> isolated (clients ++ l).
Proof.
  induction l as [|c l IH]; intros t clients Ht Hc; cbn [validate_clients].
  { by rewrite app_nil_r. }
  replace (clients ++ c :: l) with ((clients ++ [c]) ++ l) by (by rewrite <- app_assoc).
  pose proof (validate_client_spec t clients c Ht) as Hv. destruct validate_client as [t'|]; cbn [rbind].
  - destruct Hv as [Hf Ht']. apply IH; [done|]. by apply isolated_snoc.
  - split; [done|]. intros Hl%isolated_app_l%isolated_snoc. by destruct Hl.
Qed.

Lemma none_holds : holds none_taken [].
Proof. constructor; intros x; simpl; rewrite lookup_empty; split; try (by intros []); set_solver. Qed.

Lemma validate_isolated clients : validateMultiConfig clients = Ok tt <-> isolated clients.
Proof.
  rewrite <- (validate_clients_spec clients _ [] none_holds isolated_nil). unfold validateMultiConfig.
  by destruct validate_clients.
Qed.

(** C18: which files of clients are accepted.  The validation, with its four
    maps, accepts exactly the lists in which no two clients share an
    identifier, a cookie prefix, a secret or a host, and in which every host
    is not empty and a pattern that is allowed. *)
Theorem validateMultiConfig_isolated clients : is_Ok (validateMultiConfig clients) = true <-> isolated clients.
Proof. rewrite <- validate_isolated. unfold validateMultiConfig. by destruct validate_clients. Qed.
End Isolation.

(** ** What the table is *)

Section Table.
Context `{Unicode} {A : Type} (factory : Config -> string -> result (Config * A)).

(** The clients and what the factory makes of each: the configuration it
    leaves, and the handler. *)
Definition built_as : list clientEntry -> list (Config * A) -> Prop :=
  Forall2 (fun c b => factory (cl_Config c) ("extauth-server/" +:+ cl_ID c) = Ok b).

Definition built_secrets (built : list (Config * A)) : list string := map (fun b => Secret b.1) built.

(** Each host of a client refers to the handler of that client. *)
Definition table_of (base : nat) (hosts : list (list string)) (m : gmap string nat) : Prop :=
  forall n id, m !! n = Some id <->
    exists i hs, hosts !! i = Some hs /\ n ∈ map normalizeHost hs /\ id = (base + i)%nat.

Lemma insert_hosts_lookup hosts v (out : gmap string nat) n :
  fold_left (fun out host => <[normalizeHost host := v]> out) hosts out !! n
  = if decide (n ∈ map normalizeHost hosts) then Some v else out !! n.
Proof.
  revert out. induction hosts as [|h hosts IH]; intros out; cbn [fold_left map].
  { by rewrite decide_False by set_solver. }
  rewrite IH, lookup_insert. repeat case_decide; set_solver.
Qed.

(** The host refers to its client, and keeps its entry when it has none. *)
Definition routed (base : nat) (l : list clientEntry) (out : gmap string nat) (n : string) (id : nat) : Prop :=
  (exists i c, l !! i = Some c /\ n ∈ host_names c /\ id = (base + i)%nat)
  \/ (forall c, c ∈ l -> n ∉ host_names c) /\ out !! n = Some id.

Definition disjoint_hosts (l : list clientEntry) : Prop :=
  forall i j c c' n, l !! i = Some c -> l !! j = Some c' -> n ∈ host_names c -> n ∈ host_names c' -> i = j.

Lemma disjoint_hosts_tail c l : disjoint_hosts (c :: l) -> disjoint_hosts l.
Proof. intros Hd i j c1 c2 n H1 H2 H3 H4. by pose proof (Hd (S i) (S j) c1 c2 n H1 H2 H3 H4) as [= ->]. Qed.

Lemma disjoint_hosts_head c l n : disjoint_hosts (c :: l) -> n ∈ host_names c -> forall c', c' ∈ l -> n ∉ host_names c'.
Proof.
  intros Hd Hn c' [i Hi]%list_elem_of_lookup Hn'. discriminate (Hd 0%nat (S i) c c' n eq_refl Hi Hn Hn').
Qed.

Lemma routed_cons base c l out n id :
  disjoint_hosts (c :: l) ->
  routed (S base) l (fold_left (fun out host => <[normalizeHost host := base]> out) (cl_Hosts c) out) n id
  <-> routed base (c :: l) out n id.
Proof.
  intros Hd. unfold routed. rewrite insert_hosts_lookup. fold (host_names c). split.
  - intros [(i & c' & Hi & Hn & ->)|[Hnone Ho]].
    + left. exists (S i), c'. split_and!; [done..|lia].
    + case_decide as Hn; [left | right; split; [|done]].
      * injection Ho as <-. exists 0%nat, c. split_and!; [done..|lia].
      * intros c' [->|Hc']%elem_of_cons; auto.
  - intros [([|i] & c' & Hi & Hn & ->)|[Hnone Ho]].
    + injection Hi as ->. right. rewrite decide_True by done.
      split; [by eapply disjoint_hosts_head | f_equal; lia].
    + left. exists i, c'. split_and!; [done..|lia].
    + right. split; [intros c' Hc'; apply Hnone, elem_of_cons; by right|].
      rewrite decide_False; [done|]. apply Hnone, elem_of_cons. by left.
Qed.

Lemma build_clients_spec l : forall out secrets handlers,
  match build_clients factory out secrets handlers l with
  | Ok (out', handlers') => exists built,
      built_as l built /\ handlers' = handlers ++ map snd built
      /\ NoDup (built_secrets built) /\ (forall s, s ∈ built_secrets built -> secrets !! s = None)
      /\ (disjoint_hosts l -> forall n id, out' !! n = Some id <-> routed (length handlers) l out n id)
  | Err _ => forall built, built_as l built -> NoDup (built_secrets built) ->
      exists s, s ∈ built_secrets built /\ is_Some (secrets !! s)
  end.
Proof.
  induction l as [|c l IH]; intros out secrets handlers; cbn [build_clients].
  { exists []. split_and!; [constructor | by rewrite app_nil_r | apply NoDup_nil_2 | set_solver |].
    intros _ n id. split; [intros Hn; right; split; [set_solver | done] | intros [(i & c & Hi & _)|[_ ?]]; done]. }
  destruct (factory _ _) as [[cfg h]|err] eqn:Ef; cbn [rbind].
  2:{ intros built Hb. apply Forall2_cons_inv_l in Hb as (b & built' & Hb & _). congruence. }
  destruct (is_some (secrets !! Secret cfg)) eqn:Es.
  { intros built (b & built' & Hb & _ & ->)%Forall2_cons_inv_l _. assert (b = (cfg, h)) as -> by congruence.
    exists (Secret cfg). split; [apply elem_of_cons; by left | by apply is_some_true]. }
  set (out1 := fold_left _ _ out). specialize (IH out1 (<[Secret cfg := cl_ID c]> secrets) (handlers ++ [h])).
  destruct build_clients as [[out' handlers']|].
  - destruct IH as (built & Hb & -> & Hnd & Hfree & Ht). exists ((cfg, h) :: built).
    split_and!; [by constructor | by rewrite <- app_assoc | | |].
    + simpl. constructor; [|done]. intros Hin%Hfree. by rewrite lookup_insert_eq in Hin.
    + intros s [->|Hs]%elem_of_cons; [simpl; unfold is_some in Es; by destruct (secrets !! _)|].
      apply Hfree in Hs. apply lookup_insert_None in Hs. tauto.
    + intros Hd n id. rewrite Ht by (by eapply disjoint_hosts_tail).
      rewrite length_app, Nat.add_1_r. by apply routed_cons.
  - intros built (b & built' & Hb & Hbs & ->)%Forall2_cons_inv_l Hnd. assert (b = (cfg, h)) as -> by congruence.
    apply NoDup_cons in Hnd as [Hc Hnd]. destruct (IH built' Hbs Hnd) as (s & Hs & Hk).
    exists s. split; [apply elem_of_cons; by right|]. rewrite lookup_insert_ne in Hk; [done|].
    intros <-. by apply Hc.
Qed.

(** Building from isolated clients: it succeeds exactly when every client is
    built and the secrets are distinct once expanded, and then the table is
    that of the clients' hosts. *)
Lemma buildHostMap_spec handlers l :
  isolated l ->
  match buildHostMap factory handlers l with
  | Ok (out, handlers') => exists built,
      built_as l built /\ NoDup (built_secrets built) /\ handlers' = handlers ++ map snd built
      /\ table_of (length handlers) (map cl_Hosts l) out
  | Err _ => ~ exists built, built_as l built /\ NoDup (built_secrets built)
  end.
Proof.
  intros Hl. unfold buildHostMap. pose proof (build_clients_spec l ∅ ∅ handlers) as Hb.
  destruct build_clients as [[out handlers']|].
  - destruct Hb as (built & Hbs & -> & Hnd & _ & Ht). exists built. split_and!; [done..|].
    intros n id. rewrite Ht by exact (iso_hosts _ Hl). unfold routed. rewrite lookup_empty. split.
    + intros [(i & c & Hi & Hn & ->)|[_ [=]]]. exists i, (cl_Hosts c).
      split_and!; [by rewrite list_lookup_fmap, Hi | done | done].
    + intros (i & hs & Hi & Hn & ->). rewrite list_lookup_fmap_Some in Hi. destruct Hi as (c & -> & Hi).
      left. by exists i, c.
  - intros (built & Hbs & Hnd). destruct (Hb built Hbs Hnd) as (s & _ & [x Hx]). by rewrite lookup_empty in Hx.
Qed.
End Table.
