(* ===== verification/HostRouter.v ===== *)
(** * The multi-client server: [cmd/extauth-server/router.go], [reload.go], [watch.go]

    The server routes a request to the middleware of the client that has its
    host, and replaces the whole routing table when the configuration file is
    reloaded.  A reload that fails, or panics, leaves the table as it is.

    The middlewares live in a list that only grows, and the table refers into
    it: the hosts of a client share one middleware with its state, and a reload
    makes new ones.  The specification has no table and no references: it is a
    list of tenants, each with its hosts and its middleware, and the refinement
    theorem says that the server implements it.  Requests and reloads happen
    one after the other; a request reads the table once, at its start. *)

From Stdlib Require Import ZArith Lia Ascii String Bool List.
From S2P Require Import Prelude GoStrings Base64 GoUrl Json Http Utils World RedirectUri Config Authorization ErrorPages.
From S2P Require Import Predicate Rules OidcState SessionStorage Jwks Cookies Tokens Session Network Routes Server Login Logout Callback Middleware Setup Lifecycle Hosts MultiConfig.

Record Server := {
  sv_hosts : gmap string nat;
  sv_heap : list handler
}.

Definition newHostRouter : Server := {| sv_hosts := ∅; sv_heap := [] |}.

(** A connection: the server it reaches, the response so far, and what has
    been handed to the next handler. *)
Record Conn := {
  k_server : Server;
  k_rw : Response;
  k_next : list (Request * Response)
}.

Definition connect (s : Server) : Conn := {| k_server := s; k_rw := empty_response; k_next := [] |}.

Section HostRouter.
Context `{Unicode, JsonText, TimeText, UrlLib, External, Jwt, Aead, AuthorityRegexp, SecretPattern}.
Context `{MediaTypes, PageTemplates, HeaderTemplates, Sha256, FloatText, JsonPath, FloatInt, SessionStore, Uuid}.
Context `{MapOrder, PemKeys, Regexp, GoParser, Yaml}.

(** [hostRouter.swap], with the handlers of the new table. *)
Definition swap (built : gmap string nat * list handler) : Server :=
  {| sv_hosts := built.1; sv_heap := built.2 |}.

(** The files and the environment are those of the moment of the reload. *)
Definition factory (os : Os) (cfg : Config) (name : string) : result (Config * handler) := New cfg.

Definition reloadFromFile (os : Os) (path : string) (s : Server) : result Server :=
  let? cfg := parseMultiConfigFile path in
  let? m := buildHostMap (factory os) (sv_heap s) cfg in
  Ok (swap m).

(** An error is logged, and so is a panic, which is [ErrPanic] here. *)
Definition doReload (os : Os) (path : string) (s : Server) : Server :=
  match reloadFromFile os path s with
  | Ok s => s
  | Err _ => s
  end.

Definition set_handler (id : nat) (h : handler) (s : Server) : Server :=
  {| sv_hosts := sv_hosts s; sv_heap := <[id := h]> (sv_heap s) |}.

(** [h.ServeHTTP(rw, req)] through the reference. *)
Definition handler_ServeHTTP (id : nat) (req : Request) : M Conn unit := fun e k =>
  match sv_heap (k_server k) !! id with
  | Some (Middleware t client) =>
      match ServeHTTP req e {| s_toa := t; s_rw := k_rw k; s_next := k_next k |} with
      | Some (_, e', s') =>
          Some (tt, e', {| k_server := set_handler id (Middleware (s_toa s') client) (k_server k);
                           k_rw := s_rw s'; k_next := s_next s' |})
      | None => None
      end
  | _ => None
  end.

Definition router_ServeHTTP (req : Request) : M Conn unit :=
  m ← gets (fun k => sv_hosts (k_server k));
  match lookupHost m (r_Host req) with
  | None => modify (fun k => {| k_server := k_server k; k_next := k_next k;
                                k_rw := http_Error "unknown host" StatusForbidden (k_rw k) |})
  | Some h => handler_ServeHTTP h req
  end.

(** ** Runs of the server *)

(** What is seen of a step: a reload, or a request with its response and what
    was handed on. *)
Inductive label :=
| LReload (os : Os) (path : string)
| LRequest (req : Request) (rw : Response) (next : list (Request * Response)).

Inductive server_step (s : Server) : label -> Server -> Prop :=
| server_reload os path : server_step s (LReload os path) (doReload os path s)
| server_request req e e' k :
    router_ServeHTTP req e (connect s) = Some (tt, e', k) ->
    server_step s (LRequest req (k_rw k) (k_next k)) (k_server k).

(** ** The specification: tenants *)

Record tenant := {
  tn_Hosts : list string;
  tn_Handler : handler
}.

Definition tenant_names (t : tenant) : list string := map normalizeHost (tn_Hosts t).

(** The tenant a host belongs to: the one that lists it, or else the one with
    the longest wildcard over it. *)
Definition owner (ts : list tenant) (n : string) (i : nat) : Prop :=
  (exists t, ts !! i = Some t /\ n ∈ tenant_names t)
  \/ (forall t, t ∈ ts -> n ∉ tenant_names t)
     /\ exists t p, ts !! i = Some t /\ p ∈ tenant_names t /\ wildcard_covers p n = true
          /\ forall t' q, t' ∈ ts -> q ∈ tenant_names t' -> wildcard_covers q n = true -> q <> p ->
               (slen q < slen p)%nat.

Definition tenants (clients : list clientEntry) (built : list (Config * handler)) : list tenant :=
  zip_with (fun c b => {| tn_Hosts := cl_Hosts c; tn_Handler := b.2 |}) clients built.

(** A file that loads: its clients are valid, every one is built, and their
    secrets are distinct once expanded. *)
Definition loads (os : Os) (path : string) (ts : list tenant) : Prop :=
  exists clients built, parseMultiConfigFile path = Ok clients
    /\ built_as (factory os) clients built /\ NoDup (built_secrets built) /\ ts = tenants clients built.

Inductive tenant_step (ts : list tenant) : label -> list tenant -> Prop :=
| tenants_kept os path :
    ~ (exists ts', loads os path ts') -> tenant_step ts (LReload os path) ts
| tenants_replaced os path ts' :
    loads os path ts' -> tenant_step ts (LReload os path) ts'
| host_unknown req :
    (forall i, ~ owner ts (normalizeHost (r_Host req)) i) ->
    tenant_step ts (LRequest req (http_Error "unknown host" StatusForbidden empty_response) []) ts
| host_served req i hs t client e e' s' :
    owner ts (normalizeHost (r_Host req)) i ->
    ts !! i = Some {| tn_Hosts := hs; tn_Handler := Middleware t client |} ->
    ServeHTTP req e (incoming t) = Some (tt, e', s') ->
    tenant_step ts (LRequest req (s_rw s') (s_next s'))
      (<[i := {| tn_Hosts := hs; tn_Handler := Middleware (s_toa s') client |}]> ts).

(** Finite runs of either. *)
Inductive run {S : Type} (step : S -> label -> S -> Prop) : S -> list label -> S -> Prop :=
| run_nil s : run step s [] s
| run_cons s l s' ls s'' : step s l s' -> run step s' ls s'' -> run step s (l :: ls) s''.

(** ** The refinement *)

Context `{!SessionStoreLaws, !MapOrderLaws}.

(** The handlers of the tenants are the last ones of the list, and the table
    refers each host to the one of its tenant. *)
Definition represents (s : Server) (ts : list tenant) : Prop :=
  exists garbage, sv_heap s = garbage ++ map tn_Handler ts
    /\ table_of (length garbage) (map tn_Hosts ts) (sv_hosts s).

Lemma table_lookup base ts m n id :
  table_of base (map tn_Hosts ts) m ->
  m !! n = Some id <-> exists i t, ts !! i = Some t /\ n ∈ tenant_names t /\ id = (base + i)%nat.
Proof.
  intros Ht. rewrite (Ht n id). setoid_rewrite list_lookup_fmap_Some. split.
  - intros (i & hs & (t & -> & Hi) & Hn & ->). by exists i, t.
  - intros (i & t & Hi & Hn & ->). exists i, (tn_Hosts t). split_and!; eauto.
Qed.

Lemma table_lookup_none base ts m n :
  table_of base (map tn_Hosts ts) m -> m !! n = None <-> forall t, t ∈ ts -> n ∉ tenant_names t.
Proof.
  intros Ht. rewrite eq_None_not_Some. split.
  - intros Hn t [i Hi]%list_elem_of_lookup Hin. apply Hn. eexists. apply (table_lookup _ _ _ _ _ Ht). eauto.
  - intros Hall [id (i & t & Hi & Hin & _)%(table_lookup _ _ _ _ _ Ht)].
    by eapply Hall; [eapply list_elem_of_lookup_2|].
Qed.

(** The table routes to the owner. *)
Lemma routes_owner base ts m n id :
  table_of base (map tn_Hosts ts) m ->
  routes_to m n id <-> exists i, id = (base + i)%nat /\ owner ts n i.
Proof.
  intros Ht. unfold routes_to, owner. rewrite (table_lookup _ _ _ _ _ Ht), (table_lookup_none _ _ _ _ Ht).
  setoid_rewrite (table_lookup _ _ _ _ id Ht). split.
  - intros [(i & t & Hi & Hn & ->)|(Hnone & p & (i & t & Hi & Hp & ->) & Hc & Hmax)].
    + exists i. split; [done|]. left. by exists t.
    + exists i. split; [done|]. right. split; [done|]. exists t, p. split_and!; [done..|].
      intros t' q [j Hj]%list_elem_of_lookup Hq. apply Hmax. eexists. apply (table_lookup _ _ _ _ _ Ht). eauto.
  - intros (i & -> & [(t & Hi & Hn)|(Hnone & t & p & Hi & Hp & Hc & Hmax)]).
    + left. by exists i, t.
    + right. split; [done|]. exists p. split; [by exists i, t|]. split; [done|].
      intros q [id (j & t' & Hj & Hq & _)%(table_lookup _ _ _ _ _ Ht)].
      by eapply Hmax; [eapply list_elem_of_lookup_2|].
Qed.

Lemma tenants_hosts clients built os :
  built_as (factory os) clients built -> map tn_Hosts (tenants clients built) = map cl_Hosts clients.
Proof. intros Hb. unfold built_as in Hb. induction Hb; simpl; [done|]. by f_equal. Qed.

Lemma tenants_handlers clients built os :
  built_as (factory os) clients built -> map tn_Handler (tenants clients built) = map snd built.
Proof. intros Hb. unfold built_as in Hb. induction Hb; simpl; [done|]. by f_equal. Qed.

Lemma parsed_isolated `{Os} path clients : parseMultiConfigFile path = Ok clients -> isolated clients.
Proof.
  unfold parseMultiConfigFile, parseMultiConfig. intros (data & _ & (nodes & _ & Hp)%rbind_Ok_inv)%rbind_Ok_inv.
  destruct (length nodes =? 0)%nat; [done|].
  apply rbind_Ok_inv in Hp as (cs & _ & ([] & Hv & [= <-])%rbind_Ok_inv). by apply validate_isolated.
Qed.

Lemma reload_spec os path s :
  match reloadFromFile os path s with
  | Ok s' => exists ts', loads os path ts' /\ represents s' ts'
  | Err _ => ~ exists ts', loads os path ts'
  end.
Proof.
  unfold reloadFromFile. destruct (parseMultiConfigFile path) as [clients|] eqn:Hp; cbn [rbind].
  2:{ intros (ts' & cs & built & Hp' & _). congruence. }
  pose proof (buildHostMap_spec (factory os) (sv_heap s) clients (parsed_isolated _ _ Hp)) as Hb.
  destruct buildHostMap as [[out heap]|]; cbn [rbind swap fst snd].
  - destruct Hb as (built & Hb & Hnd & -> & Ht). exists (tenants clients built).
    split; [by exists clients, built|]. exists (sv_heap s). simpl.
    by rewrite (tenants_handlers _ _ _ Hb), (tenants_hosts _ _ _ Hb).
  - intros (ts' & cs & built & Hp' & Hbs & Hnd & _). apply Hb. exists built.
    assert (cs = clients) as -> by congruence. done.
Qed.

Lemma represents_handler garbage ts i t h :
  ts !! i = Some t ->
  <[(length garbage + i)%nat := h]> (garbage ++ map tn_Handler ts)
  = garbage ++ map tn_Handler (<[i := {| tn_Hosts := tn_Hosts t; tn_Handler := h |}]> ts).
Proof. intros Hi. rewrite insert_app_r. f_equal. by rewrite list_fmap_insert. Qed.

Lemma set_handler_hosts ts i t h :
  ts !! i = Some t -> map tn_Hosts (<[i := {| tn_Hosts := tn_Hosts t; tn_Handler := h |}]> ts) = map tn_Hosts ts.
Proof.
  intros Hi. change (map ?f) with (fmap f : list tenant -> _) at 1.
  rewrite list_fmap_insert. simpl. apply list_insert_id. by rewrite list_lookup_fmap, Hi.
Qed.

Lemma request_refines s ts req e e' k :
  represents s ts -> router_ServeHTTP req e (connect s) = Some (tt, e', k) ->
  exists ts', tenant_step ts (LRequest req (k_rw k) (k_next k)) ts' /\ represents (k_server k) ts'.
Proof.
  intros (garbage & Hh & Ht) Hr. unfold router_ServeHTTP, mbind, M_bind, gets in Hr. simpl in Hr.
  destruct (lookupHost (sv_hosts s) (r_Host req)) as [id|] eqn:El.
  - apply lookupHost_Some, (routes_owner _ _ _ _ _ Ht) in El as (i & -> & Ho).
    unfold handler_ServeHTTP in Hr. simpl in Hr. rewrite Hh, lookup_app_r in Hr by lia.
    replace (length garbage + i - length garbage)%nat with i in Hr by lia.
    rewrite list_lookup_fmap in Hr. destruct (ts !! i) as [[hs [|t]]|] eqn:Ei; simpl in Hr; [done| |done].
    destruct (ServeHTTP req e _) as [[[[] e1] s']|] eqn:Es; [|done]. injection Hr as <- <-. simpl.
    eexists. split; [by eapply host_served|]. exists garbage. simpl. rewrite Hh.
    split; [by apply (represents_handler _ _ _ _ _ Ei)|]. by rewrite (set_handler_hosts _ _ _ _ Ei).
  - injection Hr as <- <-. simpl. exists ts. split; [|by exists garbage]. apply host_unknown.
    intros i Ho. pose proof (lookupHost_routes (sv_hosts s) (r_Host req)) as Hn. rewrite El in Hn.
    apply (Hn (length garbage + i)%nat), (routes_owner _ _ _ _ _ Ht). by exists i.
Qed.

Lemma step_refines s ts l s' :
  represents s ts -> server_step s l s' -> exists ts', tenant_step ts l ts' /\ represents s' ts'.
Proof.
  intros Hs [os path|req e e' k Hr]; [|by eapply request_refines].
  pose proof (reload_spec os path s) as Hl. unfold doReload. destruct reloadFromFile as [s1|].
  - destruct Hl as (ts' & Hl & Hs1). exists ts'. split; [by apply tenants_replaced | done].
  - exists ts. split; [by apply tenants_kept | done].
Qed.

(** The server implements its tenants.  Whatever reloads and requests it
    goes through, what is seen of a run of the server is a run of the
    specification: a request is served by the middleware of the tenant its
    host belongs to, whose state alone it changes, on whichever of its hosts
    the request came; an unknown host gets a 403; and a reload puts the
    tenants of the file in place of all the old ones if the file loads, and
    changes nothing otherwise. *)
Theorem server_refines ls s :
  run server_step newHostRouter ls s -> exists ts, run tenant_step [] ls ts /\ represents s ts.
Proof.
  assert (H0' : represents newHostRouter []).
  { exists []. split; [done|]. intros n id. simpl. rewrite lookup_empty. split; [done|]. by intros (i & hs & ? & _). }
  revert H0'. generalize newHostRouter, (@nil tenant). intros s0 ts0 Hr Hrun. revert ts0 Hr.
  induction Hrun as [s0|s0 l s1 ls s2 Hstep _ IH]; intros ts0 Hr; [exists ts0; by split; [constructor|]|].
  destruct (step_refines _ _ _ _ Hr Hstep) as (ts1 & Ha & Hr1). destruct (IH _ Hr1) as (ts2 & Hrun2 & Hr2).
  exists ts2. split; [by econstructor | done].
Qed.
End HostRouter.
