(* ===== verification/TrustedPeers.v ===== *)
(** * Trusted peers of the service: [peerIsTrusted] and [parseTrustedProxies]
    of [cmd/extauth-server/main.go]

    Which peers may say, in forwarding headers, what request they forward: those
    in the networks of the variable [TRUSTED_PROXIES]. *)

From Stdlib Require Import ZArith Lia Ascii String Bool List.
From S2P Require Import Prelude GoStrings GoUrl Http Config Network Prefixes.

(** ** The list and the test *)

Definition peerIsTrusted (remoteAddr : string) (trustedProxies : list IPNet) : bool :=
  if (length trustedProxies =? 0)%nat then false
  else
    let host := match SplitHostPort remoteAddr with Some (host, _) => host | None => remoteAddr end in
    match ParseIP host with
    | None => false
    | Some ip => existsb (fun n => net_Contains n ip) trustedProxies
    end.

(** One entry of [TRUSTED_PROXIES]; [None] is a blank one. *)
Definition parse_entry (entry : string) : result (option IPNet) :=
  let entry := TrimSpace entry in
  if String.eqb entry "" then Ok None
  else
    let? entry :=
      (if negb (Contains entry "/") then
         match ParseIP entry with
         | None => errorf "invalid IP or CIDR"
         | Some ip =>
             let bits := if is_none (To4 ip) then 128 else 32 in
             Ok (entry +:+ "/" +:+ Itoa bits)
         end
       else Ok entry) in
    let? n := ParseCIDR entry in
    Ok (Some n).

Fixpoint parse_entries (entries : list string) : result (list IPNet) :=
  match entries with
  | [] => Ok []
  | e :: entries =>
      let? n := parse_entry e in
      let? nets := parse_entries entries in
      Ok (match n with Some n => n :: nets | None => nets end)
  end.

Definition parseTrustedProxies (value : string) : result (list IPNet) :=
  parse_entries (SplitByte value ",").

(** The peer is in a network of [TRUSTED_PROXIES]. *)
Definition peer_trusted (trusted : list IPNet) (req : Request) : Prop :=
  exists host ip n, (SplitHostPort (r_RemoteAddr req) = Some host /\ ParseIP host.1 = Some ip
                     \/ SplitHostPort (r_RemoteAddr req) = None /\ ParseIP (r_RemoteAddr req) = Some ip)
    /\ n ∈ trusted /\ net_Contains n ip = true.

Lemma peerIsTrusted_sound trusted req : peerIsTrusted (r_RemoteAddr req) trusted = true -> peer_trusted trusted req.
Proof.
  unfold peerIsTrusted, peer_trusted. destruct (length trusted =? 0)%nat; [done|].
  destruct (SplitHostPort (r_RemoteAddr req)) as [[host port]|] eqn:Eh;
    (destruct ParseIP as [ip|] eqn:Ei; [|done]);
    intros (n & Hn & Hc)%existsb_exists; apply list_elem_of_In in Hn.
  - exists (host, port), ip, n. split; [by left | done].
  - exists ("", ""), ip, n. split; [by right | done].
Qed.


(** ** What an entry of the list means *)

(** The address of a peer, with or without a port. *)
Definition peer_address (remoteAddr : string) : option IP :=
  ParseIP (match SplitHostPort remoteAddr with Some (host, _) => host | None => remoteAddr end).

(** An entry names an address and how many of its leading bits count: the
    number after the slash, or all of them, which are thirty-two for an IPv4
    address even in its form of sixteen bytes. *)
Definition entry_network (entry : string) : option (IP * nat) :=
  match IndexByte entry "/" with
  | Some i =>
      a ← ParseAddr (stake i entry);
      n ← digits 0 (sdrop (S i) entry);
      Some (a, Z.to_nat n)
  | None =>
      a ← ParseAddr entry;
      Some (a, if is_some (To4 (As16 a)) then 32%nat else 128%nat)
  end.

Lemma IndexByte_app s c t : byte_in c s = false -> IndexByte (s +:+ String c t) c = Some (slen s).
Proof.
  unfold IndexByte. induction s as [|d s IH]; cbn; [by rewrite Ascii.eqb_refl|].
  intros [-> Hs]%orb_false_iff. by rewrite IH.
Qed.

Lemma IndexByte_None s c : byte_in c s = false -> IndexByte s c = None.
Proof.
  intros Hs. apply IndexFunc_None. intros d Hd. destruct (Ascii.eqb_spec c d) as [<-|]; [congruence | done].
Qed.

Lemma IndexByte_Some s c : byte_in c s = true -> IndexByte s c <> None.
Proof. unfold IndexByte. intros Hs Hn. rewrite IndexFunc_None in Hn. specialize (Hn c Hs). by rewrite Ascii.eqb_refl in Hn. Qed.

Lemma parse_entry_network e net :
  parse_entry e = Ok (Some net) ->
  TrimSpace e <> "" /\ exists a n, entry_network (TrimSpace e) = Some (a, n)
    /\ forall ip, address ip -> (net_Contains net ip = true <-> in_network ip a n).
Proof.
  unfold parse_entry. destruct (String.eqb_spec (TrimSpace e) "") as [|Hne]; [done|].
  set (entry := TrimSpace e) in *. clearbody entry. intros H. split; [done|].
  apply rbind_Ok_inv in H as (cidr & Hc & H). apply rbind_Ok_inv in H as (net' & Hp & [= ->]).
  assert (exists a n, entry_network entry = Some (a, n)
    /\ forall ip, address ip -> (net_Contains net ip = true <-> in_network ip a n)) as Hdone; [|done].
  rewrite Contains_byte_in in Hc. destruct (byte_in "/" entry) eqn:Eb; cbn [negb] in Hc.
  - injection Hc as <-. apply ParseCIDR_Contains in Hp as (i & a & n & Hi & Ha & Hd & _ & Hin).
    exists a, n. unfold entry_network. rewrite Hi, Ha, Hd. cbn. by rewrite Nat2Z.id.
  - destruct (ParseIP entry) as [ip4|] eqn:Eip; [|done]. injection Hc as <-.
    apply ParseCIDR_Contains in Hp as (i & a & n & Hi & Ha & Hd & _ & Hin).
    rewrite IndexByte_app in Hi by done. injection Hi as <-. rewrite stake_app in Ha.
    exists a, n. unfold entry_network. rewrite IndexByte_None, Ha by done. cbn [mbind option_bind].
    unfold ParseIP in Eip. rewrite Ha in Eip. injection Eip as <-.
    split; [|done]. do 2 f_equal. rewrite <- Nat.add_1_r, <- sdrop_sdrop, sdrop_app in Hd.
    unfold is_some. destruct (is_none (To4 (As16 a))); cbn [negb];
      [change (Some 128 = Some (Z.of_nat n)) in Hd | change (Some 32 = Some (Z.of_nat n)) in Hd];
      injection Hd as Hd; lia.
Qed.

Lemma parse_entry_blank e : parse_entry e = Ok None -> TrimSpace e = "".
Proof.
  unfold parse_entry. destruct (String.eqb_spec (TrimSpace e) ""); [done|].
  intros (cidr & _ & H)%rbind_Ok_inv. by apply rbind_Ok_inv in H as (net & _ & H).
Qed.

Lemma parse_entries_elem entries nets net :
  parse_entries entries = Ok nets -> net ∈ nets <-> exists e, e ∈ entries /\ parse_entry e = Ok (Some net).
Proof.
  revert nets. induction entries as [|e entries IH]; cbn [parse_entries]; intros nets.
  { intros [= <-]. split; [by intros ?%elem_of_nil | by intros (e & ?%elem_of_nil & _)]. }
  intros (n & Hn & H)%rbind_Ok_inv. apply rbind_Ok_inv in H as (nets' & Hns & [= <-]).
  specialize (IH _ Hns). setoid_rewrite elem_of_cons.
  destruct n as [n|]; rewrite ?elem_of_cons, IH; split.
  - intros [->|(e' & ? & ?)]; eauto.
  - intros (e' & [->|He'] & Hp); [left; congruence | right; eauto].
  - intros (e' & ? & ?); eauto.
  - intros (e' & [->|He'] & Hp); [congruence | eauto].
Qed.

(** Every entry of a list that is accepted is read. *)
Lemma parse_entries_all entries nets e :
  parse_entries entries = Ok nets -> e ∈ entries -> exists n, parse_entry e = Ok n.
Proof.
  revert nets. induction entries as [|e' entries IH]; cbn [parse_entries]; intros nets; [by intros _ ?%elem_of_nil|].
  intros (n & Hn & H)%rbind_Ok_inv. apply rbind_Ok_inv in H as (nets' & Hns & _).
  intros [->|He]%elem_of_cons; eauto.
Qed.

(** C15: a peer is trusted exactly when its address is in a network of the list:
    of some entry that is not blank, by as many leading bits as the entry says,
    among addresses of the same kind.  An empty or blank list trusts nobody, a
    peer whose address cannot be read is not trusted, and no order of the
    entries matters. *)
Theorem trusted_peers_spec value trusted remoteAddr :
  parseTrustedProxies value = Ok trusted ->
  peerIsTrusted remoteAddr trusted = true
  <-> exists ip entry a n, peer_address remoteAddr = Some ip
        /\ entry ∈ SplitByte value "," /\ TrimSpace entry <> ""
        /\ entry_network (TrimSpace entry) = Some (a, n) /\ in_network ip a n.
Proof.
  unfold parseTrustedProxies, peerIsTrusted. fold (peer_address remoteAddr). intros Hp.
  pose proof (fun net => parse_entries_elem _ _ net Hp) as Hel.
  destruct (peer_address remoteAddr) as [ip|] eqn:Eip.
  2: { destruct (length trusted =? 0)%nat; split; try done; by intros (? & ? & ? & ? & ? & _). }
  assert (address ip) as Hip by by eapply ParseIP_address.
  assert ((if (length trusted =? 0)%nat then false else existsb (fun n => net_Contains n ip) trusted)
          = existsb (fun n => net_Contains n ip) trusted) as -> by by destruct trusted.
  rewrite existsb_exists. setoid_rewrite <- list_elem_of_In. split.
  - intros (net & (e & He & Hpe)%Hel & Hc). apply parse_entry_network in Hpe as (Hne & a & n & Hen & Hin).
    exists ip, e, a, n. split_and!; [done..|]. by apply Hin.
  - intros (ip' & e & a & n & [= <-] & He & Hne & Hen & Hin).
    destruct (parse_entries_all _ _ e Hp He) as [[net|] Hpe]; [|by apply parse_entry_blank in Hpe].
    exists net. split; [apply Hel; eauto|].
    apply parse_entry_network in Hpe as (_ & a' & n' & Hen' & Hin').
    rewrite Hen in Hen'. injection Hen' as <- <-. by apply Hin'.
Qed.
