(* ===== verification/ExtAuth.v ===== *)
(** * The authorization service: [cmd/extauth-server/main.go], [grpc.go]

    The two ways a gateway asks: over HTTP, with the original request in the
    request line or in forwarding headers, and over gRPC, with its parts as
    fields.  Both end in the routing of [HostRouter]; behind it stands a
    handler that answers 200 with the headers of what it is handed. *)

From Stdlib Require Import ZArith Lia Ascii String Bool List.
From S2P Require Import Prelude GoStrings Base64 GoUrl Json Http Utils World RedirectUri Config Authorization ErrorPages.
From S2P Require Import Predicate Rules OidcState SessionStorage Jwks Cookies Tokens Session Network Routes Server Login Logout Callback Middleware Setup Lifecycle Hosts MultiConfig HostRouter TrustedPeers.

(** ** Forwarded requests *)

Definition lastForwardedValue (value : string) : string :=
  TrimSpace (match LastIndexByte value "," with
             | Some index => sdrop (S index) value
             | None => value
             end).

Definition validForwardedProto (proto : string) : bool :=
  String.eqb proto "http" || String.eqb proto "https" || String.eqb proto "ws" || String.eqb proto "wss".

(** The copy loop of the allowing handler of [main]: every header of the
    request it is handed becomes one of the response.  The cookies of a request
    are kept parsed, so its Cookie header is written out first. *)
Definition cookie_pair (c : string * string) : string := c.1 +:+ "=" +:+ c.2.

Definition outgoing_header (req : Request) : header :=
  match r_Cookies req with
  | [] => r_Header req
  | cs => header_Set "Cookie" (Join (map cookie_pair cs) "; ") (r_Header req)
  end.

Section ExtAuth.
Context `{Unicode, JsonText, TimeText, UrlLib, External, Jwt, Aead, AuthorityRegexp, SecretPattern}.
Context `{MediaTypes, PageTemplates, HeaderTemplates, Sha256, FloatText, JsonPath, FloatInt, SessionStore, Uuid}.
Context `{MapOrder}.

Definition copy_header (h : header) (entry : string * list string) : header :=
  fold_left (fun h v => header_Add entry.1 v h) entry.2 h.

Definition allow (req : Request) (rw : Response) : Response :=
  WriteHeader StatusOK (rw_header (fun h => fold_left copy_header (map_range (outgoing_header req)) h) rw).

(** What the gateway receives: the answer of the middleware, or that of the
    allowing handler. *)
Definition final_response (k : Conn) : Response :=
  match k_next k with
  | [] => k_rw k
  | (req, rw) :: _ => allow req rw
  end.

(** [forwardedRequest]: the request as it is passed on, or the 400. *)
Definition forwarded_request (trustedProxies : list IPNet) (req : Request) : result Request :=
  if negb (peerIsTrusted (r_RemoteAddr req) trustedProxies) then Ok req
  else
    let forwarded := req_header req "X-Forwarded-Method" in
    let method := if negb (String.eqb forwarded "") then forwarded else r_Method req in
    let uri := req_header req "X-Forwarded-Uri" in
    let uri := if String.eqb uri "" then url_RequestURI (r_URL req) else uri in
    match url_ParseRequestURI uri with
    | Err _ => errorf "invalid X-Forwarded-Uri"
    | Ok parsedURI =>
        let host := lastForwardedValue (req_header req "X-Forwarded-Host") in
        let hosted := negb (String.eqb host "") in
        let proto := lastForwardedValue (req_header req "X-Forwarded-Proto") in
        let schemed := negb (String.eqb proto "") && validForwardedProto proto in
        Ok {| r_Method := method;
              r_URL := {| u_Scheme := if schemed then proto else u_Scheme parsedURI;
                          u_Host := if hosted then host else u_Host parsedURI;
                          u_Path := u_Path parsedURI; u_RawQuery := u_RawQuery parsedURI |};
              r_Host := if hosted then host else r_Host req;
              r_RequestURI := uri;
              r_Header := r_Header req; r_Cookies := r_Cookies req; r_TLS := r_TLS req;
              r_RemoteAddr := r_RemoteAddr req |}
    end.

Definition forwardedRequest (trustedProxies : list IPNet) (req : Request) : M Conn unit :=
  match forwarded_request trustedProxies req with
  | Err _ =>
      modify (fun k => {| k_server := k_server k; k_next := k_next k;
                          k_rw := http_Error "invalid X-Forwarded-Uri" StatusBadRequest (k_rw k) |})
  | Ok req => router_ServeHTTP req
  end.
End ExtAuth.

(** ** Cookies of a header

    [readCookies] of [net/http]: the pairs of the lines whose name is a token
    and whose value has valid bytes only. *)

Definition ascii_space (c : ascii) : bool := byte_in c (bytes [32; 9; 10; 13]%nat).

Fixpoint trim_left (s : string) : string :=
  match s with
  | EmptyString => ""
  | String c s' => if ascii_space c then trim_left s' else s
  end.

Fixpoint trim_right (s : string) : string :=
  match s with
  | EmptyString => ""
  | String c s' =>
      match trim_right s' with
      | EmptyString => if ascii_space c then "" else String c ""
      | r => String c r
      end
  end.

Definition TrimString (s : string) : string := trim_right (trim_left s).

Definition quote : ascii := ascii_of_nat 34.

Definition valid_cookie_byte (c : ascii) : bool :=
  let n := nat_of_ascii c in
  (32 <=? n)%nat && (n <? 127)%nat && negb (Ascii.eqb c quote) && negb (byte_in c ";\").

Definition parseCookieValue (raw : string) : option string :=
  let q := String quote "" in
  let raw := if (1 <? slen raw)%nat && HasPrefix raw q && HasSuffix raw q
             then TrimSuffix (TrimPrefix raw q) q else raw in
  if sforall valid_cookie_byte raw then Some raw else None.

Definition parse_cookie (part : string) : option (string * string) :=
  let part := TrimString part in
  if String.eqb part "" then None
  else
    let '(name, val) := CutByte part "=" in
    let name := TrimString name in
    if negb (valid_cookie_name name) then None
    else v ← parseCookieValue val; Some (name, v).

Definition readCookies (lines : list string) : list (string * string) :=
  omap parse_cookie (concat (map (fun line => SplitByte (TrimString line) ";") lines)).

(** ** The gRPC service *)

(** [AttributeContext.HttpRequest]; an absent message reads as zero values. *)
Record HttpAttributes := {
  ha_Method : string;
  ha_Scheme : string;
  ha_Host : string;
  ha_Path : string;
  ha_Headers : gmap string string;
  ha_Body : string
}.

(** [CheckResponse]: its status code and what it tells the gateway to do.  The
    headers are pairs, each with the action to append; the cookies of a
    response are kept unprinted. *)
Inductive http_response :=
| OkResponse (headers : list (string * string)) (cookies : list Cookie)
| DeniedResponse (status : Z) (headers : list (string * string)) (cookies : list Cookie) (body : string).

Record CheckResponse := {
  cr_Code : Z;
  cr_Response : http_response
}.

Definition codes_OK : Z := 0.
Definition codes_InvalidArgument : Z := 3.
Definition codes_PermissionDenied : Z := 7.

Definition pseudo_header (key : string) : bool :=
  String.eqb key ":authority" || String.eqb key ":method" || String.eqb key ":path"
  || String.eqb key ":scheme".

(** [removeEmptyPort] of [net/http]. *)
Definition removeEmptyPort (host : string) : string :=
  match LastIndexByte host ":" with
  | None => host
  | Some i =>
      if match LastIndexByte host "]" with Some j => (j <? i)%nat | None => true end
      then TrimSuffix host ":" else host
  end.

Section Grpc.
Context `{MapOrder, UrlLib}.

(** The pieces of a value between commas are added one by one. *)
Definition add_pieces (h : header) (entry : string * string) : header :=
  let '(key, value) := entry in
  if pseudo_header key then h
  else fold_left (fun h v => header_Add key (TrimSpace v) h) (SplitByte value ",") h.

Definition buildHTTPRequest (httpAttrs : HttpAttributes) : result Request :=
  let scheme := if String.eqb (ha_Scheme httpAttrs) "" then "https" else ha_Scheme httpAttrs in
  let host := ha_Host httpAttrs in
  let path := ha_Path httpAttrs in
  let method := if String.eqb (ha_Method httpAttrs) "" then "GET" else ha_Method httpAttrs in
  if negb (sforall token_char method) then errorf "net/http: invalid method"
  else
    let? u := url_Parse (scheme +:+ "://" +:+ host +:+ path) in
    let h := fold_left add_pieces (map_range (ha_Headers httpAttrs)) ∅ in
    Ok {| r_Method := method;
          r_URL := {| u_Scheme := u_Scheme u; u_Host := removeEmptyPort (u_Host u);
                      u_Path := u_Path u; u_RawQuery := u_RawQuery u |};
          r_Host := host; r_RequestURI := path;
          r_Header := delete "Cookie" h;
          r_Cookies := readCookies (default [] (h !! "Cookie"));
          r_TLS := false; r_RemoteAddr := "" |}.

Definition headerValueOptions (h : header) : list (string * string) :=
  concat (map (fun entry => map (fun v => (entry.1, v)) entry.2) (map_range h)).

(** The translation of what the recorder has. *)
Definition check_response (w : Response) : CheckResponse :=
  let code := default 200 (w_Status w) in
  if (200 <=? code) && (code <? 300)
  then {| cr_Code := codes_OK; cr_Response := OkResponse (headerValueOptions (w_Header w)) (w_Cookies w) |}
  else
    let statusCode := if (code <? 100) || (599 <? code) then StatusInternalServerError else code in
    {| cr_Code := codes_PermissionDenied;
       cr_Response := DeniedResponse statusCode (headerValueOptions (w_Header w)) (w_Cookies w) (w_Body w) |}.
End Grpc.

(** A panic of a handler becomes an error of the call. *)
Definition recoveryInterceptor {A} (resp : option A) : result A :=
  match resp with
  | Some r => Ok r
  | None => errorf "internal error"
  end.

Section Check.
Context `{Unicode, JsonText, TimeText, UrlLib, External, Jwt, Aead, AuthorityRegexp, SecretPattern}.
Context `{MediaTypes, PageTemplates, HeaderTemplates, Sha256, FloatText, JsonPath, FloatInt, SessionStore, Uuid}.
Context `{MapOrder}.

Definition check_answer : M Conn CheckResponse := gets (fun k => check_response (final_response k)).

Definition Check (req : HttpAttributes) : M Conn CheckResponse :=
  match buildHTTPRequest req with
  | Err err =>
      mret {| cr_Code := codes_InvalidArgument;
              cr_Response := DeniedResponse StatusBadRequest [] [] (error_text err) |}
  | Ok httpReq =>
      _ ← router_ServeHTTP httpReq;
      check_answer
  end.

(** ** What the gateway is told *)

Context `{!SessionStoreLaws, !MapOrderLaws}.

Lemma header_Add_elem k v h k' w :
  w ∈ default [] (header_Add k v h !! k') <->
  w ∈ default [] (h !! k') \/ k' = CanonicalMIMEHeaderKey k /\ w = v.
Proof.
  unfold header_Add. destruct (decide (k' = CanonicalMIMEHeaderKey k)) as [->|Hne].
  - rewrite lookup_insert_eq. simpl. rewrite elem_of_app, list_elem_of_singleton. naive_solver.
  - rewrite lookup_insert_ne by done. naive_solver.
Qed.

Lemma copy_header_elem entry h k w :
  w ∈ default [] (copy_header h entry !! k) <->
  w ∈ default [] (h !! k) \/ k = CanonicalMIMEHeaderKey entry.1 /\ w ∈ entry.2.
Proof.
  unfold copy_header. destruct entry as [name vs]. cbn [fst snd]. revert h.
  induction vs as [|v vs IH]; intros h; cbn [fold_left].
  - rewrite elem_of_nil. tauto.
  - rewrite IH, header_Add_elem, elem_of_cons. tauto.
Qed.

Lemma copy_headers_elem l h k w :
  w ∈ default [] (fold_left copy_header l h !! k) <->
  w ∈ default [] (h !! k) \/ exists entry, entry ∈ l /\ k = CanonicalMIMEHeaderKey entry.1 /\ w ∈ entry.2.
Proof.
  revert h. induction l as [|x l IH]; intros h; cbn [fold_left].
  - setoid_rewrite elem_of_nil. naive_solver.
  - rewrite IH, copy_header_elem. setoid_rewrite elem_of_cons. naive_solver.
Qed.

Lemma headerValueOptions_elem h k v :
  (k, v) ∈ headerValueOptions h <-> v ∈ default [] (h !! k).
Proof.
  unfold headerValueOptions. rewrite list_elem_of_In, in_concat. split.
  - intros (l & ([name vs] & <- & Hin)%in_map_iff & (w & [= -> ->] & Hw)%in_map_iff).
    apply list_elem_of_In, map_range_elem in Hin. rewrite Hin. by apply list_elem_of_In.
  - destruct (h !! k) as [vs|] eqn:E; simpl; [|by intros ?%elem_of_nil]. intros Hv.
    exists (map (fun v => (k, v)) vs). split; [|apply in_map_iff; exists v; by rewrite <- list_elem_of_In].
    apply in_map_iff. exists (k, vs). split; [done|]. by apply list_elem_of_In, map_range_elem.
Qed.

(** What the allowing handler answers on an open response. *)
Lemma allow_open req rw :
  committed rw = false ->
  w_Status (allow req rw) = Some 200
  /\ forall k vs v, outgoing_header req !! k = Some vs -> v ∈ vs ->
       v ∈ default [] (w_Header (allow req rw) !! CanonicalMIMEHeaderKey k).
Proof.
  intros Hc. unfold allow, WriteHeader. rewrite rw_header_committed, Hc. split; [done|].
  intros k vs v Hk Hv. simpl. unfold rw_header. rewrite Hc. simpl.
  apply copy_headers_elem. right. exists (k, vs). split; [by apply map_range_elem | done].
Qed.

(** A routed request is answered or forwarded once. *)
Lemma router_outcome req e s :
  ends (router_ServeHTTP req) e (connect s) (fun _ _ k =>
    (k_next k = [] /\ committed (k_rw k) = true)
    \/ exists req' rw', k_next k = [(req', rw')] /\ committed rw' = false).
Proof.
  unfold router_ServeHTTP. m_steps. destruct lookupHost as [id|].
  2:{ m_steps. left. split; [done | apply http_Error_committed]. }
  unfold outcome, handler_ServeHTTP. simpl. destruct (sv_heap s !! id) as [[|t]|]; [done| |done].
  pose proof (ServeHTTP_ok True req e (incoming t) (fun _ => I) (fun _ => I) (fun _ => I) (fun _ => I)) as Ho.
  unfold outcome, incoming in Ho. destruct (ServeHTTP _ _ _) as [[[[] e'] s']|]; [|done]. simpl in *.
  destruct Ho as [_ [[E C]|(req' & rw' & E & C & _)]]; rewrite E; [by left | right].
  by exists req', rw'.
Qed.

(** C11: what the gateway is told to do.  The answer is to let the request pass
    when the middleware forwarded it, and then every header of the forwarded
    request is among those to append; when the middleware answered the request
    itself, it is to let it pass exactly when that answer has a status from 200
    to 299. *)
Theorem Check_decides attrs e s :
  ends (Check attrs) e (connect s) (fun r _ k =>
    (exists req' rw' headers cookies, k_next k = [(req', rw')]
       /\ r = {| cr_Code := codes_OK; cr_Response := OkResponse headers cookies |}
       /\ forall name vs v, outgoing_header req' !! name = Some vs -> v ∈ vs ->
            (CanonicalMIMEHeaderKey name, v) ∈ headers)
    \/ (k_next k = []
        /\ (cr_Code r = codes_OK <-> exists code, w_Status (k_rw k) = Some code /\ 200 <= code < 300))).
Proof.
  unfold Check, check_answer. destruct buildHTTPRequest as [req|err].
  2:{ m_steps. right. split; [done|]. simpl. split; [done | by intros (code & [=] & _)]. }
  m_step. m_call router_outcome. intros [] e' k [[En C]|(req' & rw' & En & C)]; m_steps;
    unfold final_response; rewrite En.
  - right. split; [done|]. unfold committed in C. unfold check_response.
    destruct (w_Status (k_rw k)) as [code|]; [|done]. simpl.
    destruct ((200 <=? code) && (code <? 300)) eqn:Ec; simpl; split; try done.
    + intros _. boolprop. exists code. split; [done | lia].
    + intros (c & [= <-] & Hl & Hh). apply andb_false_iff in Ec as [Ec|Ec]; boolprop; lia.
  - left. destruct (allow_open req' rw' C) as [Hs Hh]. unfold check_response. rewrite Hs. simpl.
    eexists req', rw', _, _. split; [done|]. split; [done|]. intros name vs v Hn Hv.
    apply headerValueOptions_elem. by eapply Hh.
Qed.

(** ** The scheme of gRPC requests *)

Lemma built_request attrs req :
  buildHTTPRequest attrs = Ok req -> r_TLS req = false /\ r_RemoteAddr req = "" /\ r_Host req = ha_Host attrs.
Proof.
  unfold buildHTTPRequest. destruct (negb _); [done|]. by intros (u & _ & [= <-])%rbind_Ok_inv.
Qed.

Lemma built_scheme attrs req cfg : buildHTTPRequest attrs = Ok req -> requestScheme cfg req = "http".
Proof.
  intros (Ht & Ha & _)%built_request. unfold requestScheme, requestFromTrustedProxy, own_scheme.
  rewrite Ht, Ha. by destruct (length (TrustedProxyNets cfg) =? 0)%nat.
Qed.

(** Every gRPC request counts as plain HTTP.  The scheme the gateway
    reports goes into the URL of the request only; the middleware derives its
    own scheme from the connection and from forwarding headers of a trusted
    peer, and a gRPC request has neither.  So the callback of a client with an
    absolute https callback URL is never recognised, and a relative callback
    URL is completed to an http one. *)
Theorem grpc_requests_are_http attrs req t :
  buildHTTPRequest attrs = Ok req ->
  requestScheme (t_Config t) req = "http"
  /\ (own_callback t = true -> u_Scheme (t_CallbackURL t) = "https" -> isCallbackRequest t req = false)
  /\ (own_callback t = false -> u_Scheme (GetAbsoluteCallbackURL t req) = "http").
Proof.
  intros Hb. pose proof (built_scheme _ _ (t_Config t) Hb) as Hs. split; [done|]. split.
  - intros Ho Hc. unfold isCallbackRequest. destruct (negb _); [done|]. by rewrite Ho, Hs, Hc.
  - intros Ho. unfold GetAbsoluteCallbackURL. by rewrite Ho.
Qed.

(** ** The front-channel route *)

(** The page of a successful logout has status 200, for a browser and for
    others. *)
Lemma successful_logout_status req e s :
  committed (s_rw s) = false ->
  runs (writeSuccessfulLogout req) e s (fun _ e' s' =>
    e' = e /\ s_next s' = s_next s /\ w_Status (s_rw s') = Some 200).
Proof.
  intros Hc. unfold writeSuccessfulLogout, config, write. m_steps.
  split; [done|]. split; [done|]. simpl. set (c := t_Config (s_toa s)).
  set (rw := rw_header _ (s_rw s)).
  assert (Hrw : w_Status rw = None).
  { unfold rw. rewrite rw_header_status. unfold committed in Hc. by destruct (w_Status (s_rw s)). }
  clearbody rw. set (data := if negb _ then _ else _).
  assert (Hd : data_int data "statusCode" = Some 200 /\ data_string data "statusType" = Some "about:blank"
    /\ data_string data "statusName" = Some "Logged out"
    /\ data_string data "description" = Some "You have been logged out successfully.").
  { unfold data. destruct (String.eqb (LoginUri c) ""); cbn [negb];
      unfold with_button, error_data, data_string, data_int; by simplify_map_eq. }
  destruct Hd as (Hcode & Htype & Hname & Hdesc). clearbody data.
  unfold WriteError. cbn [empty_error_page ep_RedirectTo String.eqb negb]. destruct (IsHtmlRequest req).
  - unfold renderPage, templateData. cbn [empty_error_page ep_FilePath String.eqb negb].
    rewrite execute_built_in_Ok, Hcode.
    by rewrite WriteBody_status, WriteHeader_status, rw_header_status, Hrw.
  - rewrite Hcode, Htype, Hname, Hdesc. unfold writeProblemDetail.
    by rewrite WriteBody_status, WriteHeader_status, rw_header_status, Hrw.
Qed.

(** C24: below the front-channel route the gateway lets everyone pass.  Let a
    request of the gateway be routed to a middleware, be neither its callback
    nor covered by its bypass rule, and let the provider be discovered, then or
    before.  If the request is for a path at or below the front-channel logout
    URI, but not the login URI, and no session is found for it, then it is
    answered by the logout page with status 200, and not forwarded by the
    middleware; the service reports that answer as permission, so the gateway
    forwards the request to the backend, although nobody was authenticated. *)
Theorem frontchannel_opens attrs req id t client e s e1 t1 upd cl err e' t' :
  buildHTTPRequest attrs = Ok req ->
  lookupHost (sv_hosts s) (r_Host req) = Some id -> sv_heap s !! id = Some (Middleware t client) ->
  isCallbackRequest t req = false -> bypassed t req = false ->
  EnsureOidcDiscovery e t = Some (Ok tt, e1, t1) ->
  pathMatchesConfiguredRoute req (LoginUri (t_Config t1)) = false ->
  pathMatchesConfiguredRoute req (FrontChannelLogoutUri (t_Config t1)) = true ->
  getSessionForRequest req e1 t1 = Some ((None, upd, cl, err), e', t') ->
  exists headers cookies k,
    Check attrs e (connect s)
    = Some ({| cr_Code := codes_OK; cr_Response := OkResponse headers cookies |}, e', k)
    /\ k_next k = [].
Proof.
  intros Hb Hl Hh Hcb Hpub Hdisc Hlogin Hfront Hg.
  assert (F : t_Config t' = t_Config t1).
  { pose proof (getSessionForRequest_ok True req e1 t1 (fun _ => I)) as Ho.
    unfold outcome in Ho. rewrite Hg in Ho. by apply frame_Config, Ho. }
  pose proof (successful_logout_status req e' (set_toa t' (incoming t)) eq_refl) as Hw.
  unfold outcome in Hw.
  assert (Hs : ServeHTTP req e (incoming t) = writeSuccessfulLogout req e' (set_toa t' (incoming t))).
  { unfold ServeHTTP, mbind, M_bind, gets. simpl. rewrite Hcb, Hpub. cbn [andb].
    unfold on_toa at 1, zoom. simpl. rewrite Hdisc. unfold config, gets. simpl.
    rewrite Hlogin. unfold on_toa, zoom, set_toa at 1. simpl. rewrite Hg.
    change (set_toa t' (set_toa t1 (incoming t))) with (set_toa t' (incoming t)).
    destruct err; unfold serve_anonymous, mbind, M_bind, config, gets; simpl; by rewrite F, Hfront. }
  destruct writeSuccessfulLogout as [[[[] e2] s2]|] eqn:Ew; [|done]. destruct Hw as (-> & En & Est).
  unfold Check, router_ServeHTTP, gets. rewrite Hb. unfold mbind, M_bind. cbn [connect k_server].
  rewrite Hl.
  unfold handler_ServeHTTP. simpl. rewrite Hh. unfold incoming in Hs. rewrite Hs.
  unfold check_answer, gets, final_response. simpl in *. rewrite En. unfold check_response. rewrite Est. simpl.
  by eexists _, _, _.
Qed.

(** ** Forwarding headers *)

(** Forwarding headers count from trusted peers only.  A request is passed
    on as it is, or its peer is in a trusted network, and then its headers,
    cookies, connection and peer are still its own: the host is its own or the
    rightmost forwarded one, the scheme is that of the forwarded address or one
    of four, and the path and query are those of the forwarded address. *)
Theorem forwarded_request_trusted trusted req req' :
  forwarded_request trusted req = Ok req' ->
  req' = req
  \/ peer_trusted trusted req
     /\ r_Header req' = r_Header req /\ r_Cookies req' = r_Cookies req /\ r_TLS req' = r_TLS req
     /\ r_RemoteAddr req' = r_RemoteAddr req
     /\ (r_Host req' = r_Host req
         \/ r_Host req' = lastForwardedValue (req_header req "X-Forwarded-Host") /\ r_Host req' <> "")
     /\ exists u, url_ParseRequestURI (r_RequestURI req') = Ok u
          /\ u_Path (r_URL req') = u_Path u /\ u_RawQuery (r_URL req') = u_RawQuery u
          /\ (u_Scheme (r_URL req') = u_Scheme u \/ u_Scheme (r_URL req') ∈ ["http"; "https"; "ws"; "wss"]).
Proof.
  unfold forwarded_request. destruct (peerIsTrusted _ _) eqn:Et; cbn [negb]; [|intros [= <-]; by left].
  apply peerIsTrusted_sound in Et. destruct url_ParseRequestURI as [u|] eqn:Eu; [|done].
  intros [= <-]. right. split; [done|]. simpl. do 4 (split; [done|]). split.
  - destruct (String.eqb_spec (lastForwardedValue (req_header req "X-Forwarded-Host")) ""); simpl; auto.
  - exists u. split_and!; [done..|]. destruct (negb _ && _) eqn:Ep; [|by left]. right. boolprop.
    unfold validForwardedProto in *. apply slice_contains_spec. unfold slice_contains. simpl.
    repeat match goal with H : _ |- _ => rewrite orb_true_iff in H end.
    rewrite !orb_true_iff. tauto.
Qed.
End Check.
