(* ===== verification/Watch.v ===== *)
(** * Watching the configuration: [cmd/extauth-server/watch.go]

    Which file events concern the configuration, and the timer that collects
    events into one reload.  The paths of [path/filepath] and the notifications
    are parameters; the loop is a machine over timed events. *)

From Stdlib Require Import ZArith Lia Ascii String Bool List.
From S2P Require Import Prelude GoStrings Utils.

Class FilePath := {
  filepath_Clean : string -> string;
  filepath_Dir : string -> string;
  filepath_Base : string -> string
}.

(** [300 * time.Millisecond] *)
Definition reloadDebounce : duration := 300000000.

Inductive Op := Create | Write | Remove | Rename | Chmod.
#[global] Instance Op_eq_dec : EqDecision Op.
Proof. solve_decision. Defined.

(** What the loop receives, in one [select] each. *)
Inductive input :=
| Event (name : string) (ops : list Op)
| WatchError.

(** A nil timer, one that will call [reload] at an instant, and one that has. *)
Inductive timer :=
| NoTimer
| Armed (deadline : time)
| Expired.

Section Watch.
Context `{FilePath}.

Definition watchEventRelevant (name configPath configDir configBase : string) (secretRoots : list string)
  : bool :=
  let name := filepath_Clean name in
  let base := filepath_Base name in
  if String.eqb name configPath
     || (String.eqb (filepath_Dir name) configDir && String.eqb base configBase) then true
  else if String.eqb (filepath_Dir name) configDir && String.eqb base "..data" then true
  else existsb (fun root => String.eqb name root || HasPrefix name (root +:+ "/")) secretRoots.

Definition parseSecretWatchDirs (value : string) : list string :=
  List.filter (fun e => negb (String.eqb e "")) (map TrimSpace (SplitByte value ",")).

Definition configFilePath `{Os} : string :=
  let path := default "" (os_LookupEnv "CONFIG_FILE") in
  if String.eqb path "" then "config.yaml" else path.

(** [schedule]: [time.AfterFunc] for the first event, [timer.Reset] for later
    ones, whether the timer has fired or not. *)
Definition schedule (now : time) (t : timer) : timer :=
  match t with
  | NoTimer => Armed (now + reloadDebounce)
  | Armed _ | Expired => Armed (now + reloadDebounce)
  end.

(** The instant at which the timer has fired by now. *)
Definition timer_expire (now : time) (t : timer) : list time * timer :=
  match t with
  | Armed d => if d <=? now then ([d], Expired) else ([], t)
  | _ => ([], t)
  end.

Context (configPath : string) (secretDirs : list string).

(** What [watchConfig] derives from its arguments before the loop. *)
Definition relevant (name : string) : bool :=
  let configPath := filepath_Clean configPath in
  watchEventRelevant name configPath (filepath_Dir configPath) (filepath_Base configPath)
    (map filepath_Clean secretDirs).

Definition concerns (i : input) : bool :=
  match i with
  | Event name ops =>
      relevant name
      && existsb (fun op => bool_decide (op ∈ ops)) [Write; Create; Rename; Remove; Chmod]
  | WatchError => false
  end.

(** One turn of the loop, with the reloads so far. *)
Definition watch_step (st : list time * timer) (i : time * input) : list time * timer :=
  let '(reloads, t) := st in
  let '(fired, t) := timer_expire i.1 t in
  (reloads ++ fired, if concerns i.2 then schedule i.1 t else t).

Definition watchConfig (inputs : list (time * input)) : list time * timer :=
  fold_left watch_step inputs ([], NoTimer).

(** ** What the loop does *)

(** The inputs come in the order of their instants. *)
Definition in_order (inputs : list (time * input)) : Prop :=
  forall before i after, inputs = before ++ i :: after -> forall j, j ∈ before -> j.1 <= i.1.

Definition change_at (inputs : list (time * input)) (t : time) : Prop :=
  exists i, (t, i) ∈ inputs /\ concerns i = true.

(** A deadline comes one debounce after a change, with no change between. *)
Definition settled (inputs : list (time * input)) (d : time) : Prop :=
  change_at inputs (d - reloadDebounce)
  /\ forall t, change_at inputs t -> d - reloadDebounce < t -> d <= t.

Record watched (inputs : list (time * input)) (st : list time * timer) : Prop := {
  wd_past : forall d, d ∈ st.1 -> exists i, i ∈ inputs /\ d <= i.1;
  wd_settled : forall d, d ∈ st.1 -> settled inputs d;
  wd_armed : forall d, st.2 = Armed d -> change_at inputs (d - reloadDebounce)
               /\ forall t, change_at inputs t -> t <= d - reloadDebounce;
  wd_reloaded : forall t, change_at inputs t ->
    (exists d, d ∈ st.1 /\ t + reloadDebounce <= d) \/ exists d, st.2 = Armed d /\ t + reloadDebounce <= d
}.

Lemma change_at_snoc inputs now i t :
  change_at (inputs ++ [(now, i)]) t <-> change_at inputs t \/ t = now /\ concerns i = true.
Proof.
  unfold change_at. setoid_rewrite elem_of_app. setoid_rewrite list_elem_of_singleton. split.
  - intros (j & [Hj|[= -> ->]] & Hc); eauto.
  - intros [(j & Hj & Hc)|[-> Hc]]; eauto.
Qed.

Lemma settled_snoc inputs now i d : settled inputs d -> d <= now -> settled (inputs ++ [(now, i)]) d.
Proof.
  intros [Hc Hq] Hd. split; [apply change_at_snoc; by left|].
  intros t [Ht|[-> _]]%change_at_snoc Hlt; [by apply Hq | done].
Qed.

Lemma expire_watched inputs reloads t now i fired t' :
  watched inputs (reloads, t) -> (forall j, j ∈ inputs -> j.1 <= now) -> timer_expire now t = (fired, t') ->
  (forall d, d ∈ reloads ++ fired -> d <= now /\ settled (inputs ++ [(now, i)]) d)
  /\ (forall d, t' = Armed d -> now < d /\ change_at inputs (d - reloadDebounce)
        /\ forall u, change_at inputs u -> u <= d - reloadDebounce)
  /\ forall u, change_at inputs u ->
       (exists d, d ∈ reloads ++ fired /\ u + reloadDebounce <= d) \/ exists d, t' = Armed d /\ u + reloadDebounce <= d.
Proof.
  intros [Hp Hs Ha Hr] Hle He. simpl in *.
  assert (Hold : forall d, d ∈ reloads -> d <= now /\ settled (inputs ++ [(now, i)]) d).
  { intros d Hd. destruct (Hp d Hd) as (j & Hj & Hdj). assert (d <= now) by (specialize (Hle j Hj); lia).
    split; [done | by apply settled_snoc; [apply Hs|]]. }
  destruct t as [|d|]; simpl in He; [|destruct (Z.leb_spec d now)|]; injection He as <- <-;
    rewrite ?app_nil_r.
  - split; [done|]. split; [done|]. intros u Hu. by destruct (Hr u Hu) as [|(? & ? & _)]; [left|].
  - destruct (Ha d eq_refl) as [Hc Hmax]. split; [|split; [done|]].
    + intros d' [Hd'| ->%list_elem_of_singleton]%elem_of_app; [by apply Hold|]. split; [done|].
      apply settled_snoc; [|done]. split; [done|]. intros u Hu Hlt. specialize (Hmax u Hu). lia.
    + intros u Hu. left. exists d. split; [set_solver|]. specialize (Hmax u Hu). lia.
  - destruct (Ha d eq_refl) as [Hc Hmax]. split; [done|]. split; [by intros d' [= <-]|]. by apply Hr.
  - split; [done|]. split; [done|]. intros u Hu. by destruct (Hr u Hu) as [|(? & ? & _)]; [left|].
Qed.

Lemma watch_step_watched inputs st i :
  watched inputs st -> (forall j, j ∈ inputs -> j.1 <= i.1) -> watched (inputs ++ [i]) (watch_step st i).
Proof.
  destruct st as [reloads t], i as [now i]. intros Hw Hle. unfold watch_step. cbn [fst snd].
  destruct (timer_expire now t) as [fired t'] eqn:He.
  destruct (expire_watched _ _ _ _ i _ _ Hw Hle He) as (Hf & Ha & Hr).
  cbn [fst snd] in *. constructor; cbn [fst snd].
  - intros d Hd. destruct (Hf d Hd). exists (now, i). split; [set_solver | done].
  - intros d Hd. by destruct (Hf d Hd).
  - destruct (concerns i) eqn:Ec.
    + assert (schedule now t' = Armed (now + reloadDebounce)) as -> by (by destruct t').
      intros d [= <-]. rewrite Z.add_simpl_r. split; [apply change_at_snoc; by right|].
      intros u [(j & Hj & _)|[-> _]]%change_at_snoc; [|lia]. apply (Hle _ Hj).
    + intros d Hd. destruct (Ha d Hd) as (_ & Hc & Hmax). split; [apply change_at_snoc; by left|].
      intros u [Hu|[_ ?]]%change_at_snoc; [by apply Hmax | congruence].
  - intros u [Hu|[-> Hc]]%change_at_snoc.
    + destruct (Hr u Hu) as [Hd|(d & -> & Hd)]; [by left|]. right. destruct (concerns i); simpl; [|eauto].
      eexists. split; [done|]. destruct Hu as (j & Hj & _). specialize (Hle _ Hj). simpl in Hle. lia.
    + right. rewrite Hc. exists (now + reloadDebounce). split; [by destruct t' | lia].
Qed.

Lemma watch_inputs l : forall seen st,
  watched seen st -> in_order (seen ++ l) -> watched (seen ++ l) (fold_left watch_step l st).
Proof.
  induction l as [|i l IH]; intros seen st Hw Ho; [by rewrite app_nil_r|]. cbn [fold_left].
  replace (seen ++ i :: l) with ((seen ++ [i]) ++ l) in * by (by rewrite <- app_assoc).
  apply IH; [|done]. apply watch_step_watched; [done|].
  intros j Hj. eapply (Ho seen i l); [by rewrite <- app_assoc | done].
Qed.

Lemma in_order_nil : in_order [].
Proof. intros before i after E. by destruct before. Qed.

Lemma in_order_cons i l : (forall j, j ∈ l -> i.1 <= j.1) -> in_order l -> in_order (i :: l).
Proof.
  intros Hi Hl before k after E j Hj. destruct before as [|b before]; [by apply elem_of_nil in Hj|].
  injection E as <- ->. apply elem_of_cons in Hj as [->|Hj]; [apply Hi; set_solver | by eapply Hl].
Qed.

(** C25: no change is missed and no reload is early.  Over any events that come
    in order: every change of a watched file is followed by a reload at least
    the debounce later, or one is still due; and every reload comes exactly
    one debounce after a change, with no other change in between. *)
Theorem watchConfig_reloads inputs :
  in_order inputs ->
  let '(reloads, t) := watchConfig inputs in
  (forall u, change_at inputs u ->
     (exists d, d ∈ reloads /\ u + reloadDebounce <= d) \/ exists d, t = Armed d /\ u + reloadDebounce <= d)
  /\ forall d, d ∈ reloads ->
       change_at inputs (d - reloadDebounce)
       /\ forall u, change_at inputs u -> d - reloadDebounce < u -> d <= u.
Proof.
  intros Ho. unfold watchConfig. pose proof (watch_inputs inputs [] ([], NoTimer)) as Hw.
  destruct fold_left as [reloads t]. destruct Hw as [_ Hs _ Hr].
  - constructor; try done; simpl; try (intros d ?%elem_of_nil; done). by intros u (i & ?%elem_of_nil & _).
  - done.
  - split; [exact Hr | exact Hs].
Qed.

(** *** Around the loop *)

(** The paths that are handed to the watcher, in order; it reports changes of
    these and of the entries directly in them. *)
Definition watched_paths : list string :=
  let configPath := filepath_Clean configPath in
  List.filter (fun path => negb (String.eqb path ""))
    (filepath_Dir configPath :: configPath :: map filepath_Clean secretDirs).

(** The loop ends when its context is cancelled, and then stops the timer, or
    when a channel of the watcher is closed. *)
Inductive ending := Cancelled | ChannelClosed.

Definition watch_end (now : time) (how : ending) (st : list time * timer) : list time * timer :=
  let '(reloads, t) := st in
  let '(fired, t) := timer_expire now t in
  (reloads ++ fired, match how with Cancelled => NoTimer | ChannelClosed => t end).

(** After a cancellation there is no reload any more; a change whose debounce
    was over has had its reload. *)
Lemma watch_cancelled inputs now :
  in_order inputs -> (forall j, j ∈ inputs -> j.1 <= now) ->
  let '(reloads, t) := watch_end now Cancelled (watchConfig inputs) in
  t = NoTimer
  /\ (forall d, d ∈ reloads -> d <= now)
  /\ (forall u, change_at inputs u -> (forall u', change_at inputs u' -> u' <= u) -> u + reloadDebounce <= now ->
        exists d, d ∈ reloads /\ u + reloadDebounce <= d).
Proof.
  intros Ho Hle. unfold watchConfig.
  pose proof (watch_inputs inputs [] ([], NoTimer)) as Hw. cbn [app] in Hw.
  destruct (fold_left watch_step inputs ([], NoTimer)) as [reloads t].
  assert (watched inputs (reloads, t)) as W.
  { apply Hw; [|done]. constructor; try done; simpl; try (intros d ?%elem_of_nil; done).
    by intros u (i & ?%elem_of_nil & _). }
  unfold watch_end. destruct (timer_expire now t) as [fired t'] eqn:He.
  destruct (expire_watched _ _ _ _ WatchError _ _ W Hle He) as (Hf & Ha & Hr).
  split_and!; [done | by intros d Hd; destruct (Hf d Hd) |].
  intros u Hu Hlast Hold. destruct (Hr u Hu) as [Hd|(d & Ed & Hd)]; [done|].
  destruct (Ha d Ed) as (Hlt & Hc & _). specialize (Hlast _ Hc). lia.
Qed.
End Watch.

(** ** Reloading on a signal: [watchSIGHUP]

    The channel holds one signal; a signal that finds it full is dropped, as
    package [signal] does.  The loop takes one signal at a time and is busy
    until its reload has ended. *)

Inductive signal_event := Signalled | Taken | ReloadEnded.

Record signal_loop := { sl_waiting : bool; sl_busy : bool }.

Definition signal_step (l : signal_loop) (ev : signal_event) : option signal_loop :=
  match ev with
  | Signalled => Some {| sl_waiting := true; sl_busy := sl_busy l |}
  | Taken =>
      if sl_waiting l && negb (sl_busy l) then Some {| sl_waiting := false; sl_busy := true |} else None
  | ReloadEnded => if sl_busy l then Some {| sl_waiting := sl_waiting l; sl_busy := false |} else None
  end.

Fixpoint watchSIGHUP (l : signal_loop) (evs : list signal_event) : option signal_loop :=
  match evs with
  | [] => Some l
  | ev :: evs => l ← signal_step l ev; watchSIGHUP l evs
  end.

Definition idle_loop : signal_loop := {| sl_waiting := false; sl_busy := false |}.

Lemma watchSIGHUP_app l a b : watchSIGHUP l (a ++ b) = (l ← watchSIGHUP l a; watchSIGHUP l b).
Proof.
  revert l. induction a as [|ev a IH]; intros l; [done|]. cbn [app watchSIGHUP].
  destruct (signal_step l ev); [apply IH | done].
Qed.

(** No signal is lost: of any events, once nothing is waiting, every signal has
    been followed by the start of a reload; and while one waits, the loop takes
    it as soon as it is not busy. *)
Lemma signals_are_taken evs before after l :
  evs = before ++ Signalled :: after -> watchSIGHUP idle_loop evs = Some l ->
  (sl_waiting l = false -> Taken ∈ after)
  /\ (sl_waiting l = true -> sl_busy l = false -> exists l', signal_step l Taken = Some l').
Proof.
  intros -> Hr. split; [|intros Hw Hb; unfold signal_step; rewrite Hw, Hb; by eexists].
  rewrite watchSIGHUP_app in Hr. destruct (watchSIGHUP idle_loop before) as [l0|]; [|done].
  cbn [mbind option_bind watchSIGHUP signal_step] in Hr.
  assert (forall l1, sl_waiting l1 = true -> watchSIGHUP l1 after = Some l -> sl_waiting l = false -> Taken ∈ after) as Hg.
  { clear. induction after as [|ev after IH]; cbn [watchSIGHUP]; intros l1 Hw Hr Hl; [congruence|].
    destruct ev; cbn [signal_step] in Hr.
    - apply elem_of_cons. right. by eapply IH; [|exact Hr|].
    - apply elem_of_cons. by left.
    - destruct (sl_busy l1); [|done]. apply elem_of_cons. right. by eapply IH; [|exact Hr|]. }
  intros Hl. by eapply Hg; [|exact Hr|].
Qed.
