(* ===== verification/Service.v ===== *)
(** * The service as a process: [main] of [cmd/extauth-server/main.go],
    [runGRPCServer] of [grpc.go], [watchSIGHUP] of [watch.go]

    [main] reads the environment, loads the configuration or ends the process,
    and then serves: HTTP requests, gRPC checks if an address for them is
    configured, and reloads, on a change of a file or on a signal.  The
    specification answers the same calls from a list of tenants. *)

From Stdlib Require Import ZArith Lia Ascii String Bool List.
From S2P Require Import Prelude GoStrings Base64 GoUrl Json Http Utils World RedirectUri Config Authorization ErrorPages.
From S2P Require Import Predicate Rules OidcState SessionStorage Jwks Cookies Tokens Session Network Routes Server Login Logout Callback Middleware Setup Lifecycle Hosts MultiConfig HostRouter TrustedPeers ExtAuth Watch.

(** What [main] has set up when it starts to listen. *)
Record service := {
  svc_trustedProxies : list IPNet;
  svc_listenAddr : string;
  svc_grpcAddr : string;
  svc_configPath : string;
  svc_secretDirs : list string;
  svc_router : Server
}.

Definition set_router (r : Server) (s : service) : service := {|
  svc_trustedProxies := svc_trustedProxies s; svc_listenAddr := svc_listenAddr s;
  svc_grpcAddr := svc_grpcAddr s; svc_configPath := svc_configPath s;
  svc_secretDirs := svc_secretDirs s; svc_router := r |}.

(** What the gateways ask, and what they get. *)
Inductive call := HttpCall (req : Request) | GrpcCall (attributes : HttpAttributes).
Inductive answer := HttpAnswer (w : Response) | GrpcAnswer (r : result CheckResponse).

(** What is seen of the process. *)
Inductive event := Answered (c : call) (a : answer) | Reloaded (os : Os).

Definition Getenv `{Os} (name : string) : string := default "" (os_LookupEnv name).

Section Service.
Context `{Unicode, JsonText, TimeText, UrlLib, External, Jwt, Aead, AuthorityRegexp, SecretPattern}.
Context `{MediaTypes, PageTemplates, HeaderTemplates, Sha256, FloatText, JsonPath, FloatInt, SessionStore, Uuid}.
Context `{MapOrder, PemKeys, Regexp, GoParser, Yaml}.

(** An error ends the process with status 1. *)
Definition main (os : Os) : result service :=
  let configPath := configFilePath in
  let? trustedProxies := parseTrustedProxies (Getenv "TRUSTED_PROXIES") in
  let listenAddr := Getenv "LISTEN_ADDR" in
  let listenAddr := if String.eqb listenAddr "" then ":9002" else listenAddr in
  let? router := reloadFromFile os configPath newHostRouter in
  Ok {| svc_trustedProxies := trustedProxies; svc_listenAddr := listenAddr;
        svc_grpcAddr := Getenv "GRPC_LISTEN_ADDR"; svc_configPath := configPath;
        svc_secretDirs := parseSecretWatchDirs (Getenv "SECRET_WATCH_DIRS"); svc_router := router |}.

(** One event.  A check whose handler panics is answered with an error; over
    HTTP a panic ends the connection without an answer. *)
Inductive service_step (s : service) : event -> service -> Prop :=
| service_http req e e' k :
    forwardedRequest (svc_trustedProxies s) req e (connect (svc_router s)) = Some (tt, e', k) ->
    service_step s (Answered (HttpCall req) (HttpAnswer (final_response k))) (set_router (k_server k) s)
| service_grpc attributes e e' r k :
    svc_grpcAddr s <> "" ->
    Check attributes e (connect (svc_router s)) = Some (r, e', k) ->
    service_step s (Answered (GrpcCall attributes) (GrpcAnswer (recoveryInterceptor (Some r))))
      (set_router (k_server k) s)
| service_reload os :
    service_step s (Reloaded os) (set_router (doReload os (svc_configPath s) (svc_router s)) s).

Inductive serves : service -> list event -> service -> Prop :=
| serves_nil s : serves s [] s
| serves_cons s ev s' evs s'' : service_step s ev s' -> serves s' evs s'' -> serves s (ev :: evs) s''.

(** ** The specification *)

(** The request a call is about, if it makes sense. *)
Definition meant (trusted : list IPNet) (c : call) : result Request :=
  match c with
  | HttpCall req => forwarded_request trusted req
  | GrpcCall attributes => buildHTTPRequest attributes
  end.

(** What a gateway is told of the response of a tenant, or of the request that
    it let pass. *)
Definition told (c : call) (rw : Response) (next : list (Request * Response)) : answer :=
  let w := match next with [] => rw | (req, rw) :: _ => allow req rw end in
  match c with
  | HttpCall _ => HttpAnswer w
  | GrpcCall _ => GrpcAnswer (Ok (check_response w))
  end.

Definition refusal (c : call) (err : error) : answer :=
  match c with
  | HttpCall _ => HttpAnswer (http_Error "invalid X-Forwarded-Uri" StatusBadRequest empty_response)
  | GrpcCall _ =>
      GrpcAnswer (Ok {| cr_Code := codes_InvalidArgument;
                        cr_Response := DeniedResponse StatusBadRequest [] [] (error_text err) |})
  end.

Inductive tenants_event (trusted : list IPNet) (path : string) (ts : list tenant) :
  event -> list tenant -> Prop :=
| call_refused c err :
    meant trusted c = Err err -> tenants_event trusted path ts (Answered c (refusal c err)) ts
| call_answered c req rw next ts' :
    meant trusted c = Ok req -> tenant_step ts (LRequest req rw next) ts' ->
    tenants_event trusted path ts (Answered c (told c rw next)) ts'
| config_reloaded os ts' :
    tenant_step ts (LReload os path) ts' -> tenants_event trusted path ts (Reloaded os) ts'.

Inductive tenants_serve (trusted : list IPNet) (path : string) :
  list tenant -> list event -> list tenant -> Prop :=
| tenants_nil ts : tenants_serve trusted path ts [] ts
| tenants_cons ts ev ts' evs ts'' :
    tenants_event trusted path ts ev ts' -> tenants_serve trusted path ts' evs ts'' ->
    tenants_serve trusted path ts (ev :: evs) ts''.

(** ** The refinement *)

Context `{!SessionStoreLaws, !MapOrderLaws}.

Lemma service_step_refines s ts ev s' :
  represents (svc_router s) ts -> service_step s ev s' ->
  exists ts', tenants_event (svc_trustedProxies s) (svc_configPath s) ts ev ts'
    /\ represents (svc_router s') ts'
    /\ svc_trustedProxies s' = svc_trustedProxies s /\ svc_configPath s' = svc_configPath s.
Proof.
  intros Hs [req e e' k Hf|attributes e e' r k Hg Hc|os].
  - unfold forwardedRequest in Hf. destruct (forwarded_request _ req) as [req'|err] eqn:Em.
    + destruct (request_refines _ _ _ _ _ _ Hs Hf) as (ts' & Ht & Hr). exists ts'. split_and!; [|done..].
      by apply (call_answered _ _ _ (HttpCall req) req').
    + injection Hf as <- <-. exists ts. split_and!; [|done..].
      by apply (call_refused _ _ _ (HttpCall req) err).
  - unfold Check in Hc. destruct (buildHTTPRequest attributes) as [req'|err] eqn:Em.
    + unfold mbind, M_bind in Hc.
      destruct (router_ServeHTTP req' e _) as [[[[] e1] k1]|] eqn:Er; [|done].
      injection Hc as <- <- <-. destruct (request_refines _ _ _ _ _ _ Hs Er) as (ts' & Ht & Hr).
      exists ts'. split_and!; [|done..]. by apply (call_answered _ _ _ (GrpcCall attributes) req').
    + injection Hc as <- <- <-. exists ts. split_and!; [|done..].
      by apply (call_refused _ _ _ (GrpcCall attributes) err).
  - destruct (step_refines _ _ _ _ Hs (server_reload _ os (svc_configPath s))) as (ts' & Ht & Hr).
    exists ts'. split_and!; [|done..]. by apply config_reloaded.
Qed.

Lemma serves_refines s ts evs s' :
  represents (svc_router s) ts -> serves s evs s' ->
  exists ts', tenants_serve (svc_trustedProxies s) (svc_configPath s) ts evs ts'
    /\ represents (svc_router s') ts'.
Proof.
  intros Hr Hrun. revert ts Hr. induction Hrun as [s|s ev s1 evs s2 Hs _ IH]; intros ts Hr.
  { exists ts. split; [constructor | done]. }
  destruct (service_step_refines _ _ _ _ Hr Hs) as (ts1 & He & Hr1 & Et & Ep).
  destruct (IH ts1 Hr1) as (ts2 & Hrun2 & Hr2). rewrite Et, Ep in Hrun2.
  exists ts2. split; [by econstructor | done].
Qed.

(** C2: the process implements its tenants from its start.  It starts exactly
    when the list of trusted proxies can be read and the configuration file
    loads; it then has the tenants of the file; and whatever HTTP requests,
    gRPC checks and reloads follow, in any order, each is answered as the
    specification answers it: a call that makes no sense is refused and changes
    nothing, any other is what the tenant of its host decides, told in the
    gateway's own protocol, and a reload replaces all tenants or none. *)
Theorem service_refines os :
  (is_Ok (main os) = true
   <-> is_Ok (parseTrustedProxies (Getenv "TRUSTED_PROXIES")) = true
       /\ exists ts, loads os configFilePath ts)
  /\ forall s0 evs s, main os = Ok s0 -> serves s0 evs s ->
       exists ts0 ts, loads os configFilePath ts0
         /\ tenants_serve (svc_trustedProxies s0) configFilePath ts0 evs ts
         /\ represents (svc_router s) ts.
Proof.
  pose proof (reload_spec os configFilePath newHostRouter) as Hl. unfold main. split.
  - destruct (parseTrustedProxies _) as [trusted|]; cbn [rbind is_Ok]; [|by split; [|intros []]].
    destruct reloadFromFile as [r|]; cbn [rbind is_Ok].
    + split; [|done]. intros _. destruct Hl as (ts & Hl & _). eauto.
    + split; [done|]. by intros [_ Hts].
  - intros s0 evs s (trusted & _ & Hm)%rbind_Ok_inv Hrun.
    apply rbind_Ok_inv in Hm as (router & Hr & [= Hs0]). rewrite Hr in Hl.
    destruct Hl as (ts0 & Hl & Hrep). 
    destruct (serves_refines s0 ts0 evs s) as (ts & Hts & Hrep'); [by rewrite <- Hs0 | done |].
    exists ts0, ts. split_and!; [done| |done]. by rewrite <- Hs0 in Hts |- *.
Qed.
End Service.
