(* ===== verification/Witnesses.v ===== *)
(** * The middleware in a concrete world

    The interfaces instantiated, an identity provider that answers, and the
    theorems on logins, callbacks and requests applied to concrete requests. *)

From Stdlib Require Import ZArith Lia Ascii String Bool List.
From S2P Require Import Prelude GoStrings Base64 GoUrl Json Http Utils World Samples RedirectUri Config Authorization HtmlTemplate ErrorPages.
From S2P Require Import Predicate Rules OidcState SessionStorage Jwks Cookies Tokens Session Routes Server Login Logout Callback Middleware Setup Lifecycle.

(** ** Instances *)

(** References are [https] URLs or bare paths, and URLs are written with their
    query. *)
#[local] Instance written_urls : UrlLib := {|
  url_Parse s :=
    if HasPrefix s "https://"
    then
      let '(host, path) := CutByte (TrimPrefix s "https://") "/" in
      Ok {| u_Scheme := "https"; u_Host := host; u_Path := "/" +:+ path; u_RawQuery := "" |}
    else Ok {| u_Scheme := ""; u_Host := ""; u_Path := s; u_RawQuery := "" |};
  url_String u :=
    (if String.eqb (u_Scheme u) "" then "" else u_Scheme u +:+ "://") +:+ u_Host u +:+ u_Path u
    +:+ (if String.eqb (u_RawQuery u) "" then "" else "?" +:+ u_RawQuery u);
  url_RequestURI u := u_Path u;
  url_ParseRequestURI s := Ok {| u_Scheme := ""; u_Host := ""; u_Path := s; u_RawQuery := "" |};
  path_Join a b := a +:+ "/" +:+ b;
  redirect_location _ s := s
|}.

#[local] Instance written_media : MediaTypes := {|
  mime_ParseMediaType s := Ok (s, ∅);
  strconv_ParseFloat _ := errorf "invalid syntax";
  sort_Slice _ l := l
|}.

#[local] Instance blank_pages : PageTemplates := {|
  os_ReadFile _ := errorf "no such file"; html_Execute t _ := Ok t |}.

#[local] Instance verbatim_templates : HeaderTemplates := {|
  tpl_Parse _ := Ok tt; tpl_Execute t _ := (t, None) |}.

#[local] Instance plain_sha : Sha256 := {| sha256_Sum s := s |}.
#[local] Instance plain_uuid : Uuid := {| uuid_String s := s |}.
#[local] Instance plain_secrets : SecretPattern := {| secretValuePattern_ReplaceAll s := s |}.

#[local] Existing Instances ascii_only_unicode binary_json binary_time clear_aead sample_jwt
  no_unicode_match literal_floats member_paths seconds_floats.

#[local] Instance demo_store : SessionStore := cookie_store.
#[local] Instance demo_store_laws : SessionStoreLaws.
Proof. apply (@cookie_store_laws _ _ binary_json_laws _ binary_time_laws _ clear_aead_laws). Qed.

(** A provider whose token endpoint gives tokens and whose introspection says
    that none is active. *)
Definition tokens_body : string :=
  json_print (JObj [("access_token", JStr "at"); ("id_token", JStr "n1"); ("refresh_token", JStr "rt")]).

Definition answer (body : string) : result HttpResponse :=
  Ok {| p_Status := 200; p_ContentType := "application/json"; p_Body := body; p_BodyErr := None |}.

#[local] Instance provider_world : External := {|
  clock _ := still_now;
  random _ n := Ok (if (n =? 12)%nat then sample_nonce else "0123456789abcdef");
  http_Do _ q :=
    if String.eqb (q_Url q) "https://idp.example.com/token" then answer tokens_body
    else if String.eqb (q_Url q) "https://idp.example.com/introspect"
    then answer (json_print (JObj [("active", JBool false)]))
    else errorf "connection refused"
|}.

Lemma demo_entropy : entropy.
Proof. intros n k. by eexists. Defined.

(** ** A login *)

Definition demo_start : St := {| s_toa := sample_toa; s_rw := empty_response; s_next := [] |}.

Definition demo_request (path query : string) (cookies : list (string * string)) : Request := {|
  r_Method := "GET"; r_URL := {| u_Scheme := ""; u_Host := ""; u_Path := path; u_RawQuery := query |};
  r_Host := "app.example.com"; r_RequestURI := path; r_Header := {["Remote-User" := ["mallory"]]};
  r_Cookies := cookies; r_TLS := true; r_RemoteAddr := "192.0.2.7:4711" |}.

Definition demo_verifier : string :=
  match Encrypt (Ok sample_nonce) "verifier" DefaultSecret with Ok s => s | Err _ => "" end.

Definition demo_state : OidcState :=
  set_Nonce "n1" (set_Csrf "c5rf" (set_CodeVerifierEnc demo_verifier (new_state "Login" "/app" false))).

Definition demo_sealed : string :=
  match SealState still_now (Ok sample_nonce) (Some demo_state) DefaultSecret with Ok s => s | Err _ => "" end.

Definition demo_callback : Request :=
  demo_request "/oidc/callback" ("state=" +:+ demo_sealed +:+ "&code=abc")
    [("TraefikOidcAuth.LoginCsrf.c5rf", "c5rf")].

Definition demo_result : option (unit * Env * St) := ServeHTTP demo_callback start demo_start.

(** The callback redirects to the target, and issues a session. *)
Example demo_login :
  (fun r : unit * Env * St => (w_Status (s_rw r.2), header_Get (w_Header (s_rw r.2)) "Location",
                sw_count (t_sessionWrites (s_toa r.2)))) <$> demo_result
  = Some (Some 302, "https://app.example.com/app", 1).
Proof. vm_compute. reflexivity. Qed.

Lemma demo_noted :
  (fun r : unit * Env * St => sw_count (t_sessionWrites (s_toa r.2))) <$> handleCallback demo_callback start demo_start
  = Some 1.
Proof. vm_compute. reflexivity. Defined.

(** The branch that issues is taken: the ticket of a stored session is what the
    response sets. *)
Lemma handleCallback_sound_witness :
  runs (handleCallback demo_callback) start demo_start (fun _ e' s' =>
    exists state token c e1 t1,
      st_Csrf state <> ""
      /\ callback_accepted token state c start (s_toa demo_start) e1 t1
      /\ exists id now now' nonce authorized sess ticket,
           store_StoreSession now' nonce (t_Config (s_toa demo_start))
             (new_session id now token authorized (st_IsChallenge state)) = (sess, Ok ticket)
           /\ session_cookies (t_Config (s_toa demo_start)) (s_rw s')
              = ticket_cookies (t_Config (s_toa demo_start)) ticket).
Proof.
  eapply outcome_mono;
    [apply outcome_run; exact (handleCallback_sound demo_callback start demo_start eq_refl demo_entropy) | intros [] |].
  intros [] e' s' ((_ & _ & L) & Hrun). pose proof demo_noted as Hn. rewrite Hrun in Hn. cbn in Hn.
  destruct L as [[U _]|(state & token & c & e1 & t1 & _ & _ & (Hs & _ & _ & _ & Ha & _) & I)].
  - apply undisturbed_writes in U. rewrite U in Hn. discriminate.
  - destruct I as (az & bytes & sess & ticket & _ & _ & Hst & Hc & _).
    exists state, token, c, e1, t1. split; [exact Hs|]. split; [exact Ha|].
    eexists _, _, _, _, _, sess, ticket. split; [exact Hst|]. exact (Hc eq_refl).
Defined.

(** ** The built-in error page *)

Definition hostile_data : page_data :=
  {[ "statusName" := DStr "</title><script>"; "statusCode" := DInt 401; "description" := DStr "a < b & c";
     "primaryButtonUrl" := DStr "javascript:alert(1)"; "primaryButtonText" := DStr "Log in";
     "secondaryButtonUrl" := DStr "https://app.example.com/out?a=1&b='"; "secondaryButtonText" := DStr "Log out" ]}.

Definition hostile_page : string :=
  match renderPage empty_error_page hostile_data with Ok html => html | Err _ => "" end.

Lemma hostile_page_rendered : renderPage empty_error_page hostile_data = Ok hostile_page.
Proof. vm_compute. reflexivity. Defined.

Example hostile_texts :
  List.filter (fun s => negb (String.eqb s stylesheet)) (texts (decode (read InText hostile_page)))
  = ["</title><script>"; "401"; "</title><script>"; "a < b & c"; "Log in"; "Log out";
     "Powered by traefik-oidc-auth"].
Proof. vm_compute. reflexivity. Qed.

Lemma built_in_page_read_witness :
  attribute_values (decode (read InText hostile_page))
  = ["container"; "error-code"; "button-container"; "#ZgotmplZ"; "button-primary";
     "https://app.example.com/out?a=1&b=%27"; "button-secondary"; "footer";
     "https://traefik-oidc-auth.sevensolutions.cc/"; "_blank"].
Proof.
  destruct (built_in_page_read empty_error_page hostile_data hostile_page eq_refl hostile_page_rendered)
    as (_ & Hv & _).
  rewrite Hv. vm_compute. reflexivity.
Defined.

(** ** A public request *)

(** A middleware with a rule that lets everything pass. *)
Definition public_toa : Toa := {|
  t_ProviderURL := t_ProviderURL sample_toa; t_ClientJwtPrivateKey := None;
  t_CallbackURL := t_CallbackURL sample_toa; t_Config := t_Config sample_toa;
  t_DiscoveryDocument := t_DiscoveryDocument sample_toa; t_Jwks := t_Jwks sample_toa;
  t_BypassAuthenticationRule := Some (fun _ => true); t_RedirectUriWildcardsEnabled := false;
  t_validIssuer := ""; t_validAudience := ""; t_sessionWrites := t_sessionWrites sample_toa |}.

Definition public_start : St := {| s_toa := public_toa; s_rw := empty_response; s_next := [] |}.

Definition public_request : Request :=
  demo_request "/health" "" [("TraefikOidcAuth.Csrf", "x"); ("theme", "dark")].

(** The client's identity header and the internal cookie are gone. *)
Example public_forward :
  (fun r : unit * Env * St => map (fun f => (header_Get (r_Header f.1) "Remote-User", r_Cookies f.1))
                                (s_next r.2)) <$> ServeHTTP public_request start public_start
  = Some [("", [("theme", "dark")])].
Proof. vm_compute. reflexivity. Qed.

Lemma ServeHTTP_forwards_witness :
  ends (ServeHTTP public_request) start public_start (fun _ _ s' =>
    committed (s_rw s') = true \/ exists req' rw', s_next s' = [(req', rw')] /\ committed rw' = false).
Proof.
  eapply outcome_weaken; [exact (ServeHTTP_forwards public_request start public_start eq_refl eq_refl)|].
  intros [] e' s' [[_ C]|(req' & rw' & E & C & _)]; [exact (or_introl C) | right; exists req', rw'; exact (conj E C)].
Defined.

Lemma ServeHTTP_clean_witness :
  ends (ServeHTTP public_request) start public_start (fun _ _ s' => forall req' rw', (req', rw') ∈ s_next s' ->
    forall c, c ∈ r_Cookies req' -> c ∈ r_Cookies public_request).
Proof.
  eapply outcome_weaken; [exact (ServeHTTP_clean public_request start public_start eq_refl)|].
  intros [] e' s' Hf req' rw' Hin c Hc. exact (proj1 (proj1 (Hf req' rw' Hin) c Hc)).
Defined.

Lemma ServeHTTP_total_witness :
  runs (ServeHTTP public_request) start public_start (fun _ _ s' =>
    (s_next s' = [] /\ committed (s_rw s') = true) \/ exists forwarded, s_next s' = [forwarded]).
Proof.
  refine (ServeHTTP_total public_request start public_start eq_refl eq_refl demo_entropy _ _).
  - exact cookie_store_no_gap.
  - intros (p & [= <-] & Hv). discriminate Hv.
Defined.

(** ** A detour over the callback host *)

Definition absolute_toa : Toa := set_CallbackURL
  {| u_Scheme := "https"; u_Host := "auth.example.com"; u_Path := "/oidc/callback"; u_RawQuery := "" |} sample_toa.

Definition absolute_start : St := {| s_toa := absolute_toa; s_rw := empty_response; s_next := [] |}.

Definition redirect_uri_after (r : option (unit * Env * St)) (req : Request) : option string :=
  (fun r => url_String (GetAbsoluteCallbackURL (s_toa r.2) req)) <$> r.

(** The redirect_uri of every later login carries the state of this one. *)
Example callback_before :
  url_String (GetAbsoluteCallbackURL absolute_toa demo_callback) = "https://auth.example.com/oidc/callback".
Proof. vm_compute. reflexivity. Qed.

Example callback_after :
  (fun u => HasPrefix u "https://auth.example.com/oidc/callback?state=") <$>
    redirect_uri_after (doubleRedirectToProvider (demo_request "/a" "" []) "/a" false start absolute_start)
      demo_callback
  = Some true.
Proof. vm_compute. reflexivity. Qed.

Lemma double_redirect_pollutes_witness :
  runs (doubleRedirectToProvider (demo_request "/a" "" []) "/a" false) start absolute_start (fun _ _ s' =>
    s_toa s' = absolute_toa
    \/ exists v : values, v !! "state" <> None
         /\ GetAbsoluteCallbackURL (s_toa s') demo_callback
            = with_RawQuery (values_Encode v) (t_CallbackURL absolute_toa)).
Proof.
  eapply outcome_mono;
    [exact (double_redirect_pollutes (demo_request "/a" "" []) "/a" false start absolute_start eq_refl)
    | intros [] |].
  intros [] e' s' [[E _]|(sealed & v & _ & Hv & Hu)]; [left; exact E | right].
  exists v. split; [rewrite Hv; discriminate | exact (Hu demo_callback)].
Defined.

(** ** A renewed token that is reported inactive *)

Definition introspection_provider : ProviderConfig :=
  match default_provider with
  | Build_ProviderConfig p0 p1 p2 p3 p4 p5 p6 p7 p8 p9 p10 p11 p12 p13 p14 p15 p16 _ p18 p19 p20 p21 p22
      p23 p24 p25 p26 p27 =>
      Build_ProviderConfig p0 p1 p2 p3 p4 p5 p6 p7 p8 p9 p10 p11 p12 p13 p14 p15 p16 "Introspection" p18
        p19 p20 p21 p22 p23 p24 p25 p26 p27
  end.

Definition introspection_discovery : OidcDiscovery := {|
  dd_AuthorizationEndpoint := "https://idp.example.com/authorize"; dd_EndSessionEndpoint := "";
  dd_IntrospectionEndpoint := "https://idp.example.com/introspect"; dd_Issuer := "https://idp.example.com";
  dd_JWKSURI := ""; dd_RevocationEndpoint := ""; dd_TokenEndpoint := "https://idp.example.com/token";
  dd_UserinfoEndpoint := "" |}.

Definition introspection_toa : Toa := {|
  t_ProviderURL := t_ProviderURL sample_toa; t_ClientJwtPrivateKey := None;
  t_CallbackURL := t_CallbackURL sample_toa;
  t_Config := set_Provider (Some introspection_provider) CreateConfig;
  t_DiscoveryDocument := Some introspection_discovery; t_Jwks := fresh_handler;
  t_BypassAuthenticationRule := None; t_RedirectUriWildcardsEnabled := false;
  t_validIssuer := ""; t_validAudience := ""; t_sessionWrites := t_sessionWrites sample_toa |}.

Definition introspection_ticket : string :=
  match (store_StoreSession still_now (Ok sample_nonce) CreateConfig sample_session).2 with
  | Ok t => t
  | Err _ => ""
  end.

(** The access token is inactive, the refresh token still works, and the new
    access token is inactive too: a request with that session panics. *)
Definition inactive_request : Request :=
  demo_request "/a" "" [("TraefikOidcAuth.Session", introspection_ticket)].

Definition introspection_start : St :=
  {| s_toa := introspection_toa; s_rw := empty_response; s_next := [] |}.

Lemma no_session_no_error_panics_witness : ServeHTTP inactive_request start introspection_start = None.
Proof.
  eapply (no_session_no_error_panics inactive_request start introspection_start).
  1-2: vm_compute; reflexivity.
  1: discriminate.
  1-2: vm_compute; reflexivity.
  vm_compute. reflexivity.
Defined.

(** Without the session the same request is answered. *)
Example no_session_answers :
  (fun r : unit * Env * St => committed (s_rw r.2)) <$>
    ServeHTTP (demo_request "/a" "" []) start introspection_start = Some true.
Proof. vm_compute. reflexivity. Qed.

(** ** An allowlist without the user's own page *)

Definition allowlist_config : Config :=
  set_ValidPostLoginRedirectUris ["https://app.example.com/welcome"] CreateConfig.

Lemma own_target_refused_witness :
  login_target allowlist_config (demo_request "/private" "" []) false = Ok "https://app.example.com/private"
  /\ is_Ok (post_login_target allowlist_config demo_callback false "https://app.example.com/private") = false.
Proof.
  refine (own_target_refused allowlist_config (demo_request "/private" "" []) demo_callback _ eq_refl eq_refl
            eq_refl _).
  - discriminate.
  - apply slice_contains_false. vm_compute. reflexivity.
Defined.

(** ** A middleware that is built *)

#[local] Instance bare_os : Os := {| os_LookupEnv _ := None; Utils.os_ReadFile _ := errorf "no such file" |}.
#[local] Instance plain_pem : PemKeys := {| ParseRSAPrivateKeyFromPEM s := Ok s |}.
#[local] Instance literal_regexp : Regexp := {| regexp_Compile s := Ok (String.eqb s) |}.
#[local] Instance no_rules : GoParser := {|
  ParseExpr _ := errorf "expected expression"; Unquote s := Ok s; float_literal _ := false |}.
#[local] Existing Instances key_order key_order_laws.

Definition built_provider (url : string) (p : ProviderConfig) : ProviderConfig :=
  match p with
  | Build_ProviderConfig _ p1 p2 p3 p4 _ p6 p7 p8 p9 p10 p11 p12 p13 p14 p15 p16 p17 p18 p19 p20 p21 p22
      p23 p24 p25 p26 p27 =>
      Build_ProviderConfig url p1 p2 p3 p4 "client" p6 p7 p8 p9 p10 p11 p12 p13 p14 p15 p16 p17 p18 p19 p20
        p21 p22 p23 p24 p25 p26 p27
  end.

Definition set_Secret (secret : string) (c : Config) : Config :=
  match c with
  | Build_Config f0 _ f2 f3 f4 f5 f6 f7 f8 f9 f10 f11 f12 f13 f14 f15 f16 f17 f18 f19 f20 f21 f22
      f23 f24 f25 f26 f27 f28 f29 =>
      Build_Config f0 secret f2 f3 f4 f5 f6 f7 f8 f9 f10 f11 f12 f13 f14 f15 f16 f17 f18 f19 f20 f21 f22
      f23 f24 f25 f26 f27 f28 f29
  end.

Definition built_config : Config :=
  set_Secret sample_key
    (set_Provider (Some (built_provider "https://idp.example.com" default_provider)) CreateConfig).

Definition plain_client : HttpClient :=
  {| hc_InsecureSkipVerify := false; hc_CABundle := None; hc_Timeout := 30 * Second |}.

Definition built : Config * Toa * HttpClient :=
  match New built_config with
  | Ok (c, Middleware t client) => (c, t, client)
  | _ => (built_config, sample_toa, plain_client)
  end.

(** The defaults with a secret and a provider are accepted; the default secret
    is not, and neither is a secret that is not 32 bytes. *)
Lemma built_ok : New built_config = Ok (built.1.1, Middleware built.1.2 built.2).
Proof. vm_compute. reflexivity. Defined.

Example default_secret_refused :
  New (set_Secret DefaultSecret built_config) = errorf "default secret is not allowed".
Proof. vm_compute. reflexivity. Qed.

Example short_secret_refused : New (set_Secret "short" built_config) = errorf "invalid secret".
Proof. vm_compute. reflexivity. Qed.

Example null_cookie_panics :
  New (match built_config with
       | Build_Config f0 f1 f2 f3 f4 f5 f6 f7 f8 f9 f10 f11 f12 f13 _ f15 f16 f17 f18 f19 f20 f21 f22
           f23 f24 f25 f26 f27 f28 f29 =>
           Build_Config f0 f1 f2 f3 f4 f5 f6 f7 f8 f9 f10 f11 f12 f13 None f15 f16 f17 f18 f19 f20 f21 f22
           f23 f24 f25 f26 f27 f28 f29
       end) = Err ErrPanic.
Proof. vm_compute. reflexivity. Qed.

Lemma New_valid_witness :
  New built_config = Ok (built.1.1, Middleware built.1.2 built.2) /\ valid_config built.1.1
  /\ slen (Secret built.1.1) = 32%nat.
Proof.
  destruct (New_valid built_config built.1.1 built.1.2 built.2 built_ok) as (_ & V & _).
  exact (conj built_ok (conj V (proj2 (vc_secret _ V)))).
Defined.

Lemma requests_served_witness :
  runs (ServeHTTP public_request) start (incoming built.1.2) (fun _ _ s' => request_step built.1.2 (s_toa s')).
Proof.
  eapply outcome_weaken.
  - refine (requests_served built_config built.1.1 built.1.2 built.2 built.1.2 public_request start built_ok _ _
              demo_entropy cookie_store_no_gap (rtc_refl _ _)).
    + discriminate.
    + intros (p & E & Hv). vm_compute in E. injection E as <-. discriminate Hv.
  - intros [] e' s' [Hs _]. exact Hs.
Defined.

(** *** Requests one after the other *)

Section Discovering.

(** The provider serves its discovery document. *)
Definition discovery_body : string :=
  json_print (JObj [("issuer", JStr "https://idp.example.com");
                    ("authorization_endpoint", JStr "https://idp.example.com/authorize");
                    ("token_endpoint", JStr "https://idp.example.com/token")]).

Definition discovering_world : External := {|
  clock _ := still_now;
  random _ n := Ok (if (n =? 12)%nat then sample_nonce else "0123456789abcdef");
  http_Do _ q :=
    if HasSuffix (q_Url q) "/.well-known/openid-configuration" then answer discovery_body
    else errorf "connection refused"
|}.

#[local] Existing Instance discovering_world.

Definition serve_private (t : Toa) : option (unit * Env * St) :=
  ServeHTTP (demo_request "/private" "" []) start (incoming t).

Definition after_private (t : Toa) : Toa := from_option (fun r => s_toa r.2) t (serve_private t).

(** A first request discovers the provider; a second finds the document. *)
Definition built_used : Toa := after_private built.1.2.

Lemma served_private t : serve_private t <> None -> request_step t (after_private t).
Proof.
  intros Hs. unfold after_private. destruct (serve_private t) as [[[[] e'] s']|] eqn:E; [|destruct (Hs eq_refl)].
  exact (handled t _ _ _ _ E).
Defined.

Lemma requests_invariant_witness :
  t_DiscoveryDocument built.1.2 = None
  /\ dd_Issuer <$> t_DiscoveryDocument built_used = Some "https://idp.example.com"
  /\ t_DiscoveryDocument (after_private built_used) = t_DiscoveryDocument built_used
  /\ valid_config (t_Config (after_private built_used)).
Proof.
  assert (R1 : rtc request_step built.1.2 built_used).
  { apply rtc_once, served_private. intros Hs. vm_compute in Hs. discriminate Hs. }
  assert (R2 : rtc request_step built_used (after_private built_used)).
  { apply rtc_once, served_private. intros Hs. vm_compute in Hs. discriminate Hs. }
  destruct (requests_invariant built_config built.1.1 built.1.2 built.2 _ _ built_ok R1 R2)
    as (V & _ & _ & _ & _ & _ & D).
  split; [vm_compute; reflexivity|]. split; [vm_compute; reflexivity|]. split; [|exact V].
  refine (proj1 (D _)). intros Hd. vm_compute in Hd. discriminate Hd.
Defined.
End Discovering.
