(* ===== verification/ServiceWitnesses.v ===== *)
(** * The service in a concrete world

    Two clients in one file, a gateway that asks over gRPC, and the theorems on
    the routing, the reloads and the answers applied to them. *)

From Stdlib Require Import ZArith Lia Ascii String Bool List.
From S2P Require Import Prelude GoStrings Base64 GoUrl Json Http Utils World Samples RedirectUri Config Authorization ErrorPages.
From S2P Require Import Predicate Rules OidcState SessionStorage Jwks Cookies Tokens Session Network Prefixes Routes Server Login Logout Callback Middleware Setup Lifecycle Hosts MultiConfig HostRouter TrustedPeers ExtAuth Watch Service Witnesses.

#[local] Existing Instances ascii_only_unicode binary_json binary_time clear_aead sample_jwt
  no_unicode_match literal_floats member_paths seconds_floats.
#[local] Existing Instances written_urls written_media blank_pages verbatim_templates plain_sha plain_uuid
  plain_secrets demo_store demo_store_laws provider_world plain_pem literal_regexp no_rules key_order
  key_order_laws.

(** ** Hosts *)

Example exact_before_wildcard :
  let m := <["*.example.com" := 1]> (<["a.example.com" := 2]> {["*.b.example.com" := 3]}) in
  map (lookupHost m) ["A.Example.com."; "x.b.example.com:8443"; "c.example.com"; "example.com"]
  = [Some 2; Some 3; Some 1; None].
Proof. vm_compute. reflexivity. Qed.

(** An IPv6 literal has two keys, with and without its port. *)
Example ipv6_two_keys : (normalizeHost "[::1]:443", normalizeHost "[::1]") = ("::1", "[::1]").
Proof. vm_compute. reflexivity. Qed.

Lemma lookupHost_spec_witness :
  lookupHost {["*.example.com" := 1]} "a.example.com" = Some 1
  /\ (lookupHost {["*.example.com" := 1]} "a.example.com" = Some 1 ->
      routes_to {["*.example.com" := 1]} "a.example.com" 1).
Proof.
  split; [vm_compute; reflexivity|].
  exact (proj1 (proj1 (lookupHost_spec {["*.example.com" := 1]} "a.example.com") 1)).
Defined.

Lemma validateHostPattern_narrow_witness :
  exists label a b, label <> "" /\ "x.y.example.com" = label +:+ "." +:+ a +:+ "." +:+ b
    /\ "*.example.com" = "*." +:+ a +:+ "." +:+ b.
Proof. exact (validateHostPattern_narrow "*.example.com" "x.y.example.com" eq_refl eq_refl). Defined.

(** ** Two clients *)

Definition client_config (prefix secret : string) : Config :=
  match set_Secret secret built_config with
  | Build_Config f0 f1 f2 f3 f4 f5 f6 f7 f8 f9 f10 f11 f12 _ f14 f15 f16 f17 f18 f19 f20 f21 f22
      f23 f24 f25 f26 f27 f28 f29 =>
      Build_Config f0 f1 f2 f3 f4 f5 f6 f7 f8 f9 f10 f11 f12 prefix f14 f15 f16 f17 f18 f19 f20 f21 f22
      f23 f24 f25 f26 f27 f28 f29
  end.

Definition two_clients (prefix_a prefix_b : string) : list clientEntry := [
  {| cl_ID := "a"; cl_Hosts := ["a.example.com"; "*.a.example.com"];
     cl_Config := client_config prefix_a "0123456789abcdef0123456789abcdef" |};
  {| cl_ID := "b"; cl_Hosts := ["b.example.com"];
     cl_Config := client_config prefix_b "fedcba9876543210fedcba9876543210" |} ].

(** Two files: one whose clients have prefixes of their own, and one whose
    prefixes come from two variables. *)
#[local] Instance two_files : Yaml := {|
  yaml_node := clientEntry;
  yaml_clients data :=
    if String.eqb data "good" then Ok (two_clients "A" "B")
    else if String.eqb data "vars" then Ok (two_clients "${A}" "${B}")
    else errorf "yaml: did not find expected node content";
  yaml_meta c := Ok (cl_ID c, cl_Hosts c);
  yaml_config c _ := Ok (cl_Config c)
|}.

(** The path is the content, and the two variables have the same value. *)
Definition demo_os : Os := {|
  os_LookupEnv name := if slice_contains ["A"; "B"] name then Some "shared" else None;
  Utils.os_ReadFile path := Ok path
|}.

Definition demo_server : Server := doReload demo_os "good" newHostRouter.

Example demo_table :
  map (fun h => sv_hosts demo_server !! h) ["a.example.com"; "*.a.example.com"; "b.example.com"; "c"]
  = [Some 0%nat; Some 0%nat; Some 1%nat; None].
Proof. vm_compute. reflexivity. Qed.

(** A broken file leaves the server as it is. *)
Example broken_reload : doReload demo_os "{" demo_server = demo_server.
Proof. reflexivity. Qed.

(** Prefixes that are distinct in the file and equal once expanded are not
    noticed. *)
Example expanded_prefixes_collide :
  map (fun h => match h with Middleware t _ => CookieNamePrefix (t_Config t) | Catalog => "" end)
      (sv_heap (doReload demo_os "vars" newHostRouter)) = ["shared"; "shared"].
Proof. vm_compute. reflexivity. Qed.

Definition routed_request : Request :=
  match demo_request "/a" "" [] with
  | Build_Request m u _ uri h cs tls addr => Build_Request m u "x.a.example.com" uri h cs tls addr
  end.

Definition routed : Env * Conn :=
  match router_ServeHTTP routed_request start (connect demo_server) with
  | Some (_, e, k) => (e, k)
  | None => (start, connect demo_server)
  end.

Lemma routed_ok :
  router_ServeHTTP routed_request start (connect demo_server) = Some (tt, routed.1, routed.2).
Proof. vm_compute. reflexivity. Defined.

Lemma server_refines_witness :
  exists ts, run tenant_step []
    [LReload demo_os "good"; LRequest routed_request (k_rw routed.2) (k_next routed.2)] ts
    /\ represents (k_server routed.2) ts.
Proof.
  refine (server_refines _ _ (run_cons _ _ _ _ _ _ _ (run_cons _ _ _ _ _ _ _ (run_nil _ _)))).
  - exact (server_reload newHostRouter demo_os "good").
  - exact (server_request demo_server routed_request start routed.1 routed.2 routed_ok).
Defined.

(** ** A gateway that asks over gRPC *)

Definition demo_attributes (host path : string) : HttpAttributes := {|
  ha_Method := "GET"; ha_Scheme := "https"; ha_Host := host; ha_Path := path;
  ha_Headers := {["x-custom" := "v1,v2"]}; ha_Body := "" |}.

Definition demo_grpc (path : string) : Request :=
  match buildHTTPRequest (demo_attributes "app.example.com" path) with
  | Ok req => req
  | Err _ => public_request
  end.

Definition callback_attributes : HttpAttributes := demo_attributes "app.example.com" "/oidc/callback".
Definition stranger_attributes : HttpAttributes :=
  demo_attributes "app.example.com" "/frontchannel-logout/../admin".

Lemma callback_built : buildHTTPRequest callback_attributes = Ok (demo_grpc "/oidc/callback").
Proof. vm_compute. reflexivity. Defined.

Lemma stranger_built : buildHTTPRequest stranger_attributes = Ok (demo_grpc "/frontchannel-logout/../admin").
Proof. vm_compute. reflexivity. Defined.

Example header_pieces : r_Header (demo_grpc "/") !! "X-Custom" = Some ["v1"; "v2"].
Proof. vm_compute. reflexivity. Qed.

Example cookie_lines :
  readCookies ["a=1; b=x\y"; "bad name=1; c=d\e; =f; g"] = [("a", "1"); ("g", "")].
Proof. vm_compute. reflexivity. Qed.

Definition one_client : Server :=
  {| sv_hosts := {["app.example.com" := 0%nat]}; sv_heap := [Middleware sample_toa plain_client] |}.

Lemma Check_decides_witness :
  ends (Check (demo_attributes "b.example.com" "/")) start (connect one_client) (fun r _ k =>
    k_next k = [] -> cr_Code r = codes_OK -> exists code, w_Status (k_rw k) = Some code).
Proof.
  eapply outcome_weaken; [exact (Check_decides (demo_attributes "b.example.com" "/") start one_client)|].
  intros r e k [(req' & rw' & hs & cs & E & _)|[_ H]] En Hc.
  - rewrite E in En. discriminate En.
  - destruct (proj1 H Hc) as (code & Hs & _). exists code. exact Hs.
Defined.

(** The callback that the identity provider redirects to is not recognised. *)
Lemma grpc_requests_are_http_witness :
  pathMatchesRoute (u_Path (r_URL (demo_grpc "/oidc/callback"))) (u_Path (t_CallbackURL absolute_toa)) = true
  /\ isCallbackRequest absolute_toa (demo_grpc "/oidc/callback") = false.
Proof.
  split; [vm_compute; reflexivity|].
  destruct (grpc_requests_are_http callback_attributes
              (demo_grpc "/oidc/callback") absolute_toa callback_built) as (_ & Hc & _).
  exact (Hc eq_refl eq_refl).
Defined.

(** A stranger's request below the front-channel route. *)
Definition stranger : Request := demo_grpc "/frontchannel-logout/../admin".

Definition stranger_session : option SessionState * bool * claims * option error * Env * Toa :=
  match getSessionForRequest stranger start sample_toa with
  | Some (r, e, t) => (r, e, t)
  | None => (None, false, ∅, None, start, sample_toa)
  end.

Lemma frontchannel_opens_witness :
  exists headers cookies k,
    Check stranger_attributes start (connect one_client)
    = Some ({| cr_Code := codes_OK; cr_Response := OkResponse headers cookies |}, stranger_session.1.2, k)
    /\ k_next k = [].
Proof.
  refine (frontchannel_opens _ stranger 0%nat sample_toa plain_client start one_client start sample_toa
            stranger_session.1.1.1.1.2 stranger_session.1.1.1.2 stranger_session.1.1.2 _ stranger_session.2
            stranger_built _ _ _ _ _ _ _ _).
  all: vm_compute; reflexivity.
Defined.

(** ** Forwarding headers *)

Definition gateway : IPNet := {| n_IP := [10; 0; 0; 0]; n_Mask := [255; 0; 0; 0] |}.

Definition forwarded : Request :=
  with_header (fun _ => header_Set "X-Forwarded-Host" "evil.example, app.example.com"
                          (header_Set "X-Forwarded-Uri" "/private" ∅))
    (match demo_request "/" "" [] with
     | Build_Request m u host uri h cs tls _ => Build_Request m u host uri h cs tls "10.1.2.3:4711"
     end).

Definition forwarded_to : Request :=
  match forwarded_request [gateway] forwarded with Ok req => req | Err _ => forwarded end.

Example forwarded_host :
  (r_Host forwarded_to, u_Path (r_URL forwarded_to)) = ("app.example.com", "/private").
Proof. vm_compute. reflexivity. Qed.

Lemma forwarded_request_trusted_witness :
  forwarded_request [gateway] forwarded = Ok forwarded_to
  /\ (forwarded_to = forwarded \/ peer_trusted [gateway] forwarded).
Proof.
  assert (E : forwarded_request [gateway] forwarded = Ok forwarded_to) by reflexivity.
  split; [exact E|]. destruct (forwarded_request_trusted [gateway] forwarded forwarded_to E) as [H|[H _]];
    [exact (or_introl H) | exact (or_intror H)].
Defined.

(** An entry that is an IPv4 address in IPv6 form trusts other peers than
    it names. *)
Example mapped_proxy :
  (fun nets => map (fun addr => peerIsTrusted addr nets) ["10.0.0.1:80"; "[::1]:80"; "[::dead:beef]:80"])
    <$> (match parseTrustedProxies "::ffff:10.0.0.1" with Ok nets => Some nets | Err _ => None end)
  = Some [false; true; true].
Proof. vm_compute. reflexivity. Qed.

Example proxies_parsed :
  match parseTrustedProxies " 10.0.0.0/8, ,::1" with
  | Ok nets => map (fun addr => peerIsTrusted addr nets) ["10.9.8.7:1"; "[::1]:1"; "11.0.0.1:1"; ""]
  | Err _ => []
  end = [true; true; false; false].
Proof. vm_compute. reflexivity. Qed.

Definition proxies : list IPNet :=
  match parseTrustedProxies " 10.0.0.0/8, ,::1" with Ok nets => nets | Err _ => [] end.

Lemma trusted_peers_spec_witness :
  parseTrustedProxies " 10.0.0.0/8, ,::1" = Ok proxies
  /\ exists ip entry a n, peer_address "10.9.8.7:1" = Some ip /\ entry ∈ SplitByte " 10.0.0.0/8, ,::1" ","
       /\ TrimSpace entry <> "" /\ entry_network (TrimSpace entry) = Some (a, n) /\ in_network ip a n.
Proof.
  assert (E : parseTrustedProxies " 10.0.0.0/8, ,::1" = Ok proxies) by (vm_compute; reflexivity).
  split; [exact E|]. apply (trusted_peers_spec _ _ "10.9.8.7:1" E). vm_compute. reflexivity.
Defined.

(** ** A burst of events *)

#[local] Instance flat_paths : FilePath := {|
  filepath_Clean s := s; filepath_Dir _ := "/etc"; filepath_Base s := TrimPrefix s "/etc/" |}.

Definition burst : list (time * input) := [
  (0, Event "/etc/config.yaml" [Write]); (200000000, Event "/etc/config.yaml" [Chmod]);
  (400000000, Event "/etc/other" [Write]); (600000000, Event "/etc/..data" [Create]) ].

Lemma burst_in_order : in_order burst.
Proof.
  unfold burst. repeat (apply in_order_cons; [|]); [..|apply in_order_nil];
    intros j Hj; repeat (apply elem_of_cons in Hj as [->|Hj]; [simpl; lia|]); by apply elem_of_nil in Hj.
Defined.

(** The first two changes and the last one come to two reloads, of which one
    is still due. *)
Example burst_reloads : watchConfig "/etc/config.yaml" [] burst = ([500000000], Armed 900000000).
Proof. vm_compute. reflexivity. Qed.

Lemma watchConfig_reloads_witness :
  change_at "/etc/config.yaml" [] burst (500000000 - reloadDebounce).
Proof.
  exact (proj1 (proj2 (watchConfig_reloads "/etc/config.yaml" [] burst burst_in_order) 500000000
                  (list_elem_of_here 500000000 []))).
Defined.

(** ** The process *)

Definition process_os : Os := {|
  os_LookupEnv name :=
    if String.eqb name "CONFIG_FILE" then Some "good"
    else if String.eqb name "TRUSTED_PROXIES" then Some "10.0.0.0/8"
    else if String.eqb name "GRPC_LISTEN_ADDR" then Some ":9003" else None;
  Utils.os_ReadFile path := Ok path
|}.

Definition no_process : service := {|
  svc_trustedProxies := []; svc_listenAddr := ""; svc_grpcAddr := ""; svc_configPath := "";
  svc_secretDirs := []; svc_router := newHostRouter |}.

Definition process : service := match main process_os with Ok s => s | Err _ => no_process end.

Example process_listens :
  (svc_listenAddr process, svc_grpcAddr process, length (svc_trustedProxies process),
   length (sv_heap (svc_router process))) = (":9002", ":9003", 1%nat, 2%nat).
Proof. vm_compute. reflexivity. Qed.

Lemma process_started : main process_os = Ok process.
Proof. unfold process. destruct (main process_os) eqn:E; [reflexivity | vm_compute in E; discriminate E]. Defined.

(** A check for a client, a reload from a broken file, a check for no client. *)
Definition checked : CheckResponse * Conn :=
  match Check (demo_attributes "x.a.example.com" "/") start (connect (svc_router process)) with
  | Some (r, _, k) => (r, k)
  | None => (check_response empty_response, connect newHostRouter)
  end.

Definition after_check : service := set_router (k_server checked.2) process.
Definition after_broken : service :=
  set_router (doReload demo_os (svc_configPath after_check) (svc_router after_check)) after_check.

Lemma process_serves :
  serves process [Answered (GrpcCall (demo_attributes "x.a.example.com" "/")) (GrpcAnswer (Ok checked.1));
                  Reloaded demo_os] after_broken.
Proof.
  econstructor; [|econstructor; [apply (service_reload after_check demo_os)|constructor]].
  assert (E : exists e, Check (demo_attributes "x.a.example.com" "/") start (connect (svc_router process))
                        = Some (checked.1, e, checked.2)).
  { unfold checked. destruct (Check _ _ _) as [[[r e] k]|] eqn:E; [exists e; reflexivity | vm_compute in E; discriminate E]. }
  destruct E as [e E]. apply (service_grpc process _ start e checked.1 checked.2); [|exact E].
  unfold process. vm_compute. discriminate.
Defined.

Lemma service_refines_witness :
  exists ts0 ts, loads process_os "good" ts0 /\ represents (svc_router after_broken) ts.
Proof.
  destruct (proj2 (service_refines process_os) process _ after_broken process_started process_serves)
    as (ts0 & ts & Hl & _ & Hr).
  exists ts0, ts. exact (conj Hl Hr).
Defined.
