(* ===== verification/Schedules.v ===== *)
(** * Concrete schedules

    Requests that load the keys and the discovery document at the same time,
    interleaved in ways written out, with the answers of the provider as JSON
    text; the detours of two browsers, the
    tickets of one session; and the theorems of [KeyCache], [TicketRecord],
    [CallbackUrl] and [TemplateFuncs] at these inputs. *)

From Stdlib Require Import ZArith Lia Ascii String Bool List.
From stdpp Require Import relations.
From S2P Require Import Prelude GoStrings GoUrl Json JsonSyntax Http World Concurrent Samples Config Authorization.
From S2P Require Import RedirectUri Jwks Tokens Routes KeyCache Server TicketRecord TemplateFuncs Login CallbackUrl Witnesses.

#[local] Existing Instances ascii_only_unicode go_json path_urls.

(** JSON text with apostrophes for quotation marks. *)
Definition js (s : string) : string := smap (fun c => if Ascii.eqb c "'" then quote_char else c) s.

Definition jwks_text : string :=
  js "{'keys': [{'kid': 'k1', 'kty': 'RSA', 'use': 'sig', 'n': 'AQAB', 'e': 'AQAB'},
                {'kid': 'k2', 'kty': 'oct'}]}".

Definition ok_answer (body : string) : result HttpResponse :=
  Ok {| p_Status := 200; p_ContentType := "application/json"; p_Body := body; p_BodyErr := None |}.

Example jwks_text_read :
  jwks_answer {| p_Status := 200; p_ContentType := ""; p_Body := jwks_text; p_BodyErr := None |}
  = Ok ([{| rk_kid := "k1"; rk_N := 65537; rk_E := 65537 |}], []).
Proof. vm_compute. reflexivity. Qed.

(** ** Two requests without keys *)

Definition idle_handler : JwksHandler := {|
  jh_Url := "https://idp.example.com/keys"; jh_RsaKeys := []; jh_EcdsaKeys := [];
  jh_CacheDate := 0; jh_lastReloadError := 0 |}.

Definition noon : time := still_now.

(** Turns of a thread at one instant. *)
Definition turns (i n : nat) (now : time) (r : result HttpResponse) : list turn := repeat (i, now, r) n.

(** Both find no keys; the first asks while the second waits for the lock; the
    second then finds the keys and asks no more. *)
Definition shared_reload : list turn :=
  turns 0 2 noon (Err ErrPanic) ++ turns 1 2 noon (Err ErrPanic)
  ++ turns 0 5 noon (Err ErrPanic) ++ turns 0 4 (noon + Second) (ok_answer jwks_text)
  ++ turns 1 4 (noon + Second) (Err ErrPanic).

Definition summary (c : option (threads JwksHandler (result unit))) : option (nat * nat * list (option bool)) :=
  (fun c => (length (c_log c), length (jh_RsaKeys (c_state c)),
             map (fun p => match p with Return r => Some (is_Ok r) | _ => None end) (c_procs c))) <$> c.

Example one_request_for_two :
  summary (run_schedule (loading noon idle_handler [false; true]) shared_reload)
  = Some (1%nat, 1%nat, [Some true; Some true]).
Proof. vm_compute. reflexivity. Qed.

(** The second cannot take the lock before the first has let it go. *)
Example second_waits :
  run_schedule (loading noon idle_handler [false; true])
    (turns 0 3 noon (Err ErrPanic) ++ turns 1 3 noon (Err ErrPanic)) = None.
Proof. vm_compute. reflexivity. Qed.

Definition after_reload : threads JwksHandler (result unit) :=
  default (loading noon idle_handler [false; true])
    (run_schedule (loading noon idle_handler [false; true]) shared_reload).

Lemma after_reload_reached : rtc step (loading noon idle_handler [false; true]) after_reload.
Proof.
  apply run_schedule_steps with (ts := shared_reload). unfold after_reload.
  destruct (run_schedule _ shared_reload) eqn:E; [reflexivity|]. vm_compute in E. discriminate E.
Defined.

Lemma noon_positive : 0 < noon.
Proof. reflexivity. Defined.

Lemma reloads_are_spaced_witness : one_request_at_a_time after_reload /\ spaced (c_log after_reload).
Proof. exact (reloads_are_spaced noon idle_handler [false; true] _ noon_positive after_reload_reached). Defined.

Lemma loading_terminates_witness : hasKeys (c_state after_reload) = true.
Proof.
  apply (proj2 (proj2 (loading_terminates noon idle_handler [false; true] noon_positive)) after_reload 1%nat
           after_reload_reached).
  vm_compute. reflexivity.
Defined.

Lemma every_call_asks_in_vain_witness :
  exists c1 c2, rtc step (loading noon idle_handler [false; false; true]) c1
    /\ c_log c1 = [] /\ Forall (fun p => waits_for_mutex p = true) (c_procs c1)
    /\ rtc step c1 c2 /\ length (c_log c2) = 3%nat
    /\ Forall (fun p => call_failed p = true) (c_procs c2).
Proof.
  exact (proj2 (every_call_asks_in_vain noon idle_handler [false; false; true]
           {| u_Scheme := ""; u_Host := ""; u_Path := "https://idp.example.com/keys"; u_RawQuery := "" |}
           noon_positive eq_refl eq_refl)).
Defined.

(** ** Discovery *)

Definition discovery_text : string := js "{'issuer': 'https://idp.example.com', 'jwks_uri': '/keys'} trailing".

Definition shared_discovery : list turn :=
  turns 0 1 noon (Err ErrPanic) ++ turns 1 1 noon (Err ErrPanic) ++ turns 1 7 noon (ok_answer discovery_text)
  ++ turns 1 1 noon (Err ErrPanic) ++ turns 0 3 noon (Err ErrPanic).

Definition undiscovered : Toa := {|
  t_ProviderURL := t_ProviderURL sample_toa; t_ClientJwtPrivateKey := None;
  t_CallbackURL := t_CallbackURL sample_toa; t_Config := t_Config sample_toa;
  t_DiscoveryDocument := None; t_Jwks := t_Jwks sample_toa; t_BypassAuthenticationRule := None;
  t_RedirectUriWildcardsEnabled := false; t_validIssuer := ""; t_validAudience := "";
  t_sessionWrites := t_sessionWrites sample_toa |}.

Definition discovered_once : threads Toa (result unit) :=
  default (discovering noon undiscovered 2) (run_schedule (discovering noon undiscovered 2) shared_discovery).

Example discovered_by_one_request :
  (length (c_log discovered_once), dd_Issuer <$> t_DiscoveryDocument (c_state discovered_once),
   jh_Url (t_Jwks (c_state discovered_once)),
   map (fun p => match p with Return r => is_Ok r | _ => false end) (c_procs discovered_once))
  = (1%nat, Some "https://idp.example.com", "/keys", [true; true]).
Proof. vm_compute. reflexivity. Qed.

Lemma discovery_published_once_witness :
  one_request_at_a_time discovered_once /\ t_DiscoveryDocument (c_state discovered_once) <> None.
Proof.
  assert (Hr : rtc step (discovering noon undiscovered 2) discovered_once).
  { apply run_schedule_steps with (ts := shared_discovery). unfold discovered_once.
    destruct (run_schedule _ shared_discovery) eqn:E; [reflexivity|]. vm_compute in E. discriminate E. }
  destruct (discovery_published_once noon undiscovered 2 discovered_once ltac:(discriminate) Hr)
    as (H1 & _ & _ & H4 & _).
  split; [exact H1|]. apply (H4 0%nat). vm_compute. reflexivity.
Defined.

(** ** The tickets of one session *)

(** Eight minutes of idling: a ticket is written again after a minute. *)
Definition idle_config : Config := set_bounds 86400 480 CreateConfig.

Definition session_requests : list ticket_request :=
  [first_request "s1"; first_request "s1"; first_request "s1"].

Definition nobody : result HttpResponse := Err ErrPanic.

(** The first two look before either has noted; the third comes half a minute
    later and sees the note of the second. *)
Definition two_at_once : list turn :=
  turns 0 1 noon nobody ++ turns 1 1 noon nobody ++ turns 0 5 noon nobody
  ++ turns 1 5 (noon + Second) nobody ++ turns 2 3 (noon + 30 * Second) nobody.

Definition after_requests : threads desk (ticket_request * verdict) :=
  default (serving idle_config noon session_requests) (run_schedule (serving idle_config noon session_requests) two_at_once).

Example two_tickets_written :
  (map (fun p => match p with Return (_, v) => Some v | _ => None end) (c_procs after_requests),
   map (fun n => n_marked n - noon) (d_notes (c_state after_requests)),
   sw_count (d_tracker (c_state after_requests)))
  = ([Some Issued; Some Issued; Some (Kept (Some (noon + 30 * Second)))], [0; Second], 2).
Proof. vm_compute. reflexivity. Qed.

Lemma after_requests_reached : rtc step (serving idle_config noon session_requests) after_requests.
Proof.
  apply run_schedule_steps with (ts := two_at_once). unfold after_requests.
  destruct (run_schedule _ two_at_once) eqn:E; [reflexivity|]. vm_compute in E. discriminate E.
Defined.

Lemma record_is_replayed_witness :
  d_tracker (c_state after_requests) = replay (d_notes (c_state after_requests))
  /\ Forall (fun p => exists a, p = Return a) (c_procs after_requests).
Proof.
  destruct (record_is_replayed idle_config noon session_requests after_requests after_requests_reached)
    as (E & _ & _ & _ & _).
  split; [exact E|]. vm_compute. repeat constructor; eexists; reflexivity.
Defined.

Lemma kept_tickets_are_vouched_witness :
  exists n now, n ∈ d_notes (c_state after_requests) /\ n_id n = "s1" /\ n_sealed n <= n_marked n
    /\ Some (noon + 30 * Second) = Some now
    /\ now - n_marked n < refresh_interval (SessionIdleTimeoutSeconds idle_config) * Second.
Proof.
  assert (c_procs after_requests !! 2%nat
          = Some (Return (first_request "s1", Kept (Some (noon + 30 * Second))))) as Hi
    by (vm_compute; reflexivity).
  destruct (kept_tickets_are_vouched idle_config noon session_requests after_requests 2 _ _
              after_requests_reached Hi) as [_ Hv].
  exact (proj1 (Hv eq_refl) eq_refl).
Defined.

Lemma first_requests_all_write_witness :
  exists c, rtc step (serving idle_config noon (replicate 5 (first_request "s1"))) c
    /\ c_procs c = replicate 5 (Return (first_request "s1", Issued))
    /\ length (d_notes (c_state c)) = 5%nat
    /\ Forall (fun m => n_id m = "s1") (d_notes (c_state c)).
Proof.
  exact (first_requests_all_write idle_config "s1" noon 5 eq_refl (or_introl eq_refl)).
Defined.

(** ** The detours of two browsers *)

Definition detour_to (sealed : string) : detour :=
  {| dt_req := demo_request "/a" "" []; dt_challenge := false; dt_sealed := Ok sealed |}.

#[local] Instance written_urls : UrlLib := {|
  url_Parse s := Ok {| u_Scheme := ""; u_Host := ""; u_Path := s; u_RawQuery := "" |};
  url_String u := u_Scheme u +:+ "://" +:+ u_Host u +:+ u_Path u +:+ "?" +:+ u_RawQuery u;
  url_RequestURI u := u_Path u;
  url_ParseRequestURI s := Ok {| u_Scheme := ""; u_Host := ""; u_Path := s; u_RawQuery := "" |};
  path_Join a b := a +:+ "/" +:+ b;
  redirect_location _ s := s
|}.

Definition crossed : list turn := turns 0 2 noon nobody ++ turns 1 2 noon nobody ++ turns 0 1 noon nobody ++ turns 1 1 noon nobody.

Definition crossing : threads Toa (detour * result string) := detouring noon absolute_toa [detour_to "mine"; detour_to "theirs"].

Definition after_crossing : threads Toa (detour * result string) :=
  default crossing (run_schedule crossing crossed).

Example sent_with_the_state_of_another :
  map (fun p => match p with Return (_, r) => Some r | _ => None end) (c_procs after_crossing)
  = [Some (Ok "https://auth.example.com/oidc/callback?state=theirs");
     Some (Ok "https://auth.example.com/oidc/callback?state=theirs")].
Proof. vm_compute. reflexivity. Qed.

Lemma after_crossing_reached : rtc step crossing after_crossing.
Proof.
  apply run_schedule_steps with (ts := crossed). unfold after_crossing.
  destruct (run_schedule _ crossed) eqn:E; [reflexivity|]. vm_compute in E. discriminate E.
Defined.

Lemma detours_only_assign_queries_witness :
  c_state after_crossing = absolute_toa \/ exists q, q ∈ ["state=mine"; "state=theirs"]
    /\ c_state after_crossing = assign_query q absolute_toa.
Proof.
  exact (proj1 (detours_only_assign_queries noon absolute_toa [detour_to "mine"; detour_to "theirs"]
                  after_crossing after_crossing_reached)).
Defined.

Lemma detours_share_a_state_witness :
  exists c, rtc step crossing c
    /\ c_procs c = map (fun d' => Return (d', Ok (url_String
                           (with_RawQuery "state=theirs" (t_CallbackURL absolute_toa)))))
                     [detour_to "mine"; detour_to "theirs"].
Proof.
  destruct (detours_share_a_state noon absolute_toa [detour_to "mine"] ["mine"] (detour_to "theirs") "theirs" eq_refl)
    as (c & Hc & Hp & _).
  - repeat constructor.
  - exists c. exact (conj Hc Hp).
Defined.

(** ** Headers of groups *)

#[local] Existing Instance literal_floats.
#[local] Instance nothing_wide_prints : Printable := { IsPrint _ := false }.

(** A template engine for the one template of the examples. *)
#[local] Instance groups_template : HeaderTemplates := {|
  tpl_Parse _ := Ok tt;
  tpl_Execute _ ev := (mapToJsonArray (VClaim (default JNull (ev_claims ev !! "groups"))), None) |}.

Definition groups_header : HeaderConfig := {|
  h_Name := "X-Groups"; h_Value := ""; h_Values := "{{ .claims.groups | mapToJsonArray }}";
  h_IncludeWhen := "Always"; h_Template := None |}.

Definition groups_context (groups : list string) : eval_context := {|
  ev_claims := {["groups" := JArr (map JStr groups)]}; ev_accessToken := ""; ev_idToken := "";
  ev_refreshToken := "" |}.

Definition attached (groups : list string) : option (list string) :=
  match attach_one (groups_context groups) groups_header {["X-Groups" := ["forged"]]} with
  | Ok h => h !! "X-Groups"
  | Err _ => None
  end.

Example groups_attached : attached ["admins"; js "a 'b' <c>"] = Some ["admins"; js "a 'b' <c>"].
Proof. vm_compute. reflexivity. Qed.

(** One name with an apostrophe takes all groups away. *)
Example groups_lost : attached ["admins"; "o'brien"] = None.
Proof. vm_compute. reflexivity. Qed.

Example prefixed :
  mapToJsonArray (withSuffix ":s" (withPrefix "p:" (VClaim (JArr [JStr "x"; JNum "1"; JNull]))))
  = js "['p:x:s','p:1:s','p:\u003Cnil\u003E:s']".
Proof. vm_compute. reflexivity. Qed.

Lemma mapToJsonArray_unmarshal_witness :
  unmarshal_strings (mapToJsonArray (VClaim (JArr [JStr "admins"; JStr "o'brien"]))) = ([], Some bad_escape).
Proof.
  refine (proj1 (mapToJsonArray_unmarshal (VClaim (JArr [JStr "admins"; JStr "o'brien"]))
                   (groups_context ["admins"; "o'brien"]) groups_header
                   "{{ .claims.groups | mapToJsonArray }}" ∅ _ eq_refl _ eq_refl _)).
  - repeat constructor.
  - discriminate.
  - vm_compute. reflexivity.
Defined.
